(** * NTAG424 SDM codec: a shallow embedding of the JavaScript sources

    The development follows the layout of the library:
    - [JS]            the fragment of JavaScript values the codec inspects
    - [Buf]           Node [Buffer] operations (hex, slices, big-endian integers)
    - [Err], [Eff]    the error taxonomy and an exception/trace monad
    - [SDMConfig]     the profile registry (sdm-config.js)
    - [Crypto]        the interface of the external primitives (node crypto,
                      node-aes-cmac, the WHATWG URL parser)
    - [KeyDerivation], [AES], [CMAC], [DataParser]
    - [Encoder], [LegacyEncoder]   the two copies of encoder.js
    - [Decoder], [LegacyDecoder]   the two copies of decoder.js

    Strings are Rocq strings, read as the UTF-8 encoding of the JavaScript
    string; buffers are lists of [Byte.byte]. *)

From Stdlib Require Import ZArith NArith List String Ascii Bool Lia.
From Stdlib.Strings Require Import Byte.
Import ListNotations.

Local Open Scope string_scope.
Local Open Scope Z_scope.
Local Open Scope list_scope.

Infix "+++" := String.append (right associativity, at level 60).

Definition bytes := list byte.

(* ------------------------------------------------------------------ *)
(** ** JavaScript values *)

Module JS.

(** A JavaScript number, as far as the codec looks at it: an integral
    double, a finite fraction [num/den], NaN or an infinity. *)
Inductive jsnum :=
| NInt (z : Z)
| NFrac (num : Z) (den : positive)
| NNaN
| NInf (negative : bool).

#[warnings="-register-all"] Inductive jsval :=
| VUndefined
| VNull
| VBool (b : bool)
| VNum (n : jsnum)
| VStr (s : string)
| VBuf (b : bytes)
| VObj (fields : list (string * jsval)).

Inductive jstype := TUndefined | TObject | TBoolean | TNumber | TString.

Definition typeof (v : jsval) : jstype :=
  match v with
  | VUndefined => TUndefined
  | VNull => TObject
  | VBool _ => TBoolean
  | VNum _ => TNumber
  | VStr _ => TString
  | VBuf _ => TObject
  | VObj _ => TObject
  end.

Definition is_string (v : jsval) : bool :=
  match v with VStr _ => true | _ => false end.

(** [Number.isInteger] *)
Definition isInteger (n : jsnum) : bool :=
  match n with
  | NInt _ => true
  | NFrac num den => (num mod Z.pos den =? 0)
  | NNaN => false
  | NInf _ => false
  end.

(** The value of an integral number. *)
Definition int_value (n : jsnum) : Z :=
  match n with
  | NInt z => z
  | NFrac num den => num / Z.pos den
  | _ => 0
  end.

Definition num_truthy (n : jsnum) : bool :=
  match n with
  | NInt z => negb (z =? 0)
  | NFrac num _ => negb (num =? 0)
  | NNaN => false
  | NInf _ => true
  end.

(** ToBoolean *)
Definition truthy (v : jsval) : bool :=
  match v with
  | VUndefined => false
  | VNull => false
  | VBool b => b
  | VNum n => num_truthy n
  | VStr s => negb (String.eqb s EmptyString)
  | VBuf _ => true
  | VObj _ => true
  end.

Fixpoint assoc (k : string) (fs : list (string * jsval)) : jsval :=
  match fs with
  | [] => VUndefined
  | (k', v) :: rest => if String.eqb k k' then v else assoc k rest
  end.

(** [v.k] on a non-null value. *)
Definition get (v : jsval) (k : string) : jsval :=
  match v with
  | VObj fs => assoc k fs
  | _ => VUndefined
  end.

(** [a || b] *)
Definition or_else (a b : jsval) : jsval := if truthy a then a else b.

(** [typeof v] as printed in messages. *)
Definition typeof_name (v : jsval) : string :=
  match typeof v with
  | TUndefined => "undefined"
  | TObject => "object"
  | TBoolean => "boolean"
  | TNumber => "number"
  | TString => "string"
  end.

(** [haystack.includes(needle)] *)
Fixpoint includes (needle haystack : string) : bool :=
  if String.prefix needle haystack then true
  else match haystack with
       | EmptyString => false
       | String _ rest => includes needle rest
       end.

(** [input.includes('://')] *)
Definition contains_scheme (s : string) : bool := includes "://" s.

(** Property names every object literal inherits from [Object.prototype]. *)
Definition object_prototype_keys : list string :=
  [ "constructor"; "__defineGetter__"; "__defineSetter__"; "hasOwnProperty";
    "__lookupGetter__"; "__lookupSetter__"; "isPrototypeOf";
    "propertyIsEnumerable"; "toString"; "valueOf"; "__proto__";
    "toLocaleString" ].

Definition inherited (k : string) : bool :=
  existsb (String.eqb k) object_prototype_keys.

(** [s.startsWith(prefix)] *)
Definition startsWith (s prefix : string) : bool := String.prefix prefix s.

End JS.
Import JS.

(* ------------------------------------------------------------------ *)
(** ** Buffers *)

Module Buf.

Definition byte_of_N (n : N) : byte :=
  match Byte.of_N (n mod 256) with
  | Some b => b
  | None => x00
  end.

Definition byte_of_Z (z : Z) : byte := byte_of_N (Z.to_N (z mod 256)).

Definition Z_of_byte (b : byte) : Z := Z.of_N (Byte.to_N b).

Definition len {A} (l : list A) : Z := Z.of_nat (List.length l).

(** [Buffer.alloc(n, 0)] for [n >= 0]. *)
Definition alloc (n : Z) : bytes := repeat x00 (Z.to_nat n).

(** [buf.slice(start, end)]: negative indices count from the end and
    both bounds are clamped to the buffer. *)
Definition clamp (l i : Z) : Z :=
  if i <? 0 then Z.max (l + i) 0 else Z.min i l.

Definition slice (b : bytes) (s e : Z) : bytes :=
  let s' := clamp (len b) s in
  let e' := clamp (len b) e in
  if e' <=? s' then []
  else firstn (Z.to_nat (e' - s')) (skipn (Z.to_nat s') b).

(** [buf.slice(start)] *)
Definition slice_from (b : bytes) (s : Z) : bytes := slice b s (len b).

(** [buf[i] = v]; an index outside the buffer leaves the bytes unchanged. *)
Fixpoint set_nth (b : bytes) (i : nat) (v : byte) : bytes :=
  match b, i with
  | [], _ => []
  | _ :: t, O => v :: t
  | h :: t, S i' => h :: set_nth t i' v
  end.

Definition set (b : bytes) (i : Z) (v : byte) : bytes :=
  if i <? 0 then b else set_nth b (Z.to_nat i) v.

(** [for (i = 0; i < n; i++) dst[start + i] = src[i]] *)
Fixpoint write_loop (dst : bytes) (start : Z) (src : bytes) (i : Z) (n : nat) : bytes :=
  match n with
  | O => dst
  | S n' =>
      let dst' := set dst (start + i) (nth (Z.to_nat i) src x00) in
      write_loop dst' start src (i + 1) n'
  end.

(** [src.copy(dst, 0)]: as many bytes as fit. *)
Definition copy_into (dst src : bytes) : bytes :=
  firstn (List.length dst) src ++ skipn (List.length src) dst.

(** [buf.readUIntBE(0, n)] for [n] bytes available. *)
Definition readUIntBE (b : bytes) : Z :=
  fold_left (fun acc x => acc * 256 + Z_of_byte x) b 0.

(** [buf.writeUIntBE(v, 0, 3)] into a fresh 3-byte buffer. *)
Definition writeUIntBE3 (v : Z) : bytes :=
  [ byte_of_Z (v / 65536); byte_of_Z (v / 256); byte_of_Z v ].

(* Hexadecimal *)

Definition hex_digit (n : N) : ascii :=
  match n with
  | 0%N => "0" | 1%N => "1" | 2%N => "2" | 3%N => "3"
  | 4%N => "4" | 5%N => "5" | 6%N => "6" | 7%N => "7"
  | 8%N => "8" | 9%N => "9" | 10%N => "a" | 11%N => "b"
  | 12%N => "c" | 13%N => "d" | 14%N => "e" | _ => "f"
  end%char.

Definition hex_value (c : ascii) : option N :=
  let n := N_of_ascii c in
  if ((48 <=? n) && (n <=? 57))%N then Some (n - 48)%N
  else if ((97 <=? n) && (n <=? 102))%N then Some (n - 87)%N
  else if ((65 <=? n) && (n <=? 70))%N then Some (n - 55)%N
  else None.

Definition is_hex_char (c : ascii) : bool :=
  match hex_value c with Some _ => true | None => false end.

Fixpoint all_hex (s : string) : bool :=
  match s with
  | EmptyString => true
  | String c rest => is_hex_char c && all_hex rest
  end.

(** [/^[0-9A-Fa-f]+$/.test(s)] *)
Definition hex_regex (s : string) : bool :=
  negb (String.eqb s EmptyString) && all_hex s.

(** [buf.toString('hex')] *)
Fixpoint toString_hex (b : bytes) : string :=
  match b with
  | [] => EmptyString
  | x :: rest =>
      String (hex_digit (Byte.to_N x / 16))
        (String (hex_digit (Byte.to_N x mod 16)) (toString_hex rest))
  end.

Definition upper_char (c : ascii) : ascii :=
  let n := N_of_ascii c in
  if ((97 <=? n) && (n <=? 122))%N then ascii_of_N (n - 32) else c.

(** [s.toUpperCase()] on the ASCII range. *)
Fixpoint toUpperCase (s : string) : string :=
  match s with
  | EmptyString => EmptyString
  | String c rest => String (upper_char c) (toUpperCase rest)
  end.

Definition hex_pair (a b : ascii) : option byte :=
  match hex_value a, hex_value b with
  | Some h, Some l => Some (byte_of_N (16 * h + l))
  | _, _ => None
  end.

(** [Buffer.from(s, 'hex')]: decoding stops at the first pair that is
    not hexadecimal; a trailing single character is dropped. *)
Fixpoint from_hex (s : string) : bytes :=
  match s with
  | String a (String b rest) =>
      match hex_pair a b with
      | Some x => x :: from_hex rest
      | None => []
      end
  | _ => []
  end.

(** [Buffer.from(s, 'utf8')] and [buf.toString('utf8')] under the
    reading of strings as their UTF-8 encoding. *)
Definition from_utf8 (s : string) : bytes := list_byte_of_string s.
Definition toString_utf8 (b : bytes) : string := string_of_list_byte b.

(** [s.replace(/\0+$/, '')] *)
Fixpoint strip_trailing_nul (s : string) : string :=
  match s with
  | EmptyString => EmptyString
  | String c rest =>
      match strip_trailing_nul rest with
      | EmptyString => if Ascii.eqb c zero then EmptyString else String c EmptyString
      | r => String c r
      end
  end.

Definition eqb (a b : bytes) : bool :=
  if list_eq_dec Byte.byte_eq_dec a b then true else false.

(** [/^[0-9A-F]+$/.test(s)] *)
Definition is_upper_hex_char (c : ascii) : bool :=
  let n := N_of_ascii c in
  (((48 <=? n) && (n <=? 57)) || ((65 <=? n) && (n <=? 70)))%N.

Fixpoint all_upper_hex (s : string) : bool :=
  match s with
  | EmptyString => true
  | String c rest => is_upper_hex_char c && all_upper_hex rest
  end.

Definition upper_hex_regex (s : string) : bool :=
  negb (String.eqb s EmptyString) && all_upper_hex s.

End Buf.

(* ------------------------------------------------------------------ *)
(** ** Errors (error-types.js) *)

Module Err.

Inductive error_class :=
| PlainError
| TypeError
| RangeError
| ValidationError
| DecryptionError
| EncryptionError
| SDMProfileError
| SecurityError.

(** An exception object: its class, its [message] and the first detail the
    constructor records ([field], [step], [operation] or [threat]). *)
Record jserror := mkError {
  name : error_class;
  message : string;
  detail : string
}.

Definition class_eqb (a b : error_class) : bool :=
  match a, b with
  | PlainError, PlainError | TypeError, TypeError | RangeError, RangeError
  | ValidationError, ValidationError | DecryptionError, DecryptionError
  | EncryptionError, EncryptionError | SDMProfileError, SDMProfileError
  | SecurityError, SecurityError => true
  | _, _ => false
  end.

(** [e instanceof C] for the leaf classes the codec tests. *)
Definition instanceof (e : jserror) (c : error_class) : bool :=
  class_eqb (name e) c.

(** [error.name] *)
Definition class_name (c : error_class) : string :=
  match c with
  | PlainError => "Error"
  | TypeError => "TypeError"
  | RangeError => "RangeError"
  | ValidationError => "ValidationError"
  | DecryptionError => "DecryptionError"
  | EncryptionError => "EncryptionError"
  | SDMProfileError => "SDMProfileError"
  | SecurityError => "SecurityError"
  end.

(** [error.code] as the library's classes set it; the codes node attaches
    to its own errors are not modelled. *)
Definition code (e : jserror) : option string :=
  match name e with
  | ValidationError => Some "VALIDATION_ERROR"
  | DecryptionError => Some "DECRYPTION_ERROR"
  | EncryptionError => Some "ENCRYPTION_ERROR"
  | SDMProfileError => Some "SDM_PROFILE_ERROR"
  | SecurityError => Some "SECURITY_ERROR"
  | _ => None
  end.

Definition plain (msg : string) : jserror := mkError PlainError msg EmptyString.
Definition type_error (msg : string) : jserror := mkError TypeError msg EmptyString.

End Err.

(* ------------------------------------------------------------------ *)
(** ** Exceptions and the trace of calls into the primitives *)

Module Eff.

(** One entry per call that reaches an external cryptographic primitive. *)
Inductive event :=
| EvDerive (method : string) (masterKey uid counter : bytes)
| EvCipher (key data : bytes)
| EvDecipher (key data : bytes)
| EvCmac (key data : bytes).

(** A computation yields the trace of primitive calls it made and either
    the exception it threw or its value. *)
Definition M (A : Type) : Type := (list event * (Err.jserror + A))%type.

Definition ret {A} (a : A) : M A := ([], inr a).
Definition throw {A} (e : Err.jserror) : M A := ([], inl e).
Definition emit (ev : event) : M unit := ([ev], inr tt).

Definition bind {A B} (m : M A) (f : A -> M B) : M B :=
  match m with
  | (l, inl e) => (l, inl e)
  | (l, inr a) => let (l', r) := f a in (l ++ l', r)
  end.

(** [try { m } catch (error) { h error }] *)
Definition try_catch {A} (m : M A) (h : Err.jserror -> M A) : M A :=
  match m with
  | (l, inl e) => let (l', r) := h e in (l ++ l', r)
  | (l, inr a) => (l, inr a)
  end.

Definition trace {A} (m : M A) : list event := fst m.
Definition outcome {A} (m : M A) : Err.jserror + A := snd m.


End Eff.
Import Eff.

Notation "x <- c ;; k" := (Eff.bind c (fun x => k))
  (at level 61, c at next level, right associativity).
Notation "c ;;; k" := (Eff.bind c (fun _ => k))
  (at level 61, right associativity).

(* ------------------------------------------------------------------ *)
(** ** SDM profiles (sdm-config.js) *)

Module SDMConfig.

(** A profile object.  A layout field that the object does not define is
    [None]; arithmetic on it yields NaN, also [None]. *)
Record SDMProfile := mkProfile {
  name : option string;
  includeUID : bool;
  includeCounter : bool;
  includeFileData : bool;
  piccDataLength : option Z;
  uidOffset : option Z;
  uidLength : option Z;
  counterOffset : option Z;
  counterLength : option Z;
  encFileDataLength : option Z
}.

Definition uidOnly : SDMProfile :=
  mkProfile (Some "uidOnly") true false false (Some 16) (Some 1) (Some 7) None None None.

Definition counterOnly : SDMProfile :=
  mkProfile (Some "counterOnly") false true false (Some 16) None None (Some 1) (Some 3) None.

Definition uidCounter : SDMProfile :=
  mkProfile (Some "uidCounter") true true false (Some 16) (Some 1) (Some 7) (Some 8) (Some 3) None.

Definition full : SDMProfile :=
  mkProfile (Some "full") true true true (Some 16) (Some 1) (Some 7) (Some 8) (Some 3) (Some 16).

(** [static profiles = { ... }]: the own properties of the registry. *)
Definition profiles : list (string * SDMProfile) :=
  [ ("uidOnly", uidOnly); ("counterOnly", counterOnly);
    ("uidCounter", uidCounter); ("full", full) ].

Fixpoint lookup (k : string) (l : list (string * SDMProfile)) : option SDMProfile :=
  match l with
  | [] => None
  | (k', p) :: rest => if String.eqb k k' then Some p else lookup k rest
  end.

(** What [this.profiles[k]] yields for a key found on [Object.prototype]:
    a function or object, truthy, none of whose layout fields is defined.
    Its [name] is the function's name. *)
Definition inherited_member (k : string) : SDMProfile :=
  let nm := if String.eqb k "__proto__" then None
            else if String.eqb k "constructor" then Some "Object"
            else Some k in
  mkProfile nm false false false None None None None None None.

(** [x || d] on a layout number. *)
Definition or_default (x : option Z) (d : Z) : Z :=
  match x with
  | None => d
  | Some 0 => d
  | Some z => z
  end.

(** [a + b], NaN when an operand is undefined. *)
Definition add (a b : option Z) : option Z :=
  match a, b with
  | Some x, Some y => Some (x + y)
  | _, _ => None
  end.

(** Comparisons against a possibly-NaN number are false on NaN. *)
Definition ge (l : Z) (x : option Z) : bool :=
  match x with Some v => l >=? v | None => false end.
Definition gt (l : Z) (x : option Z) : bool :=
  match x with Some v => l >? v | None => false end.
Definition gt2 (a b : option Z) : bool :=
  match a, b with Some x, Some y => x >? y | _, _ => false end.
Definition lt2 (a b : option Z) : bool :=
  match a, b with Some x, Some y => x <? y | _, _ => false end.
Definition lt_const (a : option Z) (c : Z) : bool :=
  match a with Some x => x <? c | None => false end.

(** [`${profile.name}`] *)
Definition name_text (p : SDMProfile) : string :=
  match name p with Some s => s | None => "undefined" end.

(** The value handed around as "the profile": a profile name, a profile
    object (any truthy non-string value, seen through its profile fields),
    [null], or [undefined] (standing for every other falsy value). *)
Inductive profile_ref :=
| PName (s : string)
| PObj (p : SDMProfile)
| PNull
| PUndefined.

(** [SDMConfig.getProfile(profileName)] *)
Definition getProfile (profileName : jsval) : M SDMProfile :=
  match profileName with
  | VStr s =>
      if negb (truthy profileName) then ret uidCounter
      else
        match lookup s profiles with
        | Some p => ret p
        | None =>
            if inherited s then ret (inherited_member s)
            else throw (Err.mkError Err.SDMProfileError
                          ("Unknown SDM profile: " +++ s) "getProfile")
        end
  | _ => ret uidCounter
  end.

Fixpoint join (sep : string) (l : list string) : string :=
  match l with
  | [] => EmptyString
  | [x] => x
  | x :: rest => x +++ sep +++ join sep rest
  end.

Definition nullish (v : jsval) : bool :=
  match v with VUndefined | VNull => true | _ => false end.

Inductive operation := OpEncrypt | OpDecrypt.

Definition operation_name (o : operation) : string :=
  match o with OpEncrypt => "encrypt" | OpDecrypt => "decrypt" end.

Definition encrypt_errors (profile : SDMProfile) (data : jsval) : list string :=
  (if negb (nullish (JS.get data "fileData")) && negb (includeFileData profile)
   then ["Profile '" +++ name_text profile +++
         "' does not support file data encryption. Use 'full' profile instead."]
   else []) ++
  (if negb (truthy (JS.get data "uid")) && includeUID profile
   then ["Profile '" +++ name_text profile +++ "' requires UID but none provided"]
   else []) ++
  (if nullish (JS.get data "counter") && includeCounter profile
   then ["Profile '" +++ name_text profile +++ "' requires counter but none provided"]
   else []).

Definition decrypt_errors (profile : SDMProfile) (data : jsval) : list string :=
  (if truthy (JS.get data "enc") && negb (includeFileData profile)
   then ["Profile '" +++ name_text profile +++
         "' does not support encrypted file data. Use 'full' profile instead."]
   else []) ++
  (if negb (truthy (JS.get data "picc"))
   then ["PICC data is required for decryption"] else []) ++
  (if negb (truthy (JS.get data "cmac"))
   then ["CMAC data is required for decryption"] else []).

(** [SDMConfig.validateOperationWithProfile(operation, profile, data)] *)
Definition validateOperationWithProfile
  (op : operation) (profile : profile_ref) (data : jsval) : M bool :=
  resolved <- match profile with
              | PName s => p <- getProfile (VStr s) ;; ret (Some p)
              | PObj p => ret (Some p)
              | PNull | PUndefined => ret None
              end ;;
  match resolved with
  | None => throw (Err.mkError Err.SDMProfileError "Invalid SDM profile"
                     (operation_name op))
  | Some p =>
      let errors := match op with
                    | OpEncrypt => encrypt_errors p data
                    | OpDecrypt => decrypt_errors p data
                    end in
      if (0 <? Buf.len errors)
      then throw (Err.mkError Err.SDMProfileError
                    ("SDM profile validation failed: " +++ join ", " errors)
                    (operation_name op))
      else ret true
  end.

(** [SDMConfig.validateProfile(profile)]: the list of violated rules. *)
Definition validateProfile_errors (p : SDMProfile) : list string :=
  (match piccDataLength p with
   | Some l => if l <? 1 then ["piccDataLength must be a positive number"] else []
   | None => ["piccDataLength must be a positive number"]
   end) ++
  (if includeUID p then
     (match uidOffset p with
      | Some o => if o <? 0
                  then ["uidOffset must be a non-negative number when includeUID is true"]
                  else []
      | None => ["uidOffset must be a non-negative number when includeUID is true"]
      end) ++
     (match uidLength p with
      | Some l => if l <? 1
                  then ["uidLength must be a positive number when includeUID is true"]
                  else []
      | None => ["uidLength must be a positive number when includeUID is true"]
      end) ++
     (if gt2 (add (uidOffset p) (uidLength p)) (piccDataLength p)
      then ["UID data extends beyond PICC data length"] else [])
   else []) ++
  (if includeCounter p then
     (match counterOffset p with
      | Some o => if o <? 0
                  then ["counterOffset must be a non-negative number when includeCounter is true"]
                  else []
      | None => ["counterOffset must be a non-negative number when includeCounter is true"]
      end) ++
     (match counterLength p with
      | Some l => if l <? 1
                  then ["counterLength must be a positive number when includeCounter is true"]
                  else []
      | None => ["counterLength must be a positive number when includeCounter is true"]
      end) ++
     (if gt2 (add (counterOffset p) (counterLength p)) (piccDataLength p)
      then ["Counter data extends beyond PICC data length"] else [])
   else []) ++
  (if includeUID p && includeCounter p then
     let uidEnd := add (uidOffset p) (uidLength p) in
     let counterEnd := add (counterOffset p) (counterLength p) in
     if (lt2 (uidOffset p) (counterOffset p) && gt2 uidEnd (counterOffset p))
        || (lt2 (counterOffset p) (uidOffset p) && gt2 counterEnd (uidOffset p))
     then ["UID and counter data regions overlap"] else []
   else []) ++
  (if includeFileData p then
     match encFileDataLength p with
     | Some l => if l <? 1
                 then ["encFileDataLength must be a positive number when includeFileData is true"]
                 else []
     | None => ["encFileDataLength must be a positive number when includeFileData is true"]
     end
   else []).

Definition validateProfile (p : option SDMProfile) : bool * list string :=
  match p with
  | None => (false, ["Profile must be an object"])
  | Some p =>
      let errors := validateProfile_errors p in
      (Buf.len errors =? 0, errors)
  end.

(** [SDMConfig.getAvailableProfiles()] *)
Definition getAvailableProfiles : list string := map fst profiles.

(** [SDMConfig.suggestProfile(requirements)]; destructuring [null] or
    [undefined] throws a [TypeError]. *)
Definition suggestProfile (requirements : jsval) : M string :=
  match requirements with
  | VUndefined =>
      throw (Err.type_error
               "Cannot destructure property 'needsUID' of 'requirements' as it is undefined.")
  | VNull =>
      throw (Err.type_error
               "Cannot destructure property 'needsUID' of 'requirements' as it is null.")
  | _ =>
      let needsUID := JS.get requirements "needsUID" in
      let needsCounter := JS.get requirements "needsCounter" in
      let needsFileData := JS.get requirements "needsFileData" in
      if truthy needsFileData then ret "full"
      else if truthy needsUID && truthy needsCounter then ret "uidCounter"
      else if truthy needsUID then ret "uidOnly"
      else if truthy needsCounter then ret "counterOnly"
      else ret "uidCounter"
  end.

(** The [config] argument of [createCustomProfile], seen through the
    members of a profile; a member the object does not define is [None]. *)
Record ProfileConfig := mkConfig {
  cfg_name : option string;
  cfg_includeUID : option bool;
  cfg_includeCounter : option bool;
  cfg_includeFileData : option bool;
  cfg_piccDataLength : option Z;
  cfg_uidOffset : option Z;
  cfg_uidLength : option Z;
  cfg_counterOffset : option Z;
  cfg_counterLength : option Z;
  cfg_encFileDataLength : option Z
}.

(** A member of [{ k: config.k || d, ...config }]: the spread puts back
    whatever [config] defines, so the default [d] stays only where
    [config] has no such member. *)
Definition spread {A} (member : option A) (d : A) : A :=
  match member with Some v => v | None => d end.

(** [SDMConfig.createCustomProfile(config)] *)
Definition createCustomProfile (config : ProfileConfig) : M SDMProfile :=
  let profile :=
    mkProfile (Some (spread (cfg_name config) "custom"))
      (spread (cfg_includeUID config) false)
      (spread (cfg_includeCounter config) false)
      (spread (cfg_includeFileData config) false)
      (Some (spread (cfg_piccDataLength config) 16))
      (Some (spread (cfg_uidOffset config) 1))
      (Some (spread (cfg_uidLength config) 7))
      (Some (spread (cfg_counterOffset config) 8))
      (Some (spread (cfg_counterLength config) 3))
      (Some (spread (cfg_encFileDataLength config) 16)) in
  let validation := validateProfile (Some profile) in
  if negb (fst validation)
  then throw (Err.mkError Err.SDMProfileError
                ("Invalid custom SDM profile: " +++ join ", " (snd validation))
                "createCustomProfile")
  else ret profile.

End SDMConfig.

(* ------------------------------------------------------------------ *)
(** ** The external primitives

    The codec calls node's [crypto] module, [node-aes-cmac] and the WHATWG
    URL parser; none of them belongs to the repository.  They enter the
    model through this interface. *)

Class Crypto := {
  (** [createCipheriv('aes-128-cbc', key, iv)] with automatic padding,
      [update(data)] followed by [final()], for a 16-byte key and iv. *)
  aes128_cbc_encrypt : bytes -> bytes -> bytes -> bytes;
  (** [createDecipheriv] likewise; [None] when [final()] throws. *)
  aes128_cbc_decrypt : bytes -> bytes -> bytes -> option bytes;
  (** The MAC that [aesCmac(key, data)] of node-aes-cmac computes. *)
  aesCmac : bytes -> bytes -> bytes;
  (** [crypto.hkdfSync('sha256', ikm, salt, info, keylen)] *)
  hkdfSync : bytes -> bytes -> bytes -> nat -> bytes;
  (** [crypto.pbkdf2Sync(password, salt, iterations, keylen, 'sha256')] *)
  pbkdf2Sync : bytes -> bytes -> Z -> nat -> bytes;
  (** [crypto.createHash('sha256').update(data).digest()] *)
  sha256 : bytes -> bytes;
  (** [new URL(url).searchParams.get]; [None] when the constructor throws. *)
  url_searchParams : string -> option (string -> option string);
  (** [new URLSearchParams(queryString).get] *)
  query_searchParams : string -> string -> option string
}.

(** What the codec relies on from the primitives. *)
Class CryptoSpec (C : Crypto) : Prop := {
  cbc_roundtrip : forall k iv m,
    List.length k = 16%nat -> List.length iv = 16%nat ->
    aes128_cbc_decrypt k iv (aes128_cbc_encrypt k iv m) = Some m;
  cbc_length : forall k iv m,
    List.length (aes128_cbc_encrypt k iv m)
    = (16 * (List.length m / 16 + 1))%nat;
  cmac_length : forall k d, List.length (aesCmac k d) = 16%nat;
  hkdf_length : forall ikm salt info n, List.length (hkdfSync ikm salt info n) = n;
  pbkdf2_length : forall pw salt it n, List.length (pbkdf2Sync pw salt it n) = n;
  sha256_length : forall d, List.length (sha256 d) = 32%nat
}.

Definition openssl_bad_decrypt : string :=
  "error:1C800064:Provider routines::bad decrypt".

Record SessionKeys := mkKeys {
  encKey : bytes;
  macKey : bytes;
  method : string
}.

(* ------------------------------------------------------------------ *)
(** ** key-derivation.js, with the default options *)

Module KeyDerivation.
Section WithCrypto.
Context {C : Crypto}.

Definition encLabel : bytes := Buf.from_hex "3CC300010080".
Definition macLabel : bytes := Buf.from_hex "3CC300010081".

(** [buildSV1] / [buildSV2]: label, then the UID, then the counter, each
    cut to the room left, in a zero-filled buffer of [svLength = 32]. *)
Definition buildSV (label uid readCounter : bytes) : bytes :=
  let sv := Buf.alloc 32 in
  let sv := Buf.copy_into sv label in
  let offset := List.length label in
  let copyLength := Nat.min (List.length uid) (32 - offset) in
  let sv := firstn offset sv ++ firstn copyLength uid ++ skipn (offset + copyLength) sv in
  let offset := (offset + (if (0 <? List.length uid)%nat then copyLength else 0))%nat in
  let copyLength := Nat.min (List.length readCounter) (32 - offset) in
  firstn offset sv ++ firstn copyLength readCounter ++ skipn (offset + copyLength) sv.

Definition buildSV1 := buildSV encLabel.
Definition buildSV2 := buildSV macLabel.

(** [aesCmac(key, data)] as node-aes-cmac returns it: the MAC as
    lower-case hex text.  [Buffer.from(text)] then takes the characters
    of the text, not the bytes it spells. *)
Definition aesCmac_text (key data : bytes) : string :=
  Buf.toString_hex (aesCmac key data).

Definition ntag424Official (masterKey uid readCounter : bytes) : M SessionKeys :=
  if negb (List.length masterKey =? 16)%nat
  then throw (Err.mkError Err.ValidationError
                "Master key must be a 16-byte Buffer" "masterKey")
  else
    let sv1 := buildSV1 uid readCounter in
    let sv2 := buildSV2 uid readCounter in
    let cmac1 := aesCmac_text masterKey sv1 in
    let cmac2 := aesCmac_text masterKey sv2 in
    ret (mkKeys (Buf.slice (Buf.from_utf8 cmac1) 0 16)
           (Buf.slice (Buf.from_utf8 cmac2) 0 16) "ntag424-official").

Definition hkdf (masterKey uid readCounter : bytes) : M SessionKeys :=
  let inputSalt := uid ++ readCounter in
  let infoBuffer := Buf.from_utf8 "NTAG424-SESSION-KEYS" in
  let derivedKeys := hkdfSync masterKey inputSalt infoBuffer 32 in
  ret (mkKeys (Buf.slice derivedKeys 0 16) (Buf.slice_from derivedKeys 16) "hkdf").

Definition pbkdf2 (masterKey uid readCounter : bytes) : M SessionKeys :=
  let iterations := 10000 in
  if iterations <? 1000
  then throw (Err.mkError Err.ValidationError
                "Iterations must be at least 1000 for security" "iterations")
  else
    let salt := Buf.from_utf8 "NTAG424" ++ uid ++ readCounter in
    let derivedKeys := pbkdf2Sync masterKey salt iterations 32 in
    ret (mkKeys (Buf.slice derivedKeys 0 16) (Buf.slice_from derivedKeys 16) "pbkdf2").

Definition simpleHash (masterKey uid readCounter : bytes) : M SessionKeys :=
  let encSeed := masterKey ++ uid ++ readCounter ++ Buf.from_utf8 "ENC" in
  let macSeed := masterKey ++ uid ++ readCounter ++ Buf.from_utf8 "MAC" in
  let encHash := sha256 encSeed in
  let macHash := sha256 macSeed in
  ret (mkKeys (Buf.slice encHash 0 16) (Buf.slice macHash 0 16) "simple-hash").

(** The table [derivationMethods] of the encoder and the decoder. *)
Definition derivationMethods (m : string)
  : option (bytes -> bytes -> bytes -> M SessionKeys) :=
  if String.eqb m "ntag424Official" then Some ntag424Official
  else if String.eqb m "hkdf" then Some hkdf
  else if String.eqb m "pbkdf2" then Some pbkdf2
  else if String.eqb m "simpleHash" then Some simpleHash
  else None.

End WithCrypto.
End KeyDerivation.

(* ------------------------------------------------------------------ *)
(** ** aes.js *)

Module AES.
Section WithCrypto.
Context {C : Crypto}.

Definition zeroIV : bytes := Buf.alloc 16.

(** [AES.cbcEncrypt(key, data)] with the default zero IV. *)
Definition cbcEncrypt (key data : bytes) : M bytes :=
  if negb (List.length key =? 16)%nat
  then throw (Err.mkError Err.ValidationError "Key must be a 16-byte Buffer" "key")
  else
    emit (EvCipher key data) ;;;
    ret (aes128_cbc_encrypt key zeroIV data).

(** [AES.cbcDecrypt(key, data)] with the default zero IV. *)
Definition cbcDecrypt (key data : bytes) : M bytes :=
  if negb (List.length key =? 16)%nat
  then throw (Err.mkError Err.ValidationError "Key must be a 16-byte Buffer" "key")
  else if (List.length data =? 0)%nat
  then throw (Err.mkError Err.ValidationError "Data cannot be empty" "data")
  else if negb (List.length data mod 16 =? 0)%nat
  then throw (Err.mkError Err.ValidationError
                "Data length must be multiple of 16 bytes" "data")
  else
    emit (EvDecipher key data) ;;;
    match aes128_cbc_decrypt key zeroIV data with
    | Some m => ret m
    | None => throw (Err.mkError Err.SecurityError
                       ("AES CBC decryption failed: " +++ openssl_bad_decrypt)
                       "DECRYPTION_FAILURE")
    end.

End WithCrypto.
End AES.

(* ------------------------------------------------------------------ *)
(** ** cmac.js and the comparison of secure-memory.js *)

Module MemoryManager.

(** [MemoryManager.timingSafeEqual(a, b)] *)
Definition timingSafeEqual (a b : bytes) : bool :=
  if negb (List.length a =? List.length b)%nat then false
  else Buf.eqb a b.

End MemoryManager.

Module CMAC.
Section WithCrypto.
Context {C : Crypto}.

(** [CMAC.calculate(key, data)] *)
Definition calculate (key data : bytes) : M bytes :=
  if negb (List.length key =? 16)%nat
  then throw (Err.mkError Err.ValidationError "Key must be a 16-byte Buffer" "key")
  else
    emit (EvCmac key data) ;;;
    ret (aesCmac key data).

(** [CMAC.verify(key, data, expectedMac)]; every failure is [false]. *)
Definition verify (key data expectedMac : bytes) : M bool :=
  try_catch
    (if negb (List.length key =? 16)%nat then ret false
     else
       calculatedMac <- calculate key data ;;
       let truncatedMac := Buf.slice calculatedMac 0 (Buf.len expectedMac) in
       if negb (List.length truncatedMac =? List.length expectedMac)%nat
       then ret false
       else ret (MemoryManager.timingSafeEqual truncatedMac expectedMac))
    (fun _ => ret false).

Record VerifyDetail := mkVerifyDetail {
  isValid : bool;
  calculatedMac : string;
  expectedMacText : string;
  truncatedMac : string;
  lengthMatch : bool
}.

(** [CMAC.verifyDetailed(key, data, expectedMac)] *)
Definition verifyDetailed (key data expectedMac : bytes) : M VerifyDetail :=
  try_catch
    (if negb (List.length key =? 16)%nat
     then throw (Err.mkError Err.ValidationError "Key must be a 16-byte Buffer" "key")
     else
       calculated <- calculate key data ;;
       let truncated := Buf.slice calculated 0 (Buf.len expectedMac) in
       let valid := MemoryManager.timingSafeEqual truncated expectedMac in
       ret (mkVerifyDetail valid
              (Buf.toUpperCase (Buf.toString_hex calculated))
              (Buf.toUpperCase (Buf.toString_hex expectedMac))
              (Buf.toUpperCase (Buf.toString_hex truncated))
              (List.length truncated =? List.length expectedMac)%nat))
    (fun error =>
       if Err.instanceof error Err.ValidationError then throw error
       else throw (Err.mkError Err.SecurityError
                     ("CMAC detailed verification failed: " +++ Err.message error)
                     "CMAC_VERIFICATION_FAILURE")).

End WithCrypto.
End CMAC.

(* ------------------------------------------------------------------ *)
(** ** data-parser.js *)

Record PiccInfo := mkPiccInfo {
  dataTag : option byte;
  uid : option bytes;
  readCounter : option bytes;
  readCounterInt : option Z;
  padding : option bytes;
  raw : bytes
}.

Module DataParser.
Section WithCrypto.
Context {C : Crypto}.

(** [legacy] selects the older copy of the file, which throws plain
    [Error]s and wraps every failure; the newer copy throws
    [ValidationError]s and lets them through. *)
Variable legacy : bool.

Definition of_param (o : option string) : jsval :=
  match o with Some s => VStr s | None => VNull end.

Definition fields_of (get : string -> option string) (withEncdata : bool) : list (string * jsval) :=
  [ ("picc", or_else (of_param (get "picc_data"))
               (or_else (of_param (get "picc")) (of_param (get "uid"))));
    ("enc", if withEncdata
            then or_else (of_param (get "enc"))
                   (or_else (of_param (get "enc_data")) (of_param (get "encdata")))
            else or_else (of_param (get "enc")) (of_param (get "enc_data")));
    ("cmac", or_else (of_param (get "cmac")) (of_param (get "mac")));
    ("counter", or_else (of_param (get "ctr")) (of_param (get "counter"))) ].

Definition fail (msg detail : string) : Err.jserror :=
  if legacy then Err.plain msg else Err.mkError Err.ValidationError msg detail.

(** [DataParser.parseURL(url)]; the [originalUrl] and [baseUrl] members of
    the result are left out, nothing reads them. *)
Definition parseURL (url : jsval) : M jsval :=
  try_catch
    (match url with
     | VStr s =>
         if negb (truthy url)
         then throw (fail "URL must be a non-empty string" "url")
         else match url_searchParams s with
              | None => throw (Err.type_error "Invalid URL")
              | Some params => ret (VObj (fields_of params true))
              end
     | _ => throw (fail "URL must be a non-empty string" "url")
     end)
    (fun error =>
       if negb legacy && Err.instanceof error Err.ValidationError then throw error
       else throw (fail ("Invalid URL format: " +++ Err.message error) "url")).

(** [DataParser.parseQueryString(queryString)] *)
Definition parseQueryString (queryString : jsval) : M jsval :=
  try_catch
    (match queryString with
     | VStr s =>
         if negb (truthy queryString)
         then throw (fail "Query string must be a non-empty string" "queryString")
         else ret (VObj (fields_of (query_searchParams s) false))
     | _ => throw (fail "Query string must be a non-empty string" "queryString")
     end)
    (fun error =>
       if negb legacy && Err.instanceof error Err.ValidationError then throw error
       else throw (fail ("Invalid query string format: " +++ Err.message error)
                     "queryString")).

(** [DataParser.validateHexString(hexString)] *)
Definition validateHexString (hexString : jsval) : bool :=
  match hexString with
  | VStr s => if negb (truthy hexString) then false else Buf.hex_regex s
  | _ => false
  end.

(** [DataParser.hexToBuffer(hexString, fieldName)] *)
Definition hexToBuffer (hexString : jsval) (fieldName : string) : M bytes :=
  try_catch
    (match hexString with
     | VStr s =>
         if negb (truthy hexString)
         then throw (fail (fieldName +++ " must be a non-empty string") fieldName)
         else if negb (validateHexString hexString)
         then throw (fail (fieldName +++ " contains invalid hex characters") fieldName)
         else if negb (String.length s mod 2 =? 0)%nat
         then throw (fail (fieldName +++ " hex string must have even length") fieldName)
         else ret (Buf.from_hex s)
     | _ => throw (fail (fieldName +++ " must be a non-empty string") fieldName)
     end)
    (fun error =>
       if negb legacy && Err.instanceof error Err.ValidationError then throw error
       else throw (fail ("Failed to convert " +++ fieldName +++ " to Buffer: "
                         +++ Err.message error) fieldName)).

(** The integer read from the counter bytes. *)
Definition counter_int (rc : bytes) : Z :=
  if (3 <=? List.length rc)%nat then Buf.readUIntBE (firstn 3 rc)
  else if (List.length rc =? 2)%nat then Buf.readUIntBE rc
  else if (List.length rc =? 1)%nat then Buf.Z_of_byte (nth 0 rc x00)
  else 0.

Definition region (decryptedPicc : bytes) (off ln : option Z) : option bytes :=
  if SDMConfig.ge (Buf.len decryptedPicc) (SDMConfig.add off ln)
  then match off, ln with
       | Some o, Some l => Some (Buf.slice decryptedPicc o (o + l))
       | _, _ => None
       end
  else None.

(** [Math.max(a, b)], NaN when an argument is. *)
Definition max2 (a b : option Z) : option Z :=
  match a, b with Some x, Some y => Some (Z.max x y) | _, _ => None end.

(** [DataParser.extractPiccData(decryptedPicc, sdmConfig)] for a resolved
    configuration; [None] is a falsy one. *)
Definition extractPiccData (decryptedPicc : bytes) (sdmConfig : option SDMConfig.SDMProfile)
  : M PiccInfo :=
  try_catch
    (match sdmConfig with
     | None => throw (if legacy then Err.plain "Invalid SDM configuration"
                      else Err.mkError Err.ValidationError
                             "Invalid SDM configuration" "sdmConfig")
     | Some config =>
         let tag := match decryptedPicc with [] => None | b :: _ => Some b end in
         let u := if SDMConfig.includeUID config
                  then region decryptedPicc (SDMConfig.uidOffset config)
                         (SDMConfig.uidLength config)
                  else None in
         let rc := if SDMConfig.includeCounter config
                   then region decryptedPicc (SDMConfig.counterOffset config)
                          (SDMConfig.counterLength config)
                   else None in
         let rci := match rc with Some b => Some (counter_int b) | None => None end in
         let dataEnd :=
           max2 (if SDMConfig.includeUID config
                 then SDMConfig.add (SDMConfig.uidOffset config) (SDMConfig.uidLength config)
                 else Some 0)
                (if SDMConfig.includeCounter config
                 then SDMConfig.add (SDMConfig.counterOffset config)
                        (SDMConfig.counterLength config)
                 else Some 0) in
         let pad := match dataEnd with
                    | Some e => if Buf.len decryptedPicc >? e
                                then Some (Buf.slice_from decryptedPicc e) else None
                    | None => None
                    end in
         ret (mkPiccInfo tag u rc rci pad decryptedPicc)
     end)
    (fun error =>
       if legacy
       then throw (Err.plain ("PICC data extraction failed: " +++ Err.message error))
       else if Err.instanceof error Err.ValidationError then throw error
       else throw (Err.mkError Err.DecryptionError
                     ("PICC data extraction failed: " +++ Err.message error)
                     "extractPiccData")).

(** [DataParser.validateParsedData(data, { requirePicc: true,
    requireCmac: true, strictHex: true })] on an object. *)
Definition validateParsedData (data : jsval) : bool * list string :=
  let errors :=
    (if negb (truthy (JS.get data "picc")) then ["Missing PICC data"] else []) ++
    (if negb (truthy (JS.get data "cmac")) then ["Missing CMAC data"] else []) ++
    (if truthy (JS.get data "picc") && negb (validateHexString (JS.get data "picc"))
     then ["Invalid PICC hex format"] else []) ++
    (if truthy (JS.get data "cmac") && negb (validateHexString (JS.get data "cmac"))
     then ["Invalid CMAC hex format"] else []) ++
    (if truthy (JS.get data "enc") && negb (validateHexString (JS.get data "enc"))
     then ["Invalid ENC hex format"] else []) in
  (Buf.len errors =? 0, errors).

(** [DataParser.validateUID(uid)] *)
Definition validateUID (uid : jsval) : bool :=
  match uid with
  | VStr s =>
      if negb (truthy uid) then false
      else if negb (String.length s =? 14)%nat then false
      else if negb (validateHexString uid) then false
      else if negb (JS.startsWith (Buf.toUpperCase s) "04") then false
      else true
  | _ => false
  end.

(** [DataParser.validateCounter(counter)] *)
Definition validateCounter (counter : jsval) : bool :=
  match counter with
  | VNum n =>
      if negb (isInteger n) then false
      else if (int_value n <? 0) || (int_value n >? 16777215) then false
      else true
  | _ => false
  end.

End WithCrypto.
End DataParser.

(** [_isValidDecryption(decryptedPicc, piccInfo)], the same in both copies
    of decoder.js. *)
Definition _isValidDecryption (decryptedPicc : bytes) (piccInfo : PiccInfo) : bool :=
  if negb (match dataTag piccInfo with
           | Some t => Buf.Z_of_byte t =? 199
           | None => false
           end)
  then false
  else if Buf.len decryptedPicc <? 11 then false
  else if match uid piccInfo with
          | Some u => negb (match u with
                            | b :: _ => Buf.Z_of_byte b =? 4
                            | [] => false
                            end)
          | None => false
          end
  then false
  else if match readCounterInt piccInfo with
          | Some c => (c <? 0) || (c >? 16777215)
          | None => false
          end
  then false
  else true.

(** [_extractFileData(decryptedEnc)] *)
Definition _extractFileData (decryptedEnc : option bytes) : option string :=
  match decryptedEnc with
  | None => None
  | Some b =>
      let utf8String := Buf.strip_trailing_nul (Buf.toString_utf8 b) in
      if (0 <? String.length utf8String)%nat then Some utf8String else None
  end.

(* ------------------------------------------------------------------ *)
(** ** The result of [Encoder.encrypt] *)

Module Encoded.

Record originalData := mkOriginal {
  uid : string;
  scanCount : Z;
  masterKey : string;
  keyDerivationMethod : string;
  sdmProfile : option string;
  fileData : option string
}.

Record encryptedData := mkEncrypted {
  picc : string;
  cmac : string;
  enc : option string
}.

(** [metadata.timestamp] is wall-clock time and is left out. *)
Record metadata := mkMetadata {
  profileUsed : string;
  hasFileData : bool
}.

Record result := mkResult {
  original : originalData;
  encrypted : encryptedData;
  meta : option metadata
}.

(** The object [{ picc, cmac, enc? }] a caller hands to the decoder. *)
Definition to_input (r : result) : jsval :=
  VObj (("picc", VStr (picc (encrypted r))) ::
        ("cmac", VStr (cmac (encrypted r))) ::
        match enc (encrypted r) with
        | Some e => [("enc", VStr e)]
        | None => []
        end).

End Encoded.

(** The [options] argument of [Encoder.encrypt]; an absent member is [None]. *)
Record EncryptOptions := mkEncryptOptions {
  opt_keyDerivationMethod : option string;
  opt_sdmProfile : option SDMConfig.profile_ref
}.

Definition no_options : EncryptOptions := mkEncryptOptions None None.

(** Calling a member inherited from [Object.prototype] in place of a
    derivation function ends in a [TypeError]. *)
Definition inherited_call_message (k : string) : string :=
  if String.eqb k "__proto__" then "derivationFunction is not a function"
  else if String.eqb k "toString" || String.eqb k "constructor"
  then "The first argument must be of type string or an instance of Buffer, ArrayBuffer, or Array or an Array-like Object. Received undefined"
  else "Cannot convert undefined or null to object".

(** [Math.ceil(n / 16) * 16] *)
Definition paddedLength (n : nat) : nat := ((n + 15) / 16 * 16)%nat.

(** [value.toString()] of a string or a buffer. *)
Definition fileData_toString (v : jsval) : string :=
  match v with
  | VStr s => s
  | VBuf b => Buf.toString_utf8 b
  | _ => EmptyString
  end.

(* ------------------------------------------------------------------ *)
(** ** encoder.js, the copy with profile validation *)

Module Encoder.
Section WithCrypto.
Context {C : Crypto}.

Definition validation (msg field : string) : Err.jserror :=
  Err.mkError Err.ValidationError msg field.

Definition _validateAndConvertUID (uid : jsval) : M bytes :=
  match uid with
  | VBuf b =>
      if negb (List.length b =? 7)%nat
      then throw (validation "UID buffer must be exactly 7 bytes" "uid")
      else ret b
  | VStr s =>
      if negb (String.length s =? 14)%nat
      then throw (validation "UID hex string must be exactly 14 characters (7 bytes)" "uid")
      else if negb (Buf.hex_regex s)
      then throw (validation "UID contains invalid hex characters" "uid")
      else ret (Buf.from_hex s)
  | _ => throw (validation "UID must be a 7-byte Buffer or 14-character hex string" "uid")
  end.

Definition _numberToCounter (number : Z) : bytes := Buf.writeUIntBE3 number.

Definition _counterToNumber (buffer : bytes) : Z :=
  Buf.readUIntBE (firstn (Nat.min (List.length buffer) 3) buffer).

Definition _validateAndConvertCounter (scanCount : jsval) : M bytes :=
  match scanCount with
  | VBuf b =>
      if negb (List.length b =? 3)%nat
      then throw (validation "Counter buffer must be exactly 3 bytes" "scanCount")
      else ret b
  | VNum n =>
      if negb (isInteger n) || (int_value n <? 0) || (int_value n >? 16777215)
      then throw (validation
                    "Counter must be an integer between 0 and 16777215 (2^24 - 1)"
                    "scanCount")
      else ret (_numberToCounter (int_value n))
  | _ => throw (validation "Counter must be a number or 3-byte Buffer" "scanCount")
  end.

Definition _prepareFileData (fileData : jsval) : M bytes :=
  match fileData with
  | VBuf b =>
      let padded := paddedLength (List.length b) in
      if (List.length b =? padded)%nat then ret b
      else ret (Buf.copy_into (Buf.alloc (Z.of_nat padded)) b)
  | VStr s =>
      let dataBytes := Buf.from_utf8 s in
      let padded := paddedLength (List.length dataBytes) in
      ret (Buf.copy_into (Buf.alloc (Z.of_nat padded)) dataBytes)
  | _ => throw (validation "File data must be a string or Buffer" "fileData")
  end.

Definition _buildPiccData (uid counter : bytes) (profile : SDMConfig.SDMProfile) : M bytes :=
  try_catch
    (let size := SDMConfig.or_default (SDMConfig.piccDataLength profile) 16 in
     piccData <- (if size <? 0
                  then throw (Err.mkError Err.RangeError
                                "The value of 'size' is out of range." EmptyString)
                  else ret (Buf.alloc size)) ;;
     let piccData := Buf.set piccData 0 xc7 in
     piccData <-
       (if SDMConfig.includeUID profile then
          let uidStart := SDMConfig.or_default (SDMConfig.uidOffset profile) 1 in
          let uidLen := Z.min (Buf.len uid)
                          (SDMConfig.or_default (SDMConfig.uidLength profile) 7) in
          if uidStart + uidLen >? Buf.len piccData
          then throw (Err.mkError Err.EncryptionError
                        "UID data extends beyond PICC data length" "buildPiccData")
          else ret (Buf.write_loop piccData uidStart uid 0 (Z.to_nat uidLen))
        else ret piccData) ;;
     (if SDMConfig.includeCounter profile then
        let counterStart := SDMConfig.or_default (SDMConfig.counterOffset profile) 8 in
        let counterLen := Z.min (Buf.len counter)
                            (SDMConfig.or_default (SDMConfig.counterLength profile) 3) in
        if counterStart + counterLen >? Buf.len piccData
        then throw (Err.mkError Err.EncryptionError
                      "Counter data extends beyond PICC data length" "buildPiccData")
        else ret (Buf.write_loop piccData counterStart counter 0 (Z.to_nat counterLen))
      else ret piccData))
    (fun error =>
       throw (Err.mkError Err.EncryptionError
                ("PICC data building failed: " +++ Err.message error) "buildPiccData")).

Definition _deriveKeys (masterKey uid counter : bytes) (method : string) : M SessionKeys :=
  match KeyDerivation.derivationMethods method with
  | Some derivationFunction =>
      emit (EvDerive method masterKey uid counter) ;;;
      derivationFunction masterKey uid counter
  | None =>
      if inherited method
      then throw (Err.type_error (inherited_call_message method))
      else throw (Err.mkError Err.EncryptionError
                    ("Unknown key derivation method: " +++ method) "deriveKeys")
  end.

Definition resolve_profile (sdmProfile : SDMConfig.profile_ref)
  : M (option SDMConfig.SDMProfile) :=
  match sdmProfile with
  | SDMConfig.PName s => p <- SDMConfig.getProfile (VStr s) ;; ret (Some p)
  | SDMConfig.PObj p => ret (Some p)
  | SDMConfig.PNull | SDMConfig.PUndefined => ret None
  end.

Definition profile_label (p : SDMConfig.SDMProfile) : string :=
  match SDMConfig.name p with
  | Some s => if String.eqb s EmptyString then "custom" else s
  | None => "custom"
  end.

(** [Encoder.encrypt(masterKey, uid, scanCount, fileData, options)] *)
Definition encrypt (masterKey uid scanCount fileData : jsval) (options : EncryptOptions)
  : M Encoded.result :=
  let fileData := match fileData with VUndefined => VNull | v => v end in
  try_catch
    (let keyDerivationMethod :=
       match opt_keyDerivationMethod options with
       | Some m => m
       | None => "ntag424Official"
       end in
     let sdmProfile :=
       match opt_sdmProfile options with
       | Some p => p
       | None => SDMConfig.PName (if truthy fileData then "full" else "uidCounter")
       end in
     key <- match masterKey with
            | VStr s =>
                if negb (truthy masterKey) || negb (String.length s =? 32)%nat
                then throw (validation "Master key must be a 32-character hex string"
                              "masterKey")
                else if negb (Buf.hex_regex s)
                then throw (validation "Master key contains invalid hex characters"
                              "masterKey")
                else ret s
            | _ => throw (validation "Master key must be a 32-character hex string"
                            "masterKey")
            end ;;
     uidBuffer <- _validateAndConvertUID uid ;;
     counterBuffer <- _validateAndConvertCounter scanCount ;;
     resolved <- resolve_profile sdmProfile ;;
     match resolved with
     | None => throw (validation "Invalid SDM profile" "sdmProfile")
     | Some profile =>
         SDMConfig.validateOperationWithProfile SDMConfig.OpEncrypt (SDMConfig.PObj profile)
           (VObj [("uid", VBuf uidBuffer); ("counter", VBuf counterBuffer);
                  ("fileData", fileData)]) ;;;
         let masterKeyBuffer := Buf.copy_into (Buf.alloc 16) (Buf.from_hex key) in
         let zeroUID := Buf.alloc 7 in
         let zeroCounter := Buf.alloc 3 in
         piccData <- _buildPiccData uidBuffer counterBuffer profile ;;
         sessionKeys <- _deriveKeys masterKeyBuffer zeroUID zeroCounter keyDerivationMethod ;;
         encryptedPicc <- AES.cbcEncrypt (encKey sessionKeys) piccData ;;
         file <- (if truthy fileData then
                    if negb (SDMConfig.includeFileData profile)
                    then throw (validation
                                  ("Profile '" +++ SDMConfig.name_text profile +++
                                   "' does not support file data encryption. Use 'full' profile instead.")
                                  "sdmProfile")
                    else
                      fileBuffer <- _prepareFileData fileData ;;
                      encryptedFile <- AES.cbcEncrypt (encKey sessionKeys) fileBuffer ;;
                      ret (Some encryptedFile, encryptedPicc ++ encryptedFile)
                  else ret (None, encryptedPicc)) ;;
         let encryptedFile := fst file in
         let cmacData := snd file in
         mac <- CMAC.calculate (macKey sessionKeys) cmacData ;;
         let cmac := Buf.slice mac 0 8 in
         ret (Encoded.mkResult
                (Encoded.mkOriginal
                   (Buf.toUpperCase (Buf.toString_hex uidBuffer))
                   (_counterToNumber counterBuffer)
                   "[REDACTED]"
                   keyDerivationMethod
                   (Some (profile_label profile))
                   (if truthy fileData then Some (fileData_toString fileData) else None))
                (Encoded.mkEncrypted
                   (Buf.toUpperCase (Buf.toString_hex encryptedPicc))
                   (Buf.toUpperCase (Buf.toString_hex cmac))
                   (match encryptedFile with
                    | Some f => Some (Buf.toUpperCase (Buf.toString_hex f))
                    | None => None
                    end))
                (Some (Encoded.mkMetadata (profile_label profile) (truthy fileData))))
     end)
    (fun error =>
       if negb (Err.instanceof error Err.ValidationError
                || Err.instanceof error Err.EncryptionError)
       then throw (Err.mkError Err.EncryptionError
                     ("Encryption failed: " +++ Err.message error) "encrypt")
       else throw error).

(** [Encoder.generateMasterKey()], given the bytes that
    [crypto.randomBytes(16)] returned. *)
Definition generateMasterKey (keyBytes : bytes) : M string :=
  try_catch
    (let hexKey := Buf.toUpperCase (Buf.toString_hex keyBytes) in
     if negb (String.length hexKey =? 32)%nat || negb (Buf.upper_hex_regex hexKey)
     then throw (Err.mkError Err.EncryptionError
                   "Generated key validation failed" "generateMasterKey")
     else ret hexKey)
    (fun error =>
       throw (Err.mkError Err.EncryptionError
                ("Master key generation failed: " +++ Err.message error)
                "generateMasterKey")).

End WithCrypto.
End Encoder.

(* ------------------------------------------------------------------ *)
(** ** encoder.js, the older copy

    It throws plain [Error]s, does not consult the profile about file
    data, cuts file data to one block and echoes the master key. *)

Module LegacyEncoder.
Section WithCrypto.
Context {C : Crypto}.

Definition _validateAndConvertUID (uid : jsval) : M bytes :=
  match uid with
  | VBuf b =>
      if negb (List.length b =? 7)%nat
      then throw (Err.plain "UID buffer must be exactly 7 bytes")
      else ret b
  | VStr s =>
      if negb (String.length s =? 14)%nat
      then throw (Err.plain "UID hex string must be exactly 14 characters (7 bytes)")
      else if negb (Buf.hex_regex s)
      then throw (Err.plain "UID contains invalid hex characters")
      else ret (Buf.from_hex s)
  | _ => throw (Err.plain "UID must be a 7-byte Buffer or 14-character hex string")
  end.

Definition _numberToCounter (number : Z) : bytes := Buf.writeUIntBE3 number.

Definition _counterToNumber (buffer : bytes) : Z :=
  Buf.readUIntBE (firstn (Nat.min (List.length buffer) 3) buffer).

Definition _validateAndConvertCounter (scanCount : jsval) : M bytes :=
  match scanCount with
  | VBuf b =>
      if negb (List.length b =? 3)%nat
      then throw (Err.plain "Counter buffer must be exactly 3 bytes")
      else ret b
  | VNum n =>
      if negb (isInteger n) || (int_value n <? 0) || (int_value n >? 16777215)
      then throw (Err.plain
                    "Counter must be an integer between 0 and 16777215 (2^24 - 1)")
      else ret (_numberToCounter (int_value n))
  | _ => throw (Err.plain "Counter must be a number or 3-byte Buffer")
  end.

(** One zero-filled block; at most 16 bytes of the data are copied. *)
Definition _prepareFileData (fileData : jsval) : M bytes :=
  let fileBuffer := Buf.alloc 16 in
  match fileData with
  | VBuf b => ret (Buf.copy_into fileBuffer (firstn (Nat.min (List.length b) 16) b))
  | VStr s =>
      let dataBytes := Buf.from_utf8 s in
      ret (Buf.copy_into fileBuffer (firstn (Nat.min (List.length dataBytes) 16) dataBytes))
  | _ => throw (Err.plain "File data must be a string or Buffer")
  end.

Definition _buildPiccData (uid counter : bytes) (sdmConfig : SDMConfig.SDMProfile) : M bytes :=
  try_catch
    (let size := SDMConfig.or_default (SDMConfig.piccDataLength sdmConfig) 16 in
     piccData <- (if size <? 0
                  then throw (Err.mkError Err.RangeError
                                "The value of 'size' is out of range." EmptyString)
                  else ret (Buf.alloc size)) ;;
     let piccData := Buf.set piccData 0 xc7 in
     piccData <-
       (if SDMConfig.includeUID sdmConfig then
          let uidStart := SDMConfig.or_default (SDMConfig.uidOffset sdmConfig) 1 in
          let uidLen := Z.min (Buf.len uid)
                          (SDMConfig.or_default (SDMConfig.uidLength sdmConfig) 7) in
          if uidStart + uidLen >? Buf.len piccData
          then throw (Err.plain "UID data extends beyond PICC data length")
          else ret (Buf.write_loop piccData uidStart uid 0 (Z.to_nat uidLen))
        else ret piccData) ;;
     (if SDMConfig.includeCounter sdmConfig then
        let counterStart := SDMConfig.or_default (SDMConfig.counterOffset sdmConfig) 8 in
        let counterLen := Z.min (Buf.len counter)
                            (SDMConfig.or_default (SDMConfig.counterLength sdmConfig) 3) in
        if counterStart + counterLen >? Buf.len piccData
        then throw (Err.plain "Counter data extends beyond PICC data length")
        else ret (Buf.write_loop piccData counterStart counter 0 (Z.to_nat counterLen))
      else ret piccData))
    (fun error =>
       throw (Err.plain ("PICC data building failed: " +++ Err.message error))).

Definition _deriveKeys (masterKey uid counter : bytes) (method : string) : M SessionKeys :=
  match KeyDerivation.derivationMethods method with
  | Some derivationFunction =>
      emit (EvDerive method masterKey uid counter) ;;;
      derivationFunction masterKey uid counter
  | None =>
      if inherited method
      then throw (Err.type_error (inherited_call_message method))
      else throw (Err.plain ("Unknown key derivation method: " +++ method))
  end.

(** [Encoder.encrypt(masterKey, uid, scanCount, fileData, options)] *)
Definition encrypt (masterKey uid scanCount fileData : jsval) (options : EncryptOptions)
  : M Encoded.result :=
  let fileData := match fileData with VUndefined => VNull | v => v end in
  try_catch
    (let keyDerivationMethod :=
       match opt_keyDerivationMethod options with
       | Some m => m
       | None => "ntag424Official"
       end in
     let sdmProfile :=
       match opt_sdmProfile options with
       | Some p => p
       | None => SDMConfig.PName (if truthy fileData then "full" else "uidCounter")
       end in
     key <- match masterKey with
            | VStr s =>
                if negb (truthy masterKey) || negb (String.length s =? 32)%nat
                then throw (Err.plain "Master key must be a 32-character hex string")
                else ret s
            | _ => throw (Err.plain "Master key must be a 32-character hex string")
            end ;;
     uidBuffer <- _validateAndConvertUID uid ;;
     counterBuffer <- _validateAndConvertCounter scanCount ;;
     let masterKeyBuffer := Buf.from_hex key in
     resolved <- Encoder.resolve_profile sdmProfile ;;
     match resolved with
     | None => throw (Err.plain "Invalid SDM profile")
     | Some sdmConfig =>
         let zeroUID := Buf.alloc 7 in
         let zeroCounter := Buf.alloc 3 in
         piccData <- _buildPiccData uidBuffer counterBuffer sdmConfig ;;
         sessionKeys <- _deriveKeys masterKeyBuffer zeroUID zeroCounter keyDerivationMethod ;;
         encryptedPicc <- AES.cbcEncrypt (encKey sessionKeys) piccData ;;
         file <- (if truthy fileData then
                    fileBuffer <- _prepareFileData fileData ;;
                    encryptedFile <- AES.cbcEncrypt (encKey sessionKeys) fileBuffer ;;
                    ret (Some encryptedFile, encryptedPicc ++ encryptedFile)
                  else ret (None, encryptedPicc)) ;;
         let encryptedFile := fst file in
         let cmacData := snd file in
         mac <- CMAC.calculate (macKey sessionKeys) cmacData ;;
         let cmac := Buf.slice mac 0 8 in
         ret (Encoded.mkResult
                (Encoded.mkOriginal
                   (Buf.toUpperCase (Buf.toString_hex uidBuffer))
                   (_counterToNumber counterBuffer)
                   key
                   keyDerivationMethod
                   None
                   (if truthy fileData then Some (fileData_toString fileData) else None))
                (Encoded.mkEncrypted
                   (Buf.toUpperCase (Buf.toString_hex encryptedPicc))
                   (Buf.toUpperCase (Buf.toString_hex cmac))
                   (match encryptedFile with
                    | Some f => Some (Buf.toUpperCase (Buf.toString_hex f))
                    | None => None
                    end))
                None)
     end)
    (fun error => throw (Err.plain ("Encryption failed: " +++ Err.message error))).

(** [Encoder.generateMasterKey()], given the 16 values
    [Math.floor(Math.random() * 256)] that filled the buffer. *)
Definition generateMasterKey (keyBytes : bytes) : M string :=
  try_catch
    (let hexKey := Buf.toUpperCase (Buf.toString_hex keyBytes) in
     if negb (String.length hexKey =? 32)%nat || negb (Buf.upper_hex_regex hexKey)
     then throw (Err.plain "Generated key validation failed")
     else ret hexKey)
    (fun error =>
       throw (Err.plain ("Master key generation failed: " +++ Err.message error))).

End WithCrypto.
End LegacyEncoder.

(* ------------------------------------------------------------------ *)
(** ** The result of [Decoder.decrypt] *)

Module Decoded.

Record sessionKeys := mkSessionKeys {
  encKey : string;
  macKey : string;
  derivationMethod : string
}.

(** The members of a successful result that depend on the input; the
    echoed [options], [context] and timings are left out. *)
Record payload := mkPayload {
  uid : option string;
  readCounter : option Z;
  dataTag : option string;
  encryptedFileData : option string;
  cmacValid : bool;
  keys : sessionKeys;
  rawPicc : string;
  rawEnc : option string;
  piccInfo : PiccInfo
}.

Record failure := mkFailure {
  error : string;
  errorCode : option string;
  errorType : option string
}.

Inductive result :=
| Success (p : payload)
| Failure (f : failure).

Definition success (r : result) : bool :=
  match r with Success _ => true | Failure _ => false end.

Definition get_cmacValid (r : result) : option bool :=
  match r with Success p => Some (cmacValid p) | Failure _ => None end.

Definition get_uid (r : result) : option string :=
  match r with Success p => uid p | Failure _ => None end.

Definition get_readCounter (r : result) : option Z :=
  match r with Success p => readCounter p | Failure _ => None end.

Definition get_encryptedFileData (r : result) : option string :=
  match r with Success p => encryptedFileData p | Failure _ => None end.

Definition get_error (r : result) : option string :=
  match r with Success _ => None | Failure f => Some (error f) end.

End Decoded.

(** The decoder's option set after the defaults are merged in. *)
Record DecoderOptions := mkDecoderOptions {
  keyDerivationMethod : string;
  sdmProfile : SDMConfig.profile_ref;
  validateCMAC : bool;
  strictValidation : bool;
  timingAttackProtection : bool
}.

Definition default_options : DecoderOptions :=
  mkDecoderOptions "ntag424Official" (SDMConfig.PName "uidCounter") true false true.

(** [customOptions]; an absent member is [None]. *)
Record CustomOptions := mkCustomOptions {
  c_keyDerivationMethod : option string;
  c_sdmProfile : option SDMConfig.profile_ref;
  c_validateCMAC : option bool;
  c_strictValidation : option bool
}.

Definition no_custom : CustomOptions := mkCustomOptions None None None None.

Definition override {A} (base : A) (o : option A) : A :=
  match o with Some v => v | None => base end.

(** [{ ...this.options, ...customOptions }] *)
Definition merge (base : DecoderOptions) (c : CustomOptions) : DecoderOptions :=
  mkDecoderOptions
    (override (keyDerivationMethod base) (c_keyDerivationMethod c))
    (override (sdmProfile base) (c_sdmProfile c))
    (override (validateCMAC base) (c_validateCMAC c))
    (override (strictValidation base) (c_strictValidation c))
    (timingAttackProtection base).

(** [n.toString(16).toUpperCase()] of a byte. *)
Definition byte_toString16 (b : byte) : string :=
  let n := Byte.to_N b in
  Buf.toUpperCase
    (if (n <? 16)%N then String (Buf.hex_digit n) EmptyString
     else String (Buf.hex_digit (n / 16)) (String (Buf.hex_digit (n mod 16)) EmptyString)).

Definition hex_upper (b : bytes) : string := Buf.toUpperCase (Buf.toString_hex b).

Definition option_map_hex (o : option bytes) : option string :=
  match o with Some b => Some (hex_upper b) | None => None end.

(** A decoder instance: the key bytes, the merged options and whether
    [destroy()] has cleared the key buffer (newer copy only). *)
Record DecoderState := mkDecoder {
  masterKey : bytes;
  options : DecoderOptions;
  cleared : bool
}.

Definition valid_methods : list string :=
  ["ntag424Official"; "hkdf"; "pbkdf2"; "simpleHash"].

(** [_validateOptions()], with the message it throws. *)
Definition _validateOptions (o : DecoderOptions) : option string :=
  if negb (existsb (String.eqb (keyDerivationMethod o)) valid_methods)
  then Some ("Invalid key derivation method: " +++ keyDerivationMethod o)
  else match sdmProfile o with
       | SDMConfig.PName s =>
           if negb (existsb (String.eqb s) SDMConfig.getAvailableProfiles)
           then Some ("Invalid SDM profile: " +++ s) else None
       | SDMConfig.PObj p =>
           let v := SDMConfig.validateProfile (Some p) in
           if negb (fst v)
           then Some ("Invalid SDM profile: " +++ SDMConfig.join ", " (snd v)) else None
       | SDMConfig.PNull =>
           let v := SDMConfig.validateProfile None in
           Some ("Invalid SDM profile: " +++ SDMConfig.join ", " (snd v))
       | SDMConfig.PUndefined => None
       end.

(* ------------------------------------------------------------------ *)
(** ** decoder.js, the older copy *)

Module LegacyDecoder.
Section WithCrypto.
Context {C : Crypto}.

(** [new Decoder(masterKey, options)] *)
Definition new (masterKey : jsval) (opts : DecoderOptions) : M DecoderState :=
  try_catch
    (key <- match masterKey with
            | VStr s =>
                if negb (truthy masterKey) || negb (String.length s =? 32)%nat
                then throw (Err.plain "Master key must be a 32-character hex string")
                else if negb (Buf.hex_regex s)
                then throw (Err.plain "Master key contains invalid hex characters")
                else ret s
            | _ => throw (Err.plain "Master key must be a 32-character hex string")
            end ;;
     match _validateOptions opts with
     | Some msg => throw (Err.plain msg)
     | None => ret (mkDecoder (Buf.from_hex key) opts false)
     end)
    (fun error =>
       throw (Err.plain ("Decoder initialization failed: " +++ Err.message error))).

Definition _parseInput (input : jsval) : M jsval :=
  try_catch
    (match input with
     | VStr s =>
         if JS.contains_scheme s
         then DataParser.parseURL true input
         else DataParser.parseQueryString true input
     | VBuf _ | VObj _ => ret input
     | _ => throw (Err.plain "Invalid input format")
     end)
    (fun error => throw (Err.plain ("Input parsing failed: " +++ Err.message error))).

Definition _validateInput (data : jsval) : M unit :=
  let validation := DataParser.validateParsedData data in
  if negb (fst validation)
  then throw (Err.plain (SDMConfig.join ", " (snd validation)))
  else ret tt.

Definition _deriveKeys (this : DecoderState) (uid readCounter : bytes) (method : string)
  : M SessionKeys :=
  match KeyDerivation.derivationMethods method with
  | Some derivationFunction =>
      emit (EvDerive method (masterKey this) uid readCounter) ;;;
      derivationFunction (masterKey this) uid readCounter
  | None =>
      if inherited method
      then throw (Err.type_error (inherited_call_message method))
      else throw (Err.plain ("Unknown key derivation method: " +++ method))
  end.

Definition _performDecryption (this : DecoderState)
  (piccData : bytes) (encData : option bytes) (cmacData : bytes)
  (sdmConfig : option SDMConfig.SDMProfile) (options : DecoderOptions)
  : M Decoded.payload :=
  try_catch
    (let zeroUID := Buf.alloc 7 in
     let zeroCounter := Buf.alloc 3 in
     sessionKeys <- _deriveKeys this zeroUID zeroCounter (keyDerivationMethod options) ;;
     decryptedPicc <- AES.cbcDecrypt (encKey sessionKeys) piccData ;;
     piccInfo <- DataParser.extractPiccData true decryptedPicc sdmConfig ;;
     (if negb (_isValidDecryption decryptedPicc piccInfo)
      then throw (Err.plain "Invalid decrypted data structure")
      else ret tt) ;;;
     decryptedEnc <-
       match encData with
       | Some e =>
           try_catch
             (d <- AES.cbcDecrypt (encKey sessionKeys) e ;; ret (Some d))
             (fun encDecryptError =>
                throw (Err.plain ("File data decryption failed: "
                                  +++ Err.message encDecryptError)))
       | None => ret None
       end ;;
     cmacValid <-
       (if validateCMAC options
        then
          let dataToVerify := piccData ++ match encData with Some e => e | None => [] end in
          try_catch (CMAC.verify (macKey sessionKeys) dataToVerify cmacData)
            (fun cmacError => ret false)
        else ret true) ;;
     ret (Decoded.mkPayload
            (option_map_hex (uid piccInfo))
            (readCounterInt piccInfo)
            (match dataTag piccInfo with
             | Some t => Some (byte_toString16 t)
             | None => None
             end)
            (_extractFileData decryptedEnc)
            cmacValid
            (Decoded.mkSessionKeys (hex_upper (encKey sessionKeys))
               (hex_upper (macKey sessionKeys)) (method sessionKeys))
            (hex_upper decryptedPicc)
            (option_map_hex decryptedEnc)
            piccInfo))
    (fun error =>
       throw (Err.plain ("Zero vector decryption failed: " +++ Err.message error))).

Definition resolve (r : SDMConfig.profile_ref) : M (option SDMConfig.SDMProfile) :=
  Encoder.resolve_profile r.

(** [decoder.decrypt(input, customOptions)] *)
Definition decrypt (this : DecoderState) (input : jsval) (customOptions : CustomOptions)
  : M Decoded.result :=
  let options := merge (options this) customOptions in
  try_catch
    (data <- _parseInput input ;;
     (if strictValidation options then _validateInput data else ret tt) ;;;
     piccData <- DataParser.hexToBuffer true (JS.get data "picc") "PICC data" ;;
     encData <- (if truthy (JS.get data "enc")
                 then e <- DataParser.hexToBuffer true (JS.get data "enc") "ENC data" ;;
                      ret (Some e)
                 else ret None) ;;
     cmacData <- DataParser.hexToBuffer true (JS.get data "cmac") "CMAC data" ;;
     sdmConfig <- resolve (sdmProfile options) ;;
     result <- _performDecryption this piccData encData cmacData sdmConfig options ;;
     ret (Decoded.Success result))
    (fun error =>
       ret (Decoded.Failure (Decoded.mkFailure (Err.message error) None None))).

End WithCrypto.
End LegacyDecoder.

(* ------------------------------------------------------------------ *)
(** ** The arguments of [decrypt] and error-types.js' context *)

(** The [input] argument as a caller passes it: a data value, or an
    object that defines [length] as an accessor which throws; [v] is then
    what the object's data members hold.  (No other accessor is modelled:
    a [jsval] has data members only.) *)
Inductive decrypt_input :=
| InputValue (v : jsval)
| InputLengthThrows (thrown : Err.jserror) (v : jsval).

Coercion InputValue : jsval >-> decrypt_input.

Definition input_value (i : decrypt_input) : jsval :=
  match i with
  | InputValue v => v
  | InputLengthThrows _ v => v
  end.

(** The [customOptions] argument: an object, seen through its option
    members, or [null].  [undefined] takes the default [{}], which is
    [no_custom]. *)
Inductive decrypt_options :=
| OptionsObject (c : CustomOptions)
| OptionsNull.

Coercion OptionsObject : CustomOptions >-> decrypt_options.

(** [...customOptions] inside an object literal; [null] spreads nothing. *)
Definition spread_options (a : decrypt_options) : CustomOptions :=
  match a with
  | OptionsObject c => c
  | OptionsNull => no_custom
  end.

Module ErrorHelper.

(** The context object, without its [inputLength], [timestamp] and
    [options] members: [decrypt] only hands the context on, and the
    results modelled here do not carry it. *)
Record error_context := mkContext {
  operation : string;
  inputType : string
}.

(** [ErrorHelper.createContext(operation, input, options)]: the literal
    reads [input?.length], which runs a [length] accessor, and then calls
    [Object.keys(options)], which throws a [TypeError] on [null]. *)
Definition createContext (operation : string) (input : decrypt_input)
  (options : decrypt_options) : M error_context :=
  match input with
  | InputLengthThrows thrown _ => throw thrown
  | InputValue v =>
      match options with
      | OptionsNull =>
          throw (Err.type_error "Cannot convert undefined or null to object")
      | OptionsObject _ => ret (mkContext operation (typeof_name v))
      end
  end.

End ErrorHelper.

(* ------------------------------------------------------------------ *)
(** ** decoder.js, the copy with structured errors *)

Module Decoder.
Section WithCrypto.
Context {C : Crypto}.

Definition validation (msg field : string) : Err.jserror :=
  Err.mkError Err.ValidationError msg field.

Definition _validateMasterKey (masterKey : jsval) : M string :=
  match masterKey with
  | VStr s =>
      if negb (truthy masterKey) || negb (String.length s =? 32)%nat
      then throw (validation "Master key must be a 32-character hex string" "masterKey")
      else if negb (Buf.hex_regex s)
      then throw (validation "Master key contains invalid hex characters" "masterKey")
      else ret s
  | _ => throw (validation "Master key must be a 32-character hex string" "masterKey")
  end.

(** [new Decoder(masterKey, options)] *)
Definition new (masterKey : jsval) (opts : DecoderOptions) : M DecoderState :=
  try_catch
    (key <- _validateMasterKey masterKey ;;
     let masterKeyBuffer := Buf.copy_into (Buf.alloc 16) (Buf.from_hex key) in
     match _validateOptions opts with
     | Some msg => throw (validation msg "options")
     | None => ret (mkDecoder masterKeyBuffer opts false)
     end)
    (fun error =>
       throw (validation ("Decoder initialization failed: " +++ Err.message error)
                "constructor")).

(** [destroy()] *)
Definition destroy (this : DecoderState) : DecoderState :=
  mkDecoder (Buf.alloc 16) (options this) true.

(** [this.masterKeyBuffer.data] *)
Definition masterKeyBuffer_data (this : DecoderState) : M bytes :=
  if cleared this
  then throw (Err.mkError Err.SecurityError
                "Attempted to access cleared secure buffer" "MEMORY_ACCESS_VIOLATION")
  else ret (masterKey this).

Definition _parseInput (input : jsval) : M jsval :=
  try_catch
    (match input with
     | VStr s =>
         if JS.contains_scheme s
         then DataParser.parseURL false input
         else DataParser.parseQueryString false input
     | VBuf _ | VObj _ => ret input
     | _ => throw (validation "Invalid input format" "input")
     end)
    (fun error =>
       throw (Err.mkError Err.DecryptionError
                ("Input parsing failed: " +++ Err.message error) "parseInput")).

(** [hexString?.substring(0, 20) + '...'] in the handler of
    [_hexToBuffer] throws for a value that is neither nullish nor a string. *)
Definition substring_is_callable (hexString : jsval) : bool :=
  match hexString with
  | VUndefined | VNull | VStr _ => true
  | _ => false
  end.

Definition _hexToBuffer (hexString : jsval) (fieldName : string) : M bytes :=
  try_catch
    (match hexString with
     | VStr s =>
         if negb (truthy hexString)
         then throw (validation (fieldName +++ " must be a non-empty string") fieldName)
         else if negb (DataParser.validateHexString hexString)
         then throw (validation (fieldName +++ " contains invalid hex characters") fieldName)
         else if negb (String.length s mod 2 =? 0)%nat
         then throw (validation (fieldName +++ " hex string must have even length") fieldName)
         else ret (Buf.from_hex s)
     | _ => throw (validation (fieldName +++ " must be a non-empty string") fieldName)
     end)
    (fun error =>
       if substring_is_callable hexString
       then throw (Err.mkError Err.DecryptionError
                     ("Failed to convert " +++ fieldName +++ " to Buffer: "
                      +++ Err.message error) "hexToBuffer")
       else throw (Err.type_error "hexString?.substring is not a function")).

Definition _deriveKeys (masterKey uid readCounter : bytes) (method : string)
  : M SessionKeys :=
  match KeyDerivation.derivationMethods method with
  | Some derivationFunction =>
      emit (EvDerive method masterKey uid readCounter) ;;;
      derivationFunction masterKey uid readCounter
  | None =>
      if inherited method
      then throw (Err.type_error (inherited_call_message method))
      else throw (Err.mkError Err.DecryptionError
                    ("Unknown key derivation method: " +++ method) "keyDerivation")
  end.

Definition _performSecureDecryption (this : DecoderState) (data : jsval)
  (profile : SDMConfig.SDMProfile) (options : DecoderOptions) : M Decoded.payload :=
  piccData <- _hexToBuffer (JS.get data "picc") "PICC data" ;;
  encData <- (if truthy (JS.get data "enc")
              then e <- _hexToBuffer (JS.get data "enc") "ENC data" ;; ret (Some e)
              else ret None) ;;
  cmacData <- _hexToBuffer (JS.get data "cmac") "CMAC data" ;;
  try_catch
    (let zeroUID := Buf.alloc 7 in
     let zeroCounter := Buf.alloc 3 in
     key <- masterKeyBuffer_data this ;;
     sessionKeys <- _deriveKeys key zeroUID zeroCounter (keyDerivationMethod options) ;;
     decryptedPicc <- AES.cbcDecrypt (encKey sessionKeys) piccData ;;
     piccInfo <- DataParser.extractPiccData false decryptedPicc (Some profile) ;;
     (if negb (_isValidDecryption decryptedPicc piccInfo)
      then throw (Err.mkError Err.DecryptionError
                    "Invalid decrypted data structure" "validation")
      else ret tt) ;;;
     decryptedEnc <-
       match encData with
       | Some e =>
           if negb (SDMConfig.includeFileData profile)
           then throw (Err.mkError Err.DecryptionError
                         ("Profile '" +++ SDMConfig.name_text profile +++
                          "' does not support encrypted file data") "fileDecryption")
           else
             try_catch
               (d <- AES.cbcDecrypt (encKey sessionKeys) e ;; ret (Some d))
               (fun encDecryptError =>
                  throw (Err.mkError Err.DecryptionError
                           ("File data decryption failed: "
                            +++ Err.message encDecryptError) "fileDecryption"))
       | None => ret None
       end ;;
     cmacValid <-
       (if validateCMAC options
        then
          try_catch
            (let dataToVerify :=
               piccData ++ match encData with Some e => e | None => [] end in
             calculatedCmac <- CMAC.calculate (macKey sessionKeys) dataToVerify ;;
             ret (MemoryManager.timingSafeEqual
                    (Buf.slice calculatedCmac 0 (Buf.len cmacData)) cmacData))
            (fun cmacError =>
               throw (Err.mkError Err.DecryptionError
                        ("CMAC verification failed: " +++ Err.message cmacError)
                        "cmacVerification"))
        else ret true) ;;
     ret (Decoded.mkPayload
            (option_map_hex (uid piccInfo))
            (readCounterInt piccInfo)
            (match dataTag piccInfo with
             | Some t => Some (byte_toString16 t)
             | None => None
             end)
            (_extractFileData decryptedEnc)
            cmacValid
            (Decoded.mkSessionKeys (hex_upper (encKey sessionKeys))
               (hex_upper (macKey sessionKeys)) (method sessionKeys))
            (hex_upper decryptedPicc)
            (option_map_hex decryptedEnc)
            piccInfo))
    (fun error =>
       if Err.instanceof error Err.DecryptionError then throw error
       else throw (Err.mkError Err.DecryptionError
                     ("Zero vector decryption failed: " +++ Err.message error)
                     "decryption")).

(** [decoder.decrypt(input, customOptions)]; the context is created before
    the [try] statement is entered. *)
Definition decrypt (this : DecoderState) (input : decrypt_input)
  (customOptions : decrypt_options) : M Decoded.result :=
  context <- ErrorHelper.createContext "decrypt" input customOptions ;;
  try_catch
    (let options := merge (options this) (spread_options customOptions) in
     data <- _parseInput (input_value input) ;;
     profile <- Encoder.resolve_profile (sdmProfile options) ;;
     SDMConfig.validateOperationWithProfile SDMConfig.OpDecrypt
       (match profile with
        | Some p => SDMConfig.PObj p
        | None => SDMConfig.PUndefined
        end) data ;;;
     match profile with
     | Some p =>
         result <- _performSecureDecryption this data p options ;;
         ret (Decoded.Success result)
     | None =>
         (* not reached: the validation above throws on a falsy profile *)
         throw (Err.type_error "Cannot read properties of undefined")
     end)
    (fun error =>
       ret (Decoded.Failure
              (Decoded.mkFailure (Err.message error) (Err.code error)
                 (Some (Err.class_name (Err.name error)))))).

End WithCrypto.
End Decoder.

(* ------------------------------------------------------------------ *)
(** ** A small executable instance of the primitives

    Not AES: a byte-wise additive cipher over PKCS#7-padded data and
    length-correct stand-ins for the MAC and the derivation functions.
    It satisfies [CryptoSpec] and lets the codec run on concrete inputs. *)

Module Toy.

Definition add_byte (k x : byte) : byte :=
  Buf.byte_of_N (Byte.to_N x + Byte.to_N k).

Definition sub_byte (k x : byte) : byte :=
  Buf.byte_of_N (Byte.to_N x + 256 - Byte.to_N k).

Definition pad_length (n : nat) : nat := (16 - n mod 16)%nat.

Definition pkcs7_pad (m : bytes) : bytes :=
  let n := pad_length (List.length m) in
  m ++ repeat (Buf.byte_of_N (N.of_nat n)) n.

Definition pkcs7_unpad (c : bytes) : option bytes :=
  match rev c with
  | [] => None
  | last :: _ =>
      let n := N.to_nat (Byte.to_N last) in
      if ((1 <=? n) && (n <=? 16) && (n <=? List.length c))%nat
      then
        let body := firstn (List.length c - n) c in
        if Buf.eqb (skipn (List.length c - n) c) (repeat last n)
        then Some body else None
      else None
  end.

Definition key_byte (k : bytes) : byte := hd x00 k.

Definition encrypt (k iv m : bytes) : bytes :=
  map (add_byte (key_byte k)) (pkcs7_pad m).

Definition decrypt (k iv c : bytes) : option bytes :=
  pkcs7_unpad (map (sub_byte (key_byte k)) c).

Definition fit (n : nat) (b : bytes) : bytes := firstn n (b ++ repeat x00 n).

Definition checksum (d : bytes) : byte :=
  fold_left (fun acc x => add_byte x acc) d x00.

Definition mac (k d : bytes) : bytes :=
  fit 16 (map (add_byte (checksum d)) k).

Definition crypto : Crypto := {|
  aes128_cbc_encrypt := encrypt;
  aes128_cbc_decrypt := decrypt;
  aesCmac := mac;
  hkdfSync := fun ikm salt info n => fit n (ikm ++ salt ++ info);
  pbkdf2Sync := fun pw salt _ n => fit n (salt ++ pw);
  sha256 := fun d => fit 32 d;
  url_searchParams := fun _ => None;
  query_searchParams := fun _ _ => None
|}.

Definition sample_key : string := "00112233445566778899AABBCCDDEEFF".
Definition sample_uid : string := "04AABBCCDDEE80".

End Toy.


(* ------------------------------------------------------------------ *)
(** ** Vocabulary of the statements *)


Definition zeroUID : bytes := Buf.alloc 7.
Definition zeroCounter : bytes := Buf.alloc 3.



(** The session keys a method yields from a master key and the all-zero
    diversification input. *)
Definition zero_vector_keys {C : Crypto} (method : string) (masterKey : bytes)
  : option SessionKeys :=
  match KeyDerivation.derivationMethods method with
  | Some derivationFunction =>
      match outcome (derivationFunction masterKey zeroUID zeroCounter) with
      | inr sk => Some sk
      | inl _ => None
      end
  | None => None
  end.

Definition keys_text (sk : SessionKeys) : Decoded.sessionKeys :=
  Decoded.mkSessionKeys (hex_upper (encKey sk)) (hex_upper (macKey sk)) (method sk).

(** Every exception a computation can end in carries a message. *)
Definition throws_with_message {A} (m : M A) : Prop :=
  forall e, outcome m = inl e -> Err.message e <> EmptyString.

(** [Number.isInteger(n) && 0 <= n && n <= 0xFFFFFF] *)
Definition counter_in_range (n : jsnum) : bool :=
  isInteger n && (0 <=? int_value n) && (int_value n <=? 16777215).

(** A master key as the encoder and the decoder accept it. *)
Definition valid_master_key (s : string) : Prop :=
  String.length s = 32%nat /\ Buf.hex_regex s = true.

(** The text the decoder reports for a UID the encoder was given. *)
Definition uid_text (uid : jsval) : string :=
  match uid with
  | VStr s => Buf.toUpperCase s
  | VBuf b => hex_upper b
  | _ => EmptyString
  end.

(** A UID as the encoder accepts it, with first byte [0x04]. *)
Definition valid_uid (uid : jsval) : Prop :=
  match uid with
  | VBuf b => List.length b = 7%nat /\ hd x00 b = x04
  | VStr s => String.length s = 14%nat /\ Buf.hex_regex s = true /\
              hd x00 (Buf.from_hex s) = x04
  | _ => False
  end.

(** The method and the key bytes [Encoder.encrypt] derives from. *)
Definition encrypt_method (options : EncryptOptions) : string :=
  match opt_keyDerivationMethod options with
  | Some m => m
  | None => "ntag424Official"
  end.

Definition encrypt_key (masterKey : jsval) : bytes :=
  match masterKey with
  | VStr s => Buf.copy_into (Buf.alloc 16) (Buf.from_hex s)
  | _ => []
  end.



(** The profile [Encoder.encrypt] works with. *)
Definition encrypt_profile (options : EncryptOptions) (fileData : jsval)
  : SDMConfig.profile_ref :=
  match opt_sdmProfile options with
  | Some p => p
  | None => SDMConfig.PName (if truthy fileData then "full" else "uidCounter")
  end.

(** The structural conditions on a decrypted PICC block. *)
Definition well_formed_picc (decryptedPicc : bytes) (piccInfo : PiccInfo) : Prop :=
  dataTag piccInfo = Some xc7 /\
  11 <= Buf.len decryptedPicc /\
  (forall u, uid piccInfo = Some u -> hd_error u = Some x04) /\
  (forall c, readCounterInt piccInfo = Some c -> 0 <= c <= 16777215).

(** The decoder's input object for a PICC ciphertext and a CMAC. *)
Definition picc_cmac_input (piccCipher cmacBytes : bytes) : jsval :=
  VObj [("picc", VStr (hex_upper piccCipher)); ("cmac", VStr (hex_upper cmacBytes))].

(** What [CMAC.verify] / the truncated comparison computes. *)
Definition cmac_matches {C : Crypto} (macKey data cmacBytes : bytes) : bool :=
  MemoryManager.timingSafeEqual
    (Buf.slice (aesCmac macKey data) 0 (Buf.len cmacBytes)) cmacBytes.

Definition invalid_structure_message : string :=
  "Zero vector decryption failed: Invalid decrypted data structure".

(* ------------------------------------------------------------------ *)
(** ** Sample data, computed with the executable primitives *)

Module Sample.

Definition decoder_for (method profile : string) : DecoderState :=
  mkDecoder (Buf.from_hex Toy.sample_key)
    (mkDecoderOptions method (SDMConfig.PName profile) true false true) false.

Definition decoder : DecoderState := decoder_for "ntag424Official" "uidCounter".

Definition keys : SessionKeys :=
  Eval vm_compute in
    match @zero_vector_keys Toy.crypto "ntag424Official" (Buf.from_hex Toy.sample_key) with
    | Some sk => sk
    | None => mkKeys [] [] EmptyString
    end.

(** Tag [C7], UID [04AABBCCDDEE80], counter 42. *)
Definition block : bytes :=
  Eval vm_compute in Buf.from_hex "C704AABBCCDDEE8000002A0000000000".


Definition picc : bytes :=
  Eval vm_compute in Toy.encrypt (encKey keys) AES.zeroIV block.


Definition cmac : bytes :=
  Eval vm_compute in firstn 8 (Toy.mac (macKey keys) picc).

Definition wrong_cmac : bytes := Buf.alloc 8.

Definition options_for (method profile : string) : EncryptOptions :=
  mkEncryptOptions (Some method) (Some (SDMConfig.PName profile)).

End Sample.

Module SampleInfo.

Definition info : PiccInfo :=
  Eval vm_compute in
    match snd (DataParser.extractPiccData true Sample.block (Some SDMConfig.uidCounter)) with
    | inr i => i
    | inl _ => mkPiccInfo None None None None None []
    end.

End SampleInfo.

(** The decoder options that match an encoder call. *)
Definition matching_options (options : EncryptOptions) (profileName : string)
  (strict : bool) : DecoderOptions :=
  mkDecoderOptions (encrypt_method options) (SDMConfig.PName profileName) true strict true.

(** The round trip as the specification words it, for one decoder result. *)
Definition round_trip_result (uid : jsval) (counter : Z) (r : Decoded.result) : Prop :=
  Decoded.success r = true /\
  Decoded.get_cmacValid r = Some true /\
  Decoded.get_uid r = Some (uid_text uid) /\
  Decoded.get_readCounter r = Some counter.

(** The round trip as the code performs it: a field the profile leaves
    out comes back as [null]. *)
Definition round_trip_result_for (prof : SDMConfig.SDMProfile) (uid : jsval) (counter : Z)
  (r : Decoded.result) : Prop :=
  Decoded.success r = true /\
  Decoded.get_cmacValid r = Some true /\
  Decoded.get_uid r = (if SDMConfig.includeUID prof then Some (uid_text uid) else None) /\
  Decoded.get_readCounter r = (if SDMConfig.includeCounter prof then Some counter else None).

(** Encoding, then decoding the emitted fields with a decoder built from
    the same key, profile and method. *)
Definition round_trip_claim {C : Crypto} (masterKey : string) (uid : jsval) (counter : Z)
  (options : EncryptOptions) (profileName : string) : Prop :=
  exists e d r,
    outcome (Encoder.encrypt (VStr masterKey) uid (VNum (NInt counter)) VNull options)
    = inr e /\
    outcome (LegacyDecoder.new (VStr masterKey) (matching_options options profileName false))
    = inr d /\
    outcome (LegacyDecoder.decrypt d (Encoded.to_input e) no_custom) = inr r /\
    round_trip_result uid counter r.

(** The wire CMAC of an encoder result: the first 8 bytes of the AES-CMAC
    under the MAC key derived by [method] from [key], over the PICC
    ciphertext followed by the file ciphertext when there is one. *)
Definition cmac_over_ciphertexts {C : Crypto} (method : string) (key : bytes)
  (fileData : jsval) (r : Encoded.result) : Prop :=
  exists (sk : SessionKeys) (piccCipher : bytes) (fileCipher : option bytes),
    zero_vector_keys method key = Some sk /\
    Encoded.picc (Encoded.encrypted r) = hex_upper piccCipher /\
    Encoded.enc (Encoded.encrypted r) = option_map_hex fileCipher /\
    (fileCipher <> None <-> truthy fileData = true) /\
    Encoded.cmac (Encoded.encrypted r)
    = hex_upper (firstn 8 (aesCmac (macKey sk)
                             (piccCipher ++ match fileCipher with
                                            | Some f => f
                                            | None => []
                                            end))).

(** The master key as the older encoder turns it into bytes. *)
Definition legacy_encrypt_key (masterKey : jsval) : bytes :=
  match masterKey with
  | VStr s => Buf.from_hex s
  | _ => []
  end.

(** Results of both encoders for the sample tag, with and without file data. *)
Module SampleRun.

Definition result_of (m : M Encoded.result) : Encoded.result :=
  match outcome m with
  | inr r => r
  | inl _ =>
      Encoded.mkResult
        (Encoded.mkOriginal EmptyString 0 EmptyString EmptyString None None)
        (Encoded.mkEncrypted EmptyString EmptyString None) None
  end.

Definition plain : Encoded.result :=
  Eval vm_compute in
    result_of (@Encoder.encrypt Toy.crypto (VStr Toy.sample_key) (VStr Toy.sample_uid)
                 (VNum (NInt 42)) VNull no_options).

Definition with_file : Encoded.result :=
  Eval vm_compute in
    result_of (@Encoder.encrypt Toy.crypto (VStr Toy.sample_key) (VStr Toy.sample_uid)
                 (VNum (NInt 42)) (VStr "Secret Message!") no_options).

Definition legacy_plain : Encoded.result :=
  Eval vm_compute in
    result_of (@LegacyEncoder.encrypt Toy.crypto (VStr Toy.sample_key)
                 (VStr Toy.sample_uid) (VNum (NInt 42)) VNull no_options).

(** The older encoder, file data and a profile without file data. *)
Definition legacy_ungated : Encoded.result :=
  Eval vm_compute in
    result_of (@LegacyEncoder.encrypt Toy.crypto (VStr Toy.sample_key)
                 (VStr Toy.sample_uid) (VNum (NInt 42)) (VStr "Secret Message!")
                 (Sample.options_for "ntag424Official" "uidCounter")).

End SampleRun.

(** The decoder's input object for a PICC ciphertext, a CMAC and a file
    ciphertext. *)
Definition picc_cmac_enc_input (piccCipher cmacBytes encCipher : bytes) : jsval :=
  VObj [("picc", VStr (hex_upper piccCipher)); ("cmac", VStr (hex_upper cmacBytes));
        ("enc", VStr (hex_upper encCipher))].

(** File data text that the zero padding does not change: it is not empty
    and does not end in a NUL character. *)
Definition plain_file_text (s : string) : Prop :=
  s <> EmptyString /\ Buf.strip_trailing_nul s = s.

(** The round trip of a tag with file data, for one decoder result. *)
Definition file_round_trip_result (uid : jsval) (counter : Z) (s : string)
  (r : Decoded.result) : Prop :=
  Decoded.success r = true /\
  Decoded.get_cmacValid r = Some true /\
  Decoded.get_uid r = Some (uid_text uid) /\
  Decoded.get_readCounter r = Some counter /\
  Decoded.get_encryptedFileData r = Some s.

(* ------------------------------------------------------------------ *)
(** ** Vocabulary for the helper functions *)

(** A string that [/^[0-9A-Fa-f]+$/] matches and whose length is even. *)
Definition even_hex_text (v : jsval) : Prop :=
  exists s, v = VStr s /\ Buf.hex_regex s = true /\ Nat.even (String.length s) = true.

(** [b] is a prefix of [l]. *)
Definition is_prefix (b l : bytes) : Prop := b = firstn (List.length b) l.

(** No external primitive was called. *)
Definition silent {A} (m : M A) : Prop := trace m = [].

(** A layout that [_buildPiccData] and [extractPiccData] read alike: a
    7-byte UID region and a 3-byte counter region, at offsets that are
    not zero and differ from each other. *)
Definition usable_layout (p : SDMConfig.SDMProfile) : Prop :=
  (SDMConfig.includeUID p = true ->
   SDMConfig.uidLength p = Some 7 /\
   exists uo, SDMConfig.uidOffset p = Some uo /\ 1 <= uo) /\
  (SDMConfig.includeCounter p = true ->
   SDMConfig.counterLength p = Some 3 /\
   exists co, SDMConfig.counterOffset p = Some co /\ 1 <= co) /\
  (SDMConfig.includeUID p = true -> SDMConfig.includeCounter p = true ->
   SDMConfig.uidOffset p <> SDMConfig.counterOffset p).

(** The PICC block the encoders build from a layout. *)
Definition picc_block (L : Z) (uid : option (Z * bytes)) (counter : option (Z * bytes))
  : bytes :=
  let b0 := Buf.set (Buf.alloc L) 0 xc7 in
  let b1 := match uid with
            | Some (uo, ub) => Buf.write_loop b0 uo ub 0 (List.length ub)
            | None => b0
            end in
  match counter with
  | Some (co, cb) => Buf.write_loop b1 co cb 0 (List.length cb)
  | None => b1
  end.

(** The region a layout gives to a field. *)
Definition layout_region (include : bool) (offset : option Z) (data : bytes)
  : option (Z * bytes) :=
  if include
  then match offset with Some o => Some (o, data) | None => None end
  else None.


(** Per-call options with [strictValidation] set to [b]. *)
Definition strict_as (b : bool) (c : CustomOptions) : CustomOptions :=
  mkCustomOptions (c_keyDerivationMethod c) (c_sdmProfile c) (c_validateCMAC c) (Some b).

(* ================================================================== *)
(** * Properties *)

(* ------------------------------------------------------------------ *)
(** ** Buffers and hexadecimal text *)

Section BufFacts.
Import Buf.

Lemma to_N_byte_of_N (n : N) : (n < 256)%N -> Byte.to_N (byte_of_N n) = n.
Proof.
  intros H. unfold byte_of_N. rewrite N.mod_small by exact H.
  destruct (Byte.of_N n) eqn:E.
  - apply Byte.to_of_N in E. exact E.
  - apply Byte.of_N_None_iff in E. lia.
Qed.

Lemma from_hex_cons a b rest :
  from_hex (String a (String b rest)) =
  match hex_pair a b with Some x => x :: from_hex rest | None => [] end.
Proof. reflexivity. Qed.

Lemma hex_pair_of_byte (x : byte) :
  hex_pair (upper_char (hex_digit (Byte.to_N x / 16)))
           (upper_char (hex_digit (Byte.to_N x mod 16))) = Some x.
Proof. destruct x; reflexivity. Qed.

(** Decoding the upper-case hex text of a buffer gives the buffer back. *)
Lemma from_hex_hex_upper (b : bytes) : from_hex (hex_upper b) = b.
Proof.
  unfold hex_upper.
  induction b as [|x b IH]; [reflexivity|].
  cbn [toString_hex toUpperCase]. rewrite from_hex_cons, hex_pair_of_byte, IH.
  reflexivity.
Qed.

Lemma all_hex_hex_upper (b : bytes) : all_hex (hex_upper b) = true.
Proof.
  unfold hex_upper.
  induction b as [|x b IH]; [reflexivity|].
  cbn [toString_hex toUpperCase all_hex]. rewrite IH.
  destruct x; reflexivity.
Qed.

Lemma length_hex_upper (b : bytes) :
  String.length (hex_upper b) = (2 * List.length b)%nat.
Proof.
  unfold hex_upper.
  induction b as [|x b IH]; [reflexivity|].
  cbn [toString_hex toUpperCase String.length List.length]. rewrite IH. lia.
Qed.

Lemma length_hex_text (b : bytes) :
  List.length (from_utf8 (toString_hex b)) = (2 * List.length b)%nat.
Proof.
  unfold from_utf8, list_byte_of_string.
  induction b as [|x b IH]; [reflexivity|].
  cbn [toString_hex list_ascii_of_string map List.length]. rewrite IH. lia.
Qed.

Lemma hex_upper_nonempty (b : bytes) :
  b <> [] -> String.eqb (hex_upper b) EmptyString = false.
Proof. destruct b; [congruence|reflexivity]. Qed.

Lemma hex_regex_hex_upper (b : bytes) : b <> [] -> hex_regex (hex_upper b) = true.
Proof.
  intros H. unfold hex_regex.
  rewrite hex_upper_nonempty, all_hex_hex_upper by exact H. reflexivity.
Qed.

Lemma even_length_hex_upper (b : bytes) :
  (String.length (hex_upper b) mod 2 =? 0)%nat = true.
Proof.
  rewrite length_hex_upper, Nat.mul_comm, Nat.Div0.mod_mul. reflexivity.
Qed.

Lemma Z_of_byte_of_Z (z : Z) : 0 <= z < 256 -> Z_of_byte (byte_of_Z z) = z.
Proof.
  intros H. unfold Z_of_byte, byte_of_Z.
  rewrite Z.mod_small by exact H.
  rewrite to_N_byte_of_N by lia. lia.
Qed.

(** A counter in range survives the round trip through three bytes. *)
Lemma readUIntBE_writeUIntBE3 (n : Z) :
  0 <= n <= 16777215 -> readUIntBE (writeUIntBE3 n) = n.
Proof.
  intros H. unfold readUIntBE, writeUIntBE3. cbn [fold_left].
  assert (E : forall z, Z_of_byte (byte_of_Z z) = z mod 256).
  { intros z. unfold byte_of_Z, Z_of_byte.
    pose proof (Z.mod_pos_bound z 256 ltac:(lia)).
    rewrite to_N_byte_of_N by lia. lia. }
  rewrite !E.
  rewrite (Z.mod_small (n / 65536))
    by (split; [apply Z.div_pos; lia | apply Z.div_lt_upper_bound; lia]).
  pose proof (Z.div_mod n 256 ltac:(lia)).
  pose proof (Z.div_mod (n / 256) 256 ltac:(lia)).
  replace (n / 65536) with (n / 256 / 256) by (rewrite Z.div_div by lia; reflexivity).
  lia.
Qed.

Lemma readUIntBE_bounds3 (a b c : byte) :
  0 <= readUIntBE [a; b; c] <= 16777215.
Proof.
  unfold readUIntBE, Z_of_byte. cbn [fold_left].
  pose proof (Byte.to_N_bounded a). pose proof (Byte.to_N_bounded b).
  pose proof (Byte.to_N_bounded c). lia.
Qed.

Lemma hex_value_upper (a : ascii) (h : N) :
  hex_value a = Some h -> (h < 16)%N /\ upper_char (hex_digit h) = upper_char a.
Proof.
  destruct a as [[] [] [] [] [] [] [] []]; cbv; intros E;
    try discriminate; injection E as <-; split; reflexivity.
Qed.

Lemma hex_pair_upper (a b : ascii) (x : byte) :
  hex_pair a b = Some x ->
  upper_char (hex_digit (Byte.to_N x / 16)) = upper_char a /\
  upper_char (hex_digit (Byte.to_N x mod 16)) = upper_char b.
Proof.
  unfold hex_pair.
  destruct (hex_value a) as [h|] eqn:Ea; [|discriminate].
  destruct (hex_value b) as [l|] eqn:Eb; [|discriminate].
  intros E. assert (Ex : x = byte_of_N (16 * h + l)) by congruence. clear E. subst x.
  apply hex_value_upper in Ea, Eb. destruct Ea as [Hh <-], Eb as [Hl <-].
  rewrite to_N_byte_of_N by lia.
  replace (16 * h + l)%N with (l + h * 16)%N by lia.
  rewrite N.div_add by lia. rewrite N.Div0.mod_add.
  rewrite N.div_small, N.mod_small by lia. split; reflexivity.
Qed.

Lemma all_hex_pair (a b : ascii) :
  is_hex_char a = true -> is_hex_char b = true -> exists x, hex_pair a b = Some x.
Proof.
  unfold is_hex_char, hex_pair.
  destruct (hex_value a); [|discriminate]. destruct (hex_value b); [|discriminate].
  eauto.
Qed.

(** Strong induction over strings, two characters at a time. *)
Lemma string_pair_ind (P : string -> Prop) :
  P EmptyString ->
  (forall a, P (String a EmptyString)) ->
  (forall a b rest, P rest -> P (String a (String b rest))) ->
  forall s, P s.
Proof.
  intros H0 H1 H2.
  fix IH 1. intros [|a [|b rest]]; [exact H0 | apply H1 | apply H2, IH].
Qed.

(** The hex text of a decoded hex string of even length is the string in
    upper case, and the buffer has half its length. *)
Lemma hex_upper_from_hex (s : string) :
  all_hex s = true -> Nat.even (String.length s) = true ->
  hex_upper (from_hex s) = toUpperCase s /\
  List.length (from_hex s) = Nat.div2 (String.length s).
Proof.
  unfold hex_upper.
  induction s as [| a | a b rest IH] using string_pair_ind; intros Hh He.
  - split; reflexivity.
  - discriminate.
  - cbn [all_hex] in Hh. apply andb_prop in Hh as [Ha Hh]. apply andb_prop in Hh as [Hb Hh].
    destruct (all_hex_pair a b Ha Hb) as [x Ex].
    rewrite from_hex_cons, Ex.
    destruct (hex_pair_upper _ _ _ Ex) as [E1 E2].
    destruct (IH Hh He) as [IH1 IH2].
    cbn [toString_hex toUpperCase List.length String.length Nat.div2].
    rewrite E1, E2, IH1, IH2. split; reflexivity.
Qed.

Lemma hex_regex_all_hex (s : string) : hex_regex s = true -> all_hex s = true.
Proof. unfold hex_regex. intros H. apply andb_prop in H. tauto. Qed.

Lemma copy_into_same_length (dst src : bytes) :
  List.length src = List.length dst -> copy_into dst src = src.
Proof.
  intros H. unfold copy_into. rewrite <- H, firstn_all, H, skipn_all.
  apply app_nil_r.
Qed.

Lemma eqb_refl (a : bytes) : Buf.eqb a a = true.
Proof. unfold Buf.eqb. destruct (list_eq_dec byte_eq_dec a a); congruence. Qed.

Lemma eqb_eq (a b : bytes) : Buf.eqb a b = true <-> a = b.
Proof.
  unfold Buf.eqb. destruct (list_eq_dec byte_eq_dec a b); split; congruence.
Qed.

Lemma slice_0_length (b : bytes) (n : nat) :
  (n <= List.length b)%nat -> Buf.slice b 0 (Z.of_nat n) = firstn n b.
Proof.
  intros H. unfold slice, clamp, len. cbn [Z.ltb Z.compare].
  destruct (Z.of_nat n <? 0) eqn:E; [lia|].
  rewrite Z.min_l, Z.min_l by lia.
  destruct (Z.of_nat n <=? 0) eqn:E2.
  - assert (n = 0%nat) by lia. subst. reflexivity.
  - cbn [Z.to_nat skipn]. rewrite Z.sub_0_r, Nat2Z.id. reflexivity.
Qed.

Lemma slice_from_length (b : bytes) (n : nat) :
  (n <= List.length b)%nat -> Buf.slice_from b (Z.of_nat n) = skipn n b.
Proof.
  intros H. unfold slice_from, slice, clamp, len.
  destruct (Z.of_nat n <? 0) eqn:E; [lia|].
  destruct (Z.of_nat (List.length b) <? 0) eqn:E1; [lia|].
  rewrite Z.min_l, Z.min_l by lia.
  destruct (Z.of_nat (List.length b) <=? Z.of_nat n) eqn:E2.
  - assert (n = List.length b) by lia. subst. rewrite skipn_all. reflexivity.
  - rewrite Nat2Z.id, <- Nat2Z.inj_sub, Nat2Z.id by lia.
    rewrite firstn_all2; [reflexivity|]. rewrite length_skipn. lia.
Qed.

End BufFacts.

(* ------------------------------------------------------------------ *)
(** ** The exception/trace monad *)

Section EffFacts.
Context {A B : Type}.

Lemma outcome_bind (m : M A) (f : A -> M B) :
  outcome (Eff.bind m f) =
  match outcome m with inl e => inl e | inr a => outcome (f a) end.
Proof.
  destruct m as [l [e|a]]; cbn; [reflexivity|]. destruct (f a); reflexivity.
Qed.

Lemma outcome_try_catch (m : M A) (h : Err.jserror -> M A) :
  outcome (try_catch m h) =
  match outcome m with inl e => outcome (h e) | inr a => inr a end.
Proof.
  destruct m as [l [e|a]]; cbn; [|reflexivity]. destruct (h e); reflexivity.
Qed.

Lemma trace_bind (m : M A) (f : A -> M B) :
  trace (Eff.bind m f) =
  trace m ++ match outcome m with inl _ => [] | inr a => trace (f a) end.
Proof.
  destruct m as [l [e|a]]; cbn; [symmetry; apply app_nil_r|].
  destruct (f a); reflexivity.
Qed.

Lemma trace_try_catch (m : M A) (h : Err.jserror -> M A) :
  trace (try_catch m h) =
  trace m ++ match outcome m with inl e => trace (h e) | inr _ => [] end.
Proof.
  destruct m as [l [e|a]]; cbn; [|symmetry; apply app_nil_r].
  destruct (h e); reflexivity.
Qed.

Lemma bind_inr (m : M A) (f : A -> M B) (b : B) :
  outcome (Eff.bind m f) = inr b ->
  exists a, outcome m = inr a /\ outcome (f a) = inr b.
Proof.
  rewrite outcome_bind. destruct (outcome m) as [e|a]; [discriminate|]. eauto.
Qed.

Lemma bind_inl (m : M A) (f : A -> M B) (e : Err.jserror) :
  outcome (Eff.bind m f) = inl e ->
  outcome m = inl e \/ exists a, outcome m = inr a /\ outcome (f a) = inl e.
Proof.
  rewrite outcome_bind. destruct (outcome m) as [e'|a]; [left; congruence|]. eauto.
Qed.

Lemma try_catch_inr (m : M A) (h : Err.jserror -> M A) (a : A) :
  outcome (try_catch m h) = inr a ->
  outcome m = inr a \/ exists e, outcome m = inl e /\ outcome (h e) = inr a.
Proof.
  rewrite outcome_try_catch. destruct (outcome m) as [e|a']; [|left; congruence].
  eauto.
Qed.

Lemma try_catch_inl (m : M A) (h : Err.jserror -> M A) (e : Err.jserror) :
  outcome (try_catch m h) = inl e ->
  exists e', outcome m = inl e' /\ outcome (h e') = inl e.
Proof.
  rewrite outcome_try_catch. destruct (outcome m) as [e'|a']; [|discriminate].
  eauto.
Qed.





Lemma message_bind (m : M A) (f : A -> M B) :
  throws_with_message m -> (forall a, throws_with_message (f a)) ->
  throws_with_message (Eff.bind m f).
Proof.
  intros Hm Hf e He. apply bind_inl in He as [He | (a & _ & He)].
  - apply (Hm _ He).
  - apply (Hf _ _ He).
Qed.

Lemma message_try_catch (m : M A) (h : Err.jserror -> M A) :
  (forall e, throws_with_message (h e)) -> throws_with_message (try_catch m h).
Proof.
  intros Hh e He. apply try_catch_inl in He as (e' & _ & He). apply (Hh _ _ He).
Qed.

Lemma bind_ret_l (a : A) (f : A -> M B) : Eff.bind (ret a) f = f a.
Proof. unfold Eff.bind, ret. destruct (f a) as [l r]. reflexivity. Qed.

End EffFacts.

(** [decrypt] of the newer decoder on a data value with an options object:
    [createContext] returns and the [try] statement is entered. *)
Ltac enter_decrypt :=
  unfold Decoder.decrypt;
  cbv beta iota delta [ErrorHelper.createContext spread_options input_value];
  rewrite bind_ret_l; cbv beta.

Ltac enter_decrypt_in H :=
  unfold Decoder.decrypt in H;
  cbv beta iota delta [ErrorHelper.createContext spread_options input_value] in H;
  rewrite bind_ret_l in H; cbv beta in H.

Lemma append_nonempty (a b : string) : a <> EmptyString -> a +++ b <> EmptyString.
Proof. destruct a; [congruence | discriminate]. Qed.

Lemma message_throw {A} (e : Err.jserror) :
  Err.message e <> EmptyString -> throws_with_message (@throw A e).
Proof. intros H e' He. cbn in He. congruence. Qed.

Lemma message_ret {A} (a : A) : throws_with_message (ret a).
Proof. intros e He. discriminate. Qed.

(* ------------------------------------------------------------------ *)
(** ** Every exception carries a message *)

Lemma append_nonempty_r (a b : string) : b <> EmptyString -> a +++ b <> EmptyString.
Proof. destruct a; cbn; [tauto | discriminate]. Qed.

Lemma message_try_catch_rethrow {A} (m : M A) (h : Err.jserror -> M A) :
  throws_with_message m ->
  (forall e, Err.message e <> EmptyString -> throws_with_message (h e)) ->
  throws_with_message (try_catch m h).
Proof.
  intros Hm Hh e He. apply try_catch_inl in He as (e' & He' & He).
  apply (Hh e' (Hm _ He') _ He).
Qed.

Lemma join_nonempty (l : list string) :
  l <> [] -> Forall (fun s => s <> EmptyString) l -> SDMConfig.join ", " l <> EmptyString.
Proof.
  destruct l as [|x [|y r]]; [congruence | |]; intros _ H; inversion H; subst.
  - exact H2.
  - cbn [SDMConfig.join]. apply append_nonempty. exact H2.
Qed.

(** Follows the structure of [m] in a goal [throws_with_message m]. *)
Ltac message_step :=
  match goal with
  | |- throws_with_message (Eff.bind _ _) => apply message_bind; [|intros]
  | |- throws_with_message (try_catch _ _) =>
      apply message_try_catch_rethrow; [|intros ? ?]
  | |- throws_with_message (ret _) => apply message_ret
  | |- throws_with_message (emit _) => intros ? ?; discriminate
  | |- throws_with_message (throw _) =>
      apply message_throw; cbn;
      first [ discriminate | assumption
            | apply append_nonempty_r; discriminate
            | apply append_nonempty; discriminate ]
  | |- throws_with_message (if ?b then _ else _) => destruct b
  | |- throws_with_message (match ?x with _ => _ end) => destruct x
  | |- throws_with_message (let _ := _ in _) => cbv zeta
  end.

Ltac message_solve := repeat message_step.

Section MessageFacts.
Context {C : Crypto}.

Lemma message_getProfile v : throws_with_message (SDMConfig.getProfile v).
Proof. unfold SDMConfig.getProfile. message_solve. Qed.

Lemma message_resolve r : throws_with_message (Encoder.resolve_profile r).
Proof.
  unfold Encoder.resolve_profile. destruct r; message_solve. apply message_getProfile.
Qed.

Lemma message_parseURL lg v : throws_with_message (DataParser.parseURL lg v).
Proof.
  unfold DataParser.parseURL, DataParser.fail. destruct lg; message_solve.
Qed.

Lemma message_parseQueryString lg v :
  throws_with_message (DataParser.parseQueryString lg v).
Proof.
  unfold DataParser.parseQueryString, DataParser.fail. destruct lg; message_solve.
Qed.

Lemma message_hexToBuffer lg v f :
  f <> EmptyString -> throws_with_message (DataParser.hexToBuffer lg v f).
Proof.
  intros Hf. unfold DataParser.hexToBuffer, DataParser.fail.
  destruct lg; message_solve; apply message_throw; cbn; apply append_nonempty; exact Hf.
Qed.

Lemma message_extractPiccData lg b c :
  throws_with_message (DataParser.extractPiccData lg b c).
Proof.
  unfold DataParser.extractPiccData. destruct lg; message_solve.
Qed.

Lemma message_derivation m f k u c :
  KeyDerivation.derivationMethods m = Some f -> throws_with_message (f k u c).
Proof.
  unfold KeyDerivation.derivationMethods.
  repeat match goal with |- context [if ?b then _ else _] => destruct b end;
    intros E; try discriminate; injection E as <-;
    unfold KeyDerivation.ntag424Official, KeyDerivation.hkdf, KeyDerivation.pbkdf2,
      KeyDerivation.simpleHash; message_solve.
Qed.

Lemma inherited_call_message_nonempty k : inherited_call_message k <> EmptyString.
Proof.
  unfold inherited_call_message.
  repeat match goal with |- context [if ?b then _ else _] => destruct b end; discriminate.
Qed.

Lemma message_cbcDecrypt k d : throws_with_message (AES.cbcDecrypt k d).
Proof. unfold AES.cbcDecrypt. message_solve. Qed.

Lemma message_cbcEncrypt k d : throws_with_message (AES.cbcEncrypt k d).
Proof. unfold AES.cbcEncrypt. message_solve. Qed.

Lemma message_calculate k d : throws_with_message (CMAC.calculate k d).
Proof. unfold CMAC.calculate. message_solve. Qed.

Lemma message_verify k d e : throws_with_message (CMAC.verify k d e).
Proof. unfold CMAC.verify. message_solve. apply message_calculate. Qed.

Lemma message_legacy_deriveKeys this u c m :
  throws_with_message (LegacyDecoder._deriveKeys this u c m).
Proof.
  unfold LegacyDecoder._deriveKeys.
  destruct (KeyDerivation.derivationMethods m) eqn:E; message_solve.
  - eapply message_derivation; eassumption.
  - apply message_throw. apply inherited_call_message_nonempty.
Qed.

Lemma message_legacy_validateInput d :
  throws_with_message (LegacyDecoder._validateInput d).
Proof.
  unfold LegacyDecoder._validateInput, DataParser.validateParsedData.
  match goal with |- context [Buf.len ?l =? 0] => set (errors := l) end.
  cbn [fst snd]. destruct (Buf.len errors =? 0) eqn:E; cbn [negb]; message_solve.
  apply message_throw. cbn [Err.message Err.plain].
  apply join_nonempty.
  - intros H. rewrite H in E. discriminate.
  - subst errors.
    repeat (apply Forall_app; split);
      match goal with |- Forall _ (if ?b then _ else _) => destruct b end;
      repeat constructor; discriminate.
Qed.

Lemma message_legacy_performDecryption this p e c cfg o :
  throws_with_message (LegacyDecoder._performDecryption this p e c cfg o).
Proof.
  unfold LegacyDecoder._performDecryption. apply message_try_catch. intros err.
  message_solve.
Qed.

Lemma message_legacy_parseInput v : throws_with_message (LegacyDecoder._parseInput v).
Proof.
  unfold LegacyDecoder._parseInput. apply message_try_catch. intros err. message_solve.
Qed.

Lemma message_validateOperation op p d :
  throws_with_message (SDMConfig.validateOperationWithProfile op p d).
Proof.
  unfold SDMConfig.validateOperationWithProfile.
  message_solve; apply message_getProfile.
Qed.

Lemma message_parseInput v : throws_with_message (Decoder._parseInput v).
Proof.
  unfold Decoder._parseInput. apply message_try_catch. intros err. message_solve.
Qed.

Lemma message_hexToBuffer_own v f : throws_with_message (Decoder._hexToBuffer v f).
Proof.
  unfold Decoder._hexToBuffer. apply message_try_catch. intros err. message_solve.
Qed.

Lemma message_deriveKeys k u c m : throws_with_message (Decoder._deriveKeys k u c m).
Proof.
  unfold Decoder._deriveKeys.
  destruct (KeyDerivation.derivationMethods m) eqn:E; message_solve.
  - eapply message_derivation; eassumption.
  - apply message_throw. apply inherited_call_message_nonempty.
Qed.

Lemma message_performSecureDecryption this d p o :
  throws_with_message (Decoder._performSecureDecryption this d p o).
Proof.
  unfold Decoder._performSecureDecryption, Decoder.masterKeyBuffer_data.
  message_solve;
    first [ apply message_hexToBuffer_own | apply message_deriveKeys
          | apply message_cbcDecrypt | apply message_extractPiccData
          | apply message_calculate ].
Qed.

End MessageFacts.



(** C7: both copies of [decrypt] catch whatever is thrown inside their
    [try] statement: for every data input and every options object the
    call returns a result, which carries [success = false] and a
    non-empty [error] message when it is not a success.  The newer copy
    creates its context before the [try]: with [null] as [customOptions]
    it throws a [TypeError] whatever the input is, and an input whose
    [length] accessor throws makes it throw what the accessor threw. *)
Theorem decrypt_throws_before_try {C : Crypto}
  (this : DecoderState) (input : jsval) (customOptions : CustomOptions) :
  (exists r, outcome (LegacyDecoder.decrypt this input customOptions) = inr r /\
             (Decoded.success r = true \/
              exists msg, Decoded.get_error r = Some msg /\ msg <> EmptyString)) /\
  (exists r, outcome (Decoder.decrypt this input customOptions) = inr r /\
             (Decoded.success r = true \/
              exists msg, Decoded.get_error r = Some msg /\ msg <> EmptyString)) /\
  Decoder.decrypt this input OptionsNull
  = throw (Err.type_error "Cannot convert undefined or null to object") /\
  (forall thrown options,
     Decoder.decrypt this (InputLengthThrows thrown input) options = throw thrown).
Proof.
  split; [|split; [|split]].
  - unfold LegacyDecoder.decrypt. rewrite outcome_try_catch.
    match goal with |- context [outcome ?b] =>
      assert (Hb : throws_with_message b) end.
    { message_solve;
        first [ apply message_legacy_parseInput | apply message_legacy_validateInput
              | apply message_hexToBuffer; discriminate
              | apply message_resolve | apply message_legacy_performDecryption ]. }
    match goal with |- context [outcome ?b] => destruct (outcome b) as [e|r] eqn:E end.
    + eexists. split; [reflexivity|]. right. eexists. split; [reflexivity|].
      apply (Hb _ E).
    + exists r. split; [reflexivity|]. left.
      repeat (apply bind_inr in E as (? & _ & E)). cbn in E. injection E as <-.
      reflexivity.
  - enter_decrypt. rewrite outcome_try_catch.
    match goal with |- context [outcome ?b] =>
      assert (Hb : throws_with_message b) end.
    { message_solve;
        first [ apply message_parseInput | apply message_resolve
              | apply message_validateOperation
              | apply message_performSecureDecryption ]. }
    match goal with |- context [outcome ?b] => destruct (outcome b) as [e|r] eqn:E end.
    + eexists. split; [reflexivity|]. right. eexists. split; [reflexivity|].
      apply (Hb _ E).
    + exists r. split; [reflexivity|]. left.
      cbv zeta in E.
      repeat (apply bind_inr in E as (? & _ & E)).
      match type of E with context [match ?p with _ => _ end] => destruct p end;
        [|discriminate].
      apply bind_inr in E as (? & _ & E). cbn in E. injection E as <-.
      reflexivity.
  - reflexivity.
  - intros thrown options. reflexivity.
Qed.

Lemma decrypt_throws_before_try_witness :
  @Decoder.decrypt Toy.crypto Sample.decoder
    (VObj [("picc", VStr "invalid"); ("cmac", VStr "invalid")]) OptionsNull
  = throw (Err.type_error "Cannot convert undefined or null to object") /\
  exists r,
    outcome (@LegacyDecoder.decrypt Toy.crypto Sample.decoder
               (VObj [("picc", VStr "invalid"); ("cmac", VStr "invalid")]) no_custom)
    = inr r /\
    (Decoded.success r = true \/
     exists msg, Decoded.get_error r = Some msg /\ msg <> EmptyString).
Proof.
  split.
  - exact (proj1 (proj2 (proj2
      (@decrypt_throws_before_try Toy.crypto Sample.decoder
         (VObj [("picc", VStr "invalid"); ("cmac", VStr "invalid")]) no_custom)))).
  - exact (proj1
      (@decrypt_throws_before_try Toy.crypto Sample.decoder
         (VObj [("picc", VStr "invalid"); ("cmac", VStr "invalid")]) no_custom)).
Defined.

(* ------------------------------------------------------------------ *)
(** ** Key derivation happens once, on the zero vector *)

Section DeriveFacts.
Context {C : Crypto}.







































End DeriveFacts.


(* ------------------------------------------------------------------ *)
(** ** The profile registry *)

(** C10: [SDMConfig.getProfile] answers a name that is null, undefined,
    empty or not a string with the default [uidCounter] profile; it throws
    only an [SDMProfileError], and only for a non-empty string that names
    no predefined profile. *)
Theorem getProfile_default_or_unknown (profileName : jsval) :
  (truthy profileName && is_string profileName = false ->
   SDMConfig.getProfile profileName = ret SDMConfig.uidCounter) /\
  (forall e, outcome (SDMConfig.getProfile profileName) = inl e ->
   Err.name e = Err.SDMProfileError /\
   exists s, profileName = VStr s /\ s <> EmptyString /\
             SDMConfig.lookup s SDMConfig.profiles = None).
Proof.
  split.
  - destruct profileName as [| | b | n | s | b | fs]; try reflexivity.
    cbn [truthy is_string SDMConfig.getProfile]. rewrite andb_true_r.
    intros ->. reflexivity.
  - intros e H. destruct profileName as [| | b | n | s | b | fs]; try discriminate.
    cbn [SDMConfig.getProfile] in H.
    destruct (negb (truthy (VStr s))) eqn:Ht; [discriminate|].
    destruct (SDMConfig.lookup s SDMConfig.profiles) eqn:El; [discriminate|].
    destruct (inherited s); [discriminate|].
    cbn in H. injection H as <-. split; [reflexivity|].
    exists s. repeat split; [|exact El].
    intros ->. discriminate.
Qed.

Lemma getProfile_default_or_unknown_witness :
  SDMConfig.getProfile VNull = ret SDMConfig.uidCounter /\
  SDMConfig.getProfile (VStr EmptyString) = ret SDMConfig.uidCounter /\
  SDMConfig.getProfile (VNum (NInt 7)) = ret SDMConfig.uidCounter /\
  Err.name (Err.mkError Err.SDMProfileError "Unknown SDM profile: basic" "getProfile")
  = Err.SDMProfileError.
Proof.
  split; [apply (proj1 (getProfile_default_or_unknown VNull)); reflexivity|].
  split; [apply (proj1 (getProfile_default_or_unknown (VStr EmptyString))); reflexivity|].
  split; [apply (proj1 (getProfile_default_or_unknown (VNum (NInt 7)))); reflexivity|].
  apply (proj2 (getProfile_default_or_unknown (VStr "basic"))). reflexivity.
Defined.

(** The four predefined names resolve to their profiles, and a name found
    on [Object.prototype] resolves to a member that is no profile. *)
Lemma getProfile_predefined :
  SDMConfig.getProfile (VStr "uidOnly") = ret SDMConfig.uidOnly /\
  SDMConfig.getProfile (VStr "counterOnly") = ret SDMConfig.counterOnly /\
  SDMConfig.getProfile (VStr "uidCounter") = ret SDMConfig.uidCounter /\
  SDMConfig.getProfile (VStr "full") = ret SDMConfig.full /\
  SDMConfig.getProfile (VStr "toString") = ret (SDMConfig.inherited_member "toString").
Proof. repeat split. Qed.

(* ------------------------------------------------------------------ *)
(** ** The executable primitives meet the interface *)

Section ToyFacts.
Import Toy.

Lemma byte_of_N_to_N (n : N) (x : byte) :
  (n mod 256 = Byte.to_N x)%N -> Buf.byte_of_N n = x.
Proof.
  intros H. unfold Buf.byte_of_N. rewrite H, Byte.of_to_N. reflexivity.
Qed.

Lemma to_N_byte_of_N_mod (n : N) : Byte.to_N (Buf.byte_of_N n) = (n mod 256)%N.
Proof.
  unfold Buf.byte_of_N.
  destruct (Byte.of_N (n mod 256)) eqn:E.
  - apply Byte.to_of_N in E. exact E.
  - apply Byte.of_N_None_iff in E.
    pose proof (N.mod_upper_bound n 256 ltac:(lia)). lia.
Qed.

Lemma sub_add_byte (k x : byte) : sub_byte k (add_byte k x) = x.
Proof.
  unfold sub_byte, add_byte. apply byte_of_N_to_N.
  pose proof (Byte.to_N_bounded x). pose proof (Byte.to_N_bounded k).
  rewrite to_N_byte_of_N_mod.
  set (a := Byte.to_N x) in *. set (b := Byte.to_N k) in *.
  destruct (N.ltb_spec (a + b) 256).
  - rewrite (N.mod_small (a + b)) by lia.
    replace (a + b + 256 - b)%N with (a + 1 * 256)%N by lia.
    rewrite N.Div0.mod_add. apply N.mod_small. lia.
  - replace (a + b)%N with ((a + b - 256) + 1 * 256)%N by lia.
    rewrite N.Div0.mod_add, (N.mod_small (a + b - 256)) by lia.
    replace (a + b - 256 + 256 - b)%N with a by lia. apply N.mod_small. lia.
Qed.

Lemma pad_length_bounds (n : nat) : (1 <= pad_length n <= 16)%nat.
Proof.
  unfold pad_length. pose proof (Nat.mod_upper_bound n 16 ltac:(lia)). lia.
Qed.

Lemma pkcs7_unpad_pad (m : bytes) : pkcs7_unpad (pkcs7_pad m) = Some m.
Proof.
  unfold pkcs7_unpad, pkcs7_pad.
  pose proof (pad_length_bounds (List.length m)) as Hn.
  remember (pad_length (List.length m)) as n eqn:En. clear En.
  remember (Buf.byte_of_N (N.of_nat n)) as p eqn:Ep.
  assert (Hp : N.to_nat (Byte.to_N p) = n).
  { subst p. rewrite to_N_byte_of_N by lia. apply Nat2N.id. }
  clear Ep.
  rewrite rev_app_distr, rev_repeat.
  assert (Hr : repeat p n ++ rev m = p :: (repeat p (n - 1) ++ rev m)).
  { destruct n; [lia|]. replace (S n - 1)%nat with n by lia. reflexivity. }
  rewrite Hr, Hp, length_app, repeat_length.
  replace ((1 <=? n) && (n <=? 16) && (n <=? List.length m + n))%nat with true.
  2:{ symmetry. rewrite !andb_true_iff, !Nat.leb_le. lia. }
  replace (List.length m + n - n)%nat with (List.length m) by lia.
  rewrite skipn_app, skipn_all, Nat.sub_diag, firstn_app, firstn_all, Nat.sub_diag.
  cbn [skipn firstn app]. rewrite eqb_refl, app_nil_r. reflexivity.
Qed.

Lemma fit_length (n : nat) (b : bytes) : List.length (fit n b) = n.
Proof.
  unfold fit. rewrite length_firstn, length_app, repeat_length. lia.
Qed.

(** The stand-in primitives satisfy every assumption made of the real ones. *)
Lemma toy_spec : CryptoSpec Toy.crypto.
Proof.
  constructor.
  - intros k iv m _ _. cbn [aes128_cbc_decrypt aes128_cbc_encrypt Toy.crypto].
    unfold decrypt, encrypt.
    rewrite map_map, (map_ext _ (fun x => x)), map_id by (intros; apply sub_add_byte).
    apply pkcs7_unpad_pad.
  - intros k iv m. cbn [aes128_cbc_encrypt Toy.crypto].
    unfold encrypt, pkcs7_pad, pad_length.
    rewrite length_map, length_app, repeat_length.
    pose proof (Nat.div_mod_eq (List.length m) 16).
    pose proof (Nat.mod_upper_bound (List.length m) 16 ltac:(lia)). lia.
  - intros. apply fit_length.
  - intros. apply fit_length.
  - intros. apply fit_length.
  - intros. apply fit_length.
Qed.

End ToyFacts.

(* ------------------------------------------------------------------ *)
(** ** Encoding, step by step *)

Section Forward.
Context {C : Crypto} (HC : CryptoSpec C).

Lemma slice_first16 (b : bytes) :
  (16 <= List.length b)%nat -> Buf.slice b 0 16 = firstn 16 b.
Proof. intros H. apply (slice_0_length b 16 H). Qed.

Lemma slice_from16 (b : bytes) :
  (16 <= List.length b)%nat -> Buf.slice_from b 16 = skipn 16 b.
Proof. intros H. apply (slice_from_length b 16 H). Qed.

Lemma valid_methods_cases (m : string) :
  In m valid_methods ->
  m = "ntag424Official" \/ m = "hkdf" \/ m = "pbkdf2" \/ m = "simpleHash".
Proof. cbn. intuition. Qed.

(** Each of the four methods yields two 16-byte keys from a 16-byte master
    key and the zero vector. *)
Lemma zero_vector_keys_ok (m : string) (key : bytes) :
  In m valid_methods -> List.length key = 16%nat ->
  exists sk f,
    KeyDerivation.derivationMethods m = Some f /\
    outcome (f key (Buf.alloc 7) (Buf.alloc 3)) = inr sk /\
    zero_vector_keys m key = Some sk /\
    List.length (encKey sk) = 16%nat /\ List.length (macKey sk) = 16%nat.
Proof.
  intros Hm Hk. unfold zero_vector_keys, zeroUID, zeroCounter.
  apply valid_methods_cases in Hm as [-> | [-> | [-> | ->]]];
    cbn [KeyDerivation.derivationMethods String.eqb Ascii.eqb Bool.eqb];
    eexists; eexists; (split; [reflexivity|]).
  - unfold KeyDerivation.ntag424Official. rewrite Hk. cbn [Nat.eqb negb outcome ret snd].
    repeat split; cbn [encKey macKey];
      unfold KeyDerivation.aesCmac_text;
      rewrite slice_first16, length_firstn, length_hex_text, cmac_length
        by (rewrite length_hex_text, cmac_length; lia);
      reflexivity.
  - unfold KeyDerivation.hkdf. cbn [outcome ret snd].
    repeat split; cbn [encKey macKey].
    + rewrite slice_first16, length_firstn, hkdf_length by (rewrite hkdf_length; lia).
      reflexivity.
    + rewrite slice_from16, length_skipn, hkdf_length by (rewrite hkdf_length; lia).
      reflexivity.
  - unfold KeyDerivation.pbkdf2. cbn [Z.ltb Z.compare Pos.compare Pos.compare_cont outcome ret snd].
    repeat split; cbn [encKey macKey].
    + rewrite slice_first16, length_firstn, pbkdf2_length by (rewrite pbkdf2_length; lia).
      reflexivity.
    + rewrite slice_from16, length_skipn, pbkdf2_length by (rewrite pbkdf2_length; lia).
      reflexivity.
  - unfold KeyDerivation.simpleHash. cbn [outcome ret snd].
    repeat split; cbn [encKey macKey];
      rewrite slice_first16, length_firstn, sha256_length by (rewrite sha256_length; lia);
      reflexivity.
Qed.


Lemma Z_of_byte_eqb (t : byte) (v : byte) :
  (Buf.Z_of_byte t =? Buf.Z_of_byte v) = true <-> t = v.
Proof.
  rewrite Z.eqb_eq. unfold Buf.Z_of_byte. split; [|intros ->; reflexivity].
  intros H. apply N2Z.inj in H.
  assert (E : Byte.of_N (Byte.to_N t) = Byte.of_N (Byte.to_N v)) by (rewrite H; reflexivity).
  rewrite !Byte.of_to_N in E. congruence.
Qed.

(** [_isValidDecryption] accepts exactly the blocks whose tag byte is
    [0xC7], that are at least 11 bytes long, whose extracted UID (if any)
    starts with [0x04] and whose extracted counter (if any) lies in
    [0, 16777215]. *)
Lemma isValidDecryption_iff (decryptedPicc : bytes) (piccInfo : PiccInfo) :
  _isValidDecryption decryptedPicc piccInfo = true <->
  well_formed_picc decryptedPicc piccInfo.
Proof.
  unfold _isValidDecryption, well_formed_picc.
  destruct piccInfo as [tag u rc rci pad rw]. cbn [dataTag uid readCounterInt].
  change 199 with (Buf.Z_of_byte xc7). change 4 with (Buf.Z_of_byte x04).
  split.
  - intros H.
    destruct tag as [t|]; [|discriminate].
    destruct (Buf.Z_of_byte t =? Buf.Z_of_byte xc7) eqn:Et; [|discriminate].
    apply Z_of_byte_eqb in Et. subst t. cbn [negb] in H.
    destruct (Buf.len decryptedPicc <? 11) eqn:El; [discriminate|].
    apply Z.ltb_ge in El.
    split; [reflexivity|]. split; [exact El|]. split.
    + intros u' ->. destruct u' as [|b ?]; [discriminate|].
      destruct (Buf.Z_of_byte b =? Buf.Z_of_byte x04) eqn:Eb; [|discriminate].
      apply Z_of_byte_eqb in Eb. subst. reflexivity.
    + intros c ->.
      destruct u as [[|b ?]|]; try discriminate;
        try (destruct (Buf.Z_of_byte b =? Buf.Z_of_byte x04); [|discriminate]);
        cbn [negb] in H;
        destruct ((c <? 0) || (c >? 16777215)) eqn:Ec; try discriminate;
        apply orb_false_iff in Ec as [E1 E2];
        apply Z.ltb_ge in E1; rewrite Z.gtb_ltb in E2; apply Z.ltb_ge in E2; lia.
  - intros (Ht & Hl & Hu & Hc). subst tag.
    rewrite Z.eqb_refl. cbn [negb].
    destruct (Buf.len decryptedPicc <? 11) eqn:El; [apply Z.ltb_lt in El; lia|].
    assert (Eu : match u with
                 | Some u0 => negb match u0 with
                                   | [] => false
                                   | b :: _ => Buf.Z_of_byte b =? Buf.Z_of_byte x04
                                   end
                 | None => false
                 end = false).
    { destruct u as [u0|]; [|reflexivity].
      specialize (Hu u0 eq_refl). destruct u0; [discriminate|].
      cbn in Hu. injection Hu as ->. rewrite Z.eqb_refl. reflexivity. }
    rewrite Eu.
    destruct rci as [c|]; [|reflexivity].
    specialize (Hc c eq_refl).
    replace ((c <? 0) || (c >? 16777215)) with false; [reflexivity|].
    symmetry. apply orb_false_iff. rewrite Z.gtb_ltb. split; apply Z.ltb_ge; lia.
Qed.


Lemma valid_master_key_facts (mk : string) :
  valid_master_key mk ->
  truthy (VStr mk) = true /\
  List.length (Buf.from_hex mk) = 16%nat /\
  Buf.copy_into (Buf.alloc 16) (Buf.from_hex mk) = Buf.from_hex mk.
Proof.
  intros [Hl Hh].
  assert (Hn : truthy (VStr mk) = true).
  { destruct mk; [discriminate | reflexivity]. }
  destruct (hex_upper_from_hex mk (hex_regex_all_hex _ Hh)) as [_ Hlen].
  { rewrite Hl. reflexivity. }
  rewrite Hl in Hlen. cbn in Hlen.
  split; [exact Hn|]. split; [exact Hlen|].
  apply copy_into_same_length. rewrite Hlen. reflexivity.
Qed.

Lemma lookup_cases (pn : string) (prof : SDMConfig.SDMProfile) :
  SDMConfig.lookup pn SDMConfig.profiles = Some prof ->
  (pn = "uidOnly" /\ prof = SDMConfig.uidOnly) \/
  (pn = "counterOnly" /\ prof = SDMConfig.counterOnly) \/
  (pn = "uidCounter" /\ prof = SDMConfig.uidCounter) \/
  (pn = "full" /\ prof = SDMConfig.full).
Proof.
  cbn [SDMConfig.lookup SDMConfig.profiles].
  repeat match goal with
         | |- context [String.eqb ?a ?b] =>
             destruct (String.eqb_spec a b); [intros [= <-]; subst; tauto|]
         end.
  discriminate.
Qed.

Lemma resolve_predefined (pn : string) (prof : SDMConfig.SDMProfile) :
  SDMConfig.lookup pn SDMConfig.profiles = Some prof ->
  Encoder.resolve_profile (SDMConfig.PName pn) = ret (Some prof).
Proof.
  intros H. apply lookup_cases in H as [[-> ->] | [[-> ->] | [[-> ->] | [-> ->]]]];
    reflexivity.
Qed.

Lemma convert_uid_ok (uid : jsval) :
  valid_uid uid ->
  exists ub,
    Encoder._validateAndConvertUID uid = ret ub /\
    LegacyEncoder._validateAndConvertUID uid = ret ub /\
    List.length ub = 7%nat /\ hd x00 ub = x04 /\ hex_upper ub = uid_text uid.
Proof.
  destruct uid as [| | b | n | s | b | fs]; cbn [valid_uid]; try tauto.
  - intros (Hl & Hh & H4). exists (Buf.from_hex s).
    unfold Encoder._validateAndConvertUID, LegacyEncoder._validateAndConvertUID.
    rewrite Hl, Hh. cbn [Nat.eqb negb].
    destruct (hex_upper_from_hex s (hex_regex_all_hex _ Hh)) as [Hu Hlen].
    { rewrite Hl. reflexivity. }
    rewrite Hl in Hlen. repeat split; assumption.
  - intros (Hl & H4). exists b.
    unfold Encoder._validateAndConvertUID, LegacyEncoder._validateAndConvertUID.
    rewrite Hl. cbn [Nat.eqb negb]. repeat split; assumption.
Qed.

Lemma counter_in_range_bounds (num : jsnum) :
  counter_in_range num = true -> 0 <= int_value num <= 16777215.
Proof.
  unfold counter_in_range. rewrite !andb_true_iff, !Z.leb_le. tauto.
Qed.

Lemma convert_counter_ok (num : jsnum) :
  counter_in_range num = true ->
  Encoder._validateAndConvertCounter (VNum num) = ret (Buf.writeUIntBE3 (int_value num)) /\
  LegacyEncoder._validateAndConvertCounter (VNum num)
  = ret (Buf.writeUIntBE3 (int_value num)).
Proof.
  intros H. pose proof (counter_in_range_bounds num H) as Hb.
  unfold counter_in_range in H. rewrite !andb_true_iff in H. destruct H as [[Hi _] _].
  unfold Encoder._validateAndConvertCounter, LegacyEncoder._validateAndConvertCounter.
  rewrite Hi. cbn [negb orb].
  destruct (int_value num <? 0) eqn:E1; [apply Z.ltb_lt in E1; lia|].
  destruct (int_value num >? 16777215) eqn:E2;
    [rewrite Z.gtb_ltb in E2; apply Z.ltb_lt in E2; lia|].
  split; reflexivity.
Qed.

Lemma convert_counter_rejects (num : jsnum) :
  counter_in_range num = false ->
  Encoder._validateAndConvertCounter (VNum num)
  = throw (Encoder.validation
             "Counter must be an integer between 0 and 16777215 (2^24 - 1)" "scanCount") /\
  LegacyEncoder._validateAndConvertCounter (VNum num)
  = throw (Err.plain "Counter must be an integer between 0 and 16777215 (2^24 - 1)").
Proof.
  intros H.
  unfold Encoder._validateAndConvertCounter, LegacyEncoder._validateAndConvertCounter.
  replace (negb (isInteger num) || (int_value num <? 0) || (int_value num >? 16777215))
    with true; [split; reflexivity|].
  symmetry. unfold counter_in_range in H.
  destruct (isInteger num); [|reflexivity]. cbn [negb orb andb] in *.
  rewrite Z.gtb_ltb.
  destruct (Z.leb_spec 0 (int_value num)), (Z.leb_spec (int_value num) 16777215);
    try discriminate.
  - destruct (Z.ltb_spec (int_value num) 0); [reflexivity|].
    destruct (Z.ltb_spec 16777215 (int_value num)); [reflexivity | lia].
  - destruct (Z.ltb_spec (int_value num) 0); [reflexivity | lia].
  - destruct (Z.ltb_spec (int_value num) 0); [reflexivity | lia].
Qed.

(** What the encoder builds for a predefined profile is a 16-byte block
    the decoder parses back into the same UID and counter bytes. *)
Lemma picc_block_ok (pn : string) (prof : SDMConfig.SDMProfile) (ub cb : bytes) :
  SDMConfig.lookup pn SDMConfig.profiles = Some prof ->
  List.length ub = 7%nat -> List.length cb = 3%nat ->
  exists block info,
    Encoder._buildPiccData ub cb prof = ret block /\
    LegacyEncoder._buildPiccData ub cb prof = ret block /\
    List.length block = 16%nat /\
    (forall lg, DataParser.extractPiccData lg block (Some prof) = ret info) /\
    dataTag info = Some xc7 /\
    uid info = (if SDMConfig.includeUID prof then Some ub else None) /\
    readCounterInt info =
      (if SDMConfig.includeCounter prof then Some (Buf.readUIntBE cb) else None) /\
    Encoder.profile_label prof = pn.
Proof.
  intros Hp Hu Hc.
  destruct ub as [|u0 [|u1 [|u2 [|u3 [|u4 [|u5 [|u6 [|]]]]]]]]; try discriminate.
  destruct cb as [|c0 [|c1 [|c2 [|]]]]; try discriminate.
  apply lookup_cases in Hp as [[-> ->] | [[-> ->] | [[-> ->] | [-> ->]]]];
    eexists; eexists;
    (split; [cbv; reflexivity|]); (split; [cbv; reflexivity|]);
    (split; [reflexivity|]);
    (split; [intros [|]; cbv -[Buf.readUIntBE]; reflexivity|]);
    repeat split.
Qed.


Lemma deriveKeys_ok (m : string) (key : bytes) :
  In m valid_methods -> List.length key = 16%nat ->
  exists sk,
    zero_vector_keys m key = Some sk /\
    List.length (encKey sk) = 16%nat /\ List.length (macKey sk) = 16%nat /\
    outcome (Encoder._deriveKeys key (Buf.alloc 7) (Buf.alloc 3) m) = inr sk /\
    outcome (LegacyEncoder._deriveKeys key (Buf.alloc 7) (Buf.alloc 3) m) = inr sk /\
    outcome (Decoder._deriveKeys key (Buf.alloc 7) (Buf.alloc 3) m) = inr sk /\
    forall this, masterKey this = key ->
      outcome (LegacyDecoder._deriveKeys this (Buf.alloc 7) (Buf.alloc 3) m) = inr sk.
Proof.
  intros Hm Hk.
  destruct (zero_vector_keys_ok m key Hm Hk) as (sk & f & Hf & Ho & Hz & He & Hmac).
  exists sk. split; [exact Hz|]. split; [exact He|]. split; [exact Hmac|].
  unfold Encoder._deriveKeys, LegacyEncoder._deriveKeys, Decoder._deriveKeys,
    LegacyDecoder._deriveKeys.
  rewrite Hf. rewrite !outcome_bind. cbn [outcome emit snd]. rewrite Ho.
  repeat split. intros this ->. rewrite outcome_bind. cbn [outcome emit snd]. exact Ho.
Qed.

Lemma validate_encrypt_ok (prof : SDMConfig.SDMProfile) (ub cb : bytes) (fd : jsval) :
  SDMConfig.nullish fd = true \/ SDMConfig.includeFileData prof = true ->
  SDMConfig.validateOperationWithProfile SDMConfig.OpEncrypt (SDMConfig.PObj prof)
    (VObj [("uid", VBuf ub); ("counter", VBuf cb); ("fileData", fd)]) = ret true.
Proof.
  intros H. unfold SDMConfig.validateOperationWithProfile, SDMConfig.encrypt_errors.
  cbn [Eff.bind ret JS.get JS.assoc String.eqb Ascii.eqb Bool.eqb truthy SDMConfig.nullish
       negb andb app].
  destruct H as [-> | ->]; cbn [negb andb app]; [|rewrite andb_false_r]; reflexivity.
Qed.

Lemma slice_first8 (b : bytes) :
  (8 <= List.length b)%nat -> Buf.slice b 0 8 = firstn 8 b.
Proof. intros H. apply (slice_0_length b 8 H). Qed.

Lemma encrypt_ok (mk : string) (uid : jsval) (num : jsnum) (options : EncryptOptions)
  (pn : string) (prof : SDMConfig.SDMProfile) :
  valid_master_key mk -> valid_uid uid -> counter_in_range num = true ->
  In (encrypt_method options) valid_methods ->
  encrypt_profile options VNull = SDMConfig.PName pn ->
  SDMConfig.lookup pn SDMConfig.profiles = Some prof ->
  exists sk ub block,
    zero_vector_keys (encrypt_method options) (Buf.from_hex mk) = Some sk /\
    List.length (encKey sk) = 16%nat /\ List.length (macKey sk) = 16%nat /\
    Encoder._validateAndConvertUID uid = ret ub /\
    Encoder._buildPiccData ub (Buf.writeUIntBE3 (int_value num)) prof = ret block /\
    let cipher := aes128_cbc_encrypt (encKey sk) AES.zeroIV block in
    outcome (Encoder.encrypt (VStr mk) uid (VNum num) VNull options) =
    inr (Encoded.mkResult
           (Encoded.mkOriginal (uid_text uid) (int_value num) "[REDACTED]"
              (encrypt_method options) (Some pn) None)
           (Encoded.mkEncrypted (hex_upper cipher)
              (hex_upper (firstn 8 (aesCmac (macKey sk) cipher))) None)
           (Some (Encoded.mkMetadata pn false))).
Proof.
  intros Hmk Huid Hn Hm Hp Hl.
  destruct (valid_master_key_facts mk Hmk) as (Ht & Hkl & Hcopy).
  destruct (convert_uid_ok uid Huid) as (ub & Hub & _ & Hubl & Hub4 & Hubt).
  destruct (convert_counter_ok num Hn) as [Hcb _].
  destruct (picc_block_ok pn prof ub (Buf.writeUIntBE3 (int_value num)) Hl Hubl eq_refl)
    as (block & info & Hblock & _ & Hbl & _ & _ & _ & _ & Hlabel).
  destruct (deriveKeys_ok _ _ Hm Hkl) as (sk & Hz & Hek & Hmkl & Hd & _).
  exists sk, ub, block.
  repeat (split; [assumption|]).
  intros cipher.
  unfold Encoder.encrypt. fold (encrypt_method options). fold (encrypt_profile options VNull).
  rewrite Hp. destruct Hmk as [Hlen Hhex].
  rewrite outcome_try_catch, outcome_bind.
  rewrite Ht, Hlen, Hhex. cbn [negb orb Nat.eqb outcome ret snd].
  rewrite outcome_bind, Hub. cbn [outcome ret snd].
  rewrite outcome_bind, Hcb. cbn [outcome ret snd].
  rewrite outcome_bind, (resolve_predefined _ _ Hl). cbn [outcome ret snd].
  rewrite outcome_bind, validate_encrypt_ok by (left; reflexivity).
  cbn [outcome ret snd].
  rewrite outcome_bind, Hblock. cbn [outcome ret snd].
  rewrite outcome_bind, Hcopy, Hd.
  rewrite outcome_bind. unfold AES.cbcEncrypt at 1. rewrite Hek.
  cbn [Nat.eqb negb]. rewrite outcome_bind. cbn [outcome emit ret snd truthy].
  rewrite outcome_bind. cbn [outcome ret snd fst].
  rewrite outcome_bind. unfold CMAC.calculate. rewrite Hmkl.
  cbn [Nat.eqb negb]. rewrite outcome_bind. cbn [outcome emit ret snd].
  rewrite slice_first8 by (rewrite cmac_length; lia).
  unfold Encoder._counterToNumber. cbn [Buf.writeUIntBE3 List.length Nat.min firstn].
  fold (Buf.writeUIntBE3 (int_value num)).
  rewrite readUIntBE_writeUIntBE3 by (apply counter_in_range_bounds; exact Hn).
  rewrite Hlabel. fold (hex_upper ub). rewrite Hubt. reflexivity.
Qed.

(* ------------------------------------------------------------------ *)
(** ** Decoding, step by step *)

Lemma hexToBuffer_hex_upper (lg : bool) (b : bytes) (f : string) :
  b <> [] -> DataParser.hexToBuffer lg (VStr (hex_upper b)) f = ret b.
Proof.
  intros Hb. unfold DataParser.hexToBuffer, DataParser.validateHexString.
  cbn [truthy]. rewrite hex_upper_nonempty, hex_regex_hex_upper by exact Hb.
  rewrite even_length_hex_upper, from_hex_hex_upper. reflexivity.
Qed.

Lemma own_hexToBuffer_hex_upper (b : bytes) (f : string) :
  b <> [] -> Decoder._hexToBuffer (VStr (hex_upper b)) f = ret b.
Proof.
  intros Hb. unfold Decoder._hexToBuffer, DataParser.validateHexString.
  cbn [truthy]. rewrite hex_upper_nonempty, hex_regex_hex_upper by exact Hb.
  rewrite even_length_hex_upper, from_hex_hex_upper. reflexivity.
Qed.

Lemma extractPiccData_total (block : bytes) (prof : SDMConfig.SDMProfile) :
  exists info, forall lg,
    DataParser.extractPiccData lg block (Some prof) = ret info.
Proof.
  unfold DataParser.extractPiccData. cbv zeta. eexists. intros lg. reflexivity.
Qed.

Lemma verify_ok (key data expected : bytes) :
  List.length key = 16%nat ->
  outcome (CMAC.verify key data expected) = inr (cmac_matches key data expected).
Proof.
  intros Hk. unfold CMAC.verify, CMAC.calculate, cmac_matches,
    MemoryManager.timingSafeEqual.
  rewrite Hk. cbn [Nat.eqb negb].
  rewrite outcome_try_catch, outcome_bind, outcome_bind. cbn [outcome emit ret snd].
  destruct (negb _); reflexivity.
Qed.

Lemma validateInput_ok (piccCipher cmacBytes : bytes) :
  piccCipher <> [] -> cmacBytes <> [] ->
  LegacyDecoder._validateInput (picc_cmac_input piccCipher cmacBytes) = ret tt.
Proof.
  intros Hp Hc.
  unfold LegacyDecoder._validateInput, DataParser.validateParsedData, picc_cmac_input,
    DataParser.validateHexString.
  cbn [JS.get JS.assoc String.eqb Ascii.eqb Bool.eqb truthy].
  rewrite !hex_upper_nonempty, !hex_regex_hex_upper by assumption.
  reflexivity.
Qed.

(** The older decoder on an object [{ picc, cmac }] whose PICC ciphertext
    decrypts: the result is a success exactly when the block passes
    [_isValidDecryption]; the CMAC only sets [cmacValid]. *)
Lemma legacy_decrypt_picc (this : DecoderState) (c : CustomOptions)
  (piccCipher cmacBytes block : bytes) (prof : SDMConfig.SDMProfile) (sk : SessionKeys) :
  let o := merge (options this) c in
  piccCipher <> [] -> cmacBytes <> [] ->
  (List.length piccCipher mod 16 = 0)%nat ->
  Encoder.resolve_profile (sdmProfile o) = ret (Some prof) ->
  outcome (LegacyDecoder._deriveKeys this (Buf.alloc 7) (Buf.alloc 3)
             (keyDerivationMethod o)) = inr sk ->
  List.length (encKey sk) = 16%nat -> List.length (macKey sk) = 16%nat ->
  aes128_cbc_decrypt (encKey sk) AES.zeroIV piccCipher = Some block ->
  exists info,
    (forall lg, DataParser.extractPiccData lg block (Some prof) = ret info) /\
    outcome (LegacyDecoder.decrypt this (picc_cmac_input piccCipher cmacBytes) c) =
    inr (if _isValidDecryption block info
         then Decoded.Success
                (Decoded.mkPayload
                   (option_map_hex (uid info)) (readCounterInt info)
                   (match dataTag info with
                    | Some t => Some (byte_toString16 t)
                    | None => None
                    end)
                   None
                   (if validateCMAC o
                    then cmac_matches (macKey sk) piccCipher cmacBytes else true)
                   (keys_text sk) (hex_upper block) None info)
         else Decoded.Failure
                (Decoded.mkFailure invalid_structure_message None None)).
Proof.
  intros o Hp Hc Hmod Hres Hd Hek Hmk Hdec.
  destruct (extractPiccData_total block prof) as [info Hinfo].
  exists info. split; [exact Hinfo|].
  unfold LegacyDecoder.decrypt. fold o.
  rewrite outcome_try_catch, outcome_bind.
  unfold LegacyDecoder._parseInput at 1, picc_cmac_input at 1.
  cbn [try_catch ret outcome snd].
  fold (picc_cmac_input piccCipher cmacBytes).
  rewrite outcome_bind.
  assert (Hv : outcome (if strictValidation o
                        then LegacyDecoder._validateInput
                               (picc_cmac_input piccCipher cmacBytes)
                        else ret tt) = inr tt).
  { destruct (strictValidation o); [|reflexivity].
    rewrite validateInput_ok by assumption. reflexivity. }
  rewrite Hv. unfold picc_cmac_input.
  cbn [JS.get JS.assoc String.eqb Ascii.eqb Bool.eqb truthy].
  rewrite outcome_bind, hexToBuffer_hex_upper by exact Hp. cbn [outcome ret snd].
  rewrite outcome_bind. cbn [outcome ret snd].
  rewrite outcome_bind, hexToBuffer_hex_upper by exact Hc. cbn [outcome ret snd].
  rewrite outcome_bind. unfold LegacyDecoder.resolve. rewrite Hres. cbn [outcome ret snd].
  rewrite outcome_bind.
  unfold LegacyDecoder._performDecryption.
  rewrite outcome_try_catch, outcome_bind, Hd.
  rewrite outcome_bind. unfold AES.cbcDecrypt. rewrite Hek, Hmod.
  destruct (List.length piccCipher =? 0)%nat eqn:E0.
  { apply Nat.eqb_eq in E0. destruct piccCipher; [congruence | discriminate]. }
  cbn [Nat.eqb negb]. rewrite outcome_bind. cbn [outcome emit snd]. rewrite Hdec.
  cbn [outcome ret snd].
  rewrite outcome_bind, Hinfo. cbn [outcome ret snd].
  rewrite outcome_bind.
  destruct (_isValidDecryption block info); cbn [negb outcome ret throw snd];
    [|reflexivity].
  rewrite outcome_bind. cbn [outcome ret snd].
  rewrite outcome_bind, app_nil_r.
  destruct (validateCMAC o).
  - rewrite outcome_try_catch, verify_ok by exact Hmk. reflexivity.
  - reflexivity.
Qed.


Lemma validate_decrypt_ok (prof : SDMConfig.SDMProfile) (piccCipher cmacBytes : bytes) :
  piccCipher <> [] -> cmacBytes <> [] ->
  SDMConfig.validateOperationWithProfile SDMConfig.OpDecrypt (SDMConfig.PObj prof)
    (picc_cmac_input piccCipher cmacBytes) = ret true.
Proof.
  intros Hp Hc.
  unfold SDMConfig.validateOperationWithProfile, SDMConfig.decrypt_errors, picc_cmac_input.
  cbn [Eff.bind ret JS.get JS.assoc String.eqb Ascii.eqb Bool.eqb truthy negb andb app].
  rewrite !hex_upper_nonempty by assumption. reflexivity.
Qed.

(** The newer decoder on the same input. *)
Lemma decrypt_picc (this : DecoderState) (c : CustomOptions)
  (piccCipher cmacBytes block : bytes) (prof : SDMConfig.SDMProfile) (sk : SessionKeys) :
  let o := merge (options this) c in
  cleared this = false ->
  piccCipher <> [] -> cmacBytes <> [] ->
  (List.length piccCipher mod 16 = 0)%nat ->
  Encoder.resolve_profile (sdmProfile o) = ret (Some prof) ->
  outcome (Decoder._deriveKeys (masterKey this) (Buf.alloc 7) (Buf.alloc 3)
             (keyDerivationMethod o)) = inr sk ->
  List.length (encKey sk) = 16%nat -> List.length (macKey sk) = 16%nat ->
  aes128_cbc_decrypt (encKey sk) AES.zeroIV piccCipher = Some block ->
  exists info,
    (forall lg, DataParser.extractPiccData lg block (Some prof) = ret info) /\
    outcome (Decoder.decrypt this (picc_cmac_input piccCipher cmacBytes) c) =
    inr (if _isValidDecryption block info
         then Decoded.Success
                (Decoded.mkPayload
                   (option_map_hex (uid info)) (readCounterInt info)
                   (match dataTag info with
                    | Some t => Some (byte_toString16 t)
                    | None => None
                    end)
                   None
                   (if validateCMAC o
                    then cmac_matches (macKey sk) piccCipher cmacBytes else true)
                   (keys_text sk) (hex_upper block) None info)
         else Decoded.Failure
                (Decoded.mkFailure "Invalid decrypted data structure"
                   (Some "DECRYPTION_ERROR") (Some "DecryptionError"))).
Proof.
  intros o Hcl Hp Hc Hmod Hres Hd Hek Hmk Hdec.
  destruct (extractPiccData_total block prof) as [info Hinfo].
  exists info. split; [exact Hinfo|].
  enter_decrypt. fold o.
  rewrite outcome_try_catch, outcome_bind.
  unfold Decoder._parseInput at 1, picc_cmac_input at 1.
  cbn [try_catch ret outcome snd].
  fold (picc_cmac_input piccCipher cmacBytes).
  rewrite outcome_bind, Hres. cbn [outcome ret snd].
  rewrite outcome_bind, validate_decrypt_ok by assumption. cbn [outcome ret snd].
  rewrite outcome_bind.
  unfold Decoder._performSecureDecryption, picc_cmac_input.
  cbn [JS.get JS.assoc String.eqb Ascii.eqb Bool.eqb truthy].
  rewrite outcome_bind, own_hexToBuffer_hex_upper by exact Hp. cbn [outcome ret snd].
  rewrite outcome_bind. cbn [outcome ret snd].
  rewrite outcome_bind, own_hexToBuffer_hex_upper by exact Hc. cbn [outcome ret snd].
  rewrite outcome_try_catch, outcome_bind.
  unfold Decoder.masterKeyBuffer_data. rewrite Hcl. cbn [outcome ret snd].
  rewrite outcome_bind, Hd.
  rewrite outcome_bind. unfold AES.cbcDecrypt. rewrite Hek, Hmod.
  destruct (List.length piccCipher =? 0)%nat eqn:E0.
  { apply Nat.eqb_eq in E0. destruct piccCipher; [congruence | discriminate]. }
  cbn [Nat.eqb negb]. rewrite outcome_bind. cbn [outcome emit snd]. rewrite Hdec.
  cbn [outcome ret snd].
  rewrite outcome_bind, Hinfo. cbn [outcome ret snd].
  rewrite outcome_bind.
  destruct (_isValidDecryption block info); cbn [negb outcome ret throw snd];
    [|reflexivity].
  rewrite outcome_bind. cbn [outcome ret snd].
  rewrite outcome_bind, app_nil_r.
  destruct (validateCMAC o).
  - rewrite outcome_try_catch, outcome_bind. unfold CMAC.calculate. rewrite Hmk.
    cbn [Nat.eqb negb]. rewrite outcome_bind. cbn [outcome emit ret snd].
    reflexivity.
  - reflexivity.
Qed.

End Forward.

(* ------------------------------------------------------------------ *)
(** ** Structural validation and the CMAC flag *)

Section DecodeResults.
Context {C : Crypto} (HC : CryptoSpec C).

Lemma zero_vector_keys_deriveKeys (this : DecoderState) (m : string) (sk : SessionKeys) :
  List.length (masterKey this) = 16%nat -> In m valid_methods ->
  zero_vector_keys m (masterKey this) = Some sk ->
  List.length (encKey sk) = 16%nat /\ List.length (macKey sk) = 16%nat /\
  outcome (LegacyDecoder._deriveKeys this (Buf.alloc 7) (Buf.alloc 3) m) = inr sk /\
  outcome (Decoder._deriveKeys (masterKey this) (Buf.alloc 7) (Buf.alloc 3) m) = inr sk.
Proof.
  intros Hk Hm Hz.
  destruct (deriveKeys_ok HC m (masterKey this) Hm Hk)
    as (sk' & Hz' & He & Hmac & _ & _ & Hd & Hl).
  assert (sk' = sk) by congruence. subst sk'.
  repeat split; try assumption. apply Hl. reflexivity.
Qed.


(** C6: on a well-formed block with CMAC validation enabled, a CMAC whose
    truncated recomputation does not match still gives [success = true]
    with the decoded fields populated; only [cmacValid] follows the
    comparison. *)
Theorem cmac_mismatch_keeps_success
  (this : DecoderState) (customOptions : CustomOptions)
  (piccCipher cmacBytes block : bytes) (prof : SDMConfig.SDMProfile) (sk : SessionKeys)
  (info : PiccInfo) :
  let o := merge (options this) customOptions in
  cleared this = false ->
  piccCipher <> [] -> cmacBytes <> [] ->
  (List.length piccCipher mod 16 = 0)%nat ->
  List.length (masterKey this) = 16%nat ->
  In (keyDerivationMethod o) valid_methods ->
  Encoder.resolve_profile (sdmProfile o) = ret (Some prof) ->
  zero_vector_keys (keyDerivationMethod o) (masterKey this) = Some sk ->
  aes128_cbc_decrypt (encKey sk) AES.zeroIV piccCipher = Some block ->
  DataParser.extractPiccData true block (Some prof) = ret info ->
  well_formed_picc block info ->
  validateCMAC o = true ->
  exists pl pc,
    outcome (LegacyDecoder.decrypt this (picc_cmac_input piccCipher cmacBytes)
               customOptions) = inr (Decoded.Success pl) /\
    outcome (Decoder.decrypt this (picc_cmac_input piccCipher cmacBytes)
               customOptions) = inr (Decoded.Success pc) /\
    Decoded.cmacValid pl = cmac_matches (macKey sk) piccCipher cmacBytes /\
    Decoded.cmacValid pc = cmac_matches (macKey sk) piccCipher cmacBytes /\
    Decoded.uid pl = option_map_hex (uid info) /\
    Decoded.uid pc = option_map_hex (uid info) /\
    Decoded.readCounter pl = readCounterInt info /\
    Decoded.readCounter pc = readCounterInt info /\
    Decoded.dataTag pl = Some "C7" /\ Decoded.dataTag pc = Some "C7" /\
    Decoded.rawPicc pl = hex_upper block /\ Decoded.rawPicc pc = hex_upper block.
Proof.
  intros o Hcl Hp Hc Hmod Hk Hm Hres Hz Hdec Hex Hwf Hv.
  destruct (zero_vector_keys_deriveKeys this _ sk Hk Hm Hz) as (He & Hmac & Hdl & Hdc).
  destruct (legacy_decrypt_picc this customOptions piccCipher cmacBytes block prof sk
              Hp Hc Hmod Hres Hdl He Hmac Hdec) as (info1 & Hinfo1 & Hl).
  destruct (decrypt_picc this customOptions piccCipher cmacBytes block prof sk
              Hcl Hp Hc Hmod Hres Hdc He Hmac Hdec) as (info2 & Hinfo2 & Hcur).
  assert (info1 = info).
  { specialize (Hinfo1 true). rewrite Hex in Hinfo1. injection Hinfo1 as <-. reflexivity. }
  assert (info2 = info).
  { specialize (Hinfo2 true). rewrite Hex in Hinfo2. injection Hinfo2 as <-. reflexivity. }
  subst info1 info2.
  pose proof (proj2 (isValidDecryption_iff block info) Hwf) as Hvalid.
  rewrite Hvalid in Hl, Hcur. fold o in Hl, Hcur. rewrite Hv in Hl, Hcur.
  destruct Hwf as (Htag & _).
  eexists. eexists. split; [exact Hl|]. split; [exact Hcur|].
  cbn [Decoded.cmacValid Decoded.uid Decoded.readCounter Decoded.dataTag Decoded.rawPicc].
  rewrite Htag. repeat split.
Qed.

End DecodeResults.


Lemma cmac_mismatch_keeps_success_witness :
  (exists pl pc,
    outcome (@LegacyDecoder.decrypt Toy.crypto Sample.decoder
               (picc_cmac_input Sample.picc Sample.wrong_cmac) no_custom)
    = inr (Decoded.Success pl) /\
    outcome (@Decoder.decrypt Toy.crypto Sample.decoder
               (picc_cmac_input Sample.picc Sample.wrong_cmac) no_custom)
    = inr (Decoded.Success pc) /\
    Decoded.cmacValid pl
    = @cmac_matches Toy.crypto (macKey Sample.keys) Sample.picc Sample.wrong_cmac /\
    Decoded.cmacValid pc
    = @cmac_matches Toy.crypto (macKey Sample.keys) Sample.picc Sample.wrong_cmac /\
    Decoded.uid pl = option_map_hex (uid SampleInfo.info) /\
    Decoded.uid pc = option_map_hex (uid SampleInfo.info) /\
    Decoded.readCounter pl = readCounterInt SampleInfo.info /\
    Decoded.readCounter pc = readCounterInt SampleInfo.info /\
    Decoded.dataTag pl = Some "C7" /\ Decoded.dataTag pc = Some "C7" /\
    Decoded.rawPicc pl = hex_upper Sample.block /\
    Decoded.rawPicc pc = hex_upper Sample.block) /\
  @cmac_matches Toy.crypto (macKey Sample.keys) Sample.picc Sample.wrong_cmac = false.
Proof.
  split; [|vm_compute; reflexivity].
  apply (cmac_mismatch_keeps_success (C := Toy.crypto) toy_spec
           Sample.decoder no_custom Sample.picc Sample.wrong_cmac Sample.block
           SDMConfig.uidCounter Sample.keys SampleInfo.info).
  - reflexivity.
  - discriminate.
  - discriminate.
  - reflexivity.
  - reflexivity.
  - left. reflexivity.
  - reflexivity.
  - vm_compute. reflexivity.
  - vm_compute. reflexivity.
  - vm_compute. reflexivity.
  - apply isValidDecryption_iff. vm_compute. reflexivity.
  - reflexivity.
Defined.

(* ------------------------------------------------------------------ *)
(** ** Round trip *)

Section RoundTrip.
Context {C : Crypto} (HC : CryptoSpec C).

Lemma existsb_In (x : string) (l : list string) :
  In x l -> existsb (String.eqb x) l = true.
Proof.
  intros H. apply existsb_exists. exists x. split; [exact H | apply String.eqb_refl].
Qed.

Lemma lookup_available (pn : string) (prof : SDMConfig.SDMProfile) :
  SDMConfig.lookup pn SDMConfig.profiles = Some prof ->
  In pn SDMConfig.getAvailableProfiles.
Proof.
  intros H. apply lookup_cases in H as [[-> _] | [[-> _] | [[-> _] | [-> _]]]];
    cbn; tauto.
Qed.

(** Both constructors accept a valid key, a known method and a predefined
    profile name, and keep the key bytes. *)
Lemma new_decoder_ok (mk : string) (o : DecoderOptions) (pn : string)
  (prof : SDMConfig.SDMProfile) :
  valid_master_key mk -> In (keyDerivationMethod o) valid_methods ->
  sdmProfile o = SDMConfig.PName pn ->
  SDMConfig.lookup pn SDMConfig.profiles = Some prof ->
  LegacyDecoder.new (VStr mk) o = ret (mkDecoder (Buf.from_hex mk) o false) /\
  Decoder.new (VStr mk) o = ret (mkDecoder (Buf.from_hex mk) o false).
Proof.
  intros Hmk Hm Hp Hl.
  destruct (valid_master_key_facts mk Hmk) as (Ht & Hkl & Hcopy).
  destruct Hmk as [Hlen Hhex].
  assert (Hv : _validateOptions o = None).
  { unfold _validateOptions. rewrite (existsb_In _ _ Hm), Hp.
    rewrite (existsb_In _ _ (lookup_available _ _ Hl)). reflexivity. }
  unfold LegacyDecoder.new, Decoder.new, Decoder._validateMasterKey.
  rewrite Ht, Hlen, Hhex. cbn [negb orb Nat.eqb Eff.bind ret try_catch].
  rewrite Hcopy, Hv. split; reflexivity.
Qed.

Lemma cmac_matches_own (key data : bytes) :
  cmac_matches key data (firstn 8 (aesCmac key data)) = true.
Proof.
  unfold cmac_matches, MemoryManager.timingSafeEqual.
  assert (Hl : List.length (firstn 8 (aesCmac key data)) = 8%nat).
  { rewrite length_firstn, cmac_length. reflexivity. }
  unfold Buf.len. rewrite Hl. change (Z.of_nat 8) with 8.
  rewrite (slice_first8 (aesCmac key data)) by (rewrite cmac_length; lia).
  rewrite Hl, eqb_refl. reflexivity.
Qed.

(** Without file data: for every predefined profile both decoders return
    [success = true], [cmacValid = true], the UID in upper case when the
    profile holds a UID and the counter when it holds a counter; a field
    the profile leaves out is decoded as [null]. *)
Lemma round_trip_plain
  (masterKey : string) (uid : jsval) (counter : Z) (opts : EncryptOptions)
  (profileName : string) (prof : SDMConfig.SDMProfile) (strict : bool) :
  valid_master_key masterKey -> valid_uid uid -> 0 <= counter <= 16777215 ->
  In (encrypt_method opts) valid_methods ->
  encrypt_profile opts VNull = SDMConfig.PName profileName ->
  SDMConfig.lookup profileName SDMConfig.profiles = Some prof ->
  exists e dl dc rl rc,
    outcome (Encoder.encrypt (VStr masterKey) uid (VNum (NInt counter)) VNull opts)
    = inr e /\
    outcome (LegacyDecoder.new (VStr masterKey)
               (matching_options opts profileName strict)) = inr dl /\
    outcome (Decoder.new (VStr masterKey)
               (matching_options opts profileName strict)) = inr dc /\
    outcome (LegacyDecoder.decrypt dl (Encoded.to_input e) no_custom) = inr rl /\
    outcome (Decoder.decrypt dc (Encoded.to_input e) no_custom) = inr rc /\
    round_trip_result_for prof uid counter rl /\
    round_trip_result_for prof uid counter rc.
Proof.
  intros Hmk Huid Hn Hm Hp Hl.
  assert (Hr : counter_in_range (NInt counter) = true).
  { unfold counter_in_range. cbn [isInteger int_value andb].
    apply andb_true_iff. rewrite !Z.leb_le. exact Hn. }
  destruct (encrypt_ok HC masterKey uid (NInt counter) opts profileName prof
              Hmk Huid Hr Hm Hp Hl)
    as (sk & ub & block & Hz & Hek & Hmac & Hub & Hblock & Henc).
  cbn [int_value] in *. cbv zeta in Henc.
  set (cipher := aes128_cbc_encrypt (encKey sk) AES.zeroIV block) in *.
  set (mac8 := firstn 8 (aesCmac (macKey sk) cipher)) in *.
  set (o := matching_options opts profileName strict).
  destruct (new_decoder_ok masterKey o profileName prof Hmk Hm eq_refl Hl) as [Hnl Hnc].
  set (this := mkDecoder (Buf.from_hex masterKey) o false) in *.
  destruct (valid_master_key_facts masterKey Hmk) as (_ & Hkl & _).
  destruct (convert_uid_ok uid Huid) as (ub' & Hub' & _ & Hubl & Hub4 & Hubt).
  assert (ub' = ub) by (rewrite Hub in Hub'; injection Hub' as <-; reflexivity).
  subst ub'.
  destruct (picc_block_ok profileName prof ub (Buf.writeUIntBE3 counter) Hl Hubl eq_refl)
    as (block' & info & Hblock' & _ & Hbl & Hinfo & Htag & Hiu & Hic & _).
  assert (block' = block) by (rewrite Hblock in Hblock'; injection Hblock' as <-; reflexivity).
  subst block'.
  assert (Hcl : List.length cipher = (16 * (List.length block / 16 + 1))%nat)
    by apply cbc_length.
  assert (Hcne : cipher <> []).
  { intros E. rewrite E in Hcl. cbn [List.length] in Hcl. lia. }
  assert (Hcmod : (List.length cipher mod 16 = 0)%nat).
  { rewrite Hcl, Nat.mul_comm. apply Nat.Div0.mod_mul. }
  assert (Hmne : mac8 <> []).
  { intros E. assert (Hl8 : List.length mac8 = 8%nat).
    { unfold mac8. rewrite length_firstn, cmac_length. reflexivity. }
    rewrite E in Hl8. discriminate. }
  assert (Hdec : aes128_cbc_decrypt (encKey sk) AES.zeroIV cipher = Some block).
  { apply cbc_roundtrip; [exact Hek | reflexivity]. }
  assert (Hres : Encoder.resolve_profile (sdmProfile (merge (options this) no_custom))
                 = ret (Some prof)).
  { apply resolve_predefined. exact Hl. }
  assert (Hwf : well_formed_picc block info).
  { unfold well_formed_picc. split; [exact Htag|]. split.
    - unfold Buf.len. rewrite Hbl. lia.
    - rewrite Hiu, Hic. split.
      + intros u Eu. destruct (SDMConfig.includeUID prof); [|discriminate].
        injection Eu as <-. destruct ub; [discriminate|]. cbn in Hub4. subst. reflexivity.
      + intros c Ec. destruct (SDMConfig.includeCounter prof); [|discriminate].
        injection Ec as <-. rewrite readUIntBE_writeUIntBE3 by exact Hn. exact Hn. }
  destruct (zero_vector_keys_deriveKeys HC this _ sk Hkl Hm Hz) as (_ & _ & Hdl & Hdc).
  destruct (legacy_decrypt_picc this no_custom cipher mac8 block prof sk
              Hcne Hmne Hcmod Hres Hdl Hek Hmac Hdec) as (info1 & Hinfo1 & Hrl).
  destruct (decrypt_picc this no_custom cipher mac8 block prof sk
              eq_refl Hcne Hmne Hcmod Hres Hdc Hek Hmac Hdec) as (info2 & Hinfo2 & Hrc).
  assert (info1 = info).
  { specialize (Hinfo true). specialize (Hinfo1 true). rewrite Hinfo in Hinfo1.
    injection Hinfo1 as <-. reflexivity. }
  assert (info2 = info).
  { specialize (Hinfo true). specialize (Hinfo2 true). rewrite Hinfo in Hinfo2.
    injection Hinfo2 as <-. reflexivity. }
  subst info1 info2.
  rewrite (proj2 (isValidDecryption_iff block info) Hwf) in Hrl, Hrc.
  cbn [validateCMAC merge options this o matching_options no_custom override
       c_validateCMAC] in Hrl, Hrc.
  eexists. exists this, this. eexists. eexists.
  split; [exact Henc|]. split; [rewrite Hnl; reflexivity|].
  split; [rewrite Hnc; reflexivity|].
  cbn [Encoded.to_input Encoded.encrypted Encoded.picc Encoded.cmac Encoded.enc app].
  fold (picc_cmac_input cipher mac8).
  split; [exact Hrl|]. split; [exact Hrc|].
  unfold round_trip_result_for.
  cbn [Decoded.success Decoded.get_cmacValid Decoded.get_uid Decoded.get_readCounter
       Decoded.cmacValid Decoded.uid Decoded.readCounter].
  rewrite Hiu, Hic.
  unfold mac8. rewrite cmac_matches_own.
  rewrite readUIntBE_writeUIntBE3 by exact Hn. rewrite <- Hubt.
  repeat split; destruct (SDMConfig.includeUID prof); reflexivity.
Qed.

End RoundTrip.

(** With the [uidOnly] profile the decoded [readCounter] is [null], so the
    round trip as worded for every profile fails there. *)
Lemma round_trip_fails_for_uidOnly :
  ~ @round_trip_claim Toy.crypto Toy.sample_key (VStr Toy.sample_uid) 42
      (Sample.options_for "ntag424Official" "uidOnly") "uidOnly".
Proof.
  intros (e & d & r & He & Hd & Hr & _ & _ & _ & Hc).
  vm_compute in He. injection He as <-.
  vm_compute in Hd. injection Hd as <-.
  vm_compute in Hr. injection Hr as <-.
  vm_compute in Hc. discriminate Hc.
Qed.


(* ------------------------------------------------------------------ *)
(** ** What a successful [Encoder.encrypt] returns *)

Section EncoderInversion.
Context {C : Crypto}.

Lemma slice_0_firstn (b : bytes) (n : nat) : Buf.slice b 0 (Z.of_nat n) = firstn n b.
Proof.
  destruct (Nat.le_gt_cases n (List.length b)) as [H | H].
  - apply slice_0_length. exact H.
  - rewrite firstn_all2 by lia.
    unfold Buf.slice, Buf.clamp, Buf.len. cbn [Z.ltb Z.compare].
    destruct (Z.of_nat n <? 0) eqn:E; [lia|].
    rewrite (Z.min_l 0), (Z.min_r (Z.of_nat n)) by lia.
    destruct (Z.of_nat (List.length b) <=? 0) eqn:E2.
    + destruct b; [reflexivity|]. exfalso. apply Z.leb_le in E2.
      cbn [List.length] in E2. lia.
    + cbn [Z.to_nat skipn]. rewrite Z.sub_0_r, Nat2Z.id. apply firstn_all.
Qed.

Lemma cbcEncrypt_inr (key data c : bytes) :
  outcome (AES.cbcEncrypt key data) = inr c ->
  List.length key = 16%nat /\ c = aes128_cbc_encrypt key AES.zeroIV data.
Proof.
  unfold AES.cbcEncrypt. destruct (List.length key =? 16)%nat eqn:E; cbn; [|discriminate].
  apply Nat.eqb_eq in E. intros H. injection H as <-. split; [exact E | reflexivity].
Qed.

Lemma calculate_inr (key data mac : bytes) :
  outcome (CMAC.calculate key data) = inr mac ->
  List.length key = 16%nat /\ mac = aesCmac key data.
Proof.
  unfold CMAC.calculate. destruct (List.length key =? 16)%nat eqn:E; cbn; [|discriminate].
  apply Nat.eqb_eq in E. intros H. injection H as <-. split; [exact E | reflexivity].
Qed.

Lemma deriveKeys_inr (key : bytes) (m : string) (sk : SessionKeys) :
  (outcome (Encoder._deriveKeys key (Buf.alloc 7) (Buf.alloc 3) m) = inr sk \/
   outcome (LegacyEncoder._deriveKeys key (Buf.alloc 7) (Buf.alloc 3) m) = inr sk) ->
  zero_vector_keys m key = Some sk.
Proof.
  unfold Encoder._deriveKeys, LegacyEncoder._deriveKeys, zero_vector_keys.
  destruct (KeyDerivation.derivationMethods m) as [f|].
  - rewrite !outcome_bind. cbn [outcome emit snd]. unfold zeroUID, zeroCounter.
    intros [-> | ->]; reflexivity.
  - destruct (inherited m); cbn; intros [H | H]; discriminate.
Qed.

Ltac invert_bind H x Hx :=
  apply bind_inr in H as (x & Hx & H).

(** The shape of every result of the encoder that checks the profile. *)
Lemma encrypt_inr (masterKey uid scanCount fileData : jsval) (opts : EncryptOptions)
  (r : Encoded.result) :
  outcome (Encoder.encrypt masterKey uid scanCount fileData opts) = inr r ->
  Encoded.masterKey (Encoded.original r) = "[REDACTED]" /\
  cmac_over_ciphertexts (encrypt_method opts) (encrypt_key masterKey) fileData r.
Proof.
  unfold Encoder.encrypt. intros H.
  apply try_catch_inr in H as [H | (e & _ & H)].
  2:{ destruct (negb _); cbn in H; discriminate. }
  fold (encrypt_method opts) in H.
  invert_bind H key Hkey.
  assert (Hmk : masterKey = VStr key).
  { destruct masterKey as [| | b | n | s | b | fs]; try (cbn in Hkey; discriminate).
    destruct (negb (truthy (VStr s)) || negb (String.length s =? 32)%nat);
      [cbn in Hkey; discriminate|].
    destruct (negb (Buf.hex_regex s)); cbn in Hkey; [discriminate|]. congruence. }
  invert_bind H uidBuffer Huid. invert_bind H counterBuffer Hcounter.
  invert_bind H resolved Hres.
  destruct resolved as [profile|]; [|cbn in H; discriminate].
  invert_bind H ok Hok. invert_bind H piccData Hpicc.
  invert_bind H sessionKeys Hsk. invert_bind H encryptedPicc Hep.
  invert_bind H file Hfile. invert_bind H mac Hmac.
  cbn [outcome ret snd] in H. injection H as <-.
  apply cbcEncrypt_inr in Hep as [Hek ->].
  apply calculate_inr in Hmac as [Hmkl ->].
  split; [reflexivity|].
  exists sessionKeys, (aes128_cbc_encrypt (encKey sessionKeys) AES.zeroIV piccData),
    (fst file).
  subst masterKey. cbn [encrypt_key].
  split; [apply deriveKeys_inr; left; exact Hsk|].
  cbn [Encoded.encrypted Encoded.picc Encoded.enc Encoded.cmac].
  split; [reflexivity|]. split; [destruct (fst file); reflexivity|].
  set (fd := match fileData with VUndefined => VNull | v => v end) in *.
  assert (Hfd : truthy fd = truthy fileData) by (destruct fileData; reflexivity).
  rewrite <- Hfd.
  assert (Hf : (fst file <> None <-> truthy fd = true) /\
               snd file = aes128_cbc_encrypt (encKey sessionKeys) AES.zeroIV piccData
                          ++ match fst file with Some f => f | None => [] end).
  { destruct (truthy fd).
    - destruct (negb (SDMConfig.includeFileData profile)); [cbn in Hfile; discriminate|].
      invert_bind Hfile fileBuffer Hfb. invert_bind Hfile encryptedFile Hef.
      cbn [outcome ret snd] in Hfile. injection Hfile as <-. cbn [fst snd].
      split; [split; [reflexivity | discriminate] | reflexivity].
    - cbn [outcome ret snd] in Hfile. injection Hfile as <-. cbn [fst snd].
      rewrite app_nil_r. split; [split; [congruence | discriminate] | reflexivity]. }
  destruct Hf as [Hf1 Hf2]. split; [exact Hf1|]. rewrite Hf2.
  change 8 with (Z.of_nat 8). rewrite slice_0_firstn. reflexivity.
Qed.

(** The shape of every result of the older encoder. *)
Lemma legacy_encrypt_inr (masterKey uid scanCount fileData : jsval) (opts : EncryptOptions)
  (r : Encoded.result) :
  outcome (LegacyEncoder.encrypt masterKey uid scanCount fileData opts) = inr r ->
  masterKey = VStr (Encoded.masterKey (Encoded.original r)) /\
  cmac_over_ciphertexts (encrypt_method opts) (legacy_encrypt_key masterKey) fileData r.
Proof.
  unfold LegacyEncoder.encrypt. intros H.
  apply try_catch_inr in H as [H | (e & _ & H)].
  2:{ cbn in H; discriminate. }
  fold (encrypt_method opts) in H.
  invert_bind H key Hkey.
  assert (Hmk : masterKey = VStr key).
  { destruct masterKey as [| | b | n | s | b | fs]; try (cbn in Hkey; discriminate).
    destruct (negb (truthy (VStr s)) || negb (String.length s =? 32)%nat);
      cbn in Hkey; [discriminate|]. congruence. }
  invert_bind H uidBuffer Huid. invert_bind H counterBuffer Hcounter.
  invert_bind H resolved Hres.
  destruct resolved as [profile|]; [|cbn in H; discriminate].
  invert_bind H piccData Hpicc.
  invert_bind H sessionKeys Hsk. invert_bind H encryptedPicc Hep.
  invert_bind H file Hfile. invert_bind H mac Hmac.
  cbn [outcome ret snd] in H. injection H as <-.
  apply cbcEncrypt_inr in Hep as [Hek ->].
  apply calculate_inr in Hmac as [Hmkl ->].
  split; [exact Hmk|].
  exists sessionKeys, (aes128_cbc_encrypt (encKey sessionKeys) AES.zeroIV piccData),
    (fst file).
  subst masterKey. cbn [legacy_encrypt_key].
  split; [apply deriveKeys_inr; right; exact Hsk|].
  cbn [Encoded.encrypted Encoded.picc Encoded.enc Encoded.cmac].
  split; [reflexivity|]. split; [destruct (fst file); reflexivity|].
  set (fd := match fileData with VUndefined => VNull | v => v end) in *.
  assert (Hfd : truthy fd = truthy fileData) by (destruct fileData; reflexivity).
  rewrite <- Hfd.
  assert (Hf : (fst file <> None <-> truthy fd = true) /\
               snd file = aes128_cbc_encrypt (encKey sessionKeys) AES.zeroIV piccData
                          ++ match fst file with Some f => f | None => [] end).
  { destruct (truthy fd).
    - invert_bind Hfile fileBuffer Hfb. invert_bind Hfile encryptedFile Hef.
      cbn [outcome ret snd] in Hfile. injection Hfile as <-. cbn [fst snd].
      split; [split; [reflexivity | discriminate] | reflexivity].
    - cbn [outcome ret snd] in Hfile. injection Hfile as <-. cbn [fst snd].
      rewrite app_nil_r. split; [split; [congruence | discriminate] | reflexivity]. }
  destruct Hf as [Hf1 Hf2]. split; [exact Hf1|]. rewrite Hf2.
  change 8 with (Z.of_nat 8). rewrite slice_0_firstn. reflexivity.
Qed.

End EncoderInversion.

(** C4: for every successful [Encoder.encrypt] call, in both copies of
    encoder.js, the emitted [cmac] is the upper-case hex text of the first
    8 bytes of the AES-CMAC under the derived MAC key over the PICC
    ciphertext, followed by the file ciphertext exactly when file data is
    present; it is 16 hex characters long. *)
Theorem cmac_is_truncated_aes_cmac {C : Crypto} (HC : CryptoSpec C)
  (masterKey uid scanCount fileData : jsval) (opts : EncryptOptions)
  (r : Encoded.result) :
  (outcome (Encoder.encrypt masterKey uid scanCount fileData opts) = inr r ->
   cmac_over_ciphertexts (encrypt_method opts) (encrypt_key masterKey) fileData r /\
   String.length (Encoded.cmac (Encoded.encrypted r)) = 16%nat) /\
  (outcome (LegacyEncoder.encrypt masterKey uid scanCount fileData opts) = inr r ->
   cmac_over_ciphertexts (encrypt_method opts) (legacy_encrypt_key masterKey) fileData r /\
   String.length (Encoded.cmac (Encoded.encrypted r)) = 16%nat).
Proof.
  assert (Hlen : forall method key,
             cmac_over_ciphertexts method key fileData r ->
             String.length (Encoded.cmac (Encoded.encrypted r)) = 16%nat).
  { intros method key (sk & pc & fc & _ & _ & _ & _ & ->).
    rewrite length_hex_upper, length_firstn, cmac_length. reflexivity. }
  split; intros H.
  - apply encrypt_inr in H as [_ H]. split; [exact H | exact (Hlen _ _ H)].
  - apply legacy_encrypt_inr in H as [_ H]. split; [exact H | exact (Hlen _ _ H)].
Qed.

Lemma cmac_is_truncated_aes_cmac_witness :
  (@cmac_over_ciphertexts Toy.crypto (encrypt_method no_options)
     (encrypt_key (VStr Toy.sample_key)) (VStr "Secret Message!") SampleRun.with_file /\
   String.length (Encoded.cmac (Encoded.encrypted SampleRun.with_file)) = 16%nat) /\
  (@cmac_over_ciphertexts Toy.crypto (encrypt_method no_options)
     (legacy_encrypt_key (VStr Toy.sample_key)) VNull SampleRun.legacy_plain /\
   String.length (Encoded.cmac (Encoded.encrypted SampleRun.legacy_plain)) = 16%nat).
Proof.
  split.
  - apply (proj1 (cmac_is_truncated_aes_cmac toy_spec (VStr Toy.sample_key)
                    (VStr Toy.sample_uid) (VNum (NInt 42)) (VStr "Secret Message!")
                    no_options SampleRun.with_file)).
    vm_compute. reflexivity.
  - apply (proj2 (cmac_is_truncated_aes_cmac toy_spec (VStr Toy.sample_key)
                    (VStr Toy.sample_uid) (VNum (NInt 42)) VNull
                    no_options SampleRun.legacy_plain)).
    vm_compute. reflexivity.
Defined.

(** C9: every result of the encoder of encoder.js that validates the
    profile carries the text [[REDACTED]] as [originalData.masterKey];
    every result of the older copy carries the master key it was given. *)
Theorem masterKey_in_originalData {C : Crypto}
  (masterKey uid scanCount fileData : jsval) (opts : EncryptOptions)
  (r : Encoded.result) :
  (outcome (Encoder.encrypt masterKey uid scanCount fileData opts) = inr r ->
   Encoded.masterKey (Encoded.original r) = "[REDACTED]") /\
  (outcome (LegacyEncoder.encrypt masterKey uid scanCount fileData opts) = inr r ->
   masterKey = VStr (Encoded.masterKey (Encoded.original r))).
Proof.
  split; intros H.
  - apply encrypt_inr in H as [H _]. exact H.
  - apply legacy_encrypt_inr in H as [H _]. exact H.
Qed.

Lemma masterKey_in_originalData_witness :
  Encoded.masterKey (Encoded.original SampleRun.plain) = "[REDACTED]" /\
  VStr Toy.sample_key = VStr (Encoded.masterKey (Encoded.original SampleRun.legacy_plain)).
Proof.
  split.
  - apply (proj1 (@masterKey_in_originalData Toy.crypto (VStr Toy.sample_key)
                    (VStr Toy.sample_uid) (VNum (NInt 42)) VNull
                    no_options SampleRun.plain)).
    vm_compute. reflexivity.
  - apply (proj2 (@masterKey_in_originalData Toy.crypto (VStr Toy.sample_key)
                    (VStr Toy.sample_uid) (VNum (NInt 42)) VNull
                    no_options SampleRun.legacy_plain)).
    vm_compute. reflexivity.
Defined.

(* ------------------------------------------------------------------ *)
(** ** Validation in [Encoder.encrypt] *)

Section EncodeValidation.
Context {C : Crypto} (HC : CryptoSpec C).

Lemma normalised_fileData (fd : jsval) :
  truthy match fd with VUndefined => VNull | v => v end = truthy fd /\
  SDMConfig.nullish match fd with VUndefined => VNull | v => v end = SDMConfig.nullish fd /\
  (SDMConfig.nullish fd = false -> match fd with VUndefined => VNull | v => v end = fd).
Proof. destruct fd; repeat split; try reflexivity; discriminate. Qed.

(** A counter outside the range stops both encoders before any primitive
    is called. *)
Lemma encrypt_rejects_counter (mk : string) (uid : jsval) (num : jsnum) (fd : jsval)
  (opts : EncryptOptions) :
  valid_master_key mk -> valid_uid uid -> counter_in_range num = false ->
  Encoder.encrypt (VStr mk) uid (VNum num) fd opts
  = throw (Encoder.validation
             "Counter must be an integer between 0 and 16777215 (2^24 - 1)" "scanCount") /\
  LegacyEncoder.encrypt (VStr mk) uid (VNum num) fd opts
  = throw (Err.plain
             "Encryption failed: Counter must be an integer between 0 and 16777215 (2^24 - 1)").
Proof.
  intros Hmk Huid Hn.
  destruct (valid_master_key_facts mk Hmk) as (Ht & _ & _).
  destruct (convert_uid_ok uid Huid) as (ub & Hub & Hubl & _).
  destruct (convert_counter_rejects num Hn) as [Hc Hcl].
  destruct Hmk as [Hlen Hhex].
  unfold Encoder.encrypt, LegacyEncoder.encrypt.
  rewrite Ht, Hlen, Hhex, Hub, Hubl, Hc, Hcl. split; reflexivity.
Qed.

(** File data and a profile without file data: the profile check throws an
    [SDMProfileError], which [encrypt] catches and replaces. *)
Lemma encrypt_gated (mk : string) (uid : jsval) (num : jsnum) (fd : jsval)
  (opts : EncryptOptions) (prof : SDMConfig.SDMProfile) :
  valid_master_key mk -> valid_uid uid -> counter_in_range num = true ->
  SDMConfig.nullish fd = false ->
  Encoder.resolve_profile (encrypt_profile opts fd) = ret (Some prof) ->
  SDMConfig.includeFileData prof = false ->
  Encoder.encrypt (VStr mk) uid (VNum num) fd opts
  = throw (Err.mkError Err.EncryptionError
             ("Encryption failed: SDM profile validation failed: Profile '" +++
              SDMConfig.name_text prof +++
              "' does not support file data encryption. Use 'full' profile instead.")
             "encrypt").
Proof.
  intros Hmk Huid Hn Hfd Hres Hinc.
  destruct (valid_master_key_facts mk Hmk) as (Ht & _ & _).
  destruct (convert_uid_ok uid Huid) as (ub & Hub & _ & _).
  destruct (convert_counter_ok num Hn) as [Hc _].
  destruct Hmk as [Hlen Hhex].
  destruct (normalised_fileData fd) as (_ & _ & Hnorm). specialize (Hnorm Hfd).
  unfold Encoder.encrypt. rewrite Hnorm. fold (encrypt_profile opts fd).
  rewrite Ht, Hlen, Hhex, Hub, Hc, Hres.
  cbn [Eff.bind ret negb orb Nat.eqb app].
  unfold SDMConfig.validateOperationWithProfile, SDMConfig.encrypt_errors.
  cbn [Eff.bind ret JS.get JS.assoc String.eqb Ascii.eqb Bool.eqb truthy
       SDMConfig.nullish].
  rewrite Hfd, Hinc. reflexivity.
Qed.

(** Whatever [encrypt] throws is a [ValidationError] or an
    [EncryptionError]. *)
Lemma encrypt_error_classes (masterKey uid scanCount fileData : jsval)
  (opts : EncryptOptions) (e : Err.jserror) :
  outcome (Encoder.encrypt masterKey uid scanCount fileData opts) = inl e ->
  Err.name e = Err.ValidationError \/ Err.name e = Err.EncryptionError.
Proof.
  unfold Encoder.encrypt. intros H.
  apply try_catch_inl in H as (e' & _ & H).
  unfold Err.instanceof in H.
  destruct (Err.name e') eqn:E; cbn in H; injection H as <-; cbn; auto.
Qed.

(** Valid arguments and a predefined profile: the older encoder succeeds,
    with or without file data, whatever the profile says about file data. *)
Lemma legacy_encrypt_ok (mk : string) (uid : jsval) (num : jsnum) (fd : jsval)
  (opts : EncryptOptions) (pn : string) (prof : SDMConfig.SDMProfile) :
  valid_master_key mk -> valid_uid uid -> counter_in_range num = true ->
  In (encrypt_method opts) valid_methods ->
  encrypt_profile opts fd = SDMConfig.PName pn ->
  SDMConfig.lookup pn SDMConfig.profiles = Some prof ->
  truthy fd = false \/ (exists s, fd = VStr s) \/ (exists b, fd = VBuf b) ->
  exists r,
    outcome (LegacyEncoder.encrypt (VStr mk) uid (VNum num) fd opts) = inr r /\
    Encoded.scanCount (Encoded.original r) = int_value num /\
    Encoded.fileData (Encoded.original r)
    = (if truthy fd then Some (fileData_toString fd) else None).
Proof.
  intros Hmk Huid Hn Hm Hp Hl Hfd.
  destruct (valid_master_key_facts mk Hmk) as (Ht & Hkl & Hcopy).
  destruct (convert_uid_ok uid Huid) as (ub & _ & Hub & Hubl & _).
  destruct (convert_counter_ok num Hn) as [_ Hcb].
  destruct (picc_block_ok pn prof ub (Buf.writeUIntBE3 (int_value num)) Hl Hubl eq_refl)
    as (block & info & _ & Hblock & _).
  destruct (deriveKeys_ok HC _ _ Hm Hkl) as (sk & Hz & Hek & Hmkl & _ & Hd & _).
  destruct (normalised_fileData fd) as (Htr & _ & _).
  assert (Hprep : truthy fd = true -> exists fb,
             LegacyEncoder._prepareFileData
               match fd with VUndefined => VNull | v => v end = ret fb).
  { intros Et. destruct Hfd as [Hf | [[s ->] | [b ->]]]; [congruence | |];
      eexists; reflexivity. }
  unfold LegacyEncoder.encrypt.
  set (fd' := match fd with VUndefined => VNull | v => v end) in *.
  fold (encrypt_method opts). rewrite Htr. fold (encrypt_profile opts fd).
  rewrite Hp. destruct Hmk as [Hlen Hhex].
  rewrite outcome_try_catch, outcome_bind.
  rewrite Ht, Hlen. cbn [negb orb Nat.eqb outcome ret snd].
  rewrite outcome_bind, Hub. cbn [outcome ret snd].
  rewrite outcome_bind, Hcb. cbn [outcome ret snd].
  rewrite outcome_bind, (resolve_predefined _ _ Hl). cbn [outcome ret snd].
  rewrite outcome_bind, Hblock. cbn [outcome ret snd].
  rewrite outcome_bind, Hd.
  rewrite outcome_bind. unfold AES.cbcEncrypt at 1. rewrite Hek.
  cbn [Nat.eqb negb]. rewrite outcome_bind. cbn [outcome emit ret snd].
  assert (Hcount : LegacyEncoder._counterToNumber (Buf.writeUIntBE3 (int_value num))
                   = int_value num).
  { unfold LegacyEncoder._counterToNumber.
    cbn [Buf.writeUIntBE3 List.length Nat.min firstn].
    fold (Buf.writeUIntBE3 (int_value num)).
    apply readUIntBE_writeUIntBE3. apply counter_in_range_bounds. exact Hn. }
  destruct (truthy fd) eqn:Et.
  - destruct (Hprep eq_refl) as [fb Hfb].
    rewrite outcome_bind, outcome_bind, Hfb. cbn [outcome ret snd].
    rewrite outcome_bind. unfold AES.cbcEncrypt. rewrite Hek.
    cbn [Nat.eqb negb]. rewrite outcome_bind. cbn [outcome emit ret snd fst].
    rewrite outcome_bind. unfold CMAC.calculate. rewrite Hmkl.
    cbn [Nat.eqb negb]. rewrite outcome_bind. cbn [outcome emit ret snd].
    eexists. split; [reflexivity|].
    cbn [Encoded.original Encoded.scanCount Encoded.fileData].
    split; [exact Hcount|].
    destruct Hfd as [Hf | [[s ->] | [b ->]]]; [discriminate | reflexivity | reflexivity].
  - rewrite outcome_bind. cbn [outcome ret snd fst].
    rewrite outcome_bind. unfold CMAC.calculate. rewrite Hmkl.
    cbn [Nat.eqb negb]. rewrite outcome_bind. cbn [outcome emit ret snd].
    eexists. split; [reflexivity|].
    cbn [Encoded.original Encoded.scanCount Encoded.fileData].
    split; [exact Hcount | reflexivity].
Qed.

(** Valid arguments, file data and a predefined profile that holds file
    data: the encoder that checks the profile succeeds. *)
Lemma encrypt_file_ok (mk : string) (uid : jsval) (num : jsnum) (fd : jsval)
  (opts : EncryptOptions) (pn : string) (prof : SDMConfig.SDMProfile) :
  valid_master_key mk -> valid_uid uid -> counter_in_range num = true ->
  In (encrypt_method opts) valid_methods ->
  encrypt_profile opts fd = SDMConfig.PName pn ->
  SDMConfig.lookup pn SDMConfig.profiles = Some prof ->
  truthy fd = true -> (exists s, fd = VStr s) \/ (exists b, fd = VBuf b) ->
  SDMConfig.includeFileData prof = true ->
  exists r,
    outcome (Encoder.encrypt (VStr mk) uid (VNum num) fd opts) = inr r /\
    Encoded.scanCount (Encoded.original r) = int_value num /\
    Encoded.fileData (Encoded.original r) = Some (fileData_toString fd).
Proof.
  intros Hmk Huid Hn Hm Hp Hl Et Hfd Hinc.
  destruct (valid_master_key_facts mk Hmk) as (Ht & Hkl & Hcopy).
  destruct (convert_uid_ok uid Huid) as (ub & Hub & _ & Hubl & _).
  destruct (convert_counter_ok num Hn) as [Hcb _].
  destruct (picc_block_ok pn prof ub (Buf.writeUIntBE3 (int_value num)) Hl Hubl eq_refl)
    as (block & info & Hblock & _).
  destruct (deriveKeys_ok HC _ _ Hm Hkl) as (sk & Hz & Hek & Hmkl & Hd & _).
  assert (Hnorm : match fd with VUndefined => VNull | v => v end = fd).
  { destruct Hfd as [[s ->] | [b ->]]; reflexivity. }
  assert (Hprep : exists fb, Encoder._prepareFileData fd = ret fb).
  { destruct Hfd as [[s ->] | [b ->]]; cbn [Encoder._prepareFileData].
    - eexists; reflexivity.
    - destruct (_ =? _)%nat; eexists; reflexivity. }
  destruct Hprep as [fb Hfb].
  unfold Encoder.encrypt. rewrite Hnorm.
  fold (encrypt_method opts). fold (encrypt_profile opts fd).
  rewrite Hp. destruct Hmk as [Hlen Hhex].
  rewrite outcome_try_catch, outcome_bind.
  rewrite Ht, Hlen, Hhex. cbn [negb orb Nat.eqb outcome ret snd].
  rewrite outcome_bind, Hub. cbn [outcome ret snd].
  rewrite outcome_bind, Hcb. cbn [outcome ret snd].
  rewrite outcome_bind, (resolve_predefined _ _ Hl). cbn [outcome ret snd].
  rewrite outcome_bind, validate_encrypt_ok by (right; exact Hinc).
  cbn [outcome ret snd].
  rewrite outcome_bind, Hblock. cbn [outcome ret snd].
  rewrite outcome_bind, Hcopy, Hd.
  rewrite outcome_bind. unfold AES.cbcEncrypt at 1. rewrite Hek.
  cbn [Nat.eqb negb]. rewrite outcome_bind. cbn [outcome emit ret snd].
  rewrite Et, Hinc. cbn [negb].
  rewrite outcome_bind, outcome_bind, Hfb. cbn [outcome ret snd].
  rewrite outcome_bind. unfold AES.cbcEncrypt. rewrite Hek.
  cbn [Nat.eqb negb]. rewrite outcome_bind. cbn [outcome emit ret snd fst].
  rewrite outcome_bind. unfold CMAC.calculate. rewrite Hmkl.
  cbn [Nat.eqb negb]. rewrite outcome_bind. cbn [outcome emit ret snd].
  eexists. split; [reflexivity|].
  cbn [Encoded.original Encoded.scanCount Encoded.fileData].
  split; [|reflexivity].
  unfold Encoder._counterToNumber.
  cbn [Buf.writeUIntBE3 List.length Nat.min firstn].
  fold (Buf.writeUIntBE3 (int_value num)).
  apply readUIntBE_writeUIntBE3. apply counter_in_range_bounds. exact Hn.
Qed.

End EncodeValidation.

(** C8: with a valid master key and UID, a numeric counter that is not an
    integer in [0, 16777215] makes [Encoder.encrypt] throw the counter's
    validation error with no primitive called, in both copies of
    encoder.js; a counter in the range passes [_validateAndConvertCounter]
    and, the other arguments being valid, [encrypt] returns a result that
    echoes it.  0 and 16777215 are in the range, 16777216 and the negative
    integers are not. *)
Theorem counter_bounds {C : Crypto} (HC : CryptoSpec C)
  (mk : string) (uid : jsval) (num : jsnum) (fd : jsval) (opts : EncryptOptions) :
  valid_master_key mk -> valid_uid uid ->
  (counter_in_range num = false ->
   Encoder.encrypt (VStr mk) uid (VNum num) fd opts
   = throw (Encoder.validation
              "Counter must be an integer between 0 and 16777215 (2^24 - 1)"
              "scanCount") /\
   LegacyEncoder.encrypt (VStr mk) uid (VNum num) fd opts
   = throw (Err.plain
              "Encryption failed: Counter must be an integer between 0 and 16777215 (2^24 - 1)")) /\
  (counter_in_range num = true ->
   Encoder._validateAndConvertCounter (VNum num)
   = ret (Buf.writeUIntBE3 (int_value num)) /\
   LegacyEncoder._validateAndConvertCounter (VNum num)
   = ret (Buf.writeUIntBE3 (int_value num)) /\
   forall pn prof,
     In (encrypt_method opts) valid_methods ->
     encrypt_profile opts VNull = SDMConfig.PName pn ->
     SDMConfig.lookup pn SDMConfig.profiles = Some prof ->
     exists r r',
       outcome (Encoder.encrypt (VStr mk) uid (VNum num) VNull opts) = inr r /\
       outcome (LegacyEncoder.encrypt (VStr mk) uid (VNum num) VNull opts) = inr r' /\
       Encoded.scanCount (Encoded.original r) = int_value num /\
       Encoded.scanCount (Encoded.original r') = int_value num) /\
  counter_in_range (NInt 0) = true /\
  counter_in_range (NInt 16777215) = true /\
  counter_in_range (NInt 16777216) = false /\
  (forall z, z < 0 -> counter_in_range (NInt z) = false).
Proof.
  intros Hmk Huid. split; [|split].
  - intros Hn. apply encrypt_rejects_counter; assumption.
  - intros Hn. destruct (convert_counter_ok num Hn) as [Hc Hcl].
    split; [exact Hc|]. split; [exact Hcl|].
    intros pn prof Hm Hp Hl.
    destruct (encrypt_ok HC mk uid num opts pn prof Hmk Huid Hn Hm Hp Hl)
      as (sk & ub & block & _ & _ & _ & _ & _ & Hr).
    destruct (legacy_encrypt_ok HC mk uid num VNull opts pn prof Hmk Huid Hn Hm Hp Hl)
      as (r' & Hr' & Hs' & _).
    { left. reflexivity. }
    eexists. exists r'. split; [exact Hr|]. split; [exact Hr'|].
    split; [reflexivity | exact Hs'].
  - repeat split; try reflexivity.
    intros z Hz. unfold counter_in_range. cbn [isInteger int_value andb].
    destruct (Z.leb_spec 0 z); [lia | reflexivity].
Qed.

Lemma counter_bounds_witness :
  (@Encoder.encrypt Toy.crypto (VStr Toy.sample_key) (VStr Toy.sample_uid)
     (VNum (NInt 16777216)) VNull no_options
   = throw (Encoder.validation
              "Counter must be an integer between 0 and 16777215 (2^24 - 1)"
              "scanCount") /\
   @LegacyEncoder.encrypt Toy.crypto (VStr Toy.sample_key) (VStr Toy.sample_uid)
     (VNum (NInt 16777216)) VNull no_options
   = throw (Err.plain
              "Encryption failed: Counter must be an integer between 0 and 16777215 (2^24 - 1)")) /\
  (exists r r',
     outcome (@Encoder.encrypt Toy.crypto (VStr Toy.sample_key) (VStr Toy.sample_uid)
                (VNum (NInt 16777215)) VNull no_options) = inr r /\
     outcome (@LegacyEncoder.encrypt Toy.crypto (VStr Toy.sample_key)
                (VStr Toy.sample_uid) (VNum (NInt 16777215)) VNull no_options) = inr r' /\
     Encoded.scanCount (Encoded.original r) = 16777215 /\
     Encoded.scanCount (Encoded.original r') = 16777215).
Proof.
  assert (Hmk : valid_master_key Toy.sample_key) by (split; reflexivity).
  assert (Huid : valid_uid (VStr Toy.sample_uid)) by (simpl; repeat split; reflexivity).
  split.
  - apply (proj1 (counter_bounds toy_spec Toy.sample_key (VStr Toy.sample_uid)
                    (NInt 16777216) VNull no_options Hmk Huid)).
    reflexivity.
  - refine (proj2 (proj2 (proj1 (proj2 (counter_bounds toy_spec Toy.sample_key
                     (VStr Toy.sample_uid) (NInt 16777215) VNull no_options Hmk Huid))
                     eq_refl)) "uidCounter" SDMConfig.uidCounter _ _ _).
    + simpl. left. reflexivity.
    + reflexivity.
    + reflexivity.
Defined.

(* ------------------------------------------------------------------ *)
(** ** Round trip of file data *)

Section FileRoundTrip.
Context {C : Crypto} (HC : CryptoSpec C).

Lemma string_of_list_byte_app (a b : bytes) :
  string_of_list_byte (a ++ b) = string_of_list_byte a +++ string_of_list_byte b.
Proof.
  unfold string_of_list_byte. induction a as [|x a IH]; [reflexivity|].
  cbn [map app string_of_list_ascii String.append]. f_equal. exact IH.
Qed.

Lemma strip_nul_string (k : nat) :
  Buf.strip_trailing_nul (string_of_list_byte (repeat x00 k)) = EmptyString.
Proof.
  induction k as [|k IH]; [reflexivity|].
  change (string_of_list_byte (repeat x00 (S k)))
    with (String zero (string_of_list_byte (repeat x00 k))).
  cbn [Buf.strip_trailing_nul]. rewrite IH. reflexivity.
Qed.

Lemma strip_trailing_nul_padded (s : string) (k : nat) :
  Buf.strip_trailing_nul (s +++ string_of_list_byte (repeat x00 k))
  = Buf.strip_trailing_nul s.
Proof.
  induction s as [|c s IH].
  - cbn [String.append]. apply strip_nul_string.
  - cbn [String.append Buf.strip_trailing_nul]. rewrite IH. reflexivity.
Qed.

Lemma paddedLength_ge (n : nat) : (n <= paddedLength n)%nat.
Proof.
  unfold paddedLength.
  pose proof (Nat.div_mod_eq (n + 15) 16) as H.
  pose proof (Nat.mod_upper_bound (n + 15) 16) as Hm. lia.
Qed.

Lemma skipn_zeros (m n : nat) : skipn m (repeat x00 n) = repeat x00 (n - m).
Proof.
  revert n. induction m as [|m IH]; intros n.
  - rewrite Nat.sub_0_r. reflexivity.
  - destruct n as [|n]; [reflexivity|]. cbn [repeat skipn Nat.sub]. apply IH.
Qed.

Lemma copy_into_alloc (n : nat) (src : bytes) :
  (List.length src <= n)%nat ->
  Buf.copy_into (Buf.alloc (Z.of_nat n)) src = src ++ repeat x00 (n - List.length src).
Proof.
  intros H. unfold Buf.copy_into, Buf.alloc.
  rewrite Nat2Z.id, repeat_length, firstn_all2 by exact H.
  f_equal. apply skipn_zeros.
Qed.

(** Text file data is stored as its bytes followed by zero bytes. *)
Lemma prepareFileData_text (s : string) :
  exists k, Encoder._prepareFileData (VStr s) = ret (Buf.from_utf8 s ++ repeat x00 k).
Proof.
  eexists. cbn [Encoder._prepareFileData]. cbv zeta.
  rewrite copy_into_alloc by apply paddedLength_ge. reflexivity.
Qed.

(** The decoder reads the text back from the padded bytes. *)
Lemma extractFileData_padded (s : string) (k : nat) :
  plain_file_text s ->
  _extractFileData (Some (Buf.from_utf8 s ++ repeat x00 k)) = Some s.
Proof.
  intros [Hne Hs]. unfold _extractFileData, Buf.toString_utf8, Buf.from_utf8.
  rewrite string_of_list_byte_app, string_of_list_byte_of_string.
  rewrite strip_trailing_nul_padded, Hs.
  destruct s; [congruence | reflexivity].
Qed.

Lemma encrypt_text_ok (mk : string) (uid : jsval) (num : jsnum) (s : string)
  (opts : EncryptOptions) (pn : string) (prof : SDMConfig.SDMProfile) :
  valid_master_key mk -> valid_uid uid -> counter_in_range num = true ->
  In (encrypt_method opts) valid_methods ->
  encrypt_profile opts (VStr s) = SDMConfig.PName pn ->
  SDMConfig.lookup pn SDMConfig.profiles = Some prof ->
  s <> EmptyString -> SDMConfig.includeFileData prof = true ->
  exists sk ub block k,
    zero_vector_keys (encrypt_method opts) (Buf.from_hex mk) = Some sk /\
    List.length (encKey sk) = 16%nat /\ List.length (macKey sk) = 16%nat /\
    Encoder._validateAndConvertUID uid = ret ub /\
    Encoder._buildPiccData ub (Buf.writeUIntBE3 (int_value num)) prof = ret block /\
    let cipher := aes128_cbc_encrypt (encKey sk) AES.zeroIV block in
    let fcipher := aes128_cbc_encrypt (encKey sk) AES.zeroIV
                     (Buf.from_utf8 s ++ repeat x00 k) in
    outcome (Encoder.encrypt (VStr mk) uid (VNum num) (VStr s) opts) =
    inr (Encoded.mkResult
           (Encoded.mkOriginal (uid_text uid) (int_value num) "[REDACTED]"
              (encrypt_method opts) (Some pn) (Some s))
           (Encoded.mkEncrypted (hex_upper cipher)
              (hex_upper (firstn 8 (aesCmac (macKey sk) (cipher ++ fcipher))))
              (Some (hex_upper fcipher)))
           (Some (Encoded.mkMetadata pn true))).
Proof.
  intros Hmk Huid Hn Hm Hp Hl Hs Hinc.
  destruct (valid_master_key_facts mk Hmk) as (Ht & Hkl & Hcopy).
  destruct (convert_uid_ok uid Huid) as (ub & Hub & _ & Hubl & Hub4 & Hubt).
  destruct (convert_counter_ok num Hn) as [Hcb _].
  destruct (picc_block_ok pn prof ub (Buf.writeUIntBE3 (int_value num)) Hl Hubl eq_refl)
    as (block & info & Hblock & _ & Hbl & _ & _ & _ & _ & Hlabel).
  destruct (deriveKeys_ok HC _ _ Hm Hkl) as (sk & Hz & Hek & Hmkl & Hd & _).
  destruct (prepareFileData_text s) as [k Hfb].
  assert (Et : truthy (VStr s) = true).
  { cbn [truthy]. destruct s; [congruence | reflexivity]. }
  exists sk, ub, block, k.
  repeat (split; [assumption|]).
  intros cipher fcipher.
  unfold Encoder.encrypt.
  fold (encrypt_method opts). fold (encrypt_profile opts (VStr s)).
  rewrite Hp. destruct Hmk as [Hlen Hhex].
  rewrite outcome_try_catch, outcome_bind.
  rewrite Ht, Hlen, Hhex. cbn [negb orb Nat.eqb outcome ret snd].
  rewrite outcome_bind, Hub. cbn [outcome ret snd].
  rewrite outcome_bind, Hcb. cbn [outcome ret snd].
  rewrite outcome_bind, (resolve_predefined _ _ Hl). cbn [outcome ret snd].
  rewrite outcome_bind, validate_encrypt_ok by (right; exact Hinc).
  cbn [outcome ret snd].
  rewrite outcome_bind, Hblock. cbn [outcome ret snd].
  rewrite outcome_bind, Hcopy, Hd.
  rewrite outcome_bind. unfold AES.cbcEncrypt at 1. rewrite Hek.
  cbn [Nat.eqb negb]. rewrite outcome_bind. cbn [outcome emit ret snd].
  rewrite Et, Hinc. cbn [negb].
  rewrite outcome_bind, outcome_bind, Hfb. cbn [outcome ret snd].
  rewrite outcome_bind. unfold AES.cbcEncrypt. rewrite Hek.
  cbn [Nat.eqb negb]. rewrite outcome_bind. cbn [outcome emit ret snd fst].
  rewrite outcome_bind. unfold CMAC.calculate. rewrite Hmkl.
  cbn [Nat.eqb negb]. rewrite outcome_bind. cbn [outcome emit ret snd].
  rewrite slice_first8 by (rewrite cmac_length; lia).
  unfold Encoder._counterToNumber. cbn [Buf.writeUIntBE3 List.length Nat.min firstn].
  fold (Buf.writeUIntBE3 (int_value num)).
  rewrite readUIntBE_writeUIntBE3 by (apply counter_in_range_bounds; exact Hn).
  rewrite Hlabel. fold (hex_upper ub). rewrite Hubt. reflexivity.
Qed.

Lemma validateInput_file_ok (piccCipher cmacBytes encCipher : bytes) :
  piccCipher <> [] -> cmacBytes <> [] -> encCipher <> [] ->
  LegacyDecoder._validateInput (picc_cmac_enc_input piccCipher cmacBytes encCipher)
  = ret tt.
Proof.
  intros Hp Hc He.
  unfold LegacyDecoder._validateInput, DataParser.validateParsedData,
    picc_cmac_enc_input, DataParser.validateHexString.
  cbn [JS.get JS.assoc String.eqb Ascii.eqb Bool.eqb truthy].
  rewrite !hex_upper_nonempty, !hex_regex_hex_upper by assumption.
  reflexivity.
Qed.

Lemma validate_decrypt_file_ok (prof : SDMConfig.SDMProfile)
  (piccCipher cmacBytes encCipher : bytes) :
  piccCipher <> [] -> cmacBytes <> [] -> SDMConfig.includeFileData prof = true ->
  SDMConfig.validateOperationWithProfile SDMConfig.OpDecrypt (SDMConfig.PObj prof)
    (picc_cmac_enc_input piccCipher cmacBytes encCipher) = ret true.
Proof.
  intros Hp Hc Hinc.
  unfold SDMConfig.validateOperationWithProfile, SDMConfig.decrypt_errors,
    picc_cmac_enc_input.
  cbn [Eff.bind ret JS.get JS.assoc String.eqb Ascii.eqb Bool.eqb truthy negb andb app].
  rewrite Hinc, (hex_upper_nonempty _ Hp), (hex_upper_nonempty _ Hc).
  cbn [negb andb app]. rewrite andb_false_r. reflexivity.
Qed.

Lemma cbcDecrypt_ok (key data plain : bytes) :
  List.length key = 16%nat -> data <> [] -> (List.length data mod 16 = 0)%nat ->
  aes128_cbc_decrypt key AES.zeroIV data = Some plain ->
  outcome (AES.cbcDecrypt key data) = inr plain.
Proof.
  intros Hk Hd Hmod Hdec. unfold AES.cbcDecrypt. rewrite Hk, Hmod.
  destruct (List.length data =? 0)%nat eqn:E0.
  { apply Nat.eqb_eq in E0. destruct data; [congruence | discriminate]. }
  cbn [Nat.eqb negb]. rewrite outcome_bind. cbn [outcome emit snd]. rewrite Hdec.
  reflexivity.
Qed.

(** The older decoder on a well-formed tag with file data. *)
Lemma legacy_decrypt_file (this : DecoderState) (c : CustomOptions)
  (piccCipher cmacBytes encCipher block fb : bytes) (prof : SDMConfig.SDMProfile)
  (sk : SessionKeys) (info : PiccInfo) :
  let o := merge (options this) c in
  piccCipher <> [] -> cmacBytes <> [] -> encCipher <> [] ->
  (List.length piccCipher mod 16 = 0)%nat -> (List.length encCipher mod 16 = 0)%nat ->
  Encoder.resolve_profile (sdmProfile o) = ret (Some prof) ->
  outcome (LegacyDecoder._deriveKeys this (Buf.alloc 7) (Buf.alloc 3)
             (keyDerivationMethod o)) = inr sk ->
  List.length (encKey sk) = 16%nat -> List.length (macKey sk) = 16%nat ->
  aes128_cbc_decrypt (encKey sk) AES.zeroIV piccCipher = Some block ->
  aes128_cbc_decrypt (encKey sk) AES.zeroIV encCipher = Some fb ->
  DataParser.extractPiccData true block (Some prof) = ret info ->
  _isValidDecryption block info = true ->
  outcome (LegacyDecoder.decrypt this
             (picc_cmac_enc_input piccCipher cmacBytes encCipher) c) =
  inr (Decoded.Success
         (Decoded.mkPayload
            (option_map_hex (uid info)) (readCounterInt info)
            (match dataTag info with
             | Some t => Some (byte_toString16 t)
             | None => None
             end)
            (_extractFileData (Some fb))
            (if validateCMAC o
             then cmac_matches (macKey sk) (piccCipher ++ encCipher) cmacBytes
             else true)
            (keys_text sk) (hex_upper block) (Some (hex_upper fb)) info)).
Proof.
  intros o Hp Hc He Hmod Hemod Hres Hd Hek Hmk Hdec Hfdec Hinfo Hvalid.
  unfold LegacyDecoder.decrypt. fold o.
  rewrite outcome_try_catch, outcome_bind.
  unfold LegacyDecoder._parseInput at 1, picc_cmac_enc_input at 1.
  cbn [try_catch ret outcome snd].
  fold (picc_cmac_enc_input piccCipher cmacBytes encCipher).
  rewrite outcome_bind.
  assert (Hv : outcome (if strictValidation o
                        then LegacyDecoder._validateInput
                               (picc_cmac_enc_input piccCipher cmacBytes encCipher)
                        else ret tt) = inr tt).
  { destruct (strictValidation o); [|reflexivity].
    rewrite validateInput_file_ok by assumption. reflexivity. }
  rewrite Hv. unfold picc_cmac_enc_input.
  cbn [JS.get JS.assoc String.eqb Ascii.eqb Bool.eqb truthy].
  rewrite outcome_bind, hexToBuffer_hex_upper by exact Hp. cbn [outcome ret snd].
  rewrite (hex_upper_nonempty encCipher He). cbn [negb].
  rewrite outcome_bind, outcome_bind, hexToBuffer_hex_upper by exact He.
  cbn [outcome ret snd].
  rewrite outcome_bind, hexToBuffer_hex_upper by exact Hc. cbn [outcome ret snd].
  rewrite outcome_bind. unfold LegacyDecoder.resolve. rewrite Hres. cbn [outcome ret snd].
  rewrite outcome_bind.
  unfold LegacyDecoder._performDecryption.
  rewrite outcome_try_catch, outcome_bind, Hd.
  rewrite outcome_bind, (cbcDecrypt_ok _ _ _ Hek Hp Hmod Hdec).
  rewrite outcome_bind, Hinfo. cbn [outcome ret snd].
  rewrite outcome_bind, Hvalid. cbn [negb outcome ret snd].
  rewrite outcome_bind, outcome_try_catch, outcome_bind,
    (cbcDecrypt_ok _ _ _ Hek He Hemod Hfdec).
  cbn [outcome ret snd].
  rewrite outcome_bind.
  destruct (validateCMAC o).
  - rewrite outcome_try_catch, verify_ok by exact Hmk. reflexivity.
  - reflexivity.
Qed.

(** The decoder with structured errors on a well-formed tag with file data. *)
Lemma decrypt_file (this : DecoderState) (c : CustomOptions)
  (piccCipher cmacBytes encCipher block fb : bytes) (prof : SDMConfig.SDMProfile)
  (sk : SessionKeys) (info : PiccInfo) :
  let o := merge (options this) c in
  cleared this = false ->
  piccCipher <> [] -> cmacBytes <> [] -> encCipher <> [] ->
  (List.length piccCipher mod 16 = 0)%nat -> (List.length encCipher mod 16 = 0)%nat ->
  Encoder.resolve_profile (sdmProfile o) = ret (Some prof) ->
  SDMConfig.includeFileData prof = true ->
  outcome (Decoder._deriveKeys (masterKey this) (Buf.alloc 7) (Buf.alloc 3)
             (keyDerivationMethod o)) = inr sk ->
  List.length (encKey sk) = 16%nat -> List.length (macKey sk) = 16%nat ->
  aes128_cbc_decrypt (encKey sk) AES.zeroIV piccCipher = Some block ->
  aes128_cbc_decrypt (encKey sk) AES.zeroIV encCipher = Some fb ->
  DataParser.extractPiccData false block (Some prof) = ret info ->
  _isValidDecryption block info = true ->
  outcome (Decoder.decrypt this
             (picc_cmac_enc_input piccCipher cmacBytes encCipher) c) =
  inr (Decoded.Success
         (Decoded.mkPayload
            (option_map_hex (uid info)) (readCounterInt info)
            (match dataTag info with
             | Some t => Some (byte_toString16 t)
             | None => None
             end)
            (_extractFileData (Some fb))
            (if validateCMAC o
             then cmac_matches (macKey sk) (piccCipher ++ encCipher) cmacBytes
             else true)
            (keys_text sk) (hex_upper block) (Some (hex_upper fb)) info)).
Proof.
  intros o Hcl Hp Hc He Hmod Hemod Hres Hinc Hd Hek Hmk Hdec Hfdec Hinfo Hvalid.
  enter_decrypt. fold o.
  rewrite outcome_try_catch, outcome_bind.
  unfold Decoder._parseInput at 1, picc_cmac_enc_input at 1.
  cbn [try_catch ret outcome snd].
  fold (picc_cmac_enc_input piccCipher cmacBytes encCipher).
  rewrite outcome_bind, Hres. cbn [outcome ret snd].
  rewrite outcome_bind, validate_decrypt_file_ok by assumption. cbn [outcome ret snd].
  rewrite outcome_bind.
  unfold Decoder._performSecureDecryption, picc_cmac_enc_input.
  cbn [JS.get JS.assoc String.eqb Ascii.eqb Bool.eqb truthy].
  rewrite outcome_bind, own_hexToBuffer_hex_upper by exact Hp. cbn [outcome ret snd].
  rewrite (hex_upper_nonempty encCipher He). cbn [negb].
  rewrite outcome_bind, outcome_bind, own_hexToBuffer_hex_upper by exact He.
  cbn [outcome ret snd].
  rewrite outcome_bind, own_hexToBuffer_hex_upper by exact Hc. cbn [outcome ret snd].
  rewrite outcome_try_catch, outcome_bind.
  unfold Decoder.masterKeyBuffer_data. rewrite Hcl. cbn [outcome ret snd].
  rewrite outcome_bind, Hd.
  rewrite outcome_bind, (cbcDecrypt_ok _ _ _ Hek Hp Hmod Hdec).
  rewrite outcome_bind, Hinfo. cbn [outcome ret snd].
  rewrite outcome_bind, Hvalid. cbn [negb outcome ret snd].
  rewrite outcome_bind, Hinc. cbn [negb].
  rewrite outcome_try_catch, outcome_bind, (cbcDecrypt_ok _ _ _ Hek He Hemod Hfdec).
  cbn [outcome ret snd].
  rewrite outcome_bind.
  destruct (validateCMAC o).
  - rewrite outcome_try_catch, outcome_bind. unfold CMAC.calculate. rewrite Hmk.
    cbn [Nat.eqb negb]. rewrite outcome_bind. cbn [outcome emit ret snd].
    reflexivity.
  - reflexivity.
Qed.

End FileRoundTrip.

Section FileRoundTripBoth.
Context {C : Crypto} (HC : CryptoSpec C).

Lemma cmac_matches_own_data (key data : bytes) :
  cmac_matches key data (firstn 8 (aesCmac key data)) = true.
Proof. apply (cmac_matches_own HC). Qed.

(** Text file data under a profile that holds file data: both decoders
    return the UID, the counter and the text. *)
Lemma round_trip_file
  (masterKey : string) (uid : jsval) (counter : Z) (s : string) (opts : EncryptOptions)
  (profileName : string) (prof : SDMConfig.SDMProfile) (strict : bool) :
  valid_master_key masterKey -> valid_uid uid -> 0 <= counter <= 16777215 ->
  In (encrypt_method opts) valid_methods ->
  plain_file_text s ->
  encrypt_profile opts (VStr s) = SDMConfig.PName profileName ->
  SDMConfig.lookup profileName SDMConfig.profiles = Some prof ->
  SDMConfig.includeFileData prof = true ->
  exists e dl dc rl rc,
    outcome (Encoder.encrypt (VStr masterKey) uid (VNum (NInt counter)) (VStr s) opts)
    = inr e /\
    Encoded.enc (Encoded.encrypted e) <> None /\
    outcome (LegacyDecoder.new (VStr masterKey)
               (matching_options opts profileName strict)) = inr dl /\
    outcome (Decoder.new (VStr masterKey)
               (matching_options opts profileName strict)) = inr dc /\
    outcome (LegacyDecoder.decrypt dl (Encoded.to_input e) no_custom) = inr rl /\
    outcome (Decoder.decrypt dc (Encoded.to_input e) no_custom) = inr rc /\
    file_round_trip_result uid counter s rl /\
    file_round_trip_result uid counter s rc.
Proof.
  intros Hmk Huid Hn Hm Hs Hp Hl Hinc.
  assert (Hr : counter_in_range (NInt counter) = true).
  { unfold counter_in_range. cbn [isInteger int_value andb].
    apply andb_true_iff. rewrite !Z.leb_le. exact Hn. }
  destruct (encrypt_text_ok HC masterKey uid (NInt counter) s opts profileName prof
              Hmk Huid Hr Hm Hp Hl (proj1 Hs) Hinc)
    as (sk & ub & block & k & Hz & Hek & Hmac & Hub & Hblock & Henc).
  cbn [int_value] in *. cbv zeta in Henc.
  set (cipher := aes128_cbc_encrypt (encKey sk) AES.zeroIV block) in *.
  set (fb := Buf.from_utf8 s ++ repeat x00 k) in *.
  set (fcipher := aes128_cbc_encrypt (encKey sk) AES.zeroIV fb) in *.
  set (mac8 := firstn 8 (aesCmac (macKey sk) (cipher ++ fcipher))) in *.
  set (o := matching_options opts profileName strict).
  destruct (new_decoder_ok masterKey o profileName prof Hmk Hm eq_refl Hl) as [Hnl Hnc].
  set (this := mkDecoder (Buf.from_hex masterKey) o false) in *.
  destruct (valid_master_key_facts masterKey Hmk) as (_ & Hkl & _).
  destruct (convert_uid_ok uid Huid) as (ub' & Hub' & _ & Hubl & Hub4 & Hubt).
  assert (ub' = ub) by (rewrite Hub in Hub'; injection Hub' as <-; reflexivity).
  subst ub'.
  destruct (picc_block_ok profileName prof ub (Buf.writeUIntBE3 counter) Hl Hubl eq_refl)
    as (block' & info & Hblock' & _ & Hbl & Hinfo & Htag & Hiu & Hic & _).
  assert (block' = block) by (rewrite Hblock in Hblock'; injection Hblock' as <-; reflexivity).
  subst block'.
  assert (Hfull : SDMConfig.includeUID prof = true /\ SDMConfig.includeCounter prof = true).
  { apply lookup_cases in Hl as [[_ ->] | [[_ ->] | [[_ ->] | [_ ->]]]];
      try discriminate Hinc; split; reflexivity. }
  destruct Hfull as [HiU HiC]. rewrite HiU in Hiu. rewrite HiC in Hic.
  assert (Hne : forall key data, aes128_cbc_encrypt key AES.zeroIV data <> [] /\
                  (List.length (aes128_cbc_encrypt key AES.zeroIV data) mod 16 = 0)%nat).
  { intros key data.
    pose proof (cbc_length key AES.zeroIV data) as Hcl. split.
    - intros E. rewrite E in Hcl. cbn [List.length] in Hcl. lia.
    - rewrite Hcl, Nat.mul_comm. apply Nat.Div0.mod_mul. }
  destruct (Hne (encKey sk) block) as [Hcne Hcmod].
  destruct (Hne (encKey sk) fb) as [Hfne Hfmod].
  fold cipher in Hcne, Hcmod. fold fcipher in Hfne, Hfmod.
  assert (Hmne : mac8 <> []).
  { intros E. assert (Hl8 : List.length mac8 = 8%nat).
    { unfold mac8. rewrite length_firstn, cmac_length. reflexivity. }
    rewrite E in Hl8. discriminate. }
  assert (Hdec : aes128_cbc_decrypt (encKey sk) AES.zeroIV cipher = Some block).
  { apply cbc_roundtrip; [exact Hek | reflexivity]. }
  assert (Hfdec : aes128_cbc_decrypt (encKey sk) AES.zeroIV fcipher = Some fb).
  { apply cbc_roundtrip; [exact Hek | reflexivity]. }
  assert (Hres : Encoder.resolve_profile (sdmProfile (merge (options this) no_custom))
                 = ret (Some prof)).
  { apply resolve_predefined. exact Hl. }
  assert (Hwf : well_formed_picc block info).
  { unfold well_formed_picc. split; [exact Htag|]. split.
    - unfold Buf.len. rewrite Hbl. lia.
    - rewrite Hiu, Hic. split.
      + intros u Eu. injection Eu as <-.
        destruct ub; [discriminate|]. cbn in Hub4. subst. reflexivity.
      + intros c Ec. injection Ec as <-.
        rewrite readUIntBE_writeUIntBE3 by exact Hn. exact Hn. }
  apply (proj2 (isValidDecryption_iff block info)) in Hwf.
  destruct (zero_vector_keys_deriveKeys HC this _ sk Hkl Hm Hz) as (_ & _ & Hdl & Hdc).
  pose proof (legacy_decrypt_file this no_custom cipher mac8 fcipher block fb prof sk info
                Hcne Hmne Hfne Hcmod Hfmod Hres Hdl Hek Hmac Hdec Hfdec (Hinfo true) Hwf)
    as Hrl.
  pose proof (decrypt_file this no_custom cipher mac8 fcipher block fb prof sk info
                eq_refl Hcne Hmne Hfne Hcmod Hfmod Hres Hinc Hdc Hek Hmac Hdec Hfdec
                (Hinfo false) Hwf)
    as Hrc.
  cbn [validateCMAC merge options this o matching_options no_custom override
       c_validateCMAC] in Hrl, Hrc.
  eexists. exists this, this. eexists. eexists.
  split; [exact Henc|].
  cbn [Encoded.encrypted Encoded.enc]. split; [discriminate|].
  split; [rewrite Hnl; reflexivity|].
  split; [rewrite Hnc; reflexivity|].
  cbn [Encoded.to_input Encoded.encrypted Encoded.picc Encoded.cmac Encoded.enc app].
  fold (picc_cmac_enc_input cipher mac8 fcipher).
  split; [exact Hrl|]. split; [exact Hrc|].
  unfold file_round_trip_result.
  cbn [Decoded.success Decoded.get_cmacValid Decoded.get_uid Decoded.get_readCounter
       Decoded.get_encryptedFileData Decoded.encryptedFileData
       Decoded.cmacValid Decoded.uid Decoded.readCounter].
  rewrite Hiu, Hic.
  unfold mac8. rewrite cmac_matches_own_data.
  rewrite readUIntBE_writeUIntBE3 by exact Hn.
  cbn [option_map_hex]. rewrite Hubt.
  repeat split; try reflexivity; exact (extractFileData_padded s k Hs).
Qed.

End FileRoundTripBoth.

(** C1, as the code has it: for every valid master key, UID starting with
    [0x04], counter in [0, 16777215], derivation method and predefined
    profile, encoding and then decoding the emitted fields with a decoder
    built from the same key, profile and method gives [success = true] and
    [cmacValid = true].  Without file data the UID comes back in upper
    case when the profile holds a UID and the counter when it holds a
    counter, and a field the profile leaves out is [null].  With text file
    data and a profile that holds file data, the UID, the counter and the
    text come back. *)
Theorem round_trip {C : Crypto} (HC : CryptoSpec C)
  (masterKey : string) (uid : jsval) (counter : Z) (opts : EncryptOptions)
  (profileName : string) (prof : SDMConfig.SDMProfile) (strict : bool) :
  valid_master_key masterKey -> valid_uid uid -> 0 <= counter <= 16777215 ->
  In (encrypt_method opts) valid_methods ->
  SDMConfig.lookup profileName SDMConfig.profiles = Some prof ->
  (encrypt_profile opts VNull = SDMConfig.PName profileName ->
   exists e dl dc rl rc,
     outcome (Encoder.encrypt (VStr masterKey) uid (VNum (NInt counter)) VNull opts)
     = inr e /\
     outcome (LegacyDecoder.new (VStr masterKey)
                (matching_options opts profileName strict)) = inr dl /\
     outcome (Decoder.new (VStr masterKey)
                (matching_options opts profileName strict)) = inr dc /\
     outcome (LegacyDecoder.decrypt dl (Encoded.to_input e) no_custom) = inr rl /\
     outcome (Decoder.decrypt dc (Encoded.to_input e) no_custom) = inr rc /\
     round_trip_result_for prof uid counter rl /\
     round_trip_result_for prof uid counter rc) /\
  (forall s,
     plain_file_text s ->
     encrypt_profile opts (VStr s) = SDMConfig.PName profileName ->
     SDMConfig.includeFileData prof = true ->
     exists e dl dc rl rc,
       outcome (Encoder.encrypt (VStr masterKey) uid (VNum (NInt counter)) (VStr s) opts)
       = inr e /\
       Encoded.enc (Encoded.encrypted e) <> None /\
       outcome (LegacyDecoder.new (VStr masterKey)
                  (matching_options opts profileName strict)) = inr dl /\
       outcome (Decoder.new (VStr masterKey)
                  (matching_options opts profileName strict)) = inr dc /\
       outcome (LegacyDecoder.decrypt dl (Encoded.to_input e) no_custom) = inr rl /\
       outcome (Decoder.decrypt dc (Encoded.to_input e) no_custom) = inr rc /\
       file_round_trip_result uid counter s rl /\
       file_round_trip_result uid counter s rc).
Proof.
  intros Hmk Huid Hn Hm Hl. split.
  - intros Hp.
    apply (round_trip_plain HC masterKey uid counter opts profileName prof strict);
      assumption.
  - intros s Hs Hp Hinc.
    apply (round_trip_file HC masterKey uid counter s opts profileName prof strict);
      assumption.
Qed.

Lemma round_trip_witness :
  (exists e dl dc rl rc,
     outcome (@Encoder.encrypt Toy.crypto (VStr Toy.sample_key) (VStr Toy.sample_uid)
                (VNum (NInt 42)) VNull (Sample.options_for "ntag424Official" "uidOnly"))
     = inr e /\
     outcome (LegacyDecoder.new (VStr Toy.sample_key)
                (matching_options (Sample.options_for "ntag424Official" "uidOnly")
                   "uidOnly" false)) = inr dl /\
     outcome (Decoder.new (VStr Toy.sample_key)
                (matching_options (Sample.options_for "ntag424Official" "uidOnly")
                   "uidOnly" false)) = inr dc /\
     outcome (@LegacyDecoder.decrypt Toy.crypto dl (Encoded.to_input e) no_custom)
     = inr rl /\
     outcome (@Decoder.decrypt Toy.crypto dc (Encoded.to_input e) no_custom) = inr rc /\
     round_trip_result_for SDMConfig.uidOnly (VStr Toy.sample_uid) 42 rl /\
     round_trip_result_for SDMConfig.uidOnly (VStr Toy.sample_uid) 42 rc) /\
  (exists e dl dc rl rc,
     outcome (@Encoder.encrypt Toy.crypto (VStr Toy.sample_key) (VStr Toy.sample_uid)
                (VNum (NInt 42)) (VStr "Secret Message!") no_options)
     = inr e /\
     Encoded.enc (Encoded.encrypted e) <> None /\
     outcome (LegacyDecoder.new (VStr Toy.sample_key)
                (matching_options no_options "full" false)) = inr dl /\
     outcome (Decoder.new (VStr Toy.sample_key)
                (matching_options no_options "full" false)) = inr dc /\
     outcome (@LegacyDecoder.decrypt Toy.crypto dl (Encoded.to_input e) no_custom)
     = inr rl /\
     outcome (@Decoder.decrypt Toy.crypto dc (Encoded.to_input e) no_custom) = inr rc /\
     file_round_trip_result (VStr Toy.sample_uid) 42 "Secret Message!" rl /\
     file_round_trip_result (VStr Toy.sample_uid) 42 "Secret Message!" rc).
Proof.
  assert (Hmk : valid_master_key Toy.sample_key) by (split; reflexivity).
  assert (Huid : valid_uid (VStr Toy.sample_uid)) by (simpl; repeat split; reflexivity).
  assert (Hn : 0 <= 42 <= 16777215) by lia.
  split.
  - refine (proj1 (round_trip toy_spec Toy.sample_key (VStr Toy.sample_uid) 42
                     (Sample.options_for "ntag424Official" "uidOnly") "uidOnly"
                     SDMConfig.uidOnly false Hmk Huid Hn _ eq_refl) eq_refl).
    simpl. left. reflexivity.
  - refine (proj2 (round_trip toy_spec Toy.sample_key (VStr Toy.sample_uid) 42
                     no_options "full" SDMConfig.full false Hmk Huid Hn _ eq_refl)
              "Secret Message!" _ eq_refl eq_refl).
    + simpl. left. reflexivity.
    + split; [discriminate | reflexivity].
Defined.

(** C5: with valid arguments, file data and a predefined profile that does
    not hold file data, the encoder that validates the profile throws
    before any primitive is called, and what it throws is an
    [EncryptionError] that wraps the profile check's message, never an
    [SDMProfileError]; the older encoder does not check and returns a
    result with [enc].  With a profile that holds file data the encoder
    succeeds and returns [enc] and the file data text, and text file data
    comes back from both decoders. *)
Theorem file_data_profile_gating {C : Crypto} (HC : CryptoSpec C)
  (mk : string) (uid : jsval) (counter : Z) (fd : jsval) (opts : EncryptOptions)
  (pn : string) (prof : SDMConfig.SDMProfile) :
  valid_master_key mk -> valid_uid uid -> 0 <= counter <= 16777215 ->
  In (encrypt_method opts) valid_methods ->
  truthy fd = true -> (exists s, fd = VStr s) \/ (exists b, fd = VBuf b) ->
  encrypt_profile opts fd = SDMConfig.PName pn ->
  SDMConfig.lookup pn SDMConfig.profiles = Some prof ->
  (SDMConfig.includeFileData prof = false ->
   Encoder.encrypt (VStr mk) uid (VNum (NInt counter)) fd opts
   = throw (Err.mkError Err.EncryptionError
              ("Encryption failed: SDM profile validation failed: Profile '" +++ pn +++
               "' does not support file data encryption. Use 'full' profile instead.")
              "encrypt") /\
   exists r,
     outcome (LegacyEncoder.encrypt (VStr mk) uid (VNum (NInt counter)) fd opts) = inr r /\
     Encoded.enc (Encoded.encrypted r) <> None) /\
  (SDMConfig.includeFileData prof = true ->
   (exists r,
      outcome (Encoder.encrypt (VStr mk) uid (VNum (NInt counter)) fd opts) = inr r /\
      Encoded.enc (Encoded.encrypted r) <> None /\
      Encoded.fileData (Encoded.original r) = Some (fileData_toString fd)) /\
   (forall s strict,
      fd = VStr s -> plain_file_text s ->
      exists e dl dc rl rc,
        outcome (Encoder.encrypt (VStr mk) uid (VNum (NInt counter)) fd opts) = inr e /\
        outcome (LegacyDecoder.new (VStr mk) (matching_options opts pn strict)) = inr dl /\
        outcome (Decoder.new (VStr mk) (matching_options opts pn strict)) = inr dc /\
        outcome (LegacyDecoder.decrypt dl (Encoded.to_input e) no_custom) = inr rl /\
        outcome (Decoder.decrypt dc (Encoded.to_input e) no_custom) = inr rc /\
        Decoded.get_encryptedFileData rl = Some s /\
        Decoded.get_encryptedFileData rc = Some s)) /\
  (forall e,
     outcome (Encoder.encrypt (VStr mk) uid (VNum (NInt counter)) fd opts) = inl e ->
     Err.name e <> Err.SDMProfileError).
Proof.
  intros Hmk Huid Hc Hm Et Hfd Hp Hl.
  assert (Hn : counter_in_range (NInt counter) = true).
  { unfold counter_in_range. cbn [isInteger int_value andb].
    apply andb_true_iff. rewrite !Z.leb_le. exact Hc. }
  assert (Henc : forall method key r,
             cmac_over_ciphertexts method key fd r ->
             Encoded.enc (Encoded.encrypted r) <> None).
  { intros method key r (sk & pc & fc & _ & _ & -> & Hfc & _).
    destruct fc; [discriminate|]. exfalso. apply (proj2 Hfc Et). reflexivity. }
  split; [|split].
  - intros Hinc. split.
    + assert (Hname : SDMConfig.name_text prof = pn).
      { apply lookup_cases in Hl as [[-> ->] | [[-> ->] | [[-> ->] | [-> ->]]]];
          reflexivity. }
      rewrite <- Hname. apply encrypt_gated; try assumption.
      * destruct Hfd as [[s ->] | [b ->]]; reflexivity.
      * rewrite Hp. apply resolve_predefined. exact Hl.
    + destruct (legacy_encrypt_ok HC mk uid (NInt counter) fd opts pn prof
                  Hmk Huid Hn Hm Hp Hl)
        as (r & Hr & _).
      { right. exact Hfd. }
      exists r. split; [exact Hr|].
      apply legacy_encrypt_inr in Hr as [_ Hr]. exact (Henc _ _ _ Hr).
  - intros Hinc. split.
    + destruct (encrypt_file_ok HC mk uid (NInt counter) fd opts pn prof
                  Hmk Huid Hn Hm Hp Hl Et Hfd Hinc)
        as (r & Hr & _ & Hf).
      exists r. split; [exact Hr|]. split; [|exact Hf].
      apply encrypt_inr in Hr as [_ Hr]. exact (Henc _ _ _ Hr).
    + intros s strict -> Hs.
      destruct (round_trip_file HC mk uid counter s opts pn prof strict
                  Hmk Huid Hc Hm Hs Hp Hl Hinc)
        as (e & dl & dc & rl & rc & He & _ & Hdl & Hdc & Hrl & Hrc & Hfl & Hfc).
      exists e, dl, dc, rl, rc.
      repeat (split; [assumption|]).
      split; [apply Hfl | apply Hfc].
  - intros e He. apply encrypt_error_classes in He as [-> | ->]; discriminate.
Qed.

Lemma file_data_profile_gating_witness :
  (@Encoder.encrypt Toy.crypto (VStr Toy.sample_key) (VStr Toy.sample_uid) (VNum (NInt 42))
     (VStr "Secret Message!") (Sample.options_for "ntag424Official" "uidCounter")
   = throw (Err.mkError Err.EncryptionError
              ("Encryption failed: SDM profile validation failed: Profile '" +++
               "uidCounter" +++
               "' does not support file data encryption. Use 'full' profile instead.")
              "encrypt") /\
   exists r,
     outcome (@LegacyEncoder.encrypt Toy.crypto (VStr Toy.sample_key) (VStr Toy.sample_uid)
                (VNum (NInt 42)) (VStr "Secret Message!")
                (Sample.options_for "ntag424Official" "uidCounter")) = inr r /\
     Encoded.enc (Encoded.encrypted r) <> None) /\
  (exists r,
     outcome (@Encoder.encrypt Toy.crypto (VStr Toy.sample_key) (VStr Toy.sample_uid)
                (VNum (NInt 42)) (VStr "Secret Message!")
                (Sample.options_for "ntag424Official" "full")) = inr r /\
     Encoded.enc (Encoded.encrypted r) <> None /\
     Encoded.fileData (Encoded.original r)
     = Some (fileData_toString (VStr "Secret Message!"))).
Proof.
  assert (Hmk : valid_master_key Toy.sample_key) by (split; reflexivity).
  assert (Huid : valid_uid (VStr Toy.sample_uid)) by (simpl; repeat split; reflexivity).
  assert (Hn : 0 <= 42 <= 16777215) by lia.
  assert (Hm : In "ntag424Official" valid_methods) by (simpl; left; reflexivity).
  assert (Hfd : (exists s, VStr "Secret Message!" = VStr s) \/
                (exists b, VStr "Secret Message!" = VBuf b)).
  { left. exists "Secret Message!". reflexivity. }
  split.
  - exact (proj1 (file_data_profile_gating toy_spec Toy.sample_key (VStr Toy.sample_uid)
                    42 (VStr "Secret Message!")
                    (Sample.options_for "ntag424Official" "uidCounter")
                    "uidCounter" SDMConfig.uidCounter Hmk Huid Hn Hm eq_refl Hfd
                    eq_refl eq_refl) eq_refl).
  - exact (proj1 (proj1 (proj2 (file_data_profile_gating toy_spec Toy.sample_key
                    (VStr Toy.sample_uid) 42 (VStr "Secret Message!")
                    (Sample.options_for "ntag424Official" "full")
                    "full" SDMConfig.full Hmk Huid Hn Hm eq_refl Hfd
                    eq_refl eq_refl)) eq_refl)).
Defined.


(* ------------------------------------------------------------------ *)
(** ** Hexadecimal input *)

Section HexInput.

Lemma even_mod2 (n : nat) : (n mod 2 =? 0)%nat = Nat.even n.
Proof.
  destruct (Nat.even n) eqn:E.
  - apply Nat.even_spec in E. destruct E as [k ->].
    rewrite Nat.mul_comm, Nat.Div0.mod_mul. reflexivity.
  - apply Nat.eqb_neq. intros H.
    assert (Nat.even n = true); [|congruence].
    apply Nat.even_spec. exists (n / 2)%nat.
    pose proof (Nat.div_mod_eq n 2). lia.
Qed.

Lemma hex_regex_truthy (s : string) : Buf.hex_regex s = true -> truthy (VStr s) = true.
Proof. destruct s; [discriminate | reflexivity]. Qed.

(** What both copies of [DataParser.hexToBuffer] and the decoder's own
    [_hexToBuffer] do with an accepted text. *)
Lemma hexToBuffer_accepts (lg : bool) (s f : string) :
  Buf.hex_regex s = true -> Nat.even (String.length s) = true ->
  DataParser.hexToBuffer lg (VStr s) f = ret (Buf.from_hex s) /\
  Decoder._hexToBuffer (VStr s) f = ret (Buf.from_hex s).
Proof.
  intros Hh He.
  unfold DataParser.hexToBuffer, Decoder._hexToBuffer, DataParser.validateHexString.
  rewrite (hex_regex_truthy s Hh), Hh, even_mod2, He. split; reflexivity.
Qed.

Lemma hexToBuffer_rejects (lg : bool) (v : jsval) (f : string) (b : bytes) :
  outcome (DataParser.hexToBuffer lg v f) = inr b \/
  outcome (Decoder._hexToBuffer v f) = inr b ->
  even_hex_text v.
Proof.
  unfold DataParser.hexToBuffer, Decoder._hexToBuffer, DataParser.validateHexString,
    even_hex_text.
  intros H.
  destruct v as [| | x | n | s | x | fs];
    try (destruct H as [H | H]; destruct lg; cbn in H; discriminate).
  exists s. split; [reflexivity|].
  destruct (truthy (VStr s)) eqn:Et.
  2:{ destruct H as [H | H]; destruct lg; cbn in H; discriminate. }
  destruct (Buf.hex_regex s) eqn:Eh.
  2:{ destruct H as [H | H]; destruct lg; cbn in H; discriminate. }
  rewrite even_mod2 in H.
  destruct (Nat.even (String.length s)) eqn:Ee; [split; reflexivity|].
  destruct H as [H | H]; destruct lg; cbn in H; discriminate.
Qed.

End HexInput.

(** Hex input: [DataParser.hexToBuffer] (both copies) and the decoder's
    [_hexToBuffer] return a buffer exactly for a string of one or more
    hexadecimal digits of even length; the buffer has half as many bytes
    as the text has characters and prints back, in upper case, as the
    text in upper case; the upper-case hex text of a non-empty buffer
    decodes to that buffer. *)
Theorem hexToBuffer_decodes_even_hex (lg : bool) (v : jsval) (f : string) :
  ((exists b, outcome (DataParser.hexToBuffer lg v f) = inr b) <-> even_hex_text v) /\
  ((exists b, outcome (Decoder._hexToBuffer v f) = inr b) <-> even_hex_text v) /\
  (forall s, v = VStr s -> even_hex_text v ->
     DataParser.hexToBuffer lg v f = ret (Buf.from_hex s) /\
     Decoder._hexToBuffer v f = ret (Buf.from_hex s) /\
     (2 * List.length (Buf.from_hex s))%nat = String.length s /\
     hex_upper (Buf.from_hex s) = Buf.toUpperCase s) /\
  (forall b, b <> [] ->
     DataParser.hexToBuffer lg (VStr (hex_upper b)) f = ret b /\
     Decoder._hexToBuffer (VStr (hex_upper b)) f = ret b).
Proof.
  assert (Hacc : forall s, even_hex_text (VStr s) ->
            Buf.hex_regex s = true /\ Nat.even (String.length s) = true).
  { intros s (s' & E & Hh & He). injection E as <-. split; assumption. }
  split; [|split; [|split]].
  - split.
    + intros [b H]. apply (hexToBuffer_rejects lg v f b). left. exact H.
    + intros (s & -> & Hh & He). exists (Buf.from_hex s).
      rewrite (proj1 (hexToBuffer_accepts lg s f Hh He)). reflexivity.
  - split.
    + intros [b H]. apply (hexToBuffer_rejects lg v f b). right. exact H.
    + intros (s & -> & Hh & He). exists (Buf.from_hex s).
      rewrite (proj2 (hexToBuffer_accepts lg s f Hh He)). reflexivity.
  - intros s -> Ht. destruct (Hacc s Ht) as [Hh He].
    destruct (hexToBuffer_accepts lg s f Hh He) as [H1 H2].
    destruct (hex_upper_from_hex s (hex_regex_all_hex s Hh) He) as [Hu Hl].
    split; [exact H1|]. split; [exact H2|]. split; [|exact Hu].
    rewrite Hl. apply Nat.even_spec in He. destruct He as [k ->].
    rewrite Nat.div2_double. reflexivity.
  - intros b Hb.
    assert (Hh : Buf.hex_regex (hex_upper b) = true) by (apply hex_regex_hex_upper; exact Hb).
    assert (He : Nat.even (String.length (hex_upper b)) = true).
    { rewrite <- even_mod2. apply even_length_hex_upper. }
    destruct (hexToBuffer_accepts lg (hex_upper b) f Hh He) as [H1 H2].
    rewrite from_hex_hex_upper in H1, H2. split; assumption.
Qed.


(* ------------------------------------------------------------------ *)
(** ** Counter bytes *)

Section CounterBytes.

Lemma byte_of_Z_of_byte (x : byte) : Buf.byte_of_Z (Buf.Z_of_byte x) = x.
Proof. destruct x; reflexivity. Qed.

Lemma Z_of_byte_bounds (x : byte) : 0 <= Buf.Z_of_byte x < 256.
Proof. unfold Buf.Z_of_byte. pose proof (Byte.to_N_bounded x). lia. Qed.

Lemma byte_of_Z_mod (z : Z) : Buf.byte_of_Z (z mod 256) = Buf.byte_of_Z z.
Proof. unfold Buf.byte_of_Z. rewrite Z.mod_mod by lia. reflexivity. Qed.

Lemma writeUIntBE3_readUIntBE (a b c : byte) :
  Buf.writeUIntBE3 (Buf.readUIntBE [a; b; c]) = [a; b; c].
Proof.
  unfold Buf.writeUIntBE3, Buf.readUIntBE. cbn [fold_left].
  pose proof (Z_of_byte_bounds a) as Ha. pose proof (Z_of_byte_bounds b) as Hb.
  pose proof (Z_of_byte_bounds c) as Hc.
  set (x := Buf.Z_of_byte a) in *. set (y := Buf.Z_of_byte b) in *.
  set (z := Buf.Z_of_byte c) in *.
  replace (((0 * 256 + x) * 256 + y) * 256 + z) with (x * 65536 + (y * 256 + z)) by lia.
  assert (E1 : (x * 65536 + (y * 256 + z)) / 65536 = x).
  { rewrite Z.div_add_l by lia. rewrite Z.div_small by lia. lia. }
  assert (E2 : ((x * 65536 + (y * 256 + z)) / 256) mod 256 = y).
  { replace (x * 65536 + (y * 256 + z)) with ((x * 256 + y) * 256 + z) by lia.
    rewrite Z.div_add_l by lia. rewrite (Z.div_small z) by lia.
    rewrite Z.add_0_r, Z.add_comm, Z.mod_add by lia. apply Z.mod_small. lia. }
  assert (E3 : (x * 65536 + (y * 256 + z)) mod 256 = z).
  { replace (x * 65536 + (y * 256 + z)) with (z + (x * 256 + y) * 256) by lia.
    rewrite Z.mod_add by lia. apply Z.mod_small. lia. }
  rewrite E1. rewrite <- (byte_of_Z_mod (_ / 256)), E2.
  rewrite <- (byte_of_Z_mod (x * 65536 + _)), E3.
  unfold x, y, z. rewrite !byte_of_Z_of_byte. reflexivity.
Qed.

End CounterBytes.

(** Counter bytes: for every integer in [0, 16777215] the three
    big-endian bytes written by [_numberToCounter] read back as the same
    integer, and for every 3-byte buffer the integer read by
    [_counterToNumber] is in that range and writes back as the same
    bytes; [_validateAndConvertCounter] hands a 3-byte buffer through
    unchanged and rejects every other buffer. *)
Theorem counter_bytes_round_trip :
  (forall n, 0 <= n <= 16777215 ->
     List.length (Encoder._numberToCounter n) = 3%nat /\
     Encoder._counterToNumber (Encoder._numberToCounter n) = n /\
     LegacyEncoder._counterToNumber (LegacyEncoder._numberToCounter n) = n) /\
  (forall b, List.length b = 3%nat ->
     0 <= Encoder._counterToNumber b <= 16777215 /\
     Encoder._numberToCounter (Encoder._counterToNumber b) = b /\
     LegacyEncoder._numberToCounter (LegacyEncoder._counterToNumber b) = b) /\
  (forall b,
     (List.length b = 3%nat ->
      Encoder._validateAndConvertCounter (VBuf b) = ret b /\
      LegacyEncoder._validateAndConvertCounter (VBuf b) = ret b) /\
     (List.length b <> 3%nat ->
      Encoder._validateAndConvertCounter (VBuf b)
      = throw (Encoder.validation "Counter buffer must be exactly 3 bytes" "scanCount") /\
      LegacyEncoder._validateAndConvertCounter (VBuf b)
      = throw (Err.plain "Counter buffer must be exactly 3 bytes"))).
Proof.
  split; [|split].
  - intros n Hn.
    unfold Encoder._counterToNumber, LegacyEncoder._counterToNumber,
      Encoder._numberToCounter, LegacyEncoder._numberToCounter.
    cbn [Buf.writeUIntBE3 List.length Nat.min firstn].
    fold (Buf.writeUIntBE3 n).
    rewrite readUIntBE_writeUIntBE3 by exact Hn. repeat split.
  - intros b Hb.
    destruct b as [|x [|y [|z [|]]]]; try discriminate.
    unfold Encoder._counterToNumber, LegacyEncoder._counterToNumber,
      Encoder._numberToCounter, LegacyEncoder._numberToCounter.
    cbn [List.length Nat.min firstn].
    split; [apply readUIntBE_bounds3|].
    rewrite writeUIntBE3_readUIntBE. split; reflexivity.
  - intros b. split; intros Hb;
      unfold Encoder._validateAndConvertCounter, LegacyEncoder._validateAndConvertCounter.
    + rewrite Hb. split; reflexivity.
    + apply Nat.eqb_neq in Hb. rewrite Hb. split; reflexivity.
Qed.


(* ------------------------------------------------------------------ *)
(** ** Choosing a profile *)

(** Profile suggestion: for every requirements value other than [null]
    and [undefined], [suggestProfile] returns the name of a predefined
    profile that [getProfile] resolves, which includes every capability
    the requirements ask for and includes file data only when asked. *)
Theorem suggestProfile_covers_requirements (requirements : jsval) :
  SDMConfig.nullish requirements = false ->
  exists name p,
    SDMConfig.suggestProfile requirements = ret name /\
    SDMConfig.lookup name SDMConfig.profiles = Some p /\
    SDMConfig.getProfile (VStr name) = ret p /\
    (truthy (JS.get requirements "needsUID") = true -> SDMConfig.includeUID p = true) /\
    (truthy (JS.get requirements "needsCounter") = true ->
     SDMConfig.includeCounter p = true) /\
    SDMConfig.includeFileData p = truthy (JS.get requirements "needsFileData").
Proof.
  intros Hn.
  assert (E : SDMConfig.suggestProfile requirements =
              let needsUID := JS.get requirements "needsUID" in
              let needsCounter := JS.get requirements "needsCounter" in
              let needsFileData := JS.get requirements "needsFileData" in
              if truthy needsFileData then ret "full"
              else if truthy needsUID && truthy needsCounter then ret "uidCounter"
              else if truthy needsUID then ret "uidOnly"
              else if truthy needsCounter then ret "counterOnly"
              else ret "uidCounter").
  { destruct requirements; try reflexivity; discriminate. }
  rewrite E. cbv zeta.
  destruct (truthy (JS.get requirements "needsFileData")).
  - exists "full", SDMConfig.full. repeat split.
  - destruct (truthy (JS.get requirements "needsUID")),
             (truthy (JS.get requirements "needsCounter")); cbn [andb].
    + exists "uidCounter", SDMConfig.uidCounter. repeat split.
    + exists "uidOnly", SDMConfig.uidOnly. repeat split. discriminate.
    + exists "counterOnly", SDMConfig.counterOnly. repeat split. discriminate.
    + exists "uidCounter", SDMConfig.uidCounter. repeat split.
Qed.

Lemma suggestProfile_covers_requirements_witness :
  exists name p,
    SDMConfig.suggestProfile (VObj [("needsCounter", VBool true)]) = ret name /\
    SDMConfig.lookup name SDMConfig.profiles = Some p /\
    SDMConfig.getProfile (VStr name) = ret p /\
    (truthy (JS.get (VObj [("needsCounter", VBool true)]) "needsUID") = true ->
     SDMConfig.includeUID p = true) /\
    (truthy (JS.get (VObj [("needsCounter", VBool true)]) "needsCounter") = true ->
     SDMConfig.includeCounter p = true) /\
    SDMConfig.includeFileData p
    = truthy (JS.get (VObj [("needsCounter", VBool true)]) "needsFileData").
Proof.
  apply (suggestProfile_covers_requirements (VObj [("needsCounter", VBool true)])).
  reflexivity.
Defined.


(* ------------------------------------------------------------------ *)
(** ** Generated master keys *)

Section GeneratedKeys.

Lemma upper_hex_is_hex (c : ascii) :
  Buf.is_upper_hex_char c = true -> Buf.is_hex_char c = true.
Proof. destruct c as [[] [] [] [] [] [] [] []]; cbv; congruence. Qed.

Lemma all_upper_hex_all_hex (s : string) :
  Buf.all_upper_hex s = true -> Buf.all_hex s = true.
Proof.
  induction s as [|c s IH]; [reflexivity|].
  cbn [Buf.all_upper_hex Buf.all_hex]. intros H. apply andb_prop in H as [Hc Hs].
  rewrite (upper_hex_is_hex c Hc), (IH Hs). reflexivity.
Qed.

Lemma all_upper_hex_hex_upper (b : bytes) : Buf.all_upper_hex (hex_upper b) = true.
Proof.
  unfold hex_upper. induction b as [|x b IH]; [reflexivity|].
  cbn [Buf.toString_hex Buf.toUpperCase Buf.all_upper_hex]. rewrite IH.
  destruct x; reflexivity.
Qed.

Lemma generated_key_valid (keyBytes : bytes) (k : string) :
  outcome (Encoder.generateMasterKey keyBytes) = inr k \/
  outcome (LegacyEncoder.generateMasterKey keyBytes) = inr k ->
  k = hex_upper keyBytes /\ valid_master_key k.
Proof.
  unfold Encoder.generateMasterKey, LegacyEncoder.generateMasterKey.
  fold (hex_upper keyBytes). cbv zeta.
  destruct (String.length (hex_upper keyBytes) =? 32)%nat eqn:El.
  2:{ intros [H | H]; cbn in H; discriminate. }
  destruct (Buf.upper_hex_regex (hex_upper keyBytes)) eqn:Eh.
  2:{ intros [H | H]; cbn in H; discriminate. }
  intros H.
  assert (k = hex_upper keyBytes) as ->.
  { destruct H as [H | H]; cbn in H; injection H as <-; reflexivity. }
  split; [reflexivity|]. split.
  - apply Nat.eqb_eq. exact El.
  - unfold Buf.upper_hex_regex in Eh. apply andb_prop in Eh as [Hne Hall].
    unfold Buf.hex_regex. rewrite Hne, (all_upper_hex_all_hex _ Hall). reflexivity.
Qed.

End GeneratedKeys.

(** Generated master keys: whatever bytes the random source returns,
    [generateMasterKey] (both copies of encoder.js) returns only keys
    that the encoder and the decoder accept; for 16 random bytes it
    never throws, returns their 32 upper-case hex characters, and a
    decoder built from that text holds exactly those 16 bytes. *)
Theorem generateMasterKey_is_accepted (keyBytes : bytes) :
  (forall k,
     outcome (Encoder.generateMasterKey keyBytes) = inr k \/
     outcome (LegacyEncoder.generateMasterKey keyBytes) = inr k ->
     valid_master_key k) /\
  (List.length keyBytes = 16%nat ->
   Encoder.generateMasterKey keyBytes = ret (hex_upper keyBytes) /\
   LegacyEncoder.generateMasterKey keyBytes = ret (hex_upper keyBytes) /\
   String.length (hex_upper keyBytes) = 32%nat /\
   Decoder.new (VStr (hex_upper keyBytes)) default_options
   = ret (mkDecoder keyBytes default_options false) /\
   LegacyDecoder.new (VStr (hex_upper keyBytes)) default_options
   = ret (mkDecoder keyBytes default_options false)).
Proof.
  split.
  - intros k H. apply (generated_key_valid keyBytes k H).
  - intros Hl.
    assert (Hlen : String.length (hex_upper keyBytes) = 32%nat).
    { rewrite length_hex_upper, Hl. reflexivity. }
    assert (Hne : keyBytes <> []).
    { intros ->. discriminate. }
    assert (Hup : Buf.upper_hex_regex (hex_upper keyBytes) = true).
    { unfold Buf.upper_hex_regex.
      rewrite (hex_upper_nonempty keyBytes Hne), all_upper_hex_hex_upper. reflexivity. }
    assert (Hgen : Encoder.generateMasterKey keyBytes = ret (hex_upper keyBytes) /\
                   LegacyEncoder.generateMasterKey keyBytes = ret (hex_upper keyBytes)).
    { unfold Encoder.generateMasterKey, LegacyEncoder.generateMasterKey.
      fold (hex_upper keyBytes). cbv zeta. rewrite Hlen, Hup. split; reflexivity. }
    destruct Hgen as [Hg Hgl].
    assert (Hvalid : valid_master_key (hex_upper keyBytes)).
    { split; [exact Hlen | apply hex_regex_hex_upper; exact Hne]. }
    destruct (new_decoder_ok (hex_upper keyBytes) default_options "uidCounter"
                SDMConfig.uidCounter Hvalid) as [Hdl Hdc];
      [cbn; tauto | reflexivity | reflexivity |].
    rewrite from_hex_hex_upper in Hdl, Hdc.
    repeat (split; [assumption|]). exact Hdl.
Qed.


(* ------------------------------------------------------------------ *)
(** ** The validators of data-parser.js and the encoder *)

Section Validators.

Lemma hex_value_0 (a : ascii) : Buf.hex_value a = Some 0%N -> a = "0"%char.
Proof.
  destruct a as [[] [] [] [] [] [] [] []]; cbv; intros E;
    first [discriminate | reflexivity].
Qed.

Lemma hex_value_4 (a : ascii) : Buf.hex_value a = Some 4%N -> a = "4"%char.
Proof.
  destruct a as [[] [] [] [] [] [] [] []]; cbv; intros E;
    first [discriminate | reflexivity].
Qed.

Lemma hex_value_lt (a : ascii) (h : N) : Buf.hex_value a = Some h -> (h < 16)%N.
Proof. intros H. apply hex_value_upper in H. tauto. Qed.

Lemma hex_pair_04 (a b : ascii) :
  Buf.hex_pair a b = Some x04 <-> (a = "0"%char /\ b = "4"%char).
Proof.
  split.
  - unfold Buf.hex_pair.
    destruct (Buf.hex_value a) as [h|] eqn:Ea; [|discriminate].
    destruct (Buf.hex_value b) as [l|] eqn:Eb; [|discriminate].
    intros E0. assert (E : Buf.byte_of_N (16 * h + l) = x04) by congruence. clear E0.
    pose proof (hex_value_lt a h Ea). pose proof (hex_value_lt b l Eb).
    assert (Hn : Byte.to_N (Buf.byte_of_N (16 * h + l)) = (16 * h + l)%N).
    { apply to_N_byte_of_N. lia. }
    rewrite E in Hn. change (Byte.to_N x04) with 4%N in Hn.
    assert (h = 0%N /\ l = 4%N) as [-> ->] by lia.
    split; [apply hex_value_0 | apply hex_value_4]; assumption.
  - intros [-> ->]. reflexivity.
Qed.

(** The first byte of a decoded text is [0x04] exactly when its upper-case
    form starts with ["04"]. *)
Lemma starts_with_04 (s : string) :
  Buf.hex_regex s = true -> (2 <= String.length s)%nat ->
  (JS.startsWith (Buf.toUpperCase s) "04" = true <-> hd x00 (Buf.from_hex s) = x04).
Proof.
  intros Hh Hl. apply hex_regex_all_hex in Hh.
  destruct s as [|a [|b rest]]; cbn [String.length] in Hl; try lia.
  cbn [Buf.all_hex] in Hh. apply andb_prop in Hh as [Ha Hh].
  apply andb_prop in Hh as [Hb _].
  destruct (all_hex_pair a b Ha Hb) as [x Hx].
  rewrite from_hex_cons, Hx. cbn [hd].
  unfold JS.startsWith. cbn [Buf.toUpperCase String.prefix].
  split.
  - intros H.
    destruct (ascii_dec "0" (Buf.upper_char a)) as [Ea|]; [|discriminate].
    destruct (ascii_dec "4" (Buf.upper_char b)) as [Eb|]; [|discriminate].
    assert (a = "0"%char).
    { clear - Ea Ha. revert Ea Ha.
      destruct a as [[] [] [] [] [] [] [] []]; cbv; intros; congruence. }
    assert (b = "4"%char).
    { clear - Eb Hb. revert Eb Hb.
      destruct b as [[] [] [] [] [] [] [] []]; cbv; intros; congruence. }
    subst. cbv in Hx. congruence.
  - intros ->. apply hex_pair_04 in Hx as [-> ->].
    change (Buf.upper_char "0") with "0"%char.
    change (Buf.upper_char "4") with "4"%char.
    destruct (ascii_dec "0" "0") as [_|n]; [|congruence].
    destruct (ascii_dec "4" "4") as [_|n]; [|congruence].
    destruct (Buf.toUpperCase rest); reflexivity.
Qed.

End Validators.

(** Validators and encoder: [DataParser.validateUID] accepts exactly the
    14-digit hex strings whose first byte is [0x04], each of which the
    encoder converts to 7 bytes starting with [0x04];
    [DataParser.validateCounter] accepts a number exactly when the
    encoder's counter check does, and nothing that is not a number. *)
Theorem validators_agree_with_encoder (uid counter : jsval) :
  (DataParser.validateUID uid = true <-> (is_string uid = true /\ valid_uid uid)) /\
  (DataParser.validateUID uid = true ->
   exists ub, Encoder._validateAndConvertUID uid = ret ub /\
              List.length ub = 7%nat /\ hd x00 ub = x04) /\
  (DataParser.validateCounter counter = true <->
   exists n, counter = VNum n /\ counter_in_range n = true) /\
  (DataParser.validateCounter counter = true ->
   exists cb, Encoder._validateAndConvertCounter counter = ret cb /\
              List.length cb = 3%nat).
Proof.
  assert (Huid : DataParser.validateUID uid = true <-> (is_string uid = true /\ valid_uid uid)).
  { unfold DataParser.validateUID, DataParser.validateHexString.
    destruct uid as [| | x | n | s | x | fs]; cbn [is_string valid_uid];
      try (split; [discriminate | intros [H _]; discriminate]);
      try (split; [discriminate | tauto]).
    destruct (truthy (VStr s)) eqn:Et; cbn [negb].
    2:{ split; [discriminate|]. intros (_ & _ & Hh & _).
        rewrite (hex_regex_truthy s Hh) in Et. discriminate. }
    destruct (String.length s =? 14)%nat eqn:El; cbn [negb].
    2:{ split; [discriminate|]. intros (_ & Hl & _).
        apply Nat.eqb_neq in El. contradiction. }
    apply Nat.eqb_eq in El.
    destruct (Buf.hex_regex s) eqn:Eh; cbn [negb].
    2:{ split; [discriminate|]. intros (_ & _ & Hh & _). discriminate. }
    pose proof (starts_with_04 s Eh ltac:(lia)) as H04.
    destruct (JS.startsWith (Buf.toUpperCase s) "04") eqn:Es; cbn [negb].
    - split; [|reflexivity]. intros _. repeat split; try assumption.
      apply H04. reflexivity.
    - split; [discriminate|]. intros (_ & _ & _ & H4).
      apply H04 in H4. discriminate. }
  assert (Hctr : DataParser.validateCounter counter = true <->
                 exists n, counter = VNum n /\ counter_in_range n = true).
  { unfold DataParser.validateCounter.
    destruct counter as [| | x | n | s | x | fs];
      try (split; [discriminate | intros (n' & E & _); discriminate]).
    split.
    - intros H. exists n. split; [reflexivity|]. unfold counter_in_range.
      destruct (isInteger n); cbn [negb] in H; [|discriminate]. cbn [andb].
      rewrite Z.gtb_ltb in H.
      destruct (Z.ltb_spec (int_value n) 0), (Z.ltb_spec 16777215 (int_value n));
        cbn [orb] in H; try discriminate.
      apply andb_true_iff; split; apply Z.leb_le; lia.
    - intros (n' & E & H). assert (n' = n) as -> by congruence. clear E.
      unfold counter_in_range in H.
      apply andb_prop in H as [H H2]. apply andb_prop in H as [Hi H1].
      apply Z.leb_le in H1, H2. rewrite Hi. cbn [negb]. rewrite Z.gtb_ltb.
      destruct (Z.ltb_spec (int_value n) 0), (Z.ltb_spec 16777215 (int_value n));
        cbn [orb]; first [reflexivity | lia]. }
  split; [exact Huid|]. split; [|split; [exact Hctr|]].
  - intros H. apply Huid in H as [_ H].
    destruct (convert_uid_ok uid H) as (ub & Hub & _ & Hl & H4 & _).
    exists ub. repeat split; assumption.
  - intros H. apply Hctr in H as (n & -> & Hn).
    destruct (convert_counter_ok n Hn) as [Hc _].
    exists (Buf.writeUIntBE3 (int_value n)). split; [exact Hc | reflexivity].
Qed.


(* ------------------------------------------------------------------ *)
(** ** CMAC verification *)

Section CmacVerification.
Context {C : Crypto}.

Lemma timingSafeEqual_eq (a b : bytes) :
  MemoryManager.timingSafeEqual a b = true <-> a = b.
Proof.
  unfold MemoryManager.timingSafeEqual.
  destruct (List.length a =? List.length b)%nat eqn:E; cbn [negb].
  - apply eqb_eq.
  - split; [discriminate|]. intros ->. rewrite Nat.eqb_refl in E. discriminate.
Qed.

Lemma cmac_matches_prefix (key data expected : bytes) :
  cmac_matches key data expected = true <-> is_prefix expected (aesCmac key data).
Proof.
  unfold cmac_matches, is_prefix, Buf.len. rewrite slice_0_firstn, timingSafeEqual_eq.
  split; intros H; symmetry; exact H.
Qed.

Lemma verifyDetailed_ok (key data expected : bytes) :
  List.length key = 16%nat ->
  exists d, outcome (CMAC.verifyDetailed key data expected) = inr d /\
            CMAC.isValid d = cmac_matches key data expected /\
            CMAC.calculatedMac d = hex_upper (aesCmac key data).
Proof.
  intros Hk. unfold CMAC.verifyDetailed, CMAC.calculate. rewrite Hk.
  cbn [Nat.eqb negb].
  rewrite outcome_try_catch, outcome_bind, outcome_bind. cbn [outcome emit ret snd].
  eexists. split; [reflexivity|]. split; reflexivity.
Qed.

End CmacVerification.

(** CMAC verification: [CMAC.verify] never throws; with a 16-byte key it
    answers [true] exactly when the expected MAC is a prefix of the
    AES-CMAC of the data, so a truncated MAC of any length verifies and
    so does the empty buffer; [verifyDetailed] reports the same verdict.
    With a key of any other length [verify] answers [false] and
    [verifyDetailed] throws a [ValidationError], neither calling the
    primitive. *)
Theorem cmac_verify_accepts_prefixes {C : Crypto} (key data expected : bytes) :
  (exists v, outcome (CMAC.verify key data expected) = inr v) /\
  (List.length key = 16%nat ->
   (outcome (CMAC.verify key data expected) = inr true
    <-> is_prefix expected (aesCmac key data)) /\
   outcome (CMAC.verify key data []) = inr true /\
   exists d, outcome (CMAC.verifyDetailed key data expected) = inr d /\
             outcome (CMAC.verify key data expected) = inr (CMAC.isValid d)) /\
  (List.length key <> 16%nat ->
   CMAC.verify key data expected = ret false /\
   CMAC.verifyDetailed key data expected
   = throw (Err.mkError Err.ValidationError "Key must be a 16-byte Buffer" "key")).
Proof.
  split; [|split].
  - destruct (Nat.eq_dec (List.length key) 16) as [Hk | Hk].
    + eexists. apply (verify_ok key data expected Hk).
    + exists false. unfold CMAC.verify. apply Nat.eqb_neq in Hk. rewrite Hk. reflexivity.
  - intros Hk. rewrite !(verify_ok key data _ Hk). split; [|split].
    + rewrite <- cmac_matches_prefix. split; [congruence | intros ->; reflexivity].
    + f_equal. apply cmac_matches_prefix. reflexivity.
    + destruct (verifyDetailed_ok key data expected Hk) as (d & Hd & Hv & _).
      exists d. split; [exact Hd | rewrite Hv; reflexivity].
  - intros Hk. apply Nat.eqb_neq in Hk.
    unfold CMAC.verify, CMAC.verifyDetailed. rewrite Hk. split; reflexivity.
Qed.


(* ------------------------------------------------------------------ *)
(** ** AES-CBC with the checks of aes.js *)

(** AES-CBC: with a 16-byte key [cbcEncrypt] returns a ciphertext whose
    length is the next multiple of 16 above the data length and which
    [cbcDecrypt] takes back to the data, its own checks passing; with a
    key of any other length both throw a [ValidationError], and
    [cbcDecrypt] throws one for empty data and for data whose length is
    no multiple of 16, in each case before the cipher is called. *)
Theorem cbc_round_trip_and_checks {C : Crypto} (HC : CryptoSpec C) (key data : bytes) :
  (List.length key = 16%nat ->
   exists c,
     outcome (AES.cbcEncrypt key data) = inr c /\
     List.length c = (16 * (List.length data / 16 + 1))%nat /\
     outcome (AES.cbcDecrypt key c) = inr data) /\
  (List.length key <> 16%nat ->
   AES.cbcEncrypt key data
   = throw (Err.mkError Err.ValidationError "Key must be a 16-byte Buffer" "key") /\
   AES.cbcDecrypt key data
   = throw (Err.mkError Err.ValidationError "Key must be a 16-byte Buffer" "key")) /\
  (List.length key = 16%nat ->
   AES.cbcDecrypt key []
   = throw (Err.mkError Err.ValidationError "Data cannot be empty" "data") /\
   ((List.length data mod 16)%nat <> 0%nat ->
    AES.cbcDecrypt key data
    = throw (Err.mkError Err.ValidationError
               "Data length must be multiple of 16 bytes" "data"))).
Proof.
  split; [|split].
  - intros Hk. exists (aes128_cbc_encrypt key AES.zeroIV data).
    pose proof (cbc_length key AES.zeroIV data) as Hl.
    split; [|split; [exact Hl|]].
    + unfold AES.cbcEncrypt. rewrite Hk. cbn [Nat.eqb negb].
      rewrite outcome_bind. reflexivity.
    + apply (cbcDecrypt_ok key _ data Hk).
      * intros E. rewrite E in Hl. cbn [List.length] in Hl. lia.
      * rewrite Hl, Nat.mul_comm. apply Nat.Div0.mod_mul.
      * apply cbc_roundtrip; [exact Hk | reflexivity].
  - intros Hk. apply Nat.eqb_neq in Hk.
    unfold AES.cbcEncrypt, AES.cbcDecrypt. rewrite Hk. split; reflexivity.
  - intros Hk. unfold AES.cbcDecrypt. rewrite Hk. cbn [Nat.eqb negb List.length].
    split; [reflexivity|]. intros Hm.
    destruct (List.length data =? 0)%nat eqn:E0.
    { apply Nat.eqb_eq in E0. rewrite E0 in Hm. exfalso. apply Hm. reflexivity. }
    apply Nat.eqb_neq in Hm. rewrite Hm. reflexivity.
Qed.

Lemma cbc_round_trip_and_checks_witness :
  exists c,
    outcome (@AES.cbcEncrypt Toy.crypto (Buf.from_hex Toy.sample_key) Sample.block) = inr c /\
    List.length c = (16 * (List.length Sample.block / 16 + 1))%nat /\
    outcome (@AES.cbcDecrypt Toy.crypto (Buf.from_hex Toy.sample_key) c)
    = inr Sample.block.
Proof.
  apply (proj1 (cbc_round_trip_and_checks toy_spec (Buf.from_hex Toy.sample_key)
                  Sample.block)).
  reflexivity.
Defined.


(* ------------------------------------------------------------------ *)
(** ** Session vectors and session keys *)

Section SessionVectors.
Context {C : Crypto}.

Lemma copy_into_zeros (n : nat) (src : bytes) :
  (List.length src <= n)%nat ->
  Buf.copy_into (Buf.alloc (Z.of_nat n)) src = src ++ repeat x00 (n - List.length src).
Proof. apply copy_into_alloc. Qed.

(** The vector is the label, then the UID and the counter as far as they
    fit, then zeros. *)
Lemma buildSV_shape (label uid readCounter : bytes) :
  (List.length label <= 32)%nat ->
  List.length (KeyDerivation.buildSV label uid readCounter) = 32%nat /\
  firstn (List.length label) (KeyDerivation.buildSV label uid readCounter) = label.
Proof.
  intros Hl. unfold KeyDerivation.buildSV. cbv zeta.
  change 32 with (Z.of_nat 32). rewrite copy_into_zeros by exact Hl.
  set (sv1 := label ++ repeat x00 (32 - List.length label)).
  assert (Hsv1 : List.length sv1 = 32%nat).
  { unfold sv1. rewrite length_app, repeat_length. lia. }
  set (n := List.length label) in *.
  set (c1 := Nat.min (List.length uid) (32 - n)).
  set (sv2 := firstn n sv1 ++ firstn c1 uid ++ skipn (n + c1) sv1).
  assert (Hc1 : (c1 <= List.length uid /\ c1 <= 32 - n)%nat) by (unfold c1; lia).
  assert (Hsv2 : List.length sv2 = 32%nat).
  { unfold sv2. rewrite !length_app, !length_firstn, length_skipn, Hsv1. lia. }
  set (off := (n + (if (0 <? List.length uid)%nat then c1 else 0))%nat).
  assert (Hoff : (n <= off <= 32)%nat).
  { unfold off. destruct (0 <? List.length uid)%nat; lia. }
  set (c2 := Nat.min (List.length readCounter) (32 - off)).
  assert (Hc2 : (c2 <= List.length readCounter /\ c2 <= 32 - off)%nat) by (unfold c2; lia).
  split.
  - rewrite !length_app, !length_firstn, length_skipn, Hsv2. lia.
  - rewrite firstn_app, length_firstn, Hsv2.
    replace (n - Nat.min off 32)%nat with 0%nat by lia.
    cbn [firstn]. rewrite app_nil_r, firstn_firstn.
    replace (Nat.min n off) with n by lia.
    unfold sv2. rewrite firstn_app, length_firstn, Hsv1.
    replace (n - Nat.min n 32)%nat with 0%nat by lia.
    cbn [firstn]. rewrite app_nil_r, firstn_firstn, Nat.min_id.
    unfold sv1. rewrite firstn_app. fold n. rewrite Nat.sub_diag.
    cbn [firstn]. rewrite app_nil_r. apply firstn_all.
Qed.

Lemma slice_16_length (b : bytes) :
  (16 <= List.length b)%nat -> List.length (Buf.slice b 0 16) = 16%nat.
Proof.
  intros H. change 16 with (Z.of_nat 16). rewrite slice_0_firstn, length_firstn. lia.
Qed.

End SessionVectors.

(** Session vectors and keys: [buildSV1] and [buildSV2] always return 32
    bytes that start with their own 6-byte label, so the two vectors of
    one UID and counter differ; for a 7-byte UID and a 3-byte counter the
    vector is label, UID, counter and 16 zero bytes.  Every derivation
    method of the table returns two 16-byte keys whenever it returns, the
    three hash-based methods always return, and [ntag424Official] throws
    a [ValidationError] exactly when the master key is not 16 bytes
    long. *)
Theorem session_vectors_and_keys {C : Crypto} (HC : CryptoSpec C)
  (masterKey uid readCounter : bytes) :
  (List.length (KeyDerivation.buildSV1 uid readCounter) = 32%nat /\
   List.length (KeyDerivation.buildSV2 uid readCounter) = 32%nat /\
   firstn 6 (KeyDerivation.buildSV1 uid readCounter) = KeyDerivation.encLabel /\
   firstn 6 (KeyDerivation.buildSV2 uid readCounter) = KeyDerivation.macLabel /\
   KeyDerivation.buildSV1 uid readCounter <> KeyDerivation.buildSV2 uid readCounter) /\
  (List.length uid = 7%nat -> List.length readCounter = 3%nat ->
   KeyDerivation.buildSV1 uid readCounter
   = KeyDerivation.encLabel ++ uid ++ readCounter ++ repeat x00 16 /\
   KeyDerivation.buildSV2 uid readCounter
   = KeyDerivation.macLabel ++ uid ++ readCounter ++ repeat x00 16) /\
  (forall m f sk,
     KeyDerivation.derivationMethods m = Some f ->
     outcome (f masterKey uid readCounter) = inr sk ->
     List.length (encKey sk) = 16%nat /\ List.length (macKey sk) = 16%nat) /\
  (forall m f,
     KeyDerivation.derivationMethods m = Some f ->
     (exists e, outcome (f masterKey uid readCounter) = inl e) ->
     m = "ntag424Official" /\ List.length masterKey <> 16%nat /\
     f masterKey uid readCounter
     = throw (Err.mkError Err.ValidationError
                "Master key must be a 16-byte Buffer" "masterKey")).
Proof.
  assert (Hmethods : forall m f,
            KeyDerivation.derivationMethods m = Some f ->
            (m = "ntag424Official" /\ f = KeyDerivation.ntag424Official) \/
            (m = "hkdf" /\ f = KeyDerivation.hkdf) \/
            (m = "pbkdf2" /\ f = KeyDerivation.pbkdf2) \/
            (m = "simpleHash" /\ f = KeyDerivation.simpleHash)).
  { intros m f. unfold KeyDerivation.derivationMethods.
    destruct (String.eqb_spec m "ntag424Official") as [-> |];
      [intros E; injection E as <-; tauto|].
    destruct (String.eqb_spec m "hkdf") as [-> |];
      [intros E; injection E as <-; tauto|].
    destruct (String.eqb_spec m "pbkdf2") as [-> |];
      [intros E; injection E as <-; tauto|].
    destruct (String.eqb_spec m "simpleHash") as [-> |];
      [intros E; injection E as <-; tauto|].
    discriminate. }
  destruct (buildSV_shape KeyDerivation.encLabel uid readCounter) as [Hl1 Hp1];
    [cbv; lia|].
  destruct (buildSV_shape KeyDerivation.macLabel uid readCounter) as [Hl2 Hp2];
    [cbv; lia|].
  change (List.length KeyDerivation.encLabel) with 6%nat in Hp1.
  change (List.length KeyDerivation.macLabel) with 6%nat in Hp2.
  split; [|split; [|split]].
  - repeat (split; [assumption|]).
    unfold KeyDerivation.buildSV1, KeyDerivation.buildSV2. intros E.
    rewrite E in Hp1. rewrite Hp1 in Hp2. discriminate Hp2.
  - intros Hu Hr.
    destruct uid as [|u0 [|u1 [|u2 [|u3 [|u4 [|u5 [|u6 [|]]]]]]]]; try discriminate.
    destruct readCounter as [|r0 [|r1 [|r2 [|]]]]; try discriminate.
    split; reflexivity.
  - intros m f sk Hm Hsk.
    apply Hmethods in Hm as [[-> ->] | [[-> ->] | [[-> ->] | [-> ->]]]].
    + unfold KeyDerivation.ntag424Official in Hsk.
      destruct (negb _); [discriminate|]. cbn [outcome ret snd] in Hsk.
      injection Hsk as <-. cbn [encKey macKey].
      unfold KeyDerivation.aesCmac_text.
      split; apply slice_16_length; rewrite length_hex_text, cmac_length; lia.
    + cbn [KeyDerivation.hkdf outcome ret snd] in Hsk. injection Hsk as <-.
      cbn [encKey macKey]. split.
      * apply slice_16_length. rewrite hkdf_length. lia.
      * change 16 with (Z.of_nat 16). rewrite slice_from_length, length_skipn, hkdf_length
          by (rewrite hkdf_length; lia). reflexivity.
    + unfold KeyDerivation.pbkdf2 in Hsk. cbn [Z.ltb Z.compare outcome ret snd] in Hsk.
      injection Hsk as <-. cbn [encKey macKey]. split.
      * apply slice_16_length. rewrite pbkdf2_length. lia.
      * change 16 with (Z.of_nat 16).
        rewrite slice_from_length, length_skipn, pbkdf2_length
          by (rewrite pbkdf2_length; lia). reflexivity.
    + cbn [KeyDerivation.simpleHash outcome ret snd] in Hsk. injection Hsk as <-.
      cbn [encKey macKey].
      split; apply slice_16_length; rewrite sha256_length; lia.
  - intros m f Hm [e He].
    apply Hmethods in Hm as [[-> ->] | [[-> ->] | [[-> ->] | [-> ->]]]];
      try (cbv in He; discriminate).
    unfold KeyDerivation.ntag424Official in *.
    destruct (List.length masterKey =? 16)%nat eqn:E; cbn [negb] in *.
    + discriminate.
    + apply Nat.eqb_neq in E. repeat split; assumption.
Qed.

Lemma session_vectors_and_keys_witness :
  List.length (encKey Sample.keys) = 16%nat /\ List.length (macKey Sample.keys) = 16%nat.
Proof.
  apply (proj1 (proj2 (proj2 (@session_vectors_and_keys Toy.crypto toy_spec
           (Buf.from_hex Toy.sample_key) zeroUID zeroCounter)))
           "ntag424Official" (@KeyDerivation.ntag424Official Toy.crypto) Sample.keys).
  - reflexivity.
  - reflexivity.
Defined.


(* ------------------------------------------------------------------ *)
(** ** Padding and reading back file data *)

Section FilePadding.

Lemma padding_room (n : nat) :
  ((n + (paddedLength n - n)) mod 16 = 0 /\ paddedLength n - n < 16)%nat.
Proof.
  pose proof (paddedLength_ge n) as Hge. unfold paddedLength in *.
  pose proof (Nat.div_mod_eq (n + 15) 16) as Hd.
  pose proof (Nat.mod_upper_bound (n + 15) 16 ltac:(lia)) as Hm.
  split; [|lia].
  replace (n + ((n + 15) / 16 * 16 - n))%nat with ((n + 15) / 16 * 16)%nat by lia.
  apply Nat.Div0.mod_mul.
Qed.

Lemma extractFileData_padded_any (s : string) (k : nat) :
  _extractFileData (Some (Buf.from_utf8 s ++ repeat x00 k))
  = match Buf.strip_trailing_nul s with
    | EmptyString => None
    | t => Some t
    end.
Proof.
  unfold _extractFileData, Buf.toString_utf8, Buf.from_utf8.
  rewrite string_of_list_byte_app, string_of_list_byte_of_string.
  rewrite strip_trailing_nul_padded.
  destruct (Buf.strip_trailing_nul s); reflexivity.
Qed.

Lemma firstn_zeros (m n : nat) : firstn m (repeat x00 n) = repeat x00 (Nat.min m n).
Proof.
  revert n. induction m as [|m IH]; intros n; [reflexivity|].
  destruct n as [|n]; [reflexivity|]. cbn [repeat firstn Nat.min]. f_equal. apply IH.
Qed.

Lemma legacy_block (d : bytes) :
  Buf.copy_into (Buf.alloc 16) (firstn (Nat.min (List.length d) 16) d)
  = firstn 16 (d ++ repeat x00 16).
Proof.
  unfold Buf.copy_into, Buf.alloc. change (Z.to_nat 16) with 16%nat.
  rewrite repeat_length, length_firstn, firstn_firstn, skipn_zeros, firstn_app.
  replace (Nat.min 16 (Nat.min (List.length d) 16)) with (Nat.min (List.length d) 16) by lia.
  replace (Nat.min (Nat.min (List.length d) 16) (List.length d))
    with (Nat.min (List.length d) 16) by lia.
  f_equal.
  - destruct (Nat.le_gt_cases (List.length d) 16) as [H | H].
    + rewrite Nat.min_l by exact H. rewrite !firstn_all2 by lia. reflexivity.
    + rewrite Nat.min_r by lia. reflexivity.
  - rewrite firstn_zeros. f_equal. lia.
Qed.

End FilePadding.

(** File data: the encoder that validates the profile stores a text or a
    buffer followed by fewer than 16 zero bytes, up to a multiple of 16,
    and the decoder's [_extractFileData] reads a stored text back without
    its trailing NUL characters ([null] when nothing is left); the older
    encoder always stores exactly 16 bytes, the first 16 of the data
    followed by zeros, so longer data is cut.  Anything that is neither
    a string nor a buffer is rejected by both. *)
Theorem file_data_padding (s : string) (b : bytes) (v : jsval) :
  (exists k,
     Encoder._prepareFileData (VStr s) = ret (Buf.from_utf8 s ++ repeat x00 k) /\
     ((List.length (Buf.from_utf8 s) + k) mod 16 = 0)%nat /\ (k < 16)%nat /\
     _extractFileData (Some (Buf.from_utf8 s ++ repeat x00 k))
     = match Buf.strip_trailing_nul s with
       | EmptyString => None
       | t => Some t
       end) /\
  (exists k,
     Encoder._prepareFileData (VBuf b) = ret (b ++ repeat x00 k) /\
     ((List.length b + k) mod 16 = 0)%nat /\ (k < 16)%nat) /\
  (LegacyEncoder._prepareFileData (VStr s)
   = ret (firstn 16 (Buf.from_utf8 s ++ repeat x00 16)) /\
   LegacyEncoder._prepareFileData (VBuf b) = ret (firstn 16 (b ++ repeat x00 16)) /\
   List.length (firstn 16 (b ++ repeat x00 16)) = 16%nat) /\
  (is_string v = false -> (forall x, v <> VBuf x) ->
   Encoder._prepareFileData v
   = throw (Encoder.validation "File data must be a string or Buffer" "fileData") /\
   LegacyEncoder._prepareFileData v
   = throw (Err.plain "File data must be a string or Buffer")).
Proof.
  split; [|split; [|split]].
  - exists (paddedLength (List.length (Buf.from_utf8 s)) - List.length (Buf.from_utf8 s))%nat.
    destruct (padding_room (List.length (Buf.from_utf8 s))) as [Hm Hk].
    split; [|split; [exact Hm|split; [exact Hk|apply extractFileData_padded_any]]].
    cbn [Encoder._prepareFileData]. cbv zeta.
    rewrite copy_into_alloc by apply paddedLength_ge. reflexivity.
  - exists (paddedLength (List.length b) - List.length b)%nat.
    destruct (padding_room (List.length b)) as [Hm Hk].
    split; [|split; assumption].
    cbn [Encoder._prepareFileData]. cbv zeta.
    destruct (List.length b =? paddedLength (List.length b))%nat eqn:E.
    + apply Nat.eqb_eq in E. rewrite <- E, Nat.sub_diag. cbn [repeat].
      rewrite app_nil_r. reflexivity.
    + rewrite copy_into_alloc by apply paddedLength_ge. reflexivity.
  - unfold LegacyEncoder._prepareFileData. cbv zeta.
    rewrite !legacy_block. split; [reflexivity|]. split; [reflexivity|].
    rewrite length_firstn, length_app, repeat_length. lia.
  - intros Hs Hb. destruct v as [| | x | n | t | x | fs]; try (split; reflexivity).
    + discriminate.
    + exfalso. apply (Hb x). reflexivity.
Qed.


(* ------------------------------------------------------------------ *)
(** ** The PICC layout of an arbitrary profile *)

Section Layout.

Lemma length_set_nth (b : bytes) (i : nat) (v : byte) :
  List.length (Buf.set_nth b i v) = List.length b.
Proof.
  revert i. induction b as [|h t IH]; intros [|i]; cbn [Buf.set_nth List.length];
    try reflexivity. rewrite IH. reflexivity.
Qed.

Lemma nth_set_nth (b : bytes) (i k : nat) (v d : byte) :
  nth k (Buf.set_nth b i v) d
  = if ((k =? i) && (i <? List.length b))%nat then v else nth k b d.
Proof.
  revert i k. induction b as [|h t IH]; intros i k.
  - replace (Buf.set_nth [] i v) with (@nil byte) by (destruct i; reflexivity).
    cbn [List.length]. rewrite (proj2 (Nat.ltb_ge i 0)) by lia.
    rewrite andb_false_r. reflexivity.
  - destruct i as [|i], k as [|k]; cbn [Buf.set_nth nth List.length]; try reflexivity.
    rewrite IH. reflexivity.
Qed.

Lemma length_set (b : bytes) (i : Z) (v : byte) :
  List.length (Buf.set b i v) = List.length b.
Proof. unfold Buf.set. destruct (i <? 0); [reflexivity | apply length_set_nth]. Qed.

Lemma write_loop_spec (src : bytes) (start : Z) (n : nat) :
  0 <= start ->
  forall (dst : bytes) (i : Z), 0 <= i ->
    List.length (Buf.write_loop dst start src i n) = List.length dst /\
    forall k d,
      nth k (Buf.write_loop dst start src i n) d
      = if ((Z.to_nat (start + i) <=? k) && (k <? Z.to_nat (start + i) + n)
            && (k <? List.length dst))%nat
        then nth (k - Z.to_nat start) src x00 else nth k dst d.
Proof.
  intros Hs. induction n as [|n IH]; intros dst i Hi.
  - cbn [Buf.write_loop]. split; [reflexivity|]. intros k d.
    destruct (Z.to_nat (start + i) <=? k)%nat eqn:E1; [|reflexivity].
    destruct (k <? Z.to_nat (start + i) + 0)%nat eqn:E2; [|reflexivity].
    apply Nat.leb_le in E1. apply Nat.ltb_lt in E2. lia.
  - cbn [Buf.write_loop].
    destruct (IH (Buf.set dst (start + i) (nth (Z.to_nat i) src x00)) (i + 1)
                ltac:(lia)) as [Hl Hn].
    rewrite length_set in Hl. split; [exact Hl|]. intros k d.
    rewrite Hn, length_set. unfold Buf.set.
    destruct (start + i <? 0) eqn:E0; [apply Z.ltb_lt in E0; lia|].
    rewrite nth_set_nth.
    replace (Z.to_nat (start + (i + 1))) with (S (Z.to_nat (start + i))) by lia.
    set (s := Z.to_nat (start + i)).
    destruct (Nat.leb_spec (S s) k), (Nat.leb_spec s k),
             (Nat.ltb_spec k (S s + n)), (Nat.ltb_spec k (s + S n)),
             (Nat.ltb_spec k (List.length dst)), (Nat.eqb_spec k s),
             (Nat.ltb_spec s (List.length dst));
      cbn [andb]; try lia; try reflexivity.
    f_equal. unfold s in *. lia.
Qed.

Lemma or_default_nonzero (z d : Z) : z <> 0 -> SDMConfig.or_default (Some z) d = z.
Proof. intros H. destruct z; [congruence | reflexivity | reflexivity]. Qed.

Lemma slice_region (b : bytes) (o l : Z) :
  0 <= o -> 0 < l -> o + l <= Buf.len b ->
  Buf.slice b o (o + l) = firstn (Z.to_nat l) (skipn (Z.to_nat o) b).
Proof.
  intros Ho Hl Hb. unfold Buf.slice, Buf.clamp.
  destruct (o <? 0) eqn:E1; [apply Z.ltb_lt in E1; lia|].
  destruct (o + l <? 0) eqn:E2; [apply Z.ltb_lt in E2; lia|].
  rewrite (Z.min_l o), (Z.min_l (o + l)) by lia.
  destruct (o + l <=? o) eqn:E3; [apply Z.leb_le in E3; lia|].
  f_equal. lia.
Qed.

Lemma len_alloc (L : Z) : 0 <= L -> Buf.len (Buf.alloc L) = L.
Proof. intros H. unfold Buf.len, Buf.alloc. rewrite repeat_length. lia. Qed.

Lemma nth_alloc (L : Z) (k : nat) : nth k (Buf.alloc L) x00 = x00.
Proof. unfold Buf.alloc. apply nth_repeat. Qed.

(** Every byte of the block: the counter bytes, else the UID bytes, else
    the tag at index 0, else zero. *)
Lemma picc_block_spec (L : Z) (uid counter : option (Z * bytes)) :
  1 <= L ->
  (forall uo ub, uid = Some (uo, ub) -> 0 <= uo) ->
  (forall co cb, counter = Some (co, cb) -> 0 <= co) ->
  Buf.len (picc_block L uid counter) = L /\
  forall k,
    nth k (picc_block L uid counter) x00
    = match counter with
      | Some (co, cb) =>
          if ((Z.to_nat co <=? k) && (k <? Z.to_nat co + List.length cb)
              && (k <? Z.to_nat L))%nat
          then nth (k - Z.to_nat co) cb x00
          else match uid with
               | Some (uo, ub) =>
                   if ((Z.to_nat uo <=? k) && (k <? Z.to_nat uo + List.length ub)
                       && (k <? Z.to_nat L))%nat
                   then nth (k - Z.to_nat uo) ub x00
                   else if (k =? 0)%nat then xc7 else x00
               | None => if (k =? 0)%nat then xc7 else x00
               end
      | None =>
          match uid with
          | Some (uo, ub) =>
              if ((Z.to_nat uo <=? k) && (k <? Z.to_nat uo + List.length ub)
                  && (k <? Z.to_nat L))%nat
              then nth (k - Z.to_nat uo) ub x00
              else if (k =? 0)%nat then xc7 else x00
          | None => if (k =? 0)%nat then xc7 else x00
          end
      end.
Proof.
  intros HL Hu Hc. unfold picc_block. cbv zeta.
  set (b0 := Buf.set (Buf.alloc L) 0 xc7).
  assert (Hb0 : List.length b0 = Z.to_nat L).
  { unfold b0. rewrite length_set. unfold Buf.alloc. apply repeat_length. }
  assert (Hn0 : forall k, nth k b0 x00 = if (k =? 0)%nat then xc7 else x00).
  { intros k. unfold b0, Buf.set. cbn [Z.ltb Z.compare]. change (Z.to_nat 0) with 0%nat.
    rewrite nth_set_nth, nth_alloc. unfold Buf.alloc. rewrite repeat_length.
    destruct (Nat.eqb_spec k 0), (Nat.ltb_spec 0 (Z.to_nat L)); cbn [andb];
      try reflexivity. lia. }
  set (b1 := match uid with
             | Some (uo, ub) => Buf.write_loop b0 uo ub 0 (List.length ub)
             | None => b0
             end).
  assert (Hb1 : List.length b1 = Z.to_nat L /\
                forall k, nth k b1 x00
                = match uid with
                  | Some (uo, ub) =>
                      if ((Z.to_nat uo <=? k) && (k <? Z.to_nat uo + List.length ub)
                          && (k <? Z.to_nat L))%nat
                      then nth (k - Z.to_nat uo) ub x00
                      else if (k =? 0)%nat then xc7 else x00
                  | None => if (k =? 0)%nat then xc7 else x00
                  end).
  { unfold b1. destruct uid as [[uo ub]|]; [|split; [exact Hb0 | exact Hn0]].
    destruct (write_loop_spec ub uo (List.length ub) (Hu uo ub eq_refl) b0 0 ltac:(lia))
      as [Hl Hn].
    split; [rewrite Hl; exact Hb0|]. intros k.
    rewrite Hn, Hb0, Hn0, Z.add_0_r. reflexivity. }
  destruct Hb1 as [Hl1 Hn1].
  destruct counter as [[co cb]|].
  - destruct (write_loop_spec cb co (List.length cb) (Hc co cb eq_refl) b1 0 ltac:(lia))
      as [Hl Hn].
    split; [unfold Buf.len; rewrite Hl, Hl1; lia|]. intros k.
    rewrite Hn, Hl1, Hn1, Z.add_0_r. reflexivity.
  - split; [unfold Buf.len; rewrite Hl1; lia | exact Hn1].
Qed.

End Layout.


Section LayoutRoundTrip.

(** What [validateProfile] and [usable_layout] say about the numbers. *)
Lemma layout_facts (p : SDMConfig.SDMProfile) :
  fst (SDMConfig.validateProfile (Some p)) = true -> usable_layout p ->
  exists L,
    SDMConfig.piccDataLength p = Some L /\ 1 <= L /\
    (SDMConfig.includeUID p = true ->
     exists uo, SDMConfig.uidOffset p = Some uo /\ SDMConfig.uidLength p = Some 7 /\
                1 <= uo /\ uo + 7 <= L) /\
    (SDMConfig.includeCounter p = true ->
     exists co, SDMConfig.counterOffset p = Some co /\ SDMConfig.counterLength p = Some 3 /\
                1 <= co /\ co + 3 <= L) /\
    (SDMConfig.includeUID p = true -> SDMConfig.includeCounter p = true ->
     forall uo co, SDMConfig.uidOffset p = Some uo -> SDMConfig.counterOffset p = Some co ->
                   uo + 7 <= co \/ co + 3 <= uo).
Proof.
  destruct p as [nm iu ic ifd pl uo ul co cl efl].
  unfold usable_layout, SDMConfig.validateProfile, SDMConfig.validateProfile_errors.
  cbn [fst SDMConfig.piccDataLength SDMConfig.includeUID SDMConfig.includeCounter
       SDMConfig.includeFileData SDMConfig.uidOffset SDMConfig.uidLength
       SDMConfig.counterOffset SDMConfig.counterLength SDMConfig.encFileDataLength].
  intros Hv (Hu & Hc & Hd).
  apply Z.eqb_eq in Hv. unfold Buf.len in Hv.
  assert (He : forall (l : list string), Z.of_nat (List.length l) = 0 -> l = [])
    by (intros [|x l] H; [reflexivity | cbn [List.length] in H; lia]).
  apply He in Hv.
  apply app_eq_nil in Hv as [H1 Hv]. apply app_eq_nil in Hv as [H2 Hv].
  apply app_eq_nil in Hv as [H3 Hv]. apply app_eq_nil in Hv as [H4 _].
  destruct pl as [L|]; [|discriminate].
  destruct (Z.ltb_spec L 1); [discriminate|].
  exists L. split; [reflexivity|]. split; [lia|].
  split; [|split].
  - intros ->. destruct (Hu eq_refl) as (-> & uo' & -> & Huo).
    exists uo'. repeat split; try assumption.
    apply app_eq_nil in H2 as [_ H2]. apply app_eq_nil in H2 as [_ H2].
    cbn [SDMConfig.add SDMConfig.gt2] in H2. rewrite Z.gtb_ltb in H2.
    destruct (Z.ltb_spec L (uo' + 7)); [discriminate | lia].
  - intros ->. destruct (Hc eq_refl) as (-> & co' & -> & Hco).
    exists co'. repeat split; try assumption.
    apply app_eq_nil in H3 as [_ H3]. apply app_eq_nil in H3 as [_ H3].
    cbn [SDMConfig.add SDMConfig.gt2] in H3. rewrite Z.gtb_ltb in H3.
    destruct (Z.ltb_spec L (co' + 3)); [discriminate | lia].
  - intros -> -> uo' co' -> ->.
    destruct (Hu eq_refl) as (-> & _). destruct (Hc eq_refl) as (-> & _).
    specialize (Hd eq_refl eq_refl).
    cbn [andb SDMConfig.add SDMConfig.gt2 SDMConfig.lt2] in H4.
    rewrite !Z.gtb_ltb in H4.
    assert (uo' <> co') by congruence.
    destruct (Z.ltb_spec uo' co'), (Z.ltb_spec co' (uo' + 7)),
             (Z.ltb_spec co' uo'), (Z.ltb_spec uo' (co' + 3));
      cbn [andb orb] in H4; try discriminate; lia.
Qed.

(** Both encoders build [picc_block] from such a layout. *)
Lemma build_picc_block (p : SDMConfig.SDMProfile) (L : Z) (ub cb : bytes) :
  SDMConfig.piccDataLength p = Some L -> 1 <= L ->
  (SDMConfig.includeUID p = true ->
   exists uo, SDMConfig.uidOffset p = Some uo /\ SDMConfig.uidLength p = Some 7 /\
              1 <= uo /\ uo + 7 <= L) ->
  (SDMConfig.includeCounter p = true ->
   exists co, SDMConfig.counterOffset p = Some co /\ SDMConfig.counterLength p = Some 3 /\
              1 <= co /\ co + 3 <= L) ->
  List.length ub = 7%nat -> List.length cb = 3%nat ->
  let block := picc_block L
                 (layout_region (SDMConfig.includeUID p) (SDMConfig.uidOffset p) ub)
                 (layout_region (SDMConfig.includeCounter p) (SDMConfig.counterOffset p) cb) in
  Encoder._buildPiccData ub cb p = ret block /\
  LegacyEncoder._buildPiccData ub cb p = ret block.
Proof.
  destruct p as [nm iu ic ifd pl uo ul co cl efl].
  cbn [SDMConfig.piccDataLength SDMConfig.includeUID SDMConfig.includeCounter
       SDMConfig.uidOffset SDMConfig.uidLength SDMConfig.counterOffset
       SDMConfig.counterLength].
  intros -> HL Hu Hc Hub Hcb.
  unfold Encoder._buildPiccData, LegacyEncoder._buildPiccData.
  cbn [SDMConfig.piccDataLength SDMConfig.includeUID SDMConfig.includeCounter
       SDMConfig.uidOffset SDMConfig.uidLength SDMConfig.counterOffset
       SDMConfig.counterLength].
  cbv zeta.
  rewrite (or_default_nonzero L 16) by lia.
  destruct (Z.ltb_spec L 0); [lia|].
  assert (Hlen0 : Buf.len (Buf.set (Buf.alloc L) 0 xc7) = L).
  { unfold Buf.len. rewrite length_set. apply len_alloc. lia. }
  assert (Hlu : Buf.len ub = 7) by (unfold Buf.len; rewrite Hub; reflexivity).
  assert (Hlc : Buf.len cb = 3) by (unfold Buf.len; rewrite Hcb; reflexivity).
  unfold picc_block, layout_region. cbv zeta.
  destruct iu.
  - destruct (Hu eq_refl) as (uo' & -> & -> & Huo & Hue).
    rewrite (or_default_nonzero uo' 1) by lia.
    change (SDMConfig.or_default (Some 7) 7) with 7.
    rewrite Hlu. change (Z.min 7 7) with 7. change (Z.to_nat 7) with 7%nat.
    cbn [Eff.bind ret]. rewrite Hlen0, Z.gtb_ltb.
    destruct (Z.ltb_spec L (uo' + 7)); [lia|].
    cbn [Eff.bind ret app].
    assert (Hlen1 : Buf.len (Buf.write_loop (Buf.set (Buf.alloc L) 0 xc7) uo' ub 0 7) = L).
    { unfold Buf.len.
      rewrite (proj1 (write_loop_spec ub uo' 7 ltac:(lia) _ 0 ltac:(lia))).
      exact Hlen0. }
    rewrite Hub.
    destruct ic.
    + destruct (Hc eq_refl) as (co' & -> & -> & Hco & Hce).
      rewrite (or_default_nonzero co' 8) by lia.
      change (SDMConfig.or_default (Some 3) 3) with 3.
      rewrite Hlc. change (Z.min 3 3) with 3. change (Z.to_nat 3) with 3%nat.
      rewrite Hlen1, Z.gtb_ltb.
      destruct (Z.ltb_spec L (co' + 3)); [lia|].
      rewrite Hcb. split; reflexivity.
    + split; reflexivity.
  - cbn [Eff.bind ret app].
    destruct ic.
    + destruct (Hc eq_refl) as (co' & -> & -> & Hco & Hce).
      rewrite (or_default_nonzero co' 8) by lia.
      change (SDMConfig.or_default (Some 3) 3) with 3.
      rewrite Hlc. change (Z.min 3 3) with 3. change (Z.to_nat 3) with 3%nat.
      rewrite Hlen0, Z.gtb_ltb.
      destruct (Z.ltb_spec L (co' + 3)); [lia|].
      rewrite Hcb. split; reflexivity.
    + split; reflexivity.
Qed.

(** A region that no other write touches reads back as what was written. *)
Lemma region_reads_back (block data : bytes) (o : Z) :
  1 <= o -> data <> [] -> o + Buf.len data <= Buf.len block ->
  (forall k, (k < List.length data)%nat ->
             nth (Z.to_nat o + k) block x00 = nth k data x00) ->
  DataParser.region block (Some o) (Some (Buf.len data)) = Some data.
Proof.
  intros Ho Hne Hb Hn. unfold DataParser.region.
  cbn [SDMConfig.add SDMConfig.ge].
  assert (Hpos : 0 < Buf.len data).
  { unfold Buf.len. destruct data; [congruence | cbn [List.length]; lia]. }
  destruct (Z.geb_spec (Buf.len block) (o + Buf.len data)); [|lia].
  f_equal. rewrite slice_region by lia.
  unfold Buf.len in *. rewrite Nat2Z.id.
  apply (nth_ext _ _ x00 x00).
  - rewrite length_firstn, length_skipn. lia.
  - intros k Hk. rewrite length_firstn, length_skipn in Hk.
    rewrite nth_firstn, nth_skipn.
    destruct (Nat.ltb_spec k (List.length data)); [|lia].
    apply Hn. lia.
Qed.

End LayoutRoundTrip.


(** The block built for a validated layout, and what the parser reads
    from it. *)
Lemma layout_block_facts (p : SDMConfig.SDMProfile) (ub cb : bytes) :
  fst (SDMConfig.validateProfile (Some p)) = true -> usable_layout p ->
  List.length ub = 7%nat -> List.length cb = 3%nat ->
  exists block info,
    Some (Buf.len block) = SDMConfig.piccDataLength p /\
    Encoder._buildPiccData ub cb p = ret block /\
    LegacyEncoder._buildPiccData ub cb p = ret block /\
    (forall lg, DataParser.extractPiccData lg block (Some p) = ret info) /\
    dataTag info = Some xc7 /\
    uid info = (if SDMConfig.includeUID p then Some ub else None) /\
    readCounter info = (if SDMConfig.includeCounter p then Some cb else None) /\
    readCounterInt info
    = (if SDMConfig.includeCounter p then Some (Buf.readUIntBE cb) else None).
Proof.
  intros Hv Hus Hub Hcb.
  destruct (layout_facts p Hv Hus) as (L & HL & HL1 & Hu & Hc & Hd).
  destruct (build_picc_block p L ub cb HL HL1 Hu Hc Hub Hcb) as [Hb Hbl].
  set (block := picc_block L
                  (layout_region (SDMConfig.includeUID p) (SDMConfig.uidOffset p) ub)
                  (layout_region (SDMConfig.includeCounter p)
                     (SDMConfig.counterOffset p) cb)) in *.
  destruct (picc_block_spec L
              (layout_region (SDMConfig.includeUID p) (SDMConfig.uidOffset p) ub)
              (layout_region (SDMConfig.includeCounter p)
                 (SDMConfig.counterOffset p) cb) HL1) as [Hlen Hnth].
  { unfold layout_region. intros uo ub' E.
    destruct (SDMConfig.includeUID p) eqn:Ei; [|discriminate].
    destruct (Hu eq_refl) as (uo' & Eo & _ & Huo & _). rewrite Eo in E.
    injection E as <- _. lia. }
  { unfold layout_region. intros co cb' E.
    destruct (SDMConfig.includeCounter p) eqn:Ei; [|discriminate].
    destruct (Hc eq_refl) as (co' & Eo & _ & Hco & _). rewrite Eo in E.
    injection E as <- _. lia. }
  fold block in Hlen, Hnth. clearbody block.
  assert (Hlu : Buf.len ub = 7) by (unfold Buf.len; rewrite Hub; reflexivity).
  assert (Hlc : Buf.len cb = 3) by (unfold Buf.len; rewrite Hcb; reflexivity).
  assert (Htag : match block with [] => None | b :: _ => Some b end = Some xc7).
  { pose proof (Hnth 0%nat) as H0. unfold layout_region in H0.
    assert (Hne : block <> []).
    { intros E. rewrite E in Hlen. cbn in Hlen. lia. }
    destruct block as [|b0 rest]; [congruence|]. cbn [nth] in H0. f_equal.
    rewrite H0. clear H0.
    destruct (SDMConfig.includeCounter p) eqn:Eic.
    - destruct (Hc eq_refl) as (co & -> & _ & Hco & _).
      destruct (Nat.leb_spec (Z.to_nat co) 0); [lia|]. cbn [andb].
      destruct (SDMConfig.includeUID p) eqn:Eiu; [|reflexivity].
      destruct (Hu eq_refl) as (uo & -> & _ & Huo & _).
      destruct (Nat.leb_spec (Z.to_nat uo) 0); [lia|]. reflexivity.
    - destruct (SDMConfig.includeUID p) eqn:Eiu; [|reflexivity].
      destruct (Hu eq_refl) as (uo & -> & _ & Huo & _).
      destruct (Nat.leb_spec (Z.to_nat uo) 0); [lia|]. reflexivity. }
  assert (Huid : SDMConfig.includeUID p = true ->
            DataParser.region block (SDMConfig.uidOffset p) (SDMConfig.uidLength p)
            = Some ub).
  { intros Eiu. destruct (Hu Eiu) as (uo & Eo & El & Huo & Hue).
    rewrite Eo, El, <- Hlu.
    apply region_reads_back; [exact Huo | | lia |].
    { intros E. rewrite E in Hub. discriminate. }
    intros k Hk. rewrite Hnth. unfold layout_region. rewrite Eiu, Eo.
    destruct (SDMConfig.includeCounter p) eqn:Eic.
    - destruct (Hc eq_refl) as (co & Eco & _ & Hco & Hce). rewrite Eco.
      destruct (Hd Eiu eq_refl uo co Eo Eco) as [Hdis | Hdis];
        (destruct (Nat.leb_spec (Z.to_nat co) (Z.to_nat uo + k)),
                  (Nat.ltb_spec (Z.to_nat uo + k) (Z.to_nat co + List.length cb));
         cbn [andb]; try lia);
        (destruct (Nat.leb_spec (Z.to_nat uo) (Z.to_nat uo + k)),
                  (Nat.ltb_spec (Z.to_nat uo + k) (Z.to_nat uo + List.length ub)),
                  (Nat.ltb_spec (Z.to_nat uo + k) (Z.to_nat L));
         cbn [andb]; try lia; f_equal; lia).
    - destruct (Nat.leb_spec (Z.to_nat uo) (Z.to_nat uo + k)),
               (Nat.ltb_spec (Z.to_nat uo + k) (Z.to_nat uo + List.length ub)),
               (Nat.ltb_spec (Z.to_nat uo + k) (Z.to_nat L));
        cbn [andb]; try lia; f_equal; lia. }
  assert (Hctr : SDMConfig.includeCounter p = true ->
            DataParser.region block (SDMConfig.counterOffset p)
              (SDMConfig.counterLength p) = Some cb).
  { intros Eic. destruct (Hc Eic) as (co & Eo & El & Hco & Hce).
    rewrite Eo, El, <- Hlc.
    apply region_reads_back; [exact Hco | | lia |].
    { intros E. rewrite E in Hcb. discriminate. }
    intros k Hk. rewrite Hnth. unfold layout_region. rewrite Eic, Eo.
    destruct (Nat.leb_spec (Z.to_nat co) (Z.to_nat co + k)),
             (Nat.ltb_spec (Z.to_nat co + k) (Z.to_nat co + List.length cb)),
             (Nat.ltb_spec (Z.to_nat co + k) (Z.to_nat L));
      cbn [andb]; try lia; f_equal; lia. }
  exists block. eexists.
  split; [rewrite Hlen, HL; reflexivity|].
  split; [exact Hb|]. split; [exact Hbl|].
  split; [intros lg; unfold DataParser.extractPiccData; cbn [try_catch ret app];
          reflexivity|].
  cbn [dataTag uid readCounter readCounterInt].
  split; [exact Htag|].
  destruct (SDMConfig.includeUID p) eqn:Eiu, (SDMConfig.includeCounter p) eqn:Eic;
    rewrite ?(Huid eq_refl), ?(Hctr eq_refl); repeat split;
    unfold DataParser.counter_int; rewrite Hcb; cbn [Nat.leb];
    rewrite firstn_all2 by lia; reflexivity.
Qed.

(** Layout round trip: for every profile that [validateProfile] accepts
    and whose UID region is 7 bytes and counter region 3 bytes, at
    offsets that are not zero and not equal, the block both encoders
    build from a 7-byte UID and a 3-byte counter is parsed by
    [extractPiccData] (both copies) into tag [0xC7], the same UID bytes
    when the profile holds a UID, and the same counter bytes and value
    when it holds a counter. *)
Theorem validated_layout_round_trip (p : SDMConfig.SDMProfile) (ub cb : bytes) :
  fst (SDMConfig.validateProfile (Some p)) = true -> usable_layout p ->
  List.length ub = 7%nat -> List.length cb = 3%nat ->
  exists block info,
    Encoder._buildPiccData ub cb p = ret block /\
    LegacyEncoder._buildPiccData ub cb p = ret block /\
    (forall lg, DataParser.extractPiccData lg block (Some p) = ret info) /\
    dataTag info = Some xc7 /\
    uid info = (if SDMConfig.includeUID p then Some ub else None) /\
    readCounter info = (if SDMConfig.includeCounter p then Some cb else None) /\
    readCounterInt info
    = (if SDMConfig.includeCounter p then Some (Buf.readUIntBE cb) else None).
Proof.
  intros Hv Hus Hub Hcb.
  destruct (layout_block_facts p ub cb Hv Hus Hub Hcb)
    as (block & info & _ & Hb & Hbl & Hex & Htag & Hu & Hrc & Hrci).
  exists block, info. repeat (split; [assumption|]). exact Hrci.
Qed.

Lemma validated_layout_round_trip_witness :
  exists block info,
    Encoder._buildPiccData (Buf.from_hex Toy.sample_uid) (Buf.writeUIntBE3 42)
      (SDMConfig.mkProfile (Some "wide") true true false (Some 32) (Some 20) (Some 7)
         (Some 3) (Some 3) None) = ret block /\
    LegacyEncoder._buildPiccData (Buf.from_hex Toy.sample_uid) (Buf.writeUIntBE3 42)
      (SDMConfig.mkProfile (Some "wide") true true false (Some 32) (Some 20) (Some 7)
         (Some 3) (Some 3) None) = ret block /\
    (forall lg, DataParser.extractPiccData lg block
                  (Some (SDMConfig.mkProfile (Some "wide") true true false (Some 32)
                           (Some 20) (Some 7) (Some 3) (Some 3) None)) = ret info) /\
    dataTag info = Some xc7 /\
    uid info = Some (Buf.from_hex Toy.sample_uid) /\
    readCounter info = Some (Buf.writeUIntBE3 42) /\
    readCounterInt info = Some (Buf.readUIntBE (Buf.writeUIntBE3 42)).
Proof.
  apply (validated_layout_round_trip
           (SDMConfig.mkProfile (Some "wide") true true false (Some 32) (Some 20) (Some 7)
              (Some 3) (Some 3) None)
           (Buf.from_hex Toy.sample_uid) (Buf.writeUIntBE3 42)).
  - reflexivity.
  - unfold usable_layout. simpl. repeat split.
    + exists 20. split; [reflexivity | lia].
    + exists 3. split; [reflexivity | lia].
    + intros _ _. discriminate.
  - reflexivity.
  - reflexivity.
Defined.


(* ------------------------------------------------------------------ *)
(** ** Computations that call no primitive *)

Section Silent.
Context {C : Crypto}.

Lemma silent_bind {A B} (m : M A) (f : A -> M B) :
  silent m -> (forall a, outcome m = inr a -> silent (f a)) -> silent (Eff.bind m f).
Proof.
  unfold silent. intros Hm Hf. rewrite trace_bind, Hm.
  destruct (outcome m) as [e|a] eqn:E; [reflexivity | exact (Hf a eq_refl)].
Qed.

Lemma silent_try_catch {A} (m : M A) (h : Err.jserror -> M A) :
  silent m -> (forall e, silent (h e)) -> silent (try_catch m h).
Proof.
  unfold silent. intros Hm Hh. rewrite trace_try_catch, Hm.
  destruct (outcome m) as [e|a]; [exact (Hh e) | reflexivity].
Qed.

Ltac silent_cases :=
  repeat match goal with
         | |- context [if ?b then _ else _] => destruct b
         | |- context [match ?x with _ => _ end] => destruct x
         end;
  reflexivity.

Lemma silent_parseInput (input : jsval) : silent (Decoder._parseInput input).
Proof.
  unfold Decoder._parseInput. apply silent_try_catch; [|reflexivity].
  destruct input as [| | b | n | s | b | fs]; try reflexivity.
  destruct (JS.contains_scheme s).
  - unfold DataParser.parseURL. apply silent_try_catch.
    + unfold silent. silent_cases.
    + intros e. unfold silent. silent_cases.
  - unfold DataParser.parseQueryString. apply silent_try_catch.
    + unfold silent. silent_cases.
    + intros e. unfold silent. silent_cases.
Qed.

Lemma silent_legacy_parseInput (input : jsval) : silent (LegacyDecoder._parseInput input).
Proof.
  unfold LegacyDecoder._parseInput. apply silent_try_catch; [|reflexivity].
  destruct input as [| | b | n | s | b | fs]; try reflexivity.
  destruct (JS.contains_scheme s).
  - unfold DataParser.parseURL. apply silent_try_catch.
    + unfold silent. silent_cases.
    + intros e. unfold silent. silent_cases.
  - unfold DataParser.parseQueryString. apply silent_try_catch.
    + unfold silent. silent_cases.
    + intros e. unfold silent. silent_cases.
Qed.

Lemma silent_getProfile (v : jsval) : silent (SDMConfig.getProfile v).
Proof. unfold silent, SDMConfig.getProfile. silent_cases. Qed.

Lemma silent_resolve_profile (r : SDMConfig.profile_ref) :
  silent (Encoder.resolve_profile r).
Proof.
  destruct r as [s | p | |]; try reflexivity.
  unfold Encoder.resolve_profile. apply silent_bind; [apply silent_getProfile|].
  reflexivity.
Qed.

Lemma silent_validateOperation (op : SDMConfig.operation) (r : SDMConfig.profile_ref)
  (data : jsval) :
  silent (SDMConfig.validateOperationWithProfile op r data).
Proof.
  unfold SDMConfig.validateOperationWithProfile. apply silent_bind.
  - destruct r as [s | p | |]; try reflexivity.
    apply silent_bind; [apply silent_getProfile | reflexivity].
  - intros [p|] _; [|reflexivity]. unfold silent. silent_cases.
Qed.

Lemma silent_own_hexToBuffer (v : jsval) (f : string) : silent (Decoder._hexToBuffer v f).
Proof.
  unfold Decoder._hexToBuffer. apply silent_try_catch.
  - unfold silent. silent_cases.
  - intros e. unfold silent. silent_cases.
Qed.

Lemma silent_hexToBuffer (lg : bool) (v : jsval) (f : string) :
  silent (DataParser.hexToBuffer lg v f).
Proof.
  unfold DataParser.hexToBuffer. apply silent_try_catch.
  - unfold silent. silent_cases.
  - intros e. unfold silent. silent_cases.
Qed.

Lemma silent_optional_enc (v : jsval) :
  silent (if truthy v
          then e <- Decoder._hexToBuffer v "ENC data" ;; ret (Some e)
          else ret None).
Proof.
  destruct (truthy v); [|reflexivity].
  apply silent_bind; [apply silent_own_hexToBuffer | reflexivity].
Qed.

(** Once the key buffer is cleared, [_performSecureDecryption] throws a
    [DecryptionError] before it reaches a primitive. *)
Lemma cleared_performSecureDecryption (this : DecoderState) (data : jsval)
  (p : SDMConfig.SDMProfile) (o : DecoderOptions) :
  cleared this = true ->
  silent (Decoder._performSecureDecryption this data p o) /\
  exists e, outcome (Decoder._performSecureDecryption this data p o) = inl e.
Proof.
  intros Hc. unfold Decoder._performSecureDecryption, Decoder.masterKeyBuffer_data.
  rewrite Hc. split.
  - apply silent_bind; [apply silent_own_hexToBuffer|]. intros piccData _.
    apply silent_bind; [apply silent_optional_enc|]. intros encData _.
    apply silent_bind; [apply silent_own_hexToBuffer|]. intros cmacData _.
    reflexivity.
  - rewrite outcome_bind.
    destruct (outcome (Decoder._hexToBuffer (JS.get data "picc") "PICC data"))
      as [e|piccData]; [eauto|].
    rewrite outcome_bind.
    match goal with
    | |- context [outcome ?m] => destruct (outcome m) as [e|encData]; [eauto|]
    end.
    rewrite outcome_bind.
    destruct (outcome (Decoder._hexToBuffer (JS.get data "cmac") "CMAC data"))
      as [e|cmacData]; [eauto|].
    cbn. eauto.
Qed.

(** A decoder whose key buffer is cleared reports a failure and reaches no
    primitive, once its [try] statement is entered. *)
Lemma cleared_decrypt (this : DecoderState) (input : jsval) (c : CustomOptions) :
  cleared this = true ->
  silent (Decoder.decrypt this input c) /\
  exists f, outcome (Decoder.decrypt this input c) = inr (Decoded.Failure f).
Proof.
  intros Hc. enter_decrypt. cbv zeta. split.
  - apply silent_try_catch; [|reflexivity].
    apply silent_bind; [apply silent_parseInput|]. intros data _.
    apply silent_bind; [apply silent_resolve_profile|]. intros profile _.
    apply silent_bind; [apply silent_validateOperation|]. intros _ _.
    destruct profile as [p|]; [|reflexivity].
    apply silent_bind; [|reflexivity].
    apply (cleared_performSecureDecryption this data p _ Hc).
  - rewrite outcome_try_catch.
    match goal with
    | |- context [match outcome ?m with _ => _ end] =>
        destruct (outcome m) as [e|r] eqn:E
    end; [cbn; eauto|].
    exfalso.
    apply bind_inr in E as (data & _ & E).
    apply bind_inr in E as (profile & _ & E).
    apply bind_inr in E as (_ & _ & E).
    destruct profile as [p|]; [|discriminate].
    apply bind_inr in E as (res & E & _).
    destruct (cleared_performSecureDecryption this data p (merge (options this) c) Hc)
      as [_ [e He]].
    congruence.
Qed.

End Silent.

(** After [destroy()] the decoder never decrypts again: whatever the
    input and the options are, [null] options and an input with a
    throwing [length] accessor included, [decrypt] returns no success
    and calls no derivation, cipher or CMAC primitive on the way; for a
    data input with an options object it returns a failure.  When the
    input itself is acceptable, the reported error is the cleared-buffer
    one. *)
Theorem destroyed_decoder_never_decrypts {C : Crypto}
  (this : DecoderState) (input : decrypt_input) (customOptions : decrypt_options) :
  silent (Decoder.decrypt (Decoder.destroy this) input customOptions) /\
  (forall r, outcome (Decoder.decrypt (Decoder.destroy this) input customOptions)
             <> inr (Decoded.Success r)) /\
  (forall (v : jsval) (c : CustomOptions),
     exists f, outcome (Decoder.decrypt (Decoder.destroy this) v c)
               = inr (Decoded.Failure f)) /\
  Decoder.destroy (Decoder.destroy this) = Decoder.destroy this /\
  (forall piccCipher cmacBytes pn prof (c : CustomOptions),
     piccCipher <> [] -> cmacBytes <> [] ->
     sdmProfile (merge (options this) c) = SDMConfig.PName pn ->
     SDMConfig.lookup pn SDMConfig.profiles = Some prof ->
     outcome (Decoder.decrypt (Decoder.destroy this)
                (picc_cmac_input piccCipher cmacBytes) c)
     = inr (Decoded.Failure
              (Decoded.mkFailure
                 "Zero vector decryption failed: Attempted to access cleared secure buffer"
                 (Some "DECRYPTION_ERROR") (Some "DecryptionError")))).
Proof.
  set (d := Decoder.destroy this).
  assert (Hc : cleared d = true) by reflexivity.
  assert (Hall : silent (Decoder.decrypt d input customOptions) /\
                 forall r, outcome (Decoder.decrypt d input customOptions)
                           <> inr (Decoded.Success r)).
  { destruct input as [v | thrown v]; [destruct customOptions as [c|]|].
    - destruct (cleared_decrypt d v c Hc) as [Hs [f Hf]].
      split; [exact Hs|]. intros r. rewrite Hf. discriminate.
    - split; [reflexivity | intros r; discriminate].
    - split; [reflexivity | intros r; discriminate]. }
  destruct Hall as [Hs Hn].
  split; [exact Hs|]. split; [exact Hn|].
  split; [intros v c; apply (cleared_decrypt d v c Hc)|].
  split; [reflexivity|].
  intros piccCipher cmacBytes pn prof c Hp Hm Hpn Hl.
  enter_decrypt. cbv zeta.
  change (options d) with (options this).
  rewrite outcome_try_catch, outcome_bind. cbn [Decoder._parseInput picc_cmac_input
    try_catch ret outcome snd].
  rewrite outcome_bind, Hpn, (resolve_predefined _ _ Hl). cbn [outcome ret snd].
  rewrite outcome_bind.
  fold (picc_cmac_input piccCipher cmacBytes).
  rewrite (validate_decrypt_ok prof _ _ Hp Hm). cbn [outcome ret snd].
  rewrite outcome_bind. unfold Decoder._performSecureDecryption, picc_cmac_input.
  cbn [JS.get JS.assoc String.eqb Ascii.eqb Bool.eqb truthy].
  rewrite !own_hexToBuffer_hex_upper by assumption.
  cbn [Eff.bind ret]. unfold Decoder.masterKeyBuffer_data. rewrite Hc.
  reflexivity.
Qed.

(* ------------------------------------------------------------------ *)
(** ** Inputs the decoders turn away before any primitive *)

Section UnusableInput.
Context {C : Crypto}.

Lemma silent_legacy_validateInput (data : jsval) :
  silent (LegacyDecoder._validateInput data).
Proof.
  unfold LegacyDecoder._validateInput, silent.
  destruct (negb (fst (DataParser.validateParsedData data))); reflexivity.
Qed.

Lemma silent_legacy_optional_enc (v : jsval) :
  silent (if truthy v
          then e <- DataParser.hexToBuffer true v "ENC data" ;; ret (Some e)
          else ret None).
Proof.
  destruct (truthy v); [|reflexivity].
  apply silent_bind; [apply silent_hexToBuffer | reflexivity].
Qed.

Lemma unusable_performSecureDecryption (this : DecoderState) (data : jsval)
  (p : SDMConfig.SDMProfile) (o : DecoderOptions) :
  ~ (even_hex_text (JS.get data "picc") /\ even_hex_text (JS.get data "cmac")) ->
  silent (Decoder._performSecureDecryption this data p o) /\
  forall r, outcome (Decoder._performSecureDecryption this data p o) <> inr r.
Proof.
  intros Hn. unfold Decoder._performSecureDecryption. split.
  - apply silent_bind; [apply silent_own_hexToBuffer|]. intros piccData Hp.
    apply silent_bind; [apply silent_optional_enc|]. intros encData _.
    apply silent_bind; [apply silent_own_hexToBuffer|]. intros cmacData Hm.
    exfalso. apply Hn. split.
    + apply (hexToBuffer_rejects false _ "PICC data" piccData). right. exact Hp.
    + apply (hexToBuffer_rejects false _ "CMAC data" cmacData). right. exact Hm.
  - intros r H.
    apply bind_inr in H as (piccData & Hp & H).
    apply bind_inr in H as (encData & _ & H).
    apply bind_inr in H as (cmacData & Hm & _).
    apply Hn. split.
    + apply (hexToBuffer_rejects false _ "PICC data" piccData). right. exact Hp.
    + apply (hexToBuffer_rejects false _ "CMAC data" cmacData). right. exact Hm.
Qed.

End UnusableInput.

(** Neither decoder reaches a derivation, cipher or CMAC primitive unless
    the parsed input has a [picc] and a [cmac] that are non-empty hex texts
    of even length: for every other data input the trace of primitive
    calls is empty and no success is returned, whatever the options are.
    With an options object both copies return a failure; with [null]
    options the newer copy throws before its [try]. *)
Theorem unusable_input_fails_silently {C : Crypto}
  (this : DecoderState) (input : jsval) (c : CustomOptions) (a : decrypt_options) :
  (forall data,
     outcome (Decoder._parseInput input) = inr data \/
     outcome (LegacyDecoder._parseInput input) = inr data ->
     ~ (even_hex_text (JS.get data "picc") /\ even_hex_text (JS.get data "cmac"))) ->
  silent (Decoder.decrypt this input a) /\
  (forall r, outcome (Decoder.decrypt this input a) <> inr (Decoded.Success r)) /\
  (exists f, outcome (Decoder.decrypt this input c) = inr (Decoded.Failure f)) /\
  silent (LegacyDecoder.decrypt this input c) /\
  (exists f, outcome (LegacyDecoder.decrypt this input c) = inr (Decoded.Failure f)).
Proof.
  intros Hn.
  assert (Hobj : forall c' : CustomOptions, silent (Decoder.decrypt this input c') /\
                   exists f, outcome (Decoder.decrypt this input c')
                             = inr (Decoded.Failure f)).
  { intros c'. enter_decrypt. cbv zeta. split.
    - apply silent_try_catch; [|reflexivity].
      apply silent_bind; [apply silent_parseInput|]. intros data Hd.
      apply silent_bind; [apply silent_resolve_profile|]. intros profile _.
      apply silent_bind; [apply silent_validateOperation|]. intros _ _.
      destruct profile as [p|]; [|reflexivity].
      apply silent_bind; [|reflexivity].
      apply unusable_performSecureDecryption. apply Hn. left. exact Hd.
    - rewrite outcome_try_catch.
      match goal with
      | |- context [match outcome ?m with _ => _ end] =>
          destruct (outcome m) as [e|r] eqn:E
      end; [cbn; eauto|].
      exfalso.
      apply bind_inr in E as (data & Hd & E).
      apply bind_inr in E as (profile & _ & E).
      apply bind_inr in E as (_ & _ & E).
      destruct profile as [p|]; [|discriminate].
      apply bind_inr in E as (res & E & _).
      revert E. apply unusable_performSecureDecryption. apply Hn. left. exact Hd. }
  split; [|split; [|split; [|split]]].
  - destruct a as [c'|]; [apply Hobj | reflexivity].
  - intros r. destruct a as [c'|]; [|discriminate].
    destruct (Hobj c') as [_ [f Hf]]. rewrite Hf. discriminate.
  - apply Hobj.
  - unfold LegacyDecoder.decrypt. cbv zeta.
    apply silent_try_catch; [|reflexivity].
    apply silent_bind; [apply silent_legacy_parseInput|]. intros data Hd.
    apply silent_bind.
    { destruct (strictValidation _); [apply silent_legacy_validateInput | reflexivity]. }
    intros _ _.
    apply silent_bind; [apply silent_hexToBuffer|]. intros piccData Hp.
    apply silent_bind; [apply silent_legacy_optional_enc|]. intros encData _.
    apply silent_bind; [apply silent_hexToBuffer|]. intros cmacData Hm.
    exfalso. apply (Hn data (or_intror Hd)). split.
    + apply (hexToBuffer_rejects true _ "PICC data" piccData). left. exact Hp.
    + apply (hexToBuffer_rejects true _ "CMAC data" cmacData). left. exact Hm.
  - unfold LegacyDecoder.decrypt. cbv zeta. rewrite outcome_try_catch.
    match goal with
    | |- context [match outcome ?m with _ => _ end] =>
        destruct (outcome m) as [e|r] eqn:E
    end; [cbn; eauto|].
    exfalso.
    apply bind_inr in E as (data & Hd & E).
    apply bind_inr in E as (_ & _ & E).
    apply bind_inr in E as (piccData & Hp & E).
    apply bind_inr in E as (encData & _ & E).
    apply bind_inr in E as (cmacData & Hm & _).
    apply (Hn data (or_intror Hd)). split.
    + apply (hexToBuffer_rejects true _ "PICC data" piccData). left. exact Hp.
    + apply (hexToBuffer_rejects true _ "CMAC data" cmacData). left. exact Hm.
Qed.

Lemma unusable_input_fails_silently_witness :
  silent (@Decoder.decrypt Toy.crypto Sample.decoder
            (VObj [("picc", VStr "C7Z"); ("cmac", VStr "00")]) OptionsNull) /\
  (forall r, outcome (@Decoder.decrypt Toy.crypto Sample.decoder
                        (VObj [("picc", VStr "C7Z"); ("cmac", VStr "00")]) OptionsNull)
             <> inr (Decoded.Success r)) /\
  (exists f, outcome (@Decoder.decrypt Toy.crypto Sample.decoder
                        (VObj [("picc", VStr "C7Z"); ("cmac", VStr "00")]) no_custom)
             = inr (Decoded.Failure f)) /\
  silent (@LegacyDecoder.decrypt Toy.crypto Sample.decoder
            (VObj [("picc", VStr "C7Z"); ("cmac", VStr "00")]) no_custom) /\
  (exists f, outcome (@LegacyDecoder.decrypt Toy.crypto Sample.decoder
                        (VObj [("picc", VStr "C7Z"); ("cmac", VStr "00")]) no_custom)
             = inr (Decoded.Failure f)).
Proof.
  apply (@unusable_input_fails_silently Toy.crypto Sample.decoder
           (VObj [("picc", VStr "C7Z"); ("cmac", VStr "00")]) no_custom OptionsNull).
  intros data [H | H]; vm_compute in H; injection H as <-;
    intros [(s & Es & Hh & _) _]; vm_compute in Es; injection Es as <-;
    vm_compute in Hh; discriminate Hh.
Defined.

(* ------------------------------------------------------------------ *)
(** ** Encoding under a resolved profile, then decoding *)

Section EncodeDecode.
Context {C : Crypto} (HC : CryptoSpec C).

(** [Encoder.encrypt] without file data, for any profile reference that
    resolves and any UID the conversion accepts. *)
Lemma encrypt_resolved_ok (mk : string) (uid : jsval) (num : jsnum)
  (options : EncryptOptions) (prof : SDMConfig.SDMProfile) (ub block : bytes) :
  valid_master_key mk -> counter_in_range num = true ->
  In (encrypt_method options) valid_methods ->
  Encoder.resolve_profile (encrypt_profile options VNull) = ret (Some prof) ->
  Encoder._validateAndConvertUID uid = ret ub ->
  Encoder._buildPiccData ub (Buf.writeUIntBE3 (int_value num)) prof = ret block ->
  exists sk,
    zero_vector_keys (encrypt_method options) (Buf.from_hex mk) = Some sk /\
    List.length (encKey sk) = 16%nat /\ List.length (macKey sk) = 16%nat /\
    let cipher := aes128_cbc_encrypt (encKey sk) AES.zeroIV block in
    outcome (Encoder.encrypt (VStr mk) uid (VNum num) VNull options) =
    inr (Encoded.mkResult
           (Encoded.mkOriginal (hex_upper ub) (int_value num) "[REDACTED]"
              (encrypt_method options) (Some (Encoder.profile_label prof)) None)
           (Encoded.mkEncrypted (hex_upper cipher)
              (hex_upper (firstn 8 (aesCmac (macKey sk) cipher))) None)
           (Some (Encoded.mkMetadata (Encoder.profile_label prof) false))).
Proof.
  intros Hmk Hn Hm Hres Hub Hblock.
  destruct (valid_master_key_facts mk Hmk) as (Ht & Hkl & Hcopy).
  destruct (convert_counter_ok num Hn) as [Hcb _].
  destruct (deriveKeys_ok HC _ _ Hm Hkl) as (sk & Hz & Hek & Hmkl & Hd & _).
  exists sk. repeat (split; [assumption|]).
  intros cipher.
  unfold Encoder.encrypt. fold (encrypt_method options).
  fold (encrypt_profile options VNull).
  destruct Hmk as [Hlen Hhex].
  rewrite outcome_try_catch, outcome_bind.
  rewrite Ht, Hlen, Hhex. cbn [negb orb Nat.eqb outcome ret snd].
  rewrite outcome_bind, Hub. cbn [outcome ret snd].
  rewrite outcome_bind, Hcb. cbn [outcome ret snd].
  rewrite outcome_bind, Hres. cbn [outcome ret snd].
  rewrite outcome_bind, validate_encrypt_ok by (left; reflexivity).
  cbn [outcome ret snd].
  rewrite outcome_bind, Hblock. cbn [outcome ret snd].
  rewrite outcome_bind, Hcopy, Hd.
  rewrite outcome_bind. unfold AES.cbcEncrypt at 1. rewrite Hek.
  cbn [Nat.eqb negb]. rewrite outcome_bind. cbn [outcome emit ret snd truthy].
  rewrite outcome_bind. cbn [outcome ret snd fst].
  rewrite outcome_bind. unfold CMAC.calculate. rewrite Hmkl.
  cbn [Nat.eqb negb]. rewrite outcome_bind. cbn [outcome emit ret snd].
  rewrite slice_first8 by (rewrite cmac_length; lia).
  unfold Encoder._counterToNumber. cbn [Buf.writeUIntBE3 List.length Nat.min firstn].
  fold (Buf.writeUIntBE3 (int_value num)).
  rewrite readUIntBE_writeUIntBE3 by (apply counter_in_range_bounds; exact Hn).
  reflexivity.
Qed.

(** Both constructors accept a valid key with options that
    [_validateOptions] lets through, and keep the key bytes. *)
Lemma new_decoder_validated (mk : string) (o : DecoderOptions) :
  valid_master_key mk -> _validateOptions o = None ->
  LegacyDecoder.new (VStr mk) o = ret (mkDecoder (Buf.from_hex mk) o false) /\
  Decoder.new (VStr mk) o = ret (mkDecoder (Buf.from_hex mk) o false).
Proof.
  intros Hmk Hv.
  destruct (valid_master_key_facts mk Hmk) as (Ht & Hkl & Hcopy).
  destruct Hmk as [Hlen Hhex].
  unfold LegacyDecoder.new, Decoder.new, Decoder._validateMasterKey.
  rewrite Ht, Hlen, Hhex. cbn [negb orb Nat.eqb Eff.bind ret try_catch].
  rewrite Hcopy, Hv. split; reflexivity.
Qed.

(** What both decoders answer on the encoder's PICC ciphertext together
    with any non-empty CMAC text. *)
Lemma decode_encoded (mk : string) (o : DecoderOptions)
  (prof : SDMConfig.SDMProfile) (sk : SessionKeys) (block cmacBytes : bytes) :
  valid_master_key mk -> In (keyDerivationMethod o) valid_methods ->
  Encoder.resolve_profile (sdmProfile o) = ret (Some prof) ->
  zero_vector_keys (keyDerivationMethod o) (Buf.from_hex mk) = Some sk ->
  cmacBytes <> [] ->
  let this := mkDecoder (Buf.from_hex mk) o false in
  let cipher := aes128_cbc_encrypt (encKey sk) AES.zeroIV block in
  exists info,
    (forall lg, DataParser.extractPiccData lg block (Some prof) = ret info) /\
    outcome (LegacyDecoder.decrypt this (picc_cmac_input cipher cmacBytes) no_custom) =
    inr (if _isValidDecryption block info
         then Decoded.Success
                (Decoded.mkPayload
                   (option_map_hex (uid info)) (readCounterInt info)
                   (match dataTag info with
                    | Some t => Some (byte_toString16 t)
                    | None => None
                    end)
                   None
                   (if validateCMAC o
                    then cmac_matches (macKey sk) cipher cmacBytes else true)
                   (keys_text sk) (hex_upper block) None info)
         else Decoded.Failure
                (Decoded.mkFailure invalid_structure_message None None)) /\
    outcome (Decoder.decrypt this (picc_cmac_input cipher cmacBytes) no_custom) =
    inr (if _isValidDecryption block info
         then Decoded.Success
                (Decoded.mkPayload
                   (option_map_hex (uid info)) (readCounterInt info)
                   (match dataTag info with
                    | Some t => Some (byte_toString16 t)
                    | None => None
                    end)
                   None
                   (if validateCMAC o
                    then cmac_matches (macKey sk) cipher cmacBytes else true)
                   (keys_text sk) (hex_upper block) None info)
         else Decoded.Failure
                (Decoded.mkFailure "Invalid decrypted data structure"
                   (Some "DECRYPTION_ERROR") (Some "DecryptionError"))).
Proof.
  intros Hmk Hm Hres Hz Hmne this cipher.
  destruct (valid_master_key_facts mk Hmk) as (_ & Hkl & _).
  assert (Hcl : List.length cipher = (16 * (List.length block / 16 + 1))%nat)
    by apply cbc_length.
  assert (Hcne : cipher <> []).
  { intros E. rewrite E in Hcl. cbn [List.length] in Hcl. lia. }
  assert (Hcmod : (List.length cipher mod 16 = 0)%nat).
  { rewrite Hcl, Nat.mul_comm. apply Nat.Div0.mod_mul. }
  destruct (zero_vector_keys_deriveKeys HC this _ sk Hkl Hm Hz) as (Hek & Hmac & Hdl & Hdc).
  assert (Hdec : aes128_cbc_decrypt (encKey sk) AES.zeroIV cipher = Some block).
  { apply cbc_roundtrip; [exact Hek | reflexivity]. }
  destruct (legacy_decrypt_picc this no_custom cipher cmacBytes block prof sk
              Hcne Hmne Hcmod Hres Hdl Hek Hmac Hdec) as (info1 & Hinfo1 & Hrl).
  destruct (decrypt_picc this no_custom cipher cmacBytes block prof sk
              eq_refl Hcne Hmne Hcmod Hres Hdc Hek Hmac Hdec) as (info2 & Hinfo2 & Hrc).
  assert (info2 = info1).
  { specialize (Hinfo1 true). specialize (Hinfo2 true). rewrite Hinfo1 in Hinfo2.
    injection Hinfo2 as <-. reflexivity. }
  subst info2.
  exists info1. split; [exact Hinfo1|]. split; [exact Hrl | exact Hrc].
Qed.

End EncodeDecode.


Section EncodeDecodeFacts.
Context {C : Crypto}.

Lemma block_well_formed (block ub : bytes) (info : PiccInfo) (iu ic : bool) (counter : Z) :
  dataTag info = Some xc7 -> 11 <= Buf.len block ->
  uid info = (if iu then Some ub else None) ->
  List.length ub = 7%nat -> hd x00 ub = x04 ->
  readCounterInt info
  = (if ic then Some (Buf.readUIntBE (Buf.writeUIntBE3 counter)) else None) ->
  0 <= counter <= 16777215 ->
  well_formed_picc block info.
Proof.
  intros Htag Hlen Hu Hubl Hub4 Hc Hn. unfold well_formed_picc.
  split; [exact Htag|]. split; [exact Hlen|]. rewrite Hu, Hc. split.
  - intros u Eu. destruct iu; [|discriminate].
    injection Eu as <-. destruct ub; [discriminate|]. cbn in Hub4. subst. reflexivity.
  - intros c Ec. destruct ic; [|discriminate].
    injection Ec as <-. rewrite readUIntBE_writeUIntBE3 by exact Hn. exact Hn.
Qed.

Lemma convert_uid_length (uid : jsval) (ub : bytes) :
  Encoder._validateAndConvertUID uid = ret ub -> List.length ub = 7%nat.
Proof.
  unfold Encoder._validateAndConvertUID.
  destruct uid as [| | b | n | s | b | fs]; try discriminate.
  - destruct (String.length s =? 14)%nat eqn:El; [|discriminate].
    destruct (Buf.hex_regex s) eqn:Eh; [|discriminate].
    cbn [negb]. intros [= <-]. apply Nat.eqb_eq in El.
    destruct (hex_upper_from_hex s (hex_regex_all_hex _ Eh)) as [_ Hlen].
    { rewrite El. reflexivity. }
    rewrite Hlen, El. reflexivity.
  - destruct (List.length b =? 7)%nat eqn:El; [|discriminate].
    cbn [negb]. intros [= <-]. apply Nat.eqb_eq in El. exact El.
Qed.

Lemma validateOptions_object (method : string) (p : SDMConfig.SDMProfile)
  (vc strict tp : bool) :
  In method valid_methods -> fst (SDMConfig.validateProfile (Some p)) = true ->
  _validateOptions (mkDecoderOptions method (SDMConfig.PObj p) vc strict tp) = None.
Proof.
  intros Hm Hv. unfold _validateOptions.
  cbn [keyDerivationMethod sdmProfile]. rewrite (existsb_In _ _ Hm), Hv. reflexivity.
Qed.

Lemma validateOptions_name (o : DecoderOptions) (pn : string)
  (prof : SDMConfig.SDMProfile) :
  In (keyDerivationMethod o) valid_methods -> sdmProfile o = SDMConfig.PName pn ->
  SDMConfig.lookup pn SDMConfig.profiles = Some prof ->
  _validateOptions o = None.
Proof.
  intros Hm Hp Hl. unfold _validateOptions. rewrite (existsb_In _ _ Hm), Hp.
  rewrite (existsb_In _ _ (lookup_available _ _ Hl)). reflexivity.
Qed.

Lemma firstn8_nonempty (key data : bytes) (HC : CryptoSpec C) :
  firstn 8 (aesCmac key data) <> [].
Proof.
  intros E.
  assert (Hl : List.length (firstn 8 (aesCmac key data)) = 8%nat).
  { rewrite length_firstn, cmac_length. reflexivity. }
  rewrite E in Hl. discriminate.
Qed.

End EncodeDecodeFacts.

(** Round trip under a custom profile object: for a profile that
    [validateProfile] accepts, with a 7-byte UID region and a 3-byte
    counter region at non-zero, different offsets, [Encoder.encrypt]
    succeeds, both constructors accept the profile, and decoding the
    emitted fields gives [success = true], [cmacValid = true] and the UID
    and counter the profile holds - provided [piccDataLength] is at least
    11.  With a shorter block both decoders report a failure although
    the profile was accepted. *)
Theorem custom_profile_round_trip {C : Crypto} (HC : CryptoSpec C)
  (masterKey : string) (uid : jsval) (counter : Z) (method : string)
  (p : SDMConfig.SDMProfile) (L : Z) (strict : bool) :
  valid_master_key masterKey -> valid_uid uid -> 0 <= counter <= 16777215 ->
  In method valid_methods ->
  fst (SDMConfig.validateProfile (Some p)) = true -> usable_layout p ->
  SDMConfig.piccDataLength p = Some L ->
  exists e dl dc rl rc,
    outcome (Encoder.encrypt (VStr masterKey) uid (VNum (NInt counter)) VNull
               (mkEncryptOptions (Some method) (Some (SDMConfig.PObj p)))) = inr e /\
    outcome (LegacyDecoder.new (VStr masterKey)
               (mkDecoderOptions method (SDMConfig.PObj p) true strict true)) = inr dl /\
    outcome (Decoder.new (VStr masterKey)
               (mkDecoderOptions method (SDMConfig.PObj p) true strict true)) = inr dc /\
    outcome (LegacyDecoder.decrypt dl (Encoded.to_input e) no_custom) = inr rl /\
    outcome (Decoder.decrypt dc (Encoded.to_input e) no_custom) = inr rc /\
    (11 <= L -> round_trip_result_for p uid counter rl /\
                round_trip_result_for p uid counter rc) /\
    (L < 11 -> Decoded.success rl = false /\ Decoded.success rc = false).
Proof.
  intros Hmk Huid Hn Hm Hv Hus HL.
  assert (Hr : counter_in_range (NInt counter) = true).
  { unfold counter_in_range. cbn [isInteger int_value andb].
    apply andb_true_iff. rewrite !Z.leb_le. exact Hn. }
  destruct (convert_uid_ok uid Huid) as (ub & Hub & _ & Hubl & Hub4 & Hubt).
  destruct (layout_block_facts p ub (Buf.writeUIntBE3 counter) Hv Hus Hubl eq_refl)
    as (block & info & Hlen & Hb & _ & Hex & Htag & Hu & _ & Hrci).
  set (eo := mkEncryptOptions (Some method) (Some (SDMConfig.PObj p))).
  set (o := mkDecoderOptions method (SDMConfig.PObj p) true strict true).
  destruct (encrypt_resolved_ok HC masterKey uid (NInt counter) eo p ub block
              Hmk Hr Hm eq_refl Hub Hb) as (sk & Hz & Hek & Hmac & Henc).
  cbn [int_value] in Henc. cbv zeta in Henc.
  set (cipher := aes128_cbc_encrypt (encKey sk) AES.zeroIV block) in *.
  set (mac8 := firstn 8 (aesCmac (macKey sk) cipher)) in *.
  destruct (new_decoder_validated masterKey o Hmk
              (validateOptions_object method p true strict true Hm Hv)) as [Hnl Hnc].
  destruct (decode_encoded HC masterKey o p sk block mac8 Hmk Hm eq_refl Hz
              (firstn8_nonempty _ _ HC)) as (info' & Hex' & Hrl & Hrc).
  assert (info' = info).
  { specialize (Hex true). specialize (Hex' true). rewrite Hex in Hex'.
    injection Hex' as <-. reflexivity. }
  subst info'. fold cipher in Hrl, Hrc.
  eexists. eexists. eexists. eexists. eexists.
  split; [exact Henc|]. split; [rewrite Hnl; reflexivity|].
  split; [rewrite Hnc; reflexivity|].
  cbn [Encoded.to_input Encoded.encrypted Encoded.picc Encoded.cmac Encoded.enc app].
  fold (picc_cmac_input cipher mac8).
  split; [exact Hrl|]. split; [exact Hrc|].
  rewrite HL in Hlen. injection Hlen as Hlen.
  split.
  - intros H11.
    assert (Hwf : well_formed_picc block info).
    { apply (block_well_formed block ub info (SDMConfig.includeUID p)
               (SDMConfig.includeCounter p) counter); try assumption. lia. }
    rewrite (proj2 (isValidDecryption_iff block info) Hwf).
    unfold round_trip_result_for.
    cbn [Decoded.success Decoded.get_cmacValid Decoded.get_uid Decoded.get_readCounter
         Decoded.cmacValid Decoded.uid Decoded.readCounter validateCMAC o].
    rewrite Hu, Hrci. unfold mac8. rewrite (cmac_matches_own HC).
    rewrite readUIntBE_writeUIntBE3 by exact Hn. rewrite <- Hubt.
    repeat split; destruct (SDMConfig.includeUID p); reflexivity.
  - intros H11.
    destruct (_isValidDecryption block info) eqn:Ev; [|split; reflexivity].
    apply isValidDecryption_iff in Ev. destruct Ev as (_ & Hge & _). lia.
Qed.

Lemma custom_profile_round_trip_witness :
  exists e dl dc rl rc,
    outcome (@Encoder.encrypt Toy.crypto (VStr Toy.sample_key) (VStr Toy.sample_uid)
               (VNum (NInt 42)) VNull
               (mkEncryptOptions (Some "ntag424Official")
                  (Some (SDMConfig.PObj
                           (SDMConfig.mkProfile (Some "wide") true true false (Some 32)
                              (Some 20) (Some 7) (Some 3) (Some 3) None))))) = inr e /\
    outcome (LegacyDecoder.new (VStr Toy.sample_key)
               (mkDecoderOptions "ntag424Official"
                  (SDMConfig.PObj
                     (SDMConfig.mkProfile (Some "wide") true true false (Some 32)
                        (Some 20) (Some 7) (Some 3) (Some 3) None)) true false true))
    = inr dl /\
    outcome (Decoder.new (VStr Toy.sample_key)
               (mkDecoderOptions "ntag424Official"
                  (SDMConfig.PObj
                     (SDMConfig.mkProfile (Some "wide") true true false (Some 32)
                        (Some 20) (Some 7) (Some 3) (Some 3) None)) true false true))
    = inr dc /\
    outcome (@LegacyDecoder.decrypt Toy.crypto dl (Encoded.to_input e) no_custom) = inr rl /\
    outcome (@Decoder.decrypt Toy.crypto dc (Encoded.to_input e) no_custom) = inr rc /\
    (11 <= 32 ->
     round_trip_result_for
       (SDMConfig.mkProfile (Some "wide") true true false (Some 32)
          (Some 20) (Some 7) (Some 3) (Some 3) None) (VStr Toy.sample_uid) 42 rl /\
     round_trip_result_for
       (SDMConfig.mkProfile (Some "wide") true true false (Some 32)
          (Some 20) (Some 7) (Some 3) (Some 3) None) (VStr Toy.sample_uid) 42 rc) /\
    (32 < 11 -> Decoded.success rl = false /\ Decoded.success rc = false).
Proof.
  apply (@custom_profile_round_trip Toy.crypto toy_spec Toy.sample_key
           (VStr Toy.sample_uid) 42 "ntag424Official"
           (SDMConfig.mkProfile (Some "wide") true true false (Some 32)
              (Some 20) (Some 7) (Some 3) (Some 3) None) 32 false).
  - split; reflexivity.
  - repeat split; reflexivity.
  - lia.
  - simpl. tauto.
  - reflexivity.
  - unfold usable_layout. simpl. repeat split.
    + exists 20. split; [reflexivity | lia].
    + exists 3. split; [reflexivity | lia].
    + intros _ _. discriminate.
  - reflexivity.
Defined.


(** The decoders accept a truncated CMAC: after [Encoder.encrypt] under a
    predefined profile, decoding the emitted PICC text together with any
    non-empty CMAC text succeeds, and [cmacValid] is [true] exactly when
    the supplied bytes are a prefix of the 16-byte AES-CMAC - so a single
    leading byte of the emitted CMAC verifies, and so do all 16 bytes
    although the encoder emits 8. *)
Theorem decoders_accept_cmac_prefixes {C : Crypto} (HC : CryptoSpec C)
  (masterKey : string) (uid : jsval) (counter : Z) (opts : EncryptOptions)
  (profileName : string) (prof : SDMConfig.SDMProfile) (strict : bool) :
  valid_master_key masterKey -> valid_uid uid -> 0 <= counter <= 16777215 ->
  In (encrypt_method opts) valid_methods ->
  encrypt_profile opts VNull = SDMConfig.PName profileName ->
  SDMConfig.lookup profileName SDMConfig.profiles = Some prof ->
  exists e dl dc mac,
    outcome (Encoder.encrypt (VStr masterKey) uid (VNum (NInt counter)) VNull opts)
    = inr e /\
    outcome (LegacyDecoder.new (VStr masterKey)
               (matching_options opts profileName strict)) = inr dl /\
    outcome (Decoder.new (VStr masterKey)
               (matching_options opts profileName strict)) = inr dc /\
    List.length mac = 16%nat /\
    Encoded.cmac (Encoded.encrypted e) = hex_upper (firstn 8 mac) /\
    forall cmacBytes, cmacBytes <> [] ->
      exists rl rc,
        outcome (LegacyDecoder.decrypt dl
                   (VObj [("picc", VStr (Encoded.picc (Encoded.encrypted e)));
                          ("cmac", VStr (hex_upper cmacBytes))]) no_custom)
        = inr (Decoded.Success rl) /\
        outcome (Decoder.decrypt dc
                   (VObj [("picc", VStr (Encoded.picc (Encoded.encrypted e)));
                          ("cmac", VStr (hex_upper cmacBytes))]) no_custom)
        = inr (Decoded.Success rc) /\
        (Decoded.cmacValid rl = true <-> is_prefix cmacBytes mac) /\
        (Decoded.cmacValid rc = true <-> is_prefix cmacBytes mac) /\
        (forall k, (1 <= k <= 16)%nat -> cmacBytes = firstn k mac ->
                   Decoded.cmacValid rl = true /\ Decoded.cmacValid rc = true).
Proof.
  intros Hmk Huid Hn Hm Hp Hl.
  assert (Hr : counter_in_range (NInt counter) = true).
  { unfold counter_in_range. cbn [isInteger int_value andb].
    apply andb_true_iff. rewrite !Z.leb_le. exact Hn. }
  destruct (encrypt_ok HC masterKey uid (NInt counter) opts profileName prof
              Hmk Huid Hr Hm Hp Hl)
    as (sk & ub & block & Hz & Hek & Hmac & Hub & Hblock & Henc).
  cbn [int_value] in *. cbv zeta in Henc.
  set (cipher := aes128_cbc_encrypt (encKey sk) AES.zeroIV block) in *.
  set (o := matching_options opts profileName strict).
  destruct (new_decoder_validated masterKey o Hmk
              (validateOptions_name o profileName prof Hm eq_refl Hl)) as [Hnl Hnc].
  destruct (convert_uid_ok uid Huid) as (ub' & Hub' & _ & Hubl & Hub4 & Hubt).
  assert (ub' = ub) by (rewrite Hub in Hub'; injection Hub' as <-; reflexivity).
  subst ub'.
  destruct (picc_block_ok profileName prof ub (Buf.writeUIntBE3 counter) Hl Hubl eq_refl)
    as (block' & info & Hblock' & _ & Hbl & Hinfo & Htag & Hiu & Hic & _).
  assert (block' = block) by (rewrite Hblock in Hblock'; injection Hblock' as <-; reflexivity).
  subst block'.
  assert (Hwf : well_formed_picc block info).
  { apply (block_well_formed block ub info (SDMConfig.includeUID prof)
             (SDMConfig.includeCounter prof) counter); try assumption.
    unfold Buf.len. rewrite Hbl. lia. }
  eexists. eexists. eexists. exists (aesCmac (macKey sk) cipher).
  split; [exact Henc|]. split; [rewrite Hnl; reflexivity|].
  split; [rewrite Hnc; reflexivity|].
  split; [apply cmac_length|]. split; [reflexivity|].
  intros cmacBytes Hne.
  destruct (decode_encoded HC masterKey o prof sk block cmacBytes Hmk Hm
              (resolve_predefined _ _ Hl) Hz Hne) as (info' & Hex' & Hrl & Hrc).
  assert (info' = info).
  { specialize (Hinfo true). specialize (Hex' true). rewrite Hinfo in Hex'.
    injection Hex' as <-. reflexivity. }
  subst info'. fold cipher in Hrl, Hrc.
  rewrite (proj2 (isValidDecryption_iff block info) Hwf) in Hrl, Hrc.
  cbn [Encoded.encrypted Encoded.picc].
  fold (picc_cmac_input cipher cmacBytes).
  eexists. eexists. split; [exact Hrl|]. split; [exact Hrc|].
  cbn [Decoded.cmacValid validateCMAC o matching_options].
  split; [apply cmac_matches_prefix|]. split; [apply cmac_matches_prefix|].
  intros k Hk ->.
  assert (Hp16 : is_prefix (firstn k (aesCmac (macKey sk) cipher))
                   (aesCmac (macKey sk) cipher)).
  { unfold is_prefix. rewrite length_firstn, cmac_length.
    rewrite Nat.min_l by lia. reflexivity. }
  split; apply cmac_matches_prefix; exact Hp16.
Qed.

Lemma decoders_accept_cmac_prefixes_witness :
  exists e dl dc mac,
    outcome (@Encoder.encrypt Toy.crypto (VStr Toy.sample_key) (VStr Toy.sample_uid)
               (VNum (NInt 42)) VNull (Sample.options_for "ntag424Official" "uidCounter"))
    = inr e /\
    outcome (LegacyDecoder.new (VStr Toy.sample_key)
               (matching_options (Sample.options_for "ntag424Official" "uidCounter")
                  "uidCounter" false)) = inr dl /\
    outcome (Decoder.new (VStr Toy.sample_key)
               (matching_options (Sample.options_for "ntag424Official" "uidCounter")
                  "uidCounter" false)) = inr dc /\
    List.length mac = 16%nat /\
    Encoded.cmac (Encoded.encrypted e) = hex_upper (firstn 8 mac) /\
    forall cmacBytes, cmacBytes <> [] ->
      exists rl rc,
        outcome (@LegacyDecoder.decrypt Toy.crypto dl
                   (VObj [("picc", VStr (Encoded.picc (Encoded.encrypted e)));
                          ("cmac", VStr (hex_upper cmacBytes))]) no_custom)
        = inr (Decoded.Success rl) /\
        outcome (@Decoder.decrypt Toy.crypto dc
                   (VObj [("picc", VStr (Encoded.picc (Encoded.encrypted e)));
                          ("cmac", VStr (hex_upper cmacBytes))]) no_custom)
        = inr (Decoded.Success rc) /\
        (Decoded.cmacValid rl = true <-> is_prefix cmacBytes mac) /\
        (Decoded.cmacValid rc = true <-> is_prefix cmacBytes mac) /\
        (forall k, (1 <= k <= 16)%nat -> cmacBytes = firstn k mac ->
                   Decoded.cmacValid rl = true /\ Decoded.cmacValid rc = true).
Proof.
  apply (@decoders_accept_cmac_prefixes Toy.crypto toy_spec Toy.sample_key
           (VStr Toy.sample_uid) 42 (Sample.options_for "ntag424Official" "uidCounter")
           "uidCounter" SDMConfig.uidCounter false).
  - split; reflexivity.
  - repeat split; reflexivity.
  - lia.
  - simpl. tauto.
  - reflexivity.
  - reflexivity.
Defined.

(** The encoder takes UIDs the decoders turn down: [Encoder.encrypt]
    accepts any 7-byte UID, but when the first byte is not [0x04] and the
    profile holds the UID, both decoders answer the encoder's own output
    with a structural failure. *)
Theorem foreign_uid_encodes_but_fails_to_decode {C : Crypto} (HC : CryptoSpec C)
  (masterKey : string) (uid : jsval) (ub : bytes) (counter : Z) (opts : EncryptOptions)
  (profileName : string) (prof : SDMConfig.SDMProfile) (strict : bool) :
  valid_master_key masterKey ->
  Encoder._validateAndConvertUID uid = ret ub -> hd x00 ub <> x04 ->
  0 <= counter <= 16777215 ->
  In (encrypt_method opts) valid_methods ->
  encrypt_profile opts VNull = SDMConfig.PName profileName ->
  SDMConfig.lookup profileName SDMConfig.profiles = Some prof ->
  SDMConfig.includeUID prof = true ->
  exists e dl dc,
    outcome (Encoder.encrypt (VStr masterKey) uid (VNum (NInt counter)) VNull opts)
    = inr e /\
    Encoded.uid (Encoded.original e) = hex_upper ub /\
    outcome (LegacyDecoder.new (VStr masterKey)
               (matching_options opts profileName strict)) = inr dl /\
    outcome (Decoder.new (VStr masterKey)
               (matching_options opts profileName strict)) = inr dc /\
    outcome (LegacyDecoder.decrypt dl (Encoded.to_input e) no_custom)
    = inr (Decoded.Failure (Decoded.mkFailure invalid_structure_message None None)) /\
    outcome (Decoder.decrypt dc (Encoded.to_input e) no_custom)
    = inr (Decoded.Failure
             (Decoded.mkFailure "Invalid decrypted data structure"
                (Some "DECRYPTION_ERROR") (Some "DecryptionError"))).
Proof.
  intros Hmk Hub H4 Hn Hm Hp Hl Hiu.
  assert (Hr : counter_in_range (NInt counter) = true).
  { unfold counter_in_range. cbn [isInteger int_value andb].
    apply andb_true_iff. rewrite !Z.leb_le. exact Hn. }
  pose proof (convert_uid_length uid ub Hub) as Hubl.
  destruct (picc_block_ok profileName prof ub (Buf.writeUIntBE3 counter) Hl Hubl eq_refl)
    as (block & info & Hblock & _ & Hbl & Hinfo & Htag & Hu & Hic & _).
  assert (Hres : Encoder.resolve_profile (encrypt_profile opts VNull) = ret (Some prof)).
  { rewrite Hp. apply resolve_predefined. exact Hl. }
  destruct (encrypt_resolved_ok HC masterKey uid (NInt counter) opts prof ub block
              Hmk Hr Hm Hres Hub Hblock) as (sk & Hz & Hek & Hmac & Henc).
  cbn [int_value] in Henc. cbv zeta in Henc.
  set (cipher := aes128_cbc_encrypt (encKey sk) AES.zeroIV block) in *.
  set (mac8 := firstn 8 (aesCmac (macKey sk) cipher)) in *.
  set (o := matching_options opts profileName strict).
  destruct (new_decoder_validated masterKey o Hmk
              (validateOptions_name o profileName prof Hm eq_refl Hl)) as [Hnl Hnc].
  destruct (decode_encoded HC masterKey o prof sk block mac8 Hmk Hm
              (resolve_predefined _ _ Hl) Hz (firstn8_nonempty _ _ HC))
    as (info' & Hex' & Hrl & Hrc).
  assert (info' = info).
  { specialize (Hinfo true). specialize (Hex' true). rewrite Hinfo in Hex'.
    injection Hex' as <-. reflexivity. }
  subst info'. fold cipher in Hrl, Hrc.
  assert (Hbad : _isValidDecryption block info = false).
  { destruct (_isValidDecryption block info) eqn:Ev; [|reflexivity].
    apply isValidDecryption_iff in Ev. destruct Ev as (_ & _ & Hu4 & _).
    rewrite Hu, Hiu in Hu4. specialize (Hu4 ub eq_refl).
    destruct ub as [|b0 rest]; [discriminate|]. cbn in Hu4, H4. congruence. }
  rewrite Hbad in Hrl, Hrc.
  eexists. eexists. eexists.
  split; [exact Henc|]. split; [reflexivity|].
  split; [rewrite Hnl; reflexivity|]. split; [rewrite Hnc; reflexivity|].
  cbn [Encoded.to_input Encoded.encrypted Encoded.picc Encoded.cmac Encoded.enc app].
  fold (picc_cmac_input cipher mac8).
  split; [exact Hrl | exact Hrc].
Qed.

Lemma foreign_uid_encodes_but_fails_to_decode_witness :
  exists e dl dc,
    outcome (@Encoder.encrypt Toy.crypto (VStr Toy.sample_key) (VStr "05AABBCCDDEE80")
               (VNum (NInt 42)) VNull (Sample.options_for "ntag424Official" "uidCounter"))
    = inr e /\
    Encoded.uid (Encoded.original e) = hex_upper (Buf.from_hex "05AABBCCDDEE80") /\
    outcome (LegacyDecoder.new (VStr Toy.sample_key)
               (matching_options (Sample.options_for "ntag424Official" "uidCounter")
                  "uidCounter" false)) = inr dl /\
    outcome (Decoder.new (VStr Toy.sample_key)
               (matching_options (Sample.options_for "ntag424Official" "uidCounter")
                  "uidCounter" false)) = inr dc /\
    outcome (@LegacyDecoder.decrypt Toy.crypto dl (Encoded.to_input e) no_custom)
    = inr (Decoded.Failure (Decoded.mkFailure invalid_structure_message None None)) /\
    outcome (@Decoder.decrypt Toy.crypto dc (Encoded.to_input e) no_custom)
    = inr (Decoded.Failure
             (Decoded.mkFailure "Invalid decrypted data structure"
                (Some "DECRYPTION_ERROR") (Some "DecryptionError"))).
Proof.
  apply (@foreign_uid_encodes_but_fails_to_decode Toy.crypto toy_spec Toy.sample_key
           (VStr "05AABBCCDDEE80") (Buf.from_hex "05AABBCCDDEE80") 42
           (Sample.options_for "ntag424Official" "uidCounter")
           "uidCounter" SDMConfig.uidCounter false).
  - split; reflexivity.
  - reflexivity.
  - simpl. discriminate.
  - lia.
  - simpl. tauto.
  - reflexivity.
  - reflexivity.
  - reflexivity.
Defined.


(* ------------------------------------------------------------------ *)
(** ** Options that do not change a successful result *)

Section DecoderOptionFacts.
Context {C : Crypto}.

Lemma even_hex_validates (v : jsval) :
  even_hex_text v -> truthy v = true /\ DataParser.validateHexString v = true.
Proof.
  intros (s & -> & Hh & _). unfold DataParser.validateHexString.
  rewrite (hex_regex_truthy s Hh). split; [reflexivity | exact Hh].
Qed.

(** Whatever the older decoder manages to convert also passes
    [validateParsedData]. *)
Lemma converted_fields_validate (data : jsval) (piccData cmacData : bytes)
  (encData : option bytes) :
  outcome (DataParser.hexToBuffer true (JS.get data "picc") "PICC data") = inr piccData ->
  outcome (if truthy (JS.get data "enc")
           then e <- DataParser.hexToBuffer true (JS.get data "enc") "ENC data" ;;
                ret (Some e)
           else ret None) = inr encData ->
  outcome (DataParser.hexToBuffer true (JS.get data "cmac") "CMAC data") = inr cmacData ->
  LegacyDecoder._validateInput data = ret tt.
Proof.
  intros Hp He Hc.
  destruct (even_hex_validates _
              (hexToBuffer_rejects true _ "PICC data" piccData (or_introl Hp)))
    as [Tp Vp].
  destruct (even_hex_validates _
              (hexToBuffer_rejects true _ "CMAC data" cmacData (or_introl Hc)))
    as [Tc Vc].
  unfold LegacyDecoder._validateInput, DataParser.validateParsedData.
  rewrite Tp, Tc, Vp, Vc. cbn [negb andb app].
  destruct (truthy (JS.get data "enc")) eqn:Te; [|reflexivity].
  apply bind_inr in He as (e & He & _).
  destruct (even_hex_validates _
              (hexToBuffer_rejects true _ "ENC data" e (or_introl He))) as [_ Ve].
  rewrite Ve. reflexivity.
Qed.

End DecoderOptionFacts.

(** [strictValidation] never changes what a decoder returns on success:
    the older decoder succeeds with the same result whether the option is
    on or off (whatever the added validation turns down, the hex
    conversion turns down as well), and the newer decoder does not read
    the option at all. *)
Theorem strictValidation_changes_no_success {C : Crypto}
  (this : DecoderState) (input : jsval) (c : CustomOptions) :
  (forall r,
     outcome (LegacyDecoder.decrypt this input (strict_as true c))
     = inr (Decoded.Success r) <->
     outcome (LegacyDecoder.decrypt this input (strict_as false c))
     = inr (Decoded.Success r)) /\
  Decoder.decrypt this input (strict_as true c)
  = Decoder.decrypt this input (strict_as false c).
Proof.
  split; [|reflexivity].
  intros r. unfold LegacyDecoder.decrypt. cbv zeta.
  rewrite !outcome_try_catch, !outcome_bind.
  destruct (outcome (LegacyDecoder._parseInput input)) as [e|data]; [reflexivity|].
  rewrite !outcome_bind.
  cbn [strictValidation merge strict_as override c_strictValidation].
  destruct (outcome (LegacyDecoder._validateInput data)) as [e|[]] eqn:Ev.
  - cbn [outcome ret snd]. split; [discriminate|]. intros H. exfalso.
    destruct (outcome (DataParser.hexToBuffer true (JS.get data "picc") "PICC data"))
      as [e'|piccData] eqn:Hp; [discriminate|].
    match type of H with
    | match outcome ?m with _ => _ end = _ => destruct (outcome m) as [e'|r'] eqn:E
    end; [discriminate|].
    apply bind_inr in E as (encData & He & E).
    apply bind_inr in E as (cmacData & Hc & _).
    rewrite (converted_fields_validate data piccData cmacData encData Hp He Hc) in Ev.
    discriminate.
  - cbn [outcome ret snd]. reflexivity.
Qed.


(** With [validateCMAC] off, every successful result of either decoder
    carries [cmacValid = true], whatever CMAC the input held: the flag
    reports that nothing was compared, not that the CMAC matched. *)
Theorem unchecked_cmac_is_reported_valid {C : Crypto}
  (this : DecoderState) (input : jsval) (c : CustomOptions) (r : Decoded.payload) :
  validateCMAC (merge (options this) c) = false ->
  outcome (LegacyDecoder.decrypt this input c) = inr (Decoded.Success r) \/
  outcome (Decoder.decrypt this input c) = inr (Decoded.Success r) ->
  Decoded.cmacValid r = true.
Proof.
  intros Hv [H | H].
  - unfold LegacyDecoder.decrypt in H. cbv zeta in H.
    apply try_catch_inr in H as [H | (e & _ & H)]; [|discriminate].
    apply bind_inr in H as (data & _ & H).
    apply bind_inr in H as (_ & _ & H).
    apply bind_inr in H as (piccData & _ & H).
    apply bind_inr in H as (encData & _ & H).
    apply bind_inr in H as (cmacData & _ & H).
    apply bind_inr in H as (sdmConfig & _ & H).
    apply bind_inr in H as (result & H & Hr).
    injection Hr as <-.
    unfold LegacyDecoder._performDecryption in H. cbv zeta in H.
    apply try_catch_inr in H as [H | (e & _ & H)]; [|discriminate].
    apply bind_inr in H as (sessionKeys & _ & H).
    apply bind_inr in H as (decryptedPicc & _ & H).
    apply bind_inr in H as (piccInfo & _ & H).
    apply bind_inr in H as (_ & _ & H).
    apply bind_inr in H as (decryptedEnc & _ & H).
    apply bind_inr in H as (cv & Hcv & H).
    rewrite Hv in Hcv. injection Hcv as <-. injection H as <-. reflexivity.
  - enter_decrypt_in H. cbv zeta in H.
    apply try_catch_inr in H as [H | (e & _ & H)]; [|discriminate].
    apply bind_inr in H as (data & _ & H).
    apply bind_inr in H as (profile & _ & H).
    apply bind_inr in H as (_ & _ & H).
    destruct profile as [p|]; [|discriminate].
    apply bind_inr in H as (result & H & Hr).
    injection Hr as <-.
    unfold Decoder._performSecureDecryption in H. cbv zeta in H.
    apply bind_inr in H as (piccData & _ & H).
    apply bind_inr in H as (encData & _ & H).
    apply bind_inr in H as (cmacData & _ & H).
    apply try_catch_inr in H as [H | (e & _ & H)];
      [|destruct (Err.instanceof e Err.DecryptionError); discriminate].
    apply bind_inr in H as (key & _ & H).
    apply bind_inr in H as (sessionKeys & _ & H).
    apply bind_inr in H as (decryptedPicc & _ & H).
    apply bind_inr in H as (piccInfo & _ & H).
    apply bind_inr in H as (_ & _ & H).
    apply bind_inr in H as (decryptedEnc & _ & H).
    apply bind_inr in H as (cv & Hcv & H).
    rewrite Hv in Hcv. injection Hcv as <-. injection H as <-. reflexivity.
Qed.

Lemma unchecked_cmac_is_reported_valid_witness :
  exists r,
    outcome (@Decoder.decrypt Toy.crypto Sample.decoder
               (picc_cmac_input Sample.picc Sample.wrong_cmac)
               (mkCustomOptions None None (Some false) None))
    = inr (Decoded.Success r) /\
    Decoded.cmacValid r = true.
Proof.
  eexists. split; [vm_compute; reflexivity|].
  apply (@unchecked_cmac_is_reported_valid Toy.crypto Sample.decoder
           (picc_cmac_input Sample.picc Sample.wrong_cmac)
           (mkCustomOptions None None (Some false) None)).
  - reflexivity.
  - right. vm_compute. reflexivity.
Defined.


Section LegacyEncode.
Context {C : Crypto} (HC : CryptoSpec C).

(** [LegacyEncoder.encrypt] without file data, for any profile reference
    that resolves and any UID the conversion accepts. *)
Lemma legacy_encrypt_resolved_ok (mk : string) (uid : jsval) (num : jsnum)
  (options : EncryptOptions) (prof : SDMConfig.SDMProfile) (ub block : bytes) :
  valid_master_key mk -> counter_in_range num = true ->
  In (encrypt_method options) valid_methods ->
  Encoder.resolve_profile (encrypt_profile options VNull) = ret (Some prof) ->
  LegacyEncoder._validateAndConvertUID uid = ret ub ->
  LegacyEncoder._buildPiccData ub (Buf.writeUIntBE3 (int_value num)) prof = ret block ->
  exists sk,
    zero_vector_keys (encrypt_method options) (Buf.from_hex mk) = Some sk /\
    let cipher := aes128_cbc_encrypt (encKey sk) AES.zeroIV block in
    outcome (LegacyEncoder.encrypt (VStr mk) uid (VNum num) VNull options) =
    inr (Encoded.mkResult
           (Encoded.mkOriginal (hex_upper ub) (int_value num) mk
              (encrypt_method options) None None)
           (Encoded.mkEncrypted (hex_upper cipher)
              (hex_upper (firstn 8 (aesCmac (macKey sk) cipher))) None)
           None).
Proof.
  intros Hmk Hn Hm Hres Hub Hblock.
  destruct (valid_master_key_facts mk Hmk) as (Ht & Hkl & Hcopy).
  destruct (convert_counter_ok num Hn) as [_ Hcb].
  destruct (deriveKeys_ok HC _ _ Hm Hkl) as (sk & Hz & Hek & Hmkl & _ & Hd & _).
  exists sk. split; [exact Hz|].
  intros cipher.
  unfold LegacyEncoder.encrypt. fold (encrypt_method options).
  fold (encrypt_profile options VNull).
  destruct Hmk as [Hlen Hhex].
  rewrite outcome_try_catch, outcome_bind.
  rewrite Ht, Hlen. cbn [negb orb Nat.eqb outcome ret snd].
  rewrite outcome_bind, Hub. cbn [outcome ret snd].
  rewrite outcome_bind, Hcb. cbn [outcome ret snd].
  rewrite outcome_bind, Hres. cbn [outcome ret snd].
  rewrite outcome_bind, Hblock. cbn [outcome ret snd].
  rewrite outcome_bind, Hd.
  rewrite outcome_bind. unfold AES.cbcEncrypt at 1. rewrite Hek.
  cbn [Nat.eqb negb]. rewrite outcome_bind. cbn [outcome emit ret snd truthy].
  rewrite outcome_bind. cbn [outcome ret snd fst].
  rewrite outcome_bind. unfold CMAC.calculate. rewrite Hmkl.
  cbn [Nat.eqb negb]. rewrite outcome_bind. cbn [outcome emit ret snd].
  rewrite slice_first8 by (rewrite cmac_length; lia).
  unfold LegacyEncoder._counterToNumber.
  cbn [Buf.writeUIntBE3 List.length Nat.min firstn].
  fold (Buf.writeUIntBE3 (int_value num)).
  rewrite readUIntBE_writeUIntBE3 by (apply counter_in_range_bounds; exact Hn).
  reflexivity.
Qed.

End LegacyEncode.

(** The two copies of the encoder are interchangeable on the wire:
    without file data and under a predefined profile, [Encoder.encrypt]
    and the older [encrypt] emit the same [picc] and [cmac] texts and
    report the same UID and counter, so the older encoder's output
    round-trips through both decoders as well. *)
Theorem both_encoders_emit_the_same_fields {C : Crypto} (HC : CryptoSpec C)
  (masterKey : string) (uid : jsval) (counter : Z) (opts : EncryptOptions)
  (profileName : string) (prof : SDMConfig.SDMProfile) (strict : bool) :
  valid_master_key masterKey -> valid_uid uid -> 0 <= counter <= 16777215 ->
  In (encrypt_method opts) valid_methods ->
  encrypt_profile opts VNull = SDMConfig.PName profileName ->
  SDMConfig.lookup profileName SDMConfig.profiles = Some prof ->
  exists e l dl dc rl rc,
    outcome (Encoder.encrypt (VStr masterKey) uid (VNum (NInt counter)) VNull opts)
    = inr e /\
    outcome (LegacyEncoder.encrypt (VStr masterKey) uid (VNum (NInt counter)) VNull opts)
    = inr l /\
    Encoded.encrypted l = Encoded.encrypted e /\
    Encoded.uid (Encoded.original l) = Encoded.uid (Encoded.original e) /\
    Encoded.scanCount (Encoded.original l) = Encoded.scanCount (Encoded.original e) /\
    outcome (LegacyDecoder.new (VStr masterKey)
               (matching_options opts profileName strict)) = inr dl /\
    outcome (Decoder.new (VStr masterKey)
               (matching_options opts profileName strict)) = inr dc /\
    outcome (LegacyDecoder.decrypt dl (Encoded.to_input l) no_custom) = inr rl /\
    outcome (Decoder.decrypt dc (Encoded.to_input l) no_custom) = inr rc /\
    round_trip_result_for prof uid counter rl /\
    round_trip_result_for prof uid counter rc.
Proof.
  intros Hmk Huid Hn Hm Hp Hl.
  assert (Hr : counter_in_range (NInt counter) = true).
  { unfold counter_in_range. cbn [isInteger int_value andb].
    apply andb_true_iff. rewrite !Z.leb_le. exact Hn. }
  destruct (round_trip_plain HC masterKey uid counter opts profileName prof strict
              Hmk Huid Hn Hm Hp Hl)
    as (e & dl & dc & rl & rc & He & Hdl & Hdc & Hrl & Hrc & Hl1 & Hl2).
  destruct (encrypt_ok HC masterKey uid (NInt counter) opts profileName prof
              Hmk Huid Hr Hm Hp Hl)
    as (sk & ub & block & Hz & _ & _ & Hub & Hblock & Henc).
  cbv zeta in Henc. rewrite He in Henc. injection Henc as ->.
  destruct (convert_uid_ok uid Huid) as (ub' & Hub' & Hubl' & Hlen & _ & Hubt).
  assert (ub' = ub) by (rewrite Hub in Hub'; injection Hub' as <-; reflexivity).
  subst ub'.
  destruct (picc_block_ok profileName prof ub (Buf.writeUIntBE3 counter) Hl Hlen eq_refl)
    as (block' & info & Hblock' & Hlblock & _).
  assert (block' = block).
  { cbn [int_value] in Hblock. rewrite Hblock in Hblock'. injection Hblock' as <-.
    reflexivity. }
  subst block'.
  assert (Hres : Encoder.resolve_profile (encrypt_profile opts VNull) = ret (Some prof)).
  { rewrite Hp. apply resolve_predefined. exact Hl. }
  destruct (legacy_encrypt_resolved_ok HC masterKey uid (NInt counter) opts prof ub block
              Hmk Hr Hm Hres Hubl' Hlblock) as (sk' & Hz' & Hlenc).
  assert (sk' = sk) by congruence. subst sk'. cbv zeta in Hlenc.
  exists (Encoded.mkResult
            (Encoded.mkOriginal (uid_text uid) (int_value (NInt counter)) "[REDACTED]"
               (encrypt_method opts) (Some profileName) None)
            (Encoded.mkEncrypted
               (hex_upper (aes128_cbc_encrypt (encKey sk) AES.zeroIV block))
               (hex_upper (firstn 8 (aesCmac (macKey sk)
                                       (aes128_cbc_encrypt (encKey sk) AES.zeroIV block))))
               None)
            (Some (Encoded.mkMetadata profileName false))).
  eexists. exists dl, dc, rl, rc.
  split; [exact He|]. split; [exact Hlenc|].
  split; [reflexivity|]. split; [exact Hubt|]. split; [reflexivity|].
  split; [exact Hdl|]. split; [exact Hdc|].
  split; [exact Hrl|]. split; [exact Hrc|]. split; assumption.
Qed.

Lemma both_encoders_emit_the_same_fields_witness :
  exists e l dl dc rl rc,
    outcome (@Encoder.encrypt Toy.crypto (VStr Toy.sample_key) (VStr Toy.sample_uid)
               (VNum (NInt 42)) VNull (Sample.options_for "hkdf" "counterOnly"))
    = inr e /\
    outcome (@LegacyEncoder.encrypt Toy.crypto (VStr Toy.sample_key)
               (VStr Toy.sample_uid) (VNum (NInt 42)) VNull
               (Sample.options_for "hkdf" "counterOnly"))
    = inr l /\
    Encoded.encrypted l = Encoded.encrypted e /\
    Encoded.uid (Encoded.original l) = Encoded.uid (Encoded.original e) /\
    Encoded.scanCount (Encoded.original l) = Encoded.scanCount (Encoded.original e) /\
    outcome (LegacyDecoder.new (VStr Toy.sample_key)
               (matching_options (Sample.options_for "hkdf" "counterOnly")
                  "counterOnly" true)) = inr dl /\
    outcome (Decoder.new (VStr Toy.sample_key)
               (matching_options (Sample.options_for "hkdf" "counterOnly")
                  "counterOnly" true)) = inr dc /\
    outcome (@LegacyDecoder.decrypt Toy.crypto dl (Encoded.to_input l) no_custom)
    = inr rl /\
    outcome (@Decoder.decrypt Toy.crypto dc (Encoded.to_input l) no_custom) = inr rc /\
    round_trip_result_for SDMConfig.counterOnly (VStr Toy.sample_uid) 42 rl /\
    round_trip_result_for SDMConfig.counterOnly (VStr Toy.sample_uid) 42 rc.
Proof.
  apply (@both_encoders_emit_the_same_fields Toy.crypto toy_spec Toy.sample_key
           (VStr Toy.sample_uid) 42 (Sample.options_for "hkdf" "counterOnly")
           "counterOnly" SDMConfig.counterOnly true).
  - split; reflexivity.
  - repeat split; reflexivity.
  - lia.
  - simpl. tauto.
  - reflexivity.
  - reflexivity.
Defined.


(* ------------------------------------------------------------------ *)
(** ** Custom profiles *)

(** [createCustomProfile]: whatever it returns passes [validateProfile]
    and is accepted as the [sdmProfile] option of both decoder
    constructors.  A number the caller supplies is never replaced by the
    default, so a [piccDataLength] below 1 - zero included - is an
    [SDMProfileError].  When the caller supplies no layout number at all,
    the call succeeds for every choice of name and flags and yields the
    16-byte layout with the UID at 1..7 and the counter at 8..10. *)
Theorem createCustomProfile_result_is_accepted (config : SDMConfig.ProfileConfig) :
  (forall p, outcome (SDMConfig.createCustomProfile config) = inr p ->
     fst (SDMConfig.validateProfile (Some p)) = true /\
     SDMConfig.piccDataLength p
     = Some (SDMConfig.spread (SDMConfig.cfg_piccDataLength config) 16) /\
     forall method vc strict tp,
       In method valid_methods ->
       _validateOptions (mkDecoderOptions method (SDMConfig.PObj p) vc strict tp) = None) /\
  (forall l, SDMConfig.cfg_piccDataLength config = Some l -> l < 1 ->
     exists e, outcome (SDMConfig.createCustomProfile config) = inl e /\
               Err.name e = Err.SDMProfileError) /\
  (SDMConfig.cfg_piccDataLength config = None ->
   SDMConfig.cfg_uidOffset config = None -> SDMConfig.cfg_uidLength config = None ->
   SDMConfig.cfg_counterOffset config = None ->
   SDMConfig.cfg_counterLength config = None ->
   SDMConfig.cfg_encFileDataLength config = None ->
   exists p,
     SDMConfig.createCustomProfile config = ret p /\
     usable_layout p /\
     SDMConfig.piccDataLength p = Some 16 /\
     SDMConfig.uidOffset p = Some 1 /\ SDMConfig.uidLength p = Some 7 /\
     SDMConfig.counterOffset p = Some 8 /\ SDMConfig.counterLength p = Some 3 /\
     SDMConfig.includeUID p = SDMConfig.spread (SDMConfig.cfg_includeUID config) false /\
     SDMConfig.includeCounter p
     = SDMConfig.spread (SDMConfig.cfg_includeCounter config) false).
Proof.
  split; [|split].
  - intros p H. unfold SDMConfig.createCustomProfile in H. cbv zeta in H.
    match type of H with
    | context [negb (fst (SDMConfig.validateProfile (Some ?q)))] =>
        destruct (fst (SDMConfig.validateProfile (Some q))) eqn:Ev
    end; [|discriminate].
    cbn [negb] in H. injection H as <-.
    split; [exact Ev|]. split; [reflexivity|].
    intros method vc strict tp Hm. apply validateOptions_object; assumption.
  - intros l Hl Hlt. unfold SDMConfig.createCustomProfile. cbv zeta.
    match goal with
    | |- context [negb (fst (SDMConfig.validateProfile (Some ?q)))] =>
        destruct (fst (SDMConfig.validateProfile (Some q))) eqn:Ev
    end; [|cbn; eauto].
    exfalso. revert Ev.
    unfold SDMConfig.validateProfile, SDMConfig.validateProfile_errors.
    cbn [fst SDMConfig.piccDataLength]. rewrite Hl. cbn [SDMConfig.spread].
    destruct (Z.ltb_spec l 1); [|lia].
    unfold Buf.len. cbn [app List.length]. intros Hz. apply Z.eqb_eq in Hz. lia.
  - destruct config as [nm iu ic ifd pl uo ul co cl efl].
    cbn [SDMConfig.cfg_piccDataLength SDMConfig.cfg_uidOffset SDMConfig.cfg_uidLength
         SDMConfig.cfg_counterOffset SDMConfig.cfg_counterLength
         SDMConfig.cfg_encFileDataLength SDMConfig.cfg_includeUID
         SDMConfig.cfg_includeCounter].
    intros -> -> -> -> -> ->.
    eexists. split.
    + destruct iu as [[|]|], ic as [[|]|], ifd as [[|]|]; reflexivity.
    + split.
      * unfold usable_layout.
        cbn [SDMConfig.includeUID SDMConfig.includeCounter SDMConfig.uidLength
             SDMConfig.uidOffset SDMConfig.counterLength SDMConfig.counterOffset
             SDMConfig.spread].
        split; [|split].
        -- intros _. split; [reflexivity|]. exists 1. split; [reflexivity | lia].
        -- intros _. split; [reflexivity|]. exists 8. split; [reflexivity | lia].
        -- intros _ _. discriminate.
      * repeat split.
Qed.


(* ------------------------------------------------------------------ *)
(** ** A layout that validates but is read where it was not written *)

Section ZeroOffset.

Lemma build_zero_offset (p : SDMConfig.SDMProfile) (L : Z) (ub cb : bytes) :
  SDMConfig.piccDataLength p = Some L -> 8 <= L ->
  SDMConfig.includeUID p = true -> SDMConfig.uidOffset p = Some 0 ->
  SDMConfig.uidLength p = Some 7 -> SDMConfig.includeCounter p = false ->
  List.length ub = 7%nat ->
  Encoder._buildPiccData ub cb p = ret (picc_block L (Some (1, ub)) None) /\
  LegacyEncoder._buildPiccData ub cb p = ret (picc_block L (Some (1, ub)) None).
Proof.
  destruct p as [nm iu ic ifd pl uo ul co cl efl].
  cbn [SDMConfig.piccDataLength SDMConfig.includeUID SDMConfig.includeCounter
       SDMConfig.uidOffset SDMConfig.uidLength].
  intros -> HL -> -> -> -> Hub.
  unfold Encoder._buildPiccData, LegacyEncoder._buildPiccData.
  cbn [SDMConfig.piccDataLength SDMConfig.includeUID SDMConfig.includeCounter
       SDMConfig.uidOffset SDMConfig.uidLength SDMConfig.counterOffset
       SDMConfig.counterLength].
  cbv zeta.
  rewrite (or_default_nonzero L 16) by lia.
  destruct (Z.ltb_spec L 0); [lia|].
  assert (Hlen0 : Buf.len (Buf.set (Buf.alloc L) 0 xc7) = L).
  { unfold Buf.len. rewrite length_set. apply len_alloc. lia. }
  assert (Hlu : Buf.len ub = 7) by (unfold Buf.len; rewrite Hub; reflexivity).
  unfold picc_block. cbv zeta.
  change (SDMConfig.or_default (Some 0) 1) with 1.
  change (SDMConfig.or_default (Some 7) 7) with 7.
  rewrite Hlu. change (Z.min 7 7) with 7. change (Z.to_nat 7) with 7%nat.
  cbn [Eff.bind ret]. rewrite Hlen0, Z.gtb_ltb.
  destruct (Z.ltb_spec L (1 + 7)); [lia|].
  cbn [Eff.bind ret app]. rewrite Hub. split; reflexivity.
Qed.

Lemma throw_at_length_7 (p : SDMConfig.SDMProfile) (ub cb : bytes) :
  SDMConfig.piccDataLength p = Some 7 ->
  SDMConfig.includeUID p = true -> SDMConfig.uidOffset p = Some 0 ->
  SDMConfig.uidLength p = Some 7 -> List.length ub = 7%nat ->
  Encoder._buildPiccData ub cb p
  = throw (Err.mkError Err.EncryptionError
             "PICC data building failed: UID data extends beyond PICC data length"
             "buildPiccData").
Proof.
  destruct p as [nm iu ic ifd pl uo ul co cl efl].
  cbn [SDMConfig.piccDataLength SDMConfig.includeUID SDMConfig.includeCounter
       SDMConfig.uidOffset SDMConfig.uidLength].
  intros -> -> -> -> Hub.
  destruct ub as [|u0 [|u1 [|u2 [|u3 [|u4 [|u5 [|u6 [|]]]]]]]]; try discriminate.
  reflexivity.
Qed.

End ZeroOffset.

(** [validateProfile] accepts [uidOffset = 0], but the encoders and the
    parser then disagree: the encoders fall back to offset 1 while
    [extractPiccData] reads from offset 0.  So for a validated profile
    with a 7-byte UID at offset 0 and no counter, the parsed UID is the
    tag byte [0xC7] followed by the first six UID bytes, and the block
    fails the decoders' structural check; and when [piccDataLength] is
    exactly 7 the encoder rejects the profile that was validated. *)
Theorem zero_uid_offset_is_misread (p : SDMConfig.SDMProfile) (L : Z) (ub cb : bytes) :
  fst (SDMConfig.validateProfile (Some p)) = true ->
  SDMConfig.piccDataLength p = Some L ->
  SDMConfig.includeUID p = true -> SDMConfig.uidOffset p = Some 0 ->
  SDMConfig.uidLength p = Some 7 -> SDMConfig.includeCounter p = false ->
  List.length ub = 7%nat ->
  7 <= L /\
  (L = 7 -> exists e, outcome (Encoder._buildPiccData ub cb p) = inl e /\
                      Err.name e = Err.EncryptionError) /\
  (8 <= L ->
   exists block info,
     Encoder._buildPiccData ub cb p = ret block /\
     LegacyEncoder._buildPiccData ub cb p = ret block /\
     (forall lg, DataParser.extractPiccData lg block (Some p) = ret info) /\
     uid info = Some (xc7 :: firstn 6 ub) /\
     _isValidDecryption block info = false).
Proof.
  intros Hv HL Hiu Huo Hul Hic Hub.
  assert (H7 : 7 <= L).
  { revert Hv. unfold SDMConfig.validateProfile, SDMConfig.validateProfile_errors.
    cbn [fst]. rewrite HL, Hiu, Huo, Hul.
    cbn [SDMConfig.add SDMConfig.gt2 Z.add]. rewrite Z.gtb_ltb.
    destruct (Z.ltb_spec L 7); [|lia].
    intros Hz. apply Z.eqb_eq in Hz. unfold Buf.len in Hz.
    rewrite !length_app in Hz. cbn [List.length] in Hz. lia. }
  split; [exact H7|]. split.
  - intros ->. eexists.
    rewrite (throw_at_length_7 p ub cb HL Hiu Huo Hul Hub). split; reflexivity.
  - intros H8.
    destruct (build_zero_offset p L ub cb HL H8 Hiu Huo Hul Hic Hub) as [Hb Hbl].
    destruct (picc_block_spec L (Some (1, ub)) None ltac:(lia)) as [Hlen Hnth].
    { intros uo ub' [= <- _]. lia. }
    { intros co cb' E. discriminate. }
    set (block := picc_block L (Some (1, ub)) None) in *. clearbody block.
    assert (Hu : firstn 7 block = xc7 :: firstn 6 ub).
    { apply (nth_ext _ _ x00 x00).
      - rewrite length_firstn. cbn [List.length]. rewrite length_firstn.
        unfold Buf.len in Hlen. lia.
      - intros k Hk. rewrite length_firstn in Hk.
        rewrite nth_firstn.
        destruct (Nat.ltb_spec k 7); [|lia].
        rewrite Hnth. change (Z.to_nat 1) with 1%nat.
        destruct k as [|k]; [reflexivity|].
        destruct (Nat.leb_spec 1 (S k)); [|lia].
        destruct (Nat.ltb_spec (S k) (1 + List.length ub)); [|lia].
        destruct (Nat.ltb_spec (S k) (Z.to_nat L)); [|lia].
        cbn [andb nth]. rewrite nth_firstn.
        destruct (Nat.ltb_spec k 6); [|lia].
        f_equal. lia. }
    exists block. eexists.
    split; [exact Hb|]. split; [exact Hbl|].
    split; [intros lg; unfold DataParser.extractPiccData; cbn [try_catch ret app];
            reflexivity|].
    assert (Hr : DataParser.region block (SDMConfig.uidOffset p) (SDMConfig.uidLength p)
                 = Some (xc7 :: firstn 6 ub)).
    { rewrite Huo, Hul. unfold DataParser.region. cbn [SDMConfig.add SDMConfig.ge Z.add].
      rewrite Hlen. destruct (Z.geb_spec L 7); [|lia].
      change 7 with (Z.of_nat 7). rewrite slice_0_firstn. rewrite Hu. reflexivity. }
    cbn [uid]. rewrite Hiu, Hr. split; [reflexivity|].
    match goal with
    | |- _isValidDecryption ?b ?i = false => destruct (_isValidDecryption b i) eqn:Ev
    end; [|reflexivity].
    apply isValidDecryption_iff in Ev. destruct Ev as (_ & _ & Hu4 & _).
    cbn [uid] in Hu4. rewrite ?Hiu, ?Hr in Hu4. specialize (Hu4 _ eq_refl).
    discriminate Hu4.
Qed.

Lemma zero_uid_offset_is_misread_witness :
  7 <= 16 /\
  (16 = 7 ->
   exists e,
     outcome (Encoder._buildPiccData (Buf.from_hex Toy.sample_uid) (Buf.writeUIntBE3 42)
                (SDMConfig.mkProfile (Some "front") true false false (Some 16) (Some 0)
                   (Some 7) None None None)) = inl e /\
     Err.name e = Err.EncryptionError) /\
  (8 <= 16 ->
   exists block info,
     Encoder._buildPiccData (Buf.from_hex Toy.sample_uid) (Buf.writeUIntBE3 42)
       (SDMConfig.mkProfile (Some "front") true false false (Some 16) (Some 0)
          (Some 7) None None None) = ret block /\
     LegacyEncoder._buildPiccData (Buf.from_hex Toy.sample_uid) (Buf.writeUIntBE3 42)
       (SDMConfig.mkProfile (Some "front") true false false (Some 16) (Some 0)
          (Some 7) None None None) = ret block /\
     (forall lg, DataParser.extractPiccData lg block
                   (Some (SDMConfig.mkProfile (Some "front") true false false (Some 16)
                            (Some 0) (Some 7) None None None)) = ret info) /\
     uid info = Some (xc7 :: firstn 6 (Buf.from_hex Toy.sample_uid)) /\
     _isValidDecryption block info = false).
Proof.
  apply (zero_uid_offset_is_misread
           (SDMConfig.mkProfile (Some "front") true false false (Some 16) (Some 0)
              (Some 7) None None None) 16
           (Buf.from_hex Toy.sample_uid) (Buf.writeUIntBE3 42)); reflexivity.
Defined.
